(** * KTX container reader and ETC2 / EAC block decoders

    A shallow embedding of [src/ballistica/base/graphics/texture/ktx.cc]
    and the properties its specification states about it.

    Conventions of the embedding:
    - C integers are [Z]; every narrowing conversion the source performs
      ([static_cast<uint8>], assignment to [signed char], 32-bit unsigned
      arithmetic) is written out as an explicit wrap ([u8], [s8], [u32]).
    - A pixel buffer is a byte store [mem] addressed by [Z]; a pointer is an
      address, so [&img[3]] is [img + 3] and aliasing is visible.
    - Loops are folds over the index range they run through, with the loop
      carried variables ([shift], [bit], [byte]) as explicit state.
    - Code that can throw returns in the [result] error monad. *)

From Stdlib Require Import ZArith List Lia Bool.
From Stdlib.Strings Require Import Byte.
From stdpp Require Import base option list gmap.

Local Open Scope Z_scope.

(** ** Machine integers *)

Module Int.

Definition u8 (x : Z) : Z := x mod 256.
Definition u32 (x : Z) : Z := x mod 4294967296.
(** conversion to [signed char] / [int]: two's complement wrap *)
Definition s8 (x : Z) : Z := (x + 128) mod 256 - 128.
Definition s32 (x : Z) : Z := (x + 2147483648) mod 4294967296 - 2147483648.

Definition INT_MAX : Z := 2147483647.
Definition INT_MIN : Z := -2147483648.
Definition UINT_MAX : Z := 4294967295.

(** a C condition: non-zero is true *)
Definition truthy (x : Z) : bool := negb (x =? 0).

End Int.
Export Int.

(** ** Loops *)

(** [range lo n] is [lo; lo+1; ...; lo+n-1]. *)
Definition range (lo : Z) (n : nat) : list Z :=
  map (fun k => lo + Z.of_nat k) (seq 0 n).

(** [for (i = lo; i < lo + n; i++) s = body i s] *)
Definition for_count {S : Type} (lo : Z) (n : nat) (body : Z -> S -> S) (s : S) : S :=
  fold_left (fun s i => body i s) (range lo n) s.

(** [for (i = lo; i < hi; i++) s = body i s] *)
Definition for_range {S : Type} (lo hi : Z) (body : Z -> S -> S) (s : S) : S :=
  for_count lo (Z.to_nat (hi - lo)) body s.

(** ** Macros to help with bit extraction/insertion (lines 318-333) *)

Definition SHIFT (size startpos : Z) : Z := startpos - size + 1.
Definition MASK (size startpos : Z) : Z :=
  Z.shiftl (Z.shiftl 2 (size - 1) - 1) (SHIFT size startpos).
Definition PUTBITS (dest data size startpos : Z) : Z :=
  u32 (Z.lor (Z.land dest (Z.lnot (MASK size startpos)))
             (Z.land (Z.shiftl data (SHIFT size startpos)) (MASK size startpos))).
Definition SHIFTHIGH (size startpos : Z) : Z := (startpos - 32) - size + 1.
Definition MASKHIGH (size startpos : Z) : Z :=
  Z.shiftl (Z.shiftl 1 size - 1) (SHIFTHIGH size startpos).
Definition PUTBITSHIGH (dest data size startpos : Z) : Z :=
  u32 (Z.lor (Z.land dest (Z.lnot (MASKHIGH size startpos)))
             (Z.land (Z.shiftl data (SHIFTHIGH size startpos)) (MASKHIGH size startpos))).
Definition GETBITS (source size startpos : Z) : Z :=
  Z.land (Z.shiftr source (startpos - size + 1)) (Z.shiftl 1 size - 1).
Definition GETBITSHIGH (source size startpos : Z) : Z :=
  Z.land (Z.shiftr source ((startpos - 32) - size + 1)) (Z.shiftl 1 size - 1).

Definition R_BITS59T : Z := 4.
Definition G_BITS59T : Z := 4.
Definition B_BITS59T : Z := 4.
Definition R_BITS58H : Z := 4.
Definition G_BITS58H : Z := 4.
Definition B_BITS58H : Z := 4.
Definition TABLE_BITS_59T : Z := 3.
Definition TABLE_BITS_58H : Z := 3.
Definition PATTERN_H : Z := 0.
Definition PATTERN_T : Z := 1.

Definition CLAMP (ll x ul : Z) : Z :=
  if x <? ll then ll else if x >? ul then ul else x.

(** ** Arrays *)

(** [a[i]] for a one-dimensional table, [a[i][j]] for a two-dimensional one *)
Definition get1 (t : list Z) (i : Z) : Z := nth (Z.to_nat i) t 0.
Definition get2 (t : list (list Z)) (i j : Z) : Z :=
  nth (Z.to_nat j) (nth (Z.to_nat i) t []) 0.
(** [a[i][j] = v] *)
Definition set2 (t : list (list Z)) (i j v : Z) : list (list Z) :=
  <[Z.to_nat i := <[Z.to_nat j := v]> (nth (Z.to_nat i) t [])]> t.

(** ** Global tables (lines 367-389) *)

Definition table59T : list Z := [3; 6; 11; 16; 23; 32; 41; 64].
Definition table58H : list Z := [3; 6; 11; 16; 23; 32; 41; 64].
Definition compressParams : list (list Z) :=
  [ [-8; -2; 2; 8];       [-8; -2; 2; 8];       [-17; -5; 5; 17];
    [-17; -5; 5; 17];     [-29; -9; 9; 29];     [-29; -9; 9; 29];
    [-42; -13; 13; 42];   [-42; -13; 13; 42];   [-60; -18; 18; 60];
    [-60; -18; 18; 60];   [-80; -24; 24; 80];   [-80; -24; 24; 80];
    [-106; -33; 33; 106]; [-106; -33; 33; 106]; [-183; -47; 47; 183];
    [-183; -47; 47; 183] ].
Definition unscramble : list Z := [2; 3; 1; 0].
Definition alphaBase : list (list Z) :=
  [ [-15; -9; -6; -3]; [-13; -10; -7; -3]; [-13; -8; -5; -2]; [-13; -6; -4; -2];
    [-12; -8; -6; -3]; [-11; -9; -7; -3];  [-11; -8; -7; -4]; [-11; -8; -5; -3];
    [-10; -8; -6; -2]; [-10; -8; -5; -2];  [-10; -8; -4; -2]; [-10; -7; -5; -2];
    [-10; -7; -4; -3]; [-10; -3; -2; -1];  [-9; -8; -6; -4];  [-9; -7; -5; -3] ].

(** The two process-wide variables [alphaTableInitialized] and
    [alphaTable[256][8]]. *)
Record alpha_globals : Type := AlphaGlobals {
  alphaTableInitialized : Z;
  alphaTable : list (list Z)
}.

(** Objects with static storage duration are zero-initialised. *)
Definition alpha_globals_init : alpha_globals :=
  {| alphaTableInitialized := 0; alphaTable := replicate 256 (replicate 8 0) |}.

(** ** setupAlphaTable (lines 397-425) *)

Definition setupAlphaTable (g : alpha_globals) : alpha_globals :=
  if truthy (alphaTableInitialized g) then g
  else
    let t := alphaTable g in
    (* read table used for alpha compression *)
    let t :=
      for_range 16 32 (fun i t =>
        for_range 0 8 (fun j t =>
          let buf := get2 alphaBase (i - 16) (3 - Z.rem j 4) in
          if j <? 4 then set2 t i j buf else set2 t i j (- buf - 1)) t) t in
    (* fill remaining slots in table with multiples of the first ones *)
    let t :=
      for_range 0 256 (fun i t =>
        let mul := Z.quot i 16 in
        let old := 16 + Z.rem i 16 in
        for_range 0 8 (fun j t => set2 t i j (get2 t old j * mul)) t) t in
    {| alphaTableInitialized := 1; alphaTable := t |}.

(** The 16 seed rows as the specification words them: entry [j] of row [k]
    is [alphaBase[k][3-j]] for [j < 4] and the negation minus one of the
    mirrored entry [alphaBase[k][3-(j-4)]] for [j >= 4]. *)
Definition seed (k j : Z) : Z :=
  if j <? 4 then get2 alphaBase k (3 - j)
  else - get2 alphaBase k (3 - (j - 4)) - 1.

(** An [int[256][8]] array. *)
Definition table_shape (t : list (list Z)) : Prop :=
  length t = 256%nat /\ Forall (fun row => length row = 8%nat) t.

Definition tabulate (f : nat -> nat -> Z) : list (list Z) :=
  map (fun i => map (fun j => f i j) (seq 0 8)) (seq 0 256).

(** The table every first call builds. *)
Definition built_table : list (list Z) :=
  Eval vm_compute in alphaTable (setupAlphaTable alpha_globals_init).

(** ** Pixel buffers *)

(** A byte store. [img[e]] for a pointer [img] is the cell at address
    [img + e]. *)
Definition mem : Type := Z -> Z.
Definition store (m : mem) (a v : Z) : mem :=
  fun a' => if a' =? a then v else m a'.

Definition R : Z := 0.
Definition G : Z := 1.
Definition B : Z := 2.
Definition BLOCKHEIGHT : Z := 4.
Definition BLOCKWIDTH : Z := 4.

(** The addresses behind the [RED_CHANNEL] ... [ALPHA_CHANNEL] macros. *)
Definition RED_CHANNEL (img width x y channels : Z) : Z :=
  img + (channels * (y * width + x) + 0).
Definition GREEN_CHANNEL (img width x y channels : Z) : Z :=
  img + (channels * (y * width + x) + 1).
Definition BLUE_CHANNEL (img width x y channels : Z) : Z :=
  img + (channels * (y * width + x) + 2).
Definition ALPHA_CHANNEL (img width x y channels : Z) : Z :=
  img + (channels * (y * width + x) + 3).

(** ** Unstuffing converters (lines 473-641) *)

Definition unstuff57bits (planar_word1 planar_word2 : Z) : Z * Z :=
  let RO := u8 (GETBITSHIGH planar_word1 6 62) in
  let GO1 := u8 (GETBITSHIGH planar_word1 1 56) in
  let GO2 := u8 (GETBITSHIGH planar_word1 6 54) in
  let BO1 := u8 (GETBITSHIGH planar_word1 1 48) in
  let BO2 := u8 (GETBITSHIGH planar_word1 2 44) in
  let BO3 := u8 (GETBITSHIGH planar_word1 3 41) in
  let RH1 := u8 (GETBITSHIGH planar_word1 5 38) in
  let RH2 := u8 (GETBITSHIGH planar_word1 1 32) in
  let GH := u8 (GETBITS planar_word2 7 31) in
  let BH := u8 (GETBITS planar_word2 6 24) in
  let RV := u8 (GETBITS planar_word2 6 18) in
  let GV := u8 (GETBITS planar_word2 7 12) in
  let BV := u8 (GETBITS planar_word2 6 5) in
  let planar57_word1 := 0 in
  let planar57_word2 := 0 in
  let planar57_word1 := PUTBITSHIGH planar57_word1 RO 6 63 in
  let planar57_word1 := PUTBITSHIGH planar57_word1 GO1 1 57 in
  let planar57_word1 := PUTBITSHIGH planar57_word1 GO2 6 56 in
  let planar57_word1 := PUTBITSHIGH planar57_word1 BO1 1 50 in
  let planar57_word1 := PUTBITSHIGH planar57_word1 BO2 2 49 in
  let planar57_word1 := PUTBITSHIGH planar57_word1 BO3 3 47 in
  let planar57_word1 := PUTBITSHIGH planar57_word1 RH1 5 44 in
  let planar57_word1 := PUTBITSHIGH planar57_word1 RH2 1 39 in
  let planar57_word1 := PUTBITSHIGH planar57_word1 GH 7 38 in
  let planar57_word2 := PUTBITS planar57_word2 BH 6 31 in
  let planar57_word2 := PUTBITS planar57_word2 RV 6 25 in
  let planar57_word2 := PUTBITS planar57_word2 GV 7 19 in
  let planar57_word2 := PUTBITS planar57_word2 BV 6 12 in
  (planar57_word1, planar57_word2).

Definition unstuff58bits (thumbH_word1 thumbH_word2 : Z) : Z * Z :=
  (* move parts *)
  let part0 := GETBITSHIGH thumbH_word1 7 62 in
  let part1 := GETBITSHIGH thumbH_word1 2 52 in
  let part2 := GETBITSHIGH thumbH_word1 16 49 in
  let part3 := GETBITSHIGH thumbH_word1 1 32 in
  let thumbH58_word1 := 0 in
  let thumbH58_word1 := PUTBITSHIGH thumbH58_word1 part0 7 57 in
  let thumbH58_word1 := PUTBITSHIGH thumbH58_word1 part1 2 50 in
  let thumbH58_word1 := PUTBITSHIGH thumbH58_word1 part2 16 48 in
  let thumbH58_word1 := PUTBITSHIGH thumbH58_word1 part3 1 32 in
  let thumbH58_word2 := thumbH_word2 in
  (thumbH58_word1, thumbH58_word2).

Definition unstuff59bits (thumbT_word1 thumbT_word2 : Z) : Z * Z :=
  (* Fix middle part *)
  let thumbT59_word1 := Z.shiftr thumbT_word1 1 in
  (* Fix db (lowest bit of d) *)
  let thumbT59_word1 := PUTBITSHIGH thumbT59_word1 thumbT_word1 1 32 in
  (* Fix R0a (top two bits of R0) *)
  let R0a := u8 (GETBITSHIGH thumbT_word1 2 60) in
  let thumbT59_word1 := PUTBITSHIGH thumbT59_word1 R0a 2 58 in
  (* Zero top part (not needed) *)
  let thumbT59_word1 := PUTBITSHIGH thumbT59_word1 0 5 63 in
  let thumbT59_word2 := thumbT_word2 in
  (thumbT59_word1, thumbT59_word2).

(** ** T-mode and H-mode (lines 646-896) *)

(** The color bits are expanded to the full color. *)
Definition decompressColor (R_B G_B B_B : Z) (colors_RGB444 : list (list Z))
  : list (list Z) :=
  let c := colors_RGB444 in
  [ [ u8 (Z.lor (Z.shiftl (get2 c 0 R) (8 - R_B)) (Z.shiftr (get2 c 0 R) (R_B - (8 - R_B))));
      u8 (Z.lor (Z.shiftl (get2 c 0 G) (8 - G_B)) (Z.shiftr (get2 c 0 G) (G_B - (8 - G_B))));
      u8 (Z.lor (Z.shiftl (get2 c 0 B) (8 - B_B)) (Z.shiftr (get2 c 0 B) (B_B - (8 - B_B)))) ];
    [ u8 (Z.lor (Z.shiftl (get2 c 1 R) (8 - R_B)) (Z.shiftr (get2 c 1 R) (R_B - (8 - R_B))));
      u8 (Z.lor (Z.shiftl (get2 c 1 G) (8 - G_B)) (Z.shiftr (get2 c 1 G) (G_B - (8 - G_B))));
      u8 (Z.lor (Z.shiftl (get2 c 1 B) (8 - B_B)) (Z.shiftr (get2 c 1 B) (B_B - (8 - B_B)))) ] ].

(** [None] is the [exit(1)] of the invalid-pattern branch. *)
Definition calculatePaintColors59T (d p : Z) (colors : list (list Z))
  : option (list (list Z)) :=
  (* C4 *)
  let c4 := [ u8 (CLAMP 0 (get2 colors 1 R - get1 table59T d) 255);
              u8 (CLAMP 0 (get2 colors 1 G - get1 table59T d) 255);
              u8 (CLAMP 0 (get2 colors 1 B - get1 table59T d) 255) ] in
  if p =? PATTERN_T then
    (* C3 *)
    let c3 := [ get2 colors 0 R; get2 colors 0 G; get2 colors 0 B ] in
    (* C2 *)
    let c2 := [ u8 (CLAMP 0 (get2 colors 1 R + get1 table59T d) 255);
                u8 (CLAMP 0 (get2 colors 1 G + get1 table59T d) 255);
                u8 (CLAMP 0 (get2 colors 1 B + get1 table59T d) 255) ] in
    (* C1 *)
    let c1 := [ get2 colors 1 R; get2 colors 1 G; get2 colors 1 B ] in
    Some [c3; c2; c1; c4]
  else None.

Definition calculatePaintColors58H (d p : Z) (colors : list (list Z))
  : option (list (list Z)) :=
  (* C4 *)
  let c4 := [ u8 (CLAMP 0 (get2 colors 1 R - get1 table58H d) 255);
              u8 (CLAMP 0 (get2 colors 1 G - get1 table58H d) 255);
              u8 (CLAMP 0 (get2 colors 1 B - get1 table58H d) 255) ] in
  if p =? PATTERN_H then
    (* C1 *)
    let c1 := [ u8 (CLAMP 0 (get2 colors 0 R + get1 table58H d) 255);
                u8 (CLAMP 0 (get2 colors 0 G + get1 table58H d) 255);
                u8 (CLAMP 0 (get2 colors 0 B + get1 table58H d) 255) ] in
    (* C2 *)
    let c2 := [ u8 (CLAMP 0 (get2 colors 0 R - get1 table58H d) 255);
                u8 (CLAMP 0 (get2 colors 0 G - get1 table58H d) 255);
                u8 (CLAMP 0 (get2 colors 0 B - get1 table58H d) 255) ] in
    (* C3 *)
    let c3 := [ u8 (CLAMP 0 (get2 colors 1 R + get1 table58H d) 255);
                u8 (CLAMP 0 (get2 colors 1 G + get1 table58H d) 255);
                u8 (CLAMP 0 (get2 colors 1 B + get1 table58H d) 255) ] in
    Some [c1; c2; c3; c4]
  else None.

(** The texel mask of the T and H decoders: [block_mask[x][y]]. *)
Definition block_mask_at (block_part2 x y : Z) : Z :=
  let block_mask := u8 (Z.shiftl (GETBITS block_part2 1 ((y + x * 4) + 16)) 1) in
  u8 (Z.lor block_mask (GETBITS block_part2 1 (y + x * 4))).

(** Choose one of the four paint colors for each texel: the loop nest that
    ends [decompressBlockTHUMB59Tc] and [decompressBlockTHUMB58Hc]. *)
Definition thumb_paint (paint_colors : list (list Z))
    (block_part2 img width startx starty channels : Z) (m : mem) : mem :=
  for_range 0 BLOCKWIDTH (fun x m =>
    for_range 0 BLOCKHEIGHT (fun y m =>
      let block_mask := block_mask_at block_part2 x y in
      let m := store m (img + (channels * ((starty + y) * width + startx + x) + R))
                 (u8 (CLAMP 0 (get2 paint_colors block_mask R) 255)) in
      let m := store m (img + (channels * ((starty + y) * width + startx + x) + G))
                 (u8 (CLAMP 0 (get2 paint_colors block_mask G) 255)) in
      let m := store m (img + (channels * ((starty + y) * width + startx + x) + B))
                 (u8 (CLAMP 0 (get2 paint_colors block_mask B) 255)) in
      m) m) m.

Definition decompressBlockTHUMB59Tc
    (block_part1 block_part2 img width height startx starty channels : Z)
    (m : mem) : option mem :=
  (* First decode left part of block. *)
  let colorsRGB444 :=
    [ [ u8 (GETBITSHIGH block_part1 4 58); u8 (GETBITSHIGH block_part1 4 54);
        u8 (GETBITSHIGH block_part1 4 50) ];
      [ u8 (GETBITSHIGH block_part1 4 46); u8 (GETBITSHIGH block_part1 4 42);
        u8 (GETBITSHIGH block_part1 4 38) ] ] in
  let distance := u8 (GETBITSHIGH block_part1 TABLE_BITS_59T 34) in
  (* Extend the two colors to RGB888 *)
  let colors := decompressColor R_BITS59T G_BITS59T B_BITS59T colorsRGB444 in
  match calculatePaintColors59T distance PATTERN_T colors with
  | None => None
  | Some paint_colors =>
      Some (thumb_paint paint_colors block_part2 img width startx starty channels m)
  end.

(** The distance index of an H-mode block: the assignments to [distance]
    in [decompressBlockTHUMB58Hc], lines 857-865. *)
Definition distance58H (block_part1 : Z) : Z :=
  let distance := 0 in
  let distance := u8 (Z.shiftl (GETBITSHIGH block_part1 2 33) 1) in
  let col0 := GETBITSHIGH block_part1 12 57 in
  let col1 := GETBITSHIGH block_part1 12 45 in
  if col0 >=? col1 then u8 (Z.lor distance 1) else distance.

Definition decompressBlockTHUMB58Hc
    (block_part1 block_part2 img width height startx starty channels : Z)
    (m : mem) : option mem :=
  (* First decode left part of block. *)
  let colorsRGB444 :=
    [ [ u8 (GETBITSHIGH block_part1 4 57); u8 (GETBITSHIGH block_part1 4 53);
        u8 (GETBITSHIGH block_part1 4 49) ];
      [ u8 (GETBITSHIGH block_part1 4 45); u8 (GETBITSHIGH block_part1 4 41);
        u8 (GETBITSHIGH block_part1 4 37) ] ] in
  let distance := distance58H block_part1 in
  (* Extend the two colors to RGB888 *)
  let colors := decompressColor R_BITS58H G_BITS58H B_BITS58H colorsRGB444 in
  match calculatePaintColors58H distance PATTERN_H colors with
  | None => None
  | Some paint_colors =>
      Some (thumb_paint paint_colors block_part2 img width startx starty channels m)
  end.

(** ** Planar mode (lines 901-974) *)

Definition decompressBlockPlanar57c
    (compressed57_1 compressed57_2 img width height startx starty channels : Z)
    (m : mem) : mem :=
  let colorO0 := u8 (GETBITSHIGH compressed57_1 6 63) in
  let colorO1 := u8 (GETBITSHIGH compressed57_1 7 57) in
  let colorO2 := u8 (GETBITSHIGH compressed57_1 6 50) in
  let colorH0 := u8 (GETBITSHIGH compressed57_1 6 44) in
  let colorH1 := u8 (GETBITSHIGH compressed57_1 7 38) in
  let colorH2 := u8 (GETBITS compressed57_2 6 31) in
  let colorV0 := u8 (GETBITS compressed57_2 6 25) in
  let colorV1 := u8 (GETBITS compressed57_2 7 19) in
  let colorV2 := u8 (GETBITS compressed57_2 6 12) in
  let colorO0 := u8 (Z.lor (Z.shiftl colorO0 2) (Z.shiftr colorO0 4)) in
  let colorO1 := u8 (Z.lor (Z.shiftl colorO1 1) (Z.shiftr colorO1 6)) in
  let colorO2 := u8 (Z.lor (Z.shiftl colorO2 2) (Z.shiftr colorO2 4)) in
  let colorH0 := u8 (Z.lor (Z.shiftl colorH0 2) (Z.shiftr colorH0 4)) in
  let colorH1 := u8 (Z.lor (Z.shiftl colorH1 1) (Z.shiftr colorH1 6)) in
  let colorH2 := u8 (Z.lor (Z.shiftl colorH2 2) (Z.shiftr colorH2 4)) in
  let colorV0 := u8 (Z.lor (Z.shiftl colorV0 2) (Z.shiftr colorV0 4)) in
  let colorV1 := u8 (Z.lor (Z.shiftl colorV1 1) (Z.shiftr colorV1 6)) in
  let colorV2 := u8 (Z.lor (Z.shiftl colorV2 2) (Z.shiftr colorV2 4)) in
  for_range 0 4 (fun xx m =>
    for_range 0 4 (fun yy m =>
      let m := store m (img + (channels * width * (starty + yy) + channels * (startx + xx) + 0))
                 (u8 (CLAMP 0 (Z.shiftr (xx * (colorH0 - colorO0) + yy * (colorV0 - colorO0)
                                         + 4 * colorO0 + 2) 2) 255)) in
      let m := store m (img + (channels * width * (starty + yy) + channels * (startx + xx) + 1))
                 (u8 (CLAMP 0 (Z.shiftr (xx * (colorH1 - colorO1) + yy * (colorV1 - colorO1)
                                         + 4 * colorO1 + 2) 2) 255)) in
      let m := store m (img + (channels * width * (starty + yy) + channels * (startx + xx) + 2))
                 (u8 (CLAMP 0 (Z.shiftr (xx * (colorH2 - colorO2) + yy * (colorV2 - colorO2)
                                         + 4 * colorO2 + 2) 2) 255)) in
      m) m) m.

(** ** Individual and differential mode (lines 978-1258) *)

(** Sign extension of a 3-bit field held in a [signed char]:
    [diff = diff << 5; diff = diff >> 5]. *)
Definition extend_sign (diff : Z) : Z :=
  let diff := s8 (Z.shiftl diff 5) in
  s8 (Z.shiftr diff 5).

(** The body of the eight texel loops of [decompressBlockDiffFlipC]; the
    loop state is the image and [shift]. *)
Definition diffflip_texel (avg_color : list Z)
    (table pixel_indices_MSB pixel_indices_LSB img width channels x y : Z)
    (st : mem * Z) : mem * Z :=
  let m := fst st in
  let shift := snd st in
  let index := Z.shiftl (Z.land (Z.shiftr pixel_indices_MSB shift) 1) 1 in
  let index := Z.lor index (Z.land (Z.shiftr pixel_indices_LSB shift) 1) in
  let shift := shift + 1 in
  let index := get1 unscramble index in
  let m := store m (RED_CHANNEL img width x y channels)
             (u8 (CLAMP 0 (get1 avg_color 0 + get2 compressParams table index) 255)) in
  let m := store m (GREEN_CHANNEL img width x y channels)
             (u8 (CLAMP 0 (get1 avg_color 1 + get2 compressParams table index) 255)) in
  let m := store m (BLUE_CHANNEL img width x y channels)
             (u8 (CLAMP 0 (get1 avg_color 2 + get2 compressParams table index) 255)) in
  (m, shift).

(** The first group of loops ([shift = 0]): columns 0-1 when not flipped,
    rows 0-1 when flipped. *)
Definition diffflip_first (flipbit : Z) (avg_color : list Z)
    (table MSB LSB img width startx starty channels : Z) (m : mem) : mem :=
  if flipbit =? 0 then
    (* We should not flip *)
    fst (for_count startx 2 (fun x st =>
           for_count starty 4 (fun y st =>
             diffflip_texel avg_color table MSB LSB img width channels x y st) st)
         (m, 0))
  else
    (* We should flip *)
    fst (for_count startx 4 (fun x st =>
           let st := for_count starty 2 (fun y st =>
                       diffflip_texel avg_color table MSB LSB img width channels x y st) st in
           (fst st, snd st + 2))
         (m, 0)).

(** The second group of loops: columns 2-3 ([shift = 8]) when not flipped,
    rows 2-3 ([shift = 2]) when flipped. *)
Definition diffflip_second (flipbit : Z) (avg_color : list Z)
    (table MSB LSB img width startx starty channels : Z) (m : mem) : mem :=
  if flipbit =? 0 then
    (* We should not flip *)
    fst (for_count (startx + 2) 2 (fun x st =>
           for_count starty 4 (fun y st =>
             diffflip_texel avg_color table MSB LSB img width channels x y st) st)
         (m, 8))
  else
    (* We should flip *)
    fst (for_count startx 4 (fun x st =>
           let st := for_count (starty + 2) 2 (fun y st =>
                       diffflip_texel avg_color table MSB LSB img width channels x y st) st in
           (fst st, snd st + 2))
         (m, 2)).

Definition decompressBlockDiffFlipC
    (block_part1 block_part2 img width height startx starty channels : Z)
    (m : mem) : mem :=
  let diffbit := GETBITSHIGH block_part1 1 33 in
  let flipbit := GETBITSHIGH block_part1 1 32 in
  if negb (truthy diffbit) then
    (* We have diffbit = 0. *)
    (* First decode left part of block. *)
    let avg_color := [ u8 (GETBITSHIGH block_part1 4 63);
                       u8 (GETBITSHIGH block_part1 4 55);
                       u8 (GETBITSHIGH block_part1 4 47) ] in
    let avg_color := map (fun c => u8 (Z.lor c (Z.shiftl c 4))) avg_color in
    let table := Z.shiftl (GETBITSHIGH block_part1 3 39) 1 in
    let pixel_indices_MSB := GETBITS block_part2 16 31 in
    let pixel_indices_LSB := GETBITS block_part2 16 15 in
    let m := diffflip_first flipbit avg_color table pixel_indices_MSB pixel_indices_LSB
               img width startx starty channels m in
    (* Now decode other part of block. *)
    let avg_color := [ u8 (GETBITSHIGH block_part1 4 59);
                       u8 (GETBITSHIGH block_part1 4 51);
                       u8 (GETBITSHIGH block_part1 4 43) ] in
    let avg_color := map (fun c => u8 (Z.lor c (Z.shiftl c 4))) avg_color in
    let table := Z.shiftl (GETBITSHIGH block_part1 3 36) 1 in
    let pixel_indices_MSB := GETBITS block_part2 16 31 in
    let pixel_indices_LSB := GETBITS block_part2 16 15 in
    diffflip_second flipbit avg_color table pixel_indices_MSB pixel_indices_LSB
      img width startx starty channels m
  else
    (* We have diffbit = 1. *)
    (* First decode left part of block. *)
    let enc_color1 := [ u8 (GETBITSHIGH block_part1 5 63);
                        u8 (GETBITSHIGH block_part1 5 55);
                        u8 (GETBITSHIGH block_part1 5 47) ] in
    (* Expand from 5 to 8 bits *)
    let avg_color := map (fun c => u8 (Z.lor (Z.shiftl c 3) (Z.shiftr c 2))) enc_color1 in
    let table := Z.shiftl (GETBITSHIGH block_part1 3 39) 1 in
    let pixel_indices_MSB := GETBITS block_part2 16 31 in
    let pixel_indices_LSB := GETBITS block_part2 16 15 in
    let m := diffflip_first flipbit avg_color table pixel_indices_MSB pixel_indices_LSB
               img width startx starty channels m in
    (* Now decode right part of block. *)
    let diff := [ s8 (GETBITSHIGH block_part1 3 58);
                  s8 (GETBITSHIGH block_part1 3 50);
                  s8 (GETBITSHIGH block_part1 3 42) ] in
    (* Extend sign bit to entire byte. *)
    let diff := map extend_sign diff in
    (* Calculate second color *)
    let enc_color2 := [ u8 (get1 enc_color1 0 + get1 diff 0);
                        u8 (get1 enc_color1 1 + get1 diff 1);
                        u8 (get1 enc_color1 2 + get1 diff 2) ] in
    (* Expand from 5 to 8 bits *)
    let avg_color := map (fun c => u8 (Z.lor (Z.shiftl c 3) (Z.shiftr c 2))) enc_color2 in
    let table := Z.shiftl (GETBITSHIGH block_part1 3 36) 1 in
    let pixel_indices_MSB := GETBITS block_part2 16 31 in
    let pixel_indices_LSB := GETBITS block_part2 16 15 in
    diffflip_second flipbit avg_color table pixel_indices_MSB pixel_indices_LSB
      img width startx starty channels m.

Definition decompressBlockDiffFlip
    (block_part1 block_part2 img width height startx starty : Z) (m : mem) : mem :=
  decompressBlockDiffFlipC block_part1 block_part2 img width height startx starty 3 m.

(** ** The ETC2 RGB dispatcher (lines 1263-1329) *)

Inductive EncodingMode : Type :=
  | Individual | Differential | ModeT | ModeH | ModePlanar.

(** [red], [green], [blue] of the dispatchers: the second base color. *)
Definition second_base_color (block_part1 : Z) : list Z :=
  (* Base color *)
  let color1 := [ s8 (GETBITSHIGH block_part1 5 63);
                  s8 (GETBITSHIGH block_part1 5 55);
                  s8 (GETBITSHIGH block_part1 5 47) ] in
  (* Diff color *)
  let diff := [ s8 (GETBITSHIGH block_part1 3 58);
                s8 (GETBITSHIGH block_part1 3 50);
                s8 (GETBITSHIGH block_part1 3 42) ] in
  (* Extend sign bit to entire byte. *)
  let diff := map extend_sign diff in
  [ s8 (get1 color1 0 + get1 diff 0);
    s8 (get1 color1 1 + get1 diff 1);
    s8 (get1 color1 2 + get1 diff 2) ].

(** The branch [decompressBlockETC2c] takes: its [if]/[else if] chain with
    the decoder of each arm named instead of called. *)
Definition etc2_route (block_part1 : Z) : EncodingMode :=
  let diffbit := GETBITSHIGH block_part1 1 33 in
  if truthy diffbit then
    let red := get1 (second_base_color block_part1) 0 in
    let green := get1 (second_base_color block_part1) 1 in
    let blue := get1 (second_base_color block_part1) 2 in
    if (red <? 0) || (red >? 31) then ModeT
    else if (green <? 0) || (green >? 31) then ModeH
    else if (blue <? 0) || (blue >? 31) then ModePlanar
    else Differential
  else Individual.

(** [None] is a decoder that terminated the process instead of returning. *)
Definition decompressBlockETC2c
    (block_part1 block_part2 img width height startx starty channels : Z)
    (m : mem) : option mem :=
  match etc2_route block_part1 with
  | ModeT =>
      let '(block59_part1, block59_part2) := unstuff59bits block_part1 block_part2 in
      decompressBlockTHUMB59Tc block59_part1 block59_part2 img width height
        startx starty channels m
  | ModeH =>
      let '(block58_part1, block58_part2) := unstuff58bits block_part1 block_part2 in
      decompressBlockTHUMB58Hc block58_part1 block58_part2 img width height
        startx starty channels m
  | ModePlanar =>
      let '(block57_part1, block57_part2) := unstuff57bits block_part1 block_part2 in
      Some (decompressBlockPlanar57c block57_part1 block57_part2 img width height
              startx starty channels m)
  | Differential | Individual =>
      Some (decompressBlockDiffFlipC block_part1 block_part2 img width height
              startx starty channels m)
  end.

Definition decompressBlockETC2
    (block_part1 block_part2 img width height startx starty : Z) (m : mem)
  : option mem :=
  decompressBlockETC2c block_part1 block_part2 img width height startx starty 3 m.

(** ** Punch-through alpha (lines 1333-1829) *)

(** Where the alpha bytes go: a separate area for [channelsRGB == 3],
    otherwise interleaved with the colors, [alpha = &img[0 + 3]]. *)
Definition alpha_channels (channelsRGB : Z) : Z :=
  if channelsRGB =? 3 then 1 else 4.
Definition alpha_pointer (channelsRGB img alpha : Z) : Z :=
  if channelsRGB =? 3 then alpha else img + (0 + 3).

(** The body of the four texel loops of
    [decompressBlockDifferentialWithAlphaC]. *)
Definition diffalpha_texel (diffbit : Z) (avg_color : list Z)
    (table pixel_indices_MSB pixel_indices_LSB img alpha width channelsRGB channelsA x y : Z)
    (st : mem * Z) : mem * Z :=
  let m := fst st in
  let shift := snd st in
  let index := Z.shiftl (Z.land (Z.shiftr pixel_indices_MSB shift) 1) 1 in
  let index := Z.lor index (Z.land (Z.shiftr pixel_indices_LSB shift) 1) in
  let shift := shift + 1 in
  let index := get1 unscramble index in
  let mod_ := get2 compressParams table index in
  let mod_ := if (diffbit =? 0) && ((index =? 1) || (index =? 2)) then 0 else mod_ in
  let m := store m (RED_CHANNEL img width x y channelsRGB)
             (u8 (CLAMP 0 (get1 avg_color 0 + mod_) 255)) in
  let m := store m (GREEN_CHANNEL img width x y channelsRGB)
             (u8 (CLAMP 0 (get1 avg_color 1 + mod_) 255)) in
  let m := store m (BLUE_CHANNEL img width x y channelsRGB)
             (u8 (CLAMP 0 (get1 avg_color 2 + mod_) 255)) in
  let m :=
    if (diffbit =? 0) && (index =? 1) then
      let m := store m (alpha + (y * width + x) * channelsA) 0 in
      let m := store m (RED_CHANNEL img width x y channelsRGB) 0 in
      let m := store m (GREEN_CHANNEL img width x y channelsRGB) 0 in
      let m := store m (BLUE_CHANNEL img width x y channelsRGB) 0 in
      m
    else
      store m (alpha + (y * width + x) * channelsA) 255 in
  (m, shift).

(** The first group of loops ([shift = 0]). *)
Definition diffalpha_first (diffbit flipbit : Z) (avg_color : list Z)
    (table MSB LSB img alpha width startx starty channelsRGB channelsA : Z)
    (m : mem) : mem :=
  if flipbit =? 0 then
    (* We should not flip *)
    fst (for_count startx 2 (fun x st =>
           for_count starty 4 (fun y st =>
             diffalpha_texel diffbit avg_color table MSB LSB img alpha width
               channelsRGB channelsA x y st) st)
         (m, 0))
  else
    (* We should flip *)
    fst (for_count startx 4 (fun x st =>
           let st := for_count starty 2 (fun y st =>
                       diffalpha_texel diffbit avg_color table MSB LSB img alpha width
                         channelsRGB channelsA x y st) st in
           (fst st, snd st + 2))
         (m, 0)).

(** The second group of loops ([shift = 8], or [shift = 2] when flipped). *)
Definition diffalpha_second (diffbit flipbit : Z) (avg_color : list Z)
    (table MSB LSB img alpha width startx starty channelsRGB channelsA : Z)
    (m : mem) : mem :=
  if flipbit =? 0 then
    (* We should not flip *)
    fst (for_count (startx + 2) 2 (fun x st =>
           for_count starty 4 (fun y st =>
             diffalpha_texel diffbit avg_color table MSB LSB img alpha width
               channelsRGB channelsA x y st) st)
         (m, 8))
  else
    (* We should flip *)
    fst (for_count startx 4 (fun x st =>
           let st := for_count (starty + 2) 2 (fun y st =>
                       diffalpha_texel diffbit avg_color table MSB LSB img alpha width
                         channelsRGB channelsA x y st) st in
           (fst st, snd st + 2))
         (m, 2)).

Definition decompressBlockDifferentialWithAlphaC
    (block_part1 block_part2 img alpha width height startx starty channelsRGB : Z)
    (m : mem) : mem :=
  let channelsA := alpha_channels channelsRGB in
  let alpha := alpha_pointer channelsRGB img alpha in
  (* the diffbit now encodes whether or not the entire alpha channel is 255. *)
  let diffbit := GETBITSHIGH block_part1 1 33 in
  let flipbit := GETBITSHIGH block_part1 1 32 in
  (* First decode left part of block. *)
  let enc_color1 := [ u8 (GETBITSHIGH block_part1 5 63);
                      u8 (GETBITSHIGH block_part1 5 55);
                      u8 (GETBITSHIGH block_part1 5 47) ] in
  (* Expand from 5 to 8 bits *)
  let avg_color := map (fun c => u8 (Z.lor (Z.shiftl c 3) (Z.shiftr c 2))) enc_color1 in
  let table := Z.shiftl (GETBITSHIGH block_part1 3 39) 1 in
  let pixel_indices_MSB := GETBITS block_part2 16 31 in
  let pixel_indices_LSB := GETBITS block_part2 16 15 in
  let m := diffalpha_first diffbit flipbit avg_color table pixel_indices_MSB
             pixel_indices_LSB img alpha width startx starty channelsRGB channelsA m in
  (* Now decode right part of block. *)
  let diff := [ s8 (GETBITSHIGH block_part1 3 58);
                s8 (GETBITSHIGH block_part1 3 50);
                s8 (GETBITSHIGH block_part1 3 42) ] in
  (* Extend sign bit to entire byte. *)
  let diff := map extend_sign diff in
  (* Calculate second color *)
  let enc_color2 := [ u8 (get1 enc_color1 0 + get1 diff 0);
                      u8 (get1 enc_color1 1 + get1 diff 1);
                      u8 (get1 enc_color1 2 + get1 diff 2) ] in
  (* Expand from 5 to 8 bits *)
  let avg_color := map (fun c => u8 (Z.lor (Z.shiftl c 3) (Z.shiftr c 2))) enc_color2 in
  let table := Z.shiftl (GETBITSHIGH block_part1 3 36) 1 in
  let pixel_indices_MSB := GETBITS block_part2 16 31 in
  let pixel_indices_LSB := GETBITS block_part2 16 15 in
  diffalpha_second diffbit flipbit avg_color table pixel_indices_MSB
    pixel_indices_LSB img alpha width startx starty channelsRGB channelsA m.

Definition decompressBlockDifferentialWithAlpha
    (block_part1 block_part2 img alpha width height startx starty : Z) (m : mem) : mem :=
  decompressBlockDifferentialWithAlphaC block_part1 block_part2 img alpha width height
    startx starty 3 m.

(** The loop nest that ends [decompressBlockTHUMB59TAlphaC] and
    [decompressBlockTHUMB58HAlphaC]. *)
Definition thumb_paint_alpha (paint_colors : list (list Z))
    (block_part2 img alpha width startx starty channelsRGB channelsA : Z) (m : mem) : mem :=
  for_range 0 BLOCKWIDTH (fun x m =>
    for_range 0 BLOCKHEIGHT (fun y m =>
      let block_mask := block_mask_at block_part2 x y in
      let m := store m (img + (channelsRGB * ((starty + y) * width + startx + x) + R))
                 (u8 (CLAMP 0 (get2 paint_colors block_mask R) 255)) in
      let m := store m (img + (channelsRGB * ((starty + y) * width + startx + x) + G))
                 (u8 (CLAMP 0 (get2 paint_colors block_mask G) 255)) in
      let m := store m (img + (channelsRGB * ((starty + y) * width + startx + x) + B))
                 (u8 (CLAMP 0 (get2 paint_colors block_mask B) 255)) in
      if block_mask =? 2 then
        let m := store m (alpha + channelsA * (x + startx + (y + starty) * width)) 0 in
        let m := store m (img + (channelsRGB * ((starty + y) * width + startx + x) + R)) 0 in
        let m := store m (img + (channelsRGB * ((starty + y) * width + startx + x) + G)) 0 in
        let m := store m (img + (channelsRGB * ((starty + y) * width + startx + x) + B)) 0 in
        m
      else
        store m (alpha + channelsA * (x + startx + (y + starty) * width)) 255) m) m.

Definition decompressBlockTHUMB59TAlphaC
    (block_part1 block_part2 img alpha width height startx starty channelsRGB : Z)
    (m : mem) : option mem :=
  let channelsA := alpha_channels channelsRGB in
  let alpha := alpha_pointer channelsRGB img alpha in
  (* First decode left part of block. *)
  let colorsRGB444 :=
    [ [ u8 (GETBITSHIGH block_part1 4 58); u8 (GETBITSHIGH block_part1 4 54);
        u8 (GETBITSHIGH block_part1 4 50) ];
      [ u8 (GETBITSHIGH block_part1 4 46); u8 (GETBITSHIGH block_part1 4 42);
        u8 (GETBITSHIGH block_part1 4 38) ] ] in
  let distance := u8 (GETBITSHIGH block_part1 TABLE_BITS_59T 34) in
  (* Extend the two colors to RGB888 *)
  let colors := decompressColor R_BITS59T G_BITS59T B_BITS59T colorsRGB444 in
  match calculatePaintColors59T distance PATTERN_T colors with
  | None => None
  | Some paint_colors =>
      Some (thumb_paint_alpha paint_colors block_part2 img alpha width startx starty
              channelsRGB channelsA m)
  end.

Definition decompressBlockTHUMB58HAlphaC
    (block_part1 block_part2 img alpha width height startx starty channelsRGB : Z)
    (m : mem) : option mem :=
  let channelsA := alpha_channels channelsRGB in
  let alpha := alpha_pointer channelsRGB img alpha in
  (* First decode left part of block. *)
  let colorsRGB444 :=
    [ [ u8 (GETBITSHIGH block_part1 4 57); u8 (GETBITSHIGH block_part1 4 53);
        u8 (GETBITSHIGH block_part1 4 49) ];
      [ u8 (GETBITSHIGH block_part1 4 45); u8 (GETBITSHIGH block_part1 4 41);
        u8 (GETBITSHIGH block_part1 4 37) ] ] in
  let distance := distance58H block_part1 in
  (* Extend the two colors to RGB888 *)
  let colors := decompressColor R_BITS58H G_BITS58H B_BITS58H colorsRGB444 in
  match calculatePaintColors58H distance PATTERN_H colors with
  | None => None
  | Some paint_colors =>
      Some (thumb_paint_alpha paint_colors block_part2 img alpha width startx starty
              channelsRGB channelsA m)
  end.

(** [alphaimg[channelsA * (x + y * width)] = 255] over the block. *)
Definition fill_alpha_255 (alphaimg width startx starty channelsA : Z) (m : mem) : mem :=
  for_count startx 4 (fun x m =>
    for_count starty 4 (fun y m =>
      store m (alphaimg + channelsA * (x + y * width)) 255) m) m.

(** The branch [decompressBlockETC21BitAlphaC] takes; both of its arms run
    the same range tests on the second base color. *)
Definition etc21bitalpha_route (block_part1 : Z) : EncodingMode :=
  let red := get1 (second_base_color block_part1) 0 in
  let green := get1 (second_base_color block_part1) 1 in
  let blue := get1 (second_base_color block_part1) 2 in
  if (red <? 0) || (red >? 31) then ModeT
  else if (green <? 0) || (green >? 31) then ModeH
  else if (blue <? 0) || (blue >? 31) then ModePlanar
  else Differential.

Definition decompressBlockETC21BitAlphaC
    (block_part1 block_part2 img alphaimg width height startx starty channelsRGB : Z)
    (m : mem) : option mem :=
  let channelsA := alpha_channels channelsRGB in
  let alphaimg := alpha_pointer channelsRGB img alphaimg in
  let diffbit := GETBITSHIGH block_part1 1 33 in
  if truthy diffbit then
    (* We have diffbit = 1, meaning no transparent pixels. regular decompression. *)
    let decoded :=
      match etc21bitalpha_route block_part1 with
      | ModeT =>
          let '(block59_part1, block59_part2) := unstuff59bits block_part1 block_part2 in
          decompressBlockTHUMB59Tc block59_part1 block59_part2 img width height
            startx starty channelsRGB m
      | ModeH =>
          let '(block58_part1, block58_part2) := unstuff58bits block_part1 block_part2 in
          decompressBlockTHUMB58Hc block58_part1 block58_part2 img width height
            startx starty channelsRGB m
      | ModePlanar =>
          let '(block57_part1, block57_part2) := unstuff57bits block_part1 block_part2 in
          Some (decompressBlockPlanar57c block57_part1 block57_part2 img width height
                  startx starty channelsRGB m)
      | Differential | Individual =>
          Some (decompressBlockDifferentialWithAlphaC block_part1 block_part2 img
                  alphaimg width height startx starty channelsRGB m)
      end in
    match decoded with
    | None => None
    | Some m => Some (fill_alpha_255 alphaimg width startx starty channelsA m)
    end
  else
    (* We have diffbit = 0, transparent pixels. Only T-, H- or regular
       diff-mode possible. *)
    match etc21bitalpha_route block_part1 with
    | ModeT =>
        let '(block59_part1, block59_part2) := unstuff59bits block_part1 block_part2 in
        decompressBlockTHUMB59TAlphaC block59_part1 block59_part2 img alphaimg width
          height startx starty channelsRGB m
    | ModeH =>
        let '(block58_part1, block58_part2) := unstuff58bits block_part1 block_part2 in
        decompressBlockTHUMB58HAlphaC block58_part1 block58_part2 img alphaimg width
          height startx starty channelsRGB m
    | ModePlanar =>
        let '(block57_part1, block57_part2) := unstuff57bits block_part1 block_part2 in
        let m := decompressBlockPlanar57c block57_part1 block57_part2 img width height
                   startx starty channelsRGB m in
        Some (fill_alpha_255 alphaimg width startx starty channelsA m)
    | Differential | Individual =>
        Some (decompressBlockDifferentialWithAlphaC block_part1 block_part2 img
                alphaimg width height startx starty channelsRGB m)
    end.

(** ** The 8-bit alpha codec (lines 1837-1887) *)

(** A read-only byte array: [data[i]]. *)
Definition byte_at (data : list byte) (i : Z) : Z :=
  Z.of_N (Byte.to_N (nth (Z.to_nat i) data "000"%byte)).

(** bit number frompos is extracted from input, and moved to bit number
    topos in the return value. *)
Definition getbit (input frompos topos : Z) : Z :=
  if frompos >? topos then
    u8 (Z.shiftr (Z.land (Z.shiftl 1 frompos) input) (frompos - topos))
  else
    u8 (Z.shiftl (Z.land (Z.shiftl 1 frompos) input) (topos - frompos)).

(** takes as input a value, returns the value clamped to the interval
    [0,255]. *)
Definition clamp (val : Z) : Z :=
  let val := if val <? 0 then 0 else val in
  let val := if val >? 255 then 255 else val in
  val.

(** Loop state of [decompressBlockAlphaC]. *)
Record alpha_cursor : Type := AlphaCursor {
  ac_img : mem;
  ac_bit : Z;
  ac_byte : Z
}.

(** Extract table index: the [bitpos] loop. *)
Definition alpha_index (data : list byte) (c : alpha_cursor) : Z * alpha_cursor :=
  for_range 0 3 (fun bitpos st =>
    let index := fst st in
    let c := snd st in
    let index := Z.lor index (getbit (byte_at data (ac_byte c)) (7 - ac_bit c) (2 - bitpos)) in
    let bit := ac_bit c + 1 in
    if bit >? 7 then
      (index, {| ac_img := ac_img c; ac_bit := 0; ac_byte := ac_byte c + 1 |})
    else
      (index, {| ac_img := ac_img c; ac_bit := bit; ac_byte := ac_byte c |}))
    (0, c).

Definition decompressBlockAlphaC (g : alpha_globals) (data : list byte)
    (img width height ix iy channels : Z) (m : mem) : mem :=
  let alpha := byte_at data 0 in
  let table := byte_at data 1 in
  let bit := 0 in
  let byte := 2 in
  (* extract an alpha value for each pixel. *)
  ac_img
    (for_range 0 4 (fun x c =>
       for_range 0 4 (fun y c =>
         let '(index, c) := alpha_index data c in
         {| ac_img := store (ac_img c) (img + (ix + x + (iy + y) * width) * channels)
                        (u8 (clamp (alpha + get2 (alphaTable g) table index)));
            ac_bit := ac_bit c;
            ac_byte := ac_byte c |}) c)
       {| ac_img := m; ac_bit := bit; ac_byte := byte |}).

Definition decompressBlockAlpha (g : alpha_globals) (data : list byte)
    (img width height ix iy : Z) (m : mem) : mem :=
  decompressBlockAlphaC g data img width height ix iy 1 m.

(** ** The block layout in the specification's words *)

Module Spec.

(** Sign extension of a 3-bit two's complement field. *)
Definition sign_extend3 (d : Z) : Z := if d <? 4 then d else d - 8.

(** The 5-bit base and 3-bit delta of channel [c] (0 red, 1 green,
    2 blue): bits 63-59 and 58-56 of the block for red, eight bits
    lower for each following channel. [block_part1] holds bits 63-32. *)
Definition base5 (block_part1 c : Z) : Z := (block_part1 / 2 ^ (27 - 8 * c)) mod 32.
Definition delta3 (block_part1 c : Z) : Z := (block_part1 / 2 ^ (24 - 8 * c)) mod 8.

(** The reconstructed second base color: base plus sign-extended delta. *)
Definition second_base (block_part1 c : Z) : Z :=
  base5 block_part1 c + sign_extend3 (delta3 block_part1 c).

Definition out_of_range (v : Z) : bool := (v <? 0) || (v >? 31).

Definition diffbit (block_part1 : Z) : Z := (block_part1 / 2) mod 2.
Definition flipbit (block_part1 : Z) : Z := block_part1 mod 2.

(** The two 4-bit bases of channel [c] in individual mode: sub-block 0
    in bits 63-60, sub-block 1 in bits 59-56 for red. *)
Definition base4 (block_part1 sub c : Z) : Z :=
  (block_part1 / 2 ^ (28 - 4 * sub - 8 * c)) mod 16.

Definition expand4 (v : Z) : Z := Z.lor (Z.shiftl v 4) v.
Definition expand5 (v : Z) : Z := Z.lor (Z.shiftl v 3) (Z.shiftr v 2).

(** The base color of sub-block [sub], channel [c], expanded to 8 bits. *)
Definition base_color (block_part1 sub c : Z) : Z :=
  if diffbit block_part1 =? 0 then expand4 (base4 block_part1 sub c)
  else if sub =? 0 then expand5 (base5 block_part1 c)
  else expand5 (second_base block_part1 c).

(** The sub-block's 3-bit table codeword (bits 39-37 and 36-34), shifted
    left by one. *)
Definition selector (block_part1 sub : Z) : Z :=
  Z.shiftl ((block_part1 / 2 ^ (5 - 3 * sub)) mod 8) 1.

(** The sub-block of texel [(dx, dy)]: left/right halves, or top/bottom
    when the block is flipped. *)
Definition subblock (block_part1 dx dy : Z) : Z :=
  if flipbit block_part1 =? 0 then (if dx <? 2 then 0 else 1)
  else (if dy <? 2 then 0 else 1).

(** The texel's 2-bit value: its bit in the most significant plane (bits
    31-16 of [block_part2]) and its bit in the least significant plane
    (bits 15-0), texel [(dx, dy)] at position [4 * dx + dy] of a plane. *)
Definition texel_index (block_part2 dx dy : Z) : Z :=
  2 * Z.b2z (Z.testbit block_part2 (16 + (4 * dx + dy)))
  + Z.b2z (Z.testbit block_part2 (4 * dx + dy)).

(** [clamp(base_color[sub-block] + table[selector][unscramble[index]], 0, 255)] *)
Definition texel_value (block_part1 block_part2 dx dy c : Z) : Z :=
  let sub := subblock block_part1 dx dy in
  CLAMP 0 (base_color block_part1 sub c
           + get2 compressParams (selector block_part1 sub)
               (get1 unscramble (texel_index block_part2 dx dy))) 255.

End Spec.

(** Address of channel [c] of texel [(dx, dy)] of the block at
    [(startx, starty)]. *)
Definition texel_addr (img width startx starty channels dx dy c : Z) : Z :=
  img + (channels * ((starty + dy) * width + (startx + dx)) + c).

(** ** The texel loops as one pass over the sixteen texels *)

(** The order in which the loops of the differential decoders visit the
    texels [(dx, dy)] of a block: two columns then two columns when the
    block is not flipped, two rows then two rows when it is. *)
Definition texel_order (flipbit : Z) : list (Z * Z) :=
  if flipbit =? 0 then
    [ (0, 0); (0, 1); (0, 2); (0, 3); (1, 0); (1, 1); (1, 2); (1, 3);
      (2, 0); (2, 1); (2, 2); (2, 3); (3, 0); (3, 1); (3, 2); (3, 3) ]
  else
    [ (0, 0); (0, 1); (1, 0); (1, 1); (2, 0); (2, 1); (3, 0); (3, 1);
      (0, 2); (0, 3); (1, 2); (1, 3); (2, 2); (2, 3); (3, 2); (3, 3) ].

(** Whether texel [(dx, dy)] belongs to the first group of loops. *)
Definition in_first_group (flipbit dx dy : Z) : bool :=
  if flipbit =? 0 then dx <? 2 else dy <? 2.

(** What the loops of [decompressBlockDiffFlipC] do at texel [t]: the loop
    body, run with the value [shift] has when the loops reach [t]. *)
Definition diffflip_write (flipbit : Z) (avg_color1 : list Z) (table1 : Z)
    (avg_color2 : list Z) (table2 : Z)
    (MSB LSB img width startx starty channels : Z) (t : Z * Z) (m : mem) : mem :=
  let first := in_first_group flipbit (fst t) (snd t) in
  fst (diffflip_texel (if first then avg_color1 else avg_color2)
         (if first then table1 else table2) MSB LSB img width channels
         (startx + fst t) (starty + snd t) (m, 4 * fst t + snd t)).

(** What one run of the loop body of [decompressBlockDifferentialWithAlphaC]
    does to the image, [shift] being what it is on entry. *)
Definition diffalpha_store (diffbit : Z) (avg_color : list Z)
    (table MSB LSB img alpha width channelsRGB channelsA x y shift : Z) (m : mem) : mem :=
  fst (diffalpha_texel diffbit avg_color table MSB LSB img alpha width channelsRGB
         channelsA x y (m, shift)).

(** What the loops of [decompressBlockDifferentialWithAlphaC] do at texel [t]. *)
Definition diffalpha_write (diffbit flipbit : Z) (avg_color1 : list Z) (table1 : Z)
    (avg_color2 : list Z) (table2 : Z)
    (MSB LSB img alpha width startx starty channelsRGB channelsA : Z)
    (t : Z * Z) (m : mem) : mem :=
  let first := in_first_group flipbit (fst t) (snd t) in
  diffalpha_store diffbit (if first then avg_color1 else avg_color2)
    (if first then table1 else table2) MSB LSB img alpha width channelsRGB
    channelsA (startx + fst t) (starty + snd t) (4 * fst t + snd t) m.

(** The unscrambled index of texel [(dx, dy)]: the value the variable
    [index] holds when the decoders test and use it. *)
Definition unscrambled_index (block_part2 dx dy : Z) : Z :=
  get1 unscramble (Spec.texel_index block_part2 dx dy).

(** The addresses the pass over texel [t] may write: its three color
    channels. *)
Definition owns_rgb (img width startx starty channels : Z) (t : Z * Z) (a : Z) : Prop :=
  a = texel_addr img width startx starty channels (fst t) (snd t) 0
  \/ a = texel_addr img width startx starty channels (fst t) (snd t) 1
  \/ a = texel_addr img width startx starty channels (fst t) (snd t) 2.

(** The texel's 2-bit value as the loops assemble it from the two planes. *)
Definition raw_index (MSB LSB shift : Z) : Z :=
  Z.lor (Z.shiftl (Z.land (Z.shiftr MSB shift) 1) 1) (Z.land (Z.shiftr LSB shift) 1).

(** Address of the alpha byte of texel [(dx, dy)]. *)
Definition alpha_addr (alpha width startx starty channelsA dx dy : Z) : Z :=
  alpha + ((starty + dy) * width + (startx + dx)) * channelsA.

(** The addresses the punch-through pass over texel [t] may write. *)
Definition owns_rgba (img alpha width startx starty channelsRGB channelsA : Z)
    (t : Z * Z) (a : Z) : Prop :=
  owns_rgb img width startx starty channelsRGB t a
  \/ a = alpha_addr alpha width startx starty channelsA (fst t) (snd t).

(** The alpha bytes of the block do not overlap its color bytes. *)
Definition alpha_separate (img alpha width startx starty channelsRGB channelsA : Z)
  : Prop :=
  forall dx dy dx' dy' c,
    0 <= dx < 4 -> 0 <= dy < 4 -> 0 <= dx' < 4 -> 0 <= dy' < 4 -> 0 <= c < 3 ->
    alpha_addr alpha width startx starty channelsA dx dy
    <> texel_addr img width startx starty channelsRGB dx' dy' c.

(** The states the two globals go through: whatever the array holds before
    the first call (zeros, for a C global), and from then on only what
    [setupAlphaTable] makes of it, the only code that assigns to them. *)
Inductive alpha_reachable : alpha_globals -> Prop :=
  | reach_start (t : list (list Z)) :
      table_shape t ->
      alpha_reachable {| alphaTableInitialized := 0; alphaTable := t |}
  | reach_setup (g : alpha_globals) :
      alpha_reachable g -> alpha_reachable (setupAlphaTable g).

(** Address of the alpha byte [decompressBlockAlphaC] writes for texel
    [(dx, dy)]. *)
Definition alpha_texel_addr (img width ix iy channels dx dy : Z) : Z :=
  img + (ix + dx + (iy + dy) * width) * channels.

(** ** Errors *)

(** What the code throws, and the [exit(1)] of a decoder. *)
Inductive error : Type :=
  | CantOpenFile          (* throw Exception("can't open file: ...") *)
  | ReadError             (* throw Exception("Error reading texture: ...") *)
  | PreconditionFailed    (* BA_PRECONDITION(...) does not hold *)
  | UnsupportedFormat     (* throw Exception() on an unknown format *)
  | OutOfMemory           (* throw Exception() after a failed malloc *)
  | DoesNotFit            (* static_cast_check_fit<T>(v): v is not a T *)
  | ProcessExit.          (* exit(1) *)

Definition result (A : Type) : Type := (error + A)%type.

#[global] Instance result_ret : MRet result := fun A a => inr a.
#[global] Instance result_bind : MBind result :=
  fun A B f r => match r with inl e => inl e | inr a => f a end.

Definition throw {A : Type} (e : error) : result A := inl e.

(** Modelled from the spec: the macro [BA_PRECONDITION(cond)] is defined
    in another file. Section 7 of the specification makes every violated
    precondition of the loader a fatal structural error, so the macro
    continues when [cond] holds and throws when it does not. *)
Definition BA_PRECONDITION (cond : bool) : result unit :=
  if cond then mret tt else throw PreconditionFailed.

(** [long] has 64 bits. *)
Definition LONG_MAX : Z := 9223372036854775807.

(** Modelled from the spec: the template [static_cast_check_fit<T>(v)] is
    declared in another file, and the specification does not describe it.
    By its name it is taken to be a checked cast: it returns the value
    when [T] can hold it and stops the load when it cannot. Values that
    fit are cast without change under any reading of the template; the
    reading only matters for a level number or a mip count from [2^31]
    on. *)
Definition static_cast_check_fit_int (v : Z) : result Z :=
  if (INT_MIN <=? v) && (v <=? INT_MAX) then mret v else throw DoesNotFit.
Definition static_cast_check_fit_long (v : Z) : result Z :=
  if (- LONG_MAX - 1 <=? v) && (v <=? LONG_MAX) then mret v else throw DoesNotFit.

(** [for (i = lo; i < lo + n; i++)] around a body that can throw. *)
Definition for_countM {S : Type} (lo : Z) (n : nat) (body : Z -> S -> result S)
    (s : S) : result S :=
  fold_left (fun r i => r ≫= body i) (range lo n) (mret s).

(** ** Files *)

(** An open file: its bytes and the position of the cursor. *)
Record FILE : Type := File {
  f_bytes : list byte;
  f_pos : nat
}.

Definition byte_val (b : byte) : Z := Z.of_N (Byte.to_N b).

(** A [uint32_t] as it lies in memory; the host is little-endian. *)
Definition le32 (bs : list byte) : Z :=
  fold_right (fun b acc => byte_val b + 256 * acc) 0 bs.

(** [fread(ptr, size, 1, f)]: the item when all of its [size] bytes are
    there ([fread] then returns 1), nothing when they are not or when
    [size] is 0 ([fread] then returns 0). *)
Definition fread (size : Z) (f : FILE) : option (list byte * FILE) :=
  let n := Z.to_nat size in
  if (0 <? size) && (Nat.leb (f_pos f + n) (length (f_bytes f))) then
    Some (take n (drop (f_pos f) (f_bytes f)),
          {| f_bytes := f_bytes f; f_pos := (f_pos f + n)%nat |})
  else None.

(** [fseek(f, offset, SEEK_CUR)] with an offset that is not negative: the
    cursor moves, also past the end of the file, and the call returns 0. *)
Definition fseek_cur (offset : Z) (f : FILE) : Z * FILE :=
  (0, {| f_bytes := f_bytes f; f_pos := (f_pos f + Z.to_nat offset)%nat |}).

(** ** The KTX container (lines 13-141) *)

Definition GL_COMPRESSED_RGB8_ETC2 : Z := 0x9274.
Definition GL_COMPRESSED_RGBA8_ETC2_EAC : Z := 0x9278.
Definition GL_ETC1_RGB8_OES : Z := 0x8D64.
Definition GL_RGB : Z := 0x1907.
Definition GL_RGBA : Z := 0x1908.
Definition GL_UNSIGNED_BYTE : Z := 0x1401.
Definition KTX_ENDIAN_REF : Z := 0x04030201.
Definition KTX_HEADER_SIZE : Z := 64.

Record KTX_header : Type := KTXHeader {
  identifier : list byte;
  endianness : Z;
  glType : Z;
  glTypeSize : Z;
  glFormat : Z;
  glInternalFormat : Z;
  glBaseInternalFormat : Z;
  pixelWidth : Z;
  pixelHeight : Z;
  pixelDepth : Z;
  numberOfArrayElements : Z;
  numberOfFaces : Z;
  numberOfMipmapLevels : Z;
  bytesOfKeyValueData : Z
}.

(** The 64 bytes [fread] puts into the struct. *)
Definition header_of_bytes (bs : list byte) : KTX_header :=
  let field (k : nat) := le32 (take 4 (drop (12 + 4 * k) bs)) in
  {| identifier := take 12 bs;
     endianness := field 0%nat;
     glType := field 1%nat;
     glTypeSize := field 2%nat;
     glFormat := field 3%nat;
     glInternalFormat := field 4%nat;
     glBaseInternalFormat := field 5%nat;
     pixelWidth := field 6%nat;
     pixelHeight := field 7%nat;
     pixelDepth := field 8%nat;
     numberOfArrayElements := field 9%nat;
     numberOfFaces := field 10%nat;
     numberOfMipmapLevels := field 11%nat;
     bytesOfKeyValueData := field 12%nat |}.

(** Modelled from the spec: the enumeration [TextureFormat] is declared in
    another file; these are the three values [LoadKTX] assigns, the
    internal format of section 6 of the specification. *)
Inductive TextureFormat : Type := kETC2_RGB | kETC2_RGBA | kETC1.

(** Modelled from the spec: the enumeration [TextureQuality] is declared
    in another file; section 6 of the specification speaks of a quality
    tier, and this file names its values [kLow] and [kMedium]. [kHigh]
    stands for every other value. *)
Inductive TextureQuality : Type := kLow | kMedium | kHigh.

Definition TextureQuality_eqb (a b : TextureQuality) : bool :=
  match a, b with
  | kLow, kLow | kMedium, kMedium | kHigh, kHigh => true
  | _, _ => false
  end.

(** The caller's arrays [buffers], [widths], [heights], [formats] and
    [sizes], each a map from the level to what its slot holds. A buffer
    slot holds [None] for [nullptr] and the bytes of the buffer it points
    to otherwise. *)
Record KTX_arrays : Type := KTXArrays {
  buffers : gmap Z (option (list byte));
  widths : gmap Z Z;
  heights : gmap Z Z;
  formats : gmap Z TextureFormat;
  sizes : gmap Z Z
}.

(** The variables the level loop of [LoadKTX] carries. *)
Record level_state : Type := LevelState {
  ls_file : FILE;
  ls_x : Z;
  ls_y : Z;
  ls_arrays : KTX_arrays
}.

(** [sizeRounded = (size + 3) & ~(uint32_t)3] *)
Definition sizeRounded (size : Z) : Z :=
  Z.land (u32 (size + 3)) (u32 (Z.lnot 3)).

(** The body of the loop over the mip levels (lines 118-138). [malloc]
    tells whether the allocator has a buffer of the size asked for. *)
Definition load_level (malloc : Z -> bool) (internal_format : TextureFormat)
    (base_level level : Z) (st : level_state) : result level_state :=
  let f := ls_file st in
  let a := ls_arrays st in
  match fread 4 f with
  | None => throw ReadError
  | Some (size_bytes, f) =>
      let size := le32 size_bytes in
      BA_PRECONDITION (size =? sizeRounded size);;
      lvl ← static_cast_check_fit_int level;
      st' ←
        (if base_level <=? lvl then
           let a := {| buffers := buffers a; widths := widths a; heights := heights a;
                       formats := formats a; sizes := <[level := size]> (sizes a) |} in
           BA_PRECONDITION (malloc size);;
           let a := {| buffers := buffers a;
                       widths := <[level := s32 (u32 (ls_x st))]> (widths a);
                       heights := <[level := s32 (u32 (ls_y st))]> (heights a);
                       formats := <[level := internal_format]> (formats a);
                       sizes := sizes a |} in
           match fread size f with
           | None => throw PreconditionFailed
           | Some (payload, f) =>
               mret {| ls_file := f; ls_x := ls_x st; ls_y := ls_y st;
                       ls_arrays := {| buffers := <[level := Some payload]> (buffers a);
                                       widths := widths a; heights := heights a;
                                       formats := formats a; sizes := sizes a |} |}
           end
         else
           let a := {| buffers := <[level := None]> (buffers a);
                       widths := widths a; heights := heights a;
                       formats := formats a; sizes := sizes a |} in
           offset ← static_cast_check_fit_long size;
           let '(rc, f) := fseek_cur offset f in
           BA_PRECONDITION (rc =? 0);;
           mret {| ls_file := f; ls_x := ls_x st; ls_y := ls_y st; ls_arrays := a |});
      mret {| ls_file := ls_file st';
              ls_x := Z.shiftr (s32 (ls_x st' + 1)) 1;
              ls_y := Z.shiftr (s32 (ls_y st' + 1)) 1;
              ls_arrays := ls_arrays st' |}
  end.

(** What [LoadKTX] has when it enters the level loop: the header, the
    format, the value stored through [base_level] and the loop variables.
    [file] is what [FOpen] finds: [None] when the file cannot be opened
    (the call returns a null pointer), the bytes of the file otherwise. *)
Definition LoadKTX_open (file : option (list byte)) (arrays : KTX_arrays)
    (texture_quality : TextureQuality) (min_quality : Z)
  : result (KTX_header * TextureFormat * Z * level_state) :=
  match file with
  | None => throw CantOpenFile
  | Some bytes =>
      let f := {| f_bytes := bytes; f_pos := 0 |} in
      match fread KTX_HEADER_SIZE f with
      | None => throw PreconditionFailed
      | Some (header_bytes, f) =>
          let header := header_of_bytes header_bytes in
          (* Make some assumptions; we don't support arrays, more than 1
             face, or kv data of any form. *)
          BA_PRECONDITION (endianness header =? KTX_ENDIAN_REF);;
          BA_PRECONDITION (numberOfArrayElements header =? 0);;
          BA_PRECONDITION (numberOfFaces header =? 1);;
          BA_PRECONDITION (bytesOfKeyValueData header =? 0);;
          BA_PRECONDITION ((pixelWidth header >? 0) && (pixelHeight header >? 0)
                           && (pixelDepth header =? 0));;
          internal_format ←
            (if glInternalFormat header =? GL_COMPRESSED_RGB8_ETC2 then mret kETC2_RGB
             else if glInternalFormat header =? GL_COMPRESSED_RGBA8_ETC2_EAC
                  then mret kETC2_RGBA
             else if glInternalFormat header =? GL_COMPRESSED_RGBA8_ETC2_EAC
                  then mret kETC2_RGBA
             else if glInternalFormat header =? GL_ETC1_RGB8_OES then mret kETC1
             else throw UnsupportedFormat);
          let x := s32 (pixelWidth header) in
          let y := s32 (pixelHeight header) in
          let base_level := 0 in
          (* Try dropping a level for med/low quality. *)
          base_level ←
            (if (TextureQuality_eqb texture_quality kLow
                 || TextureQuality_eqb texture_quality kMedium)
                && (min_quality <? 2) then
               n ← static_cast_check_fit_int (numberOfMipmapLevels header);
               mret (if n >=? base_level + 1 then base_level + 1 else base_level)
             else mret base_level);
          (* And one more for low in some cases. *)
          base_level ←
            (if TextureQuality_eqb texture_quality kLow && (min_quality <? 1)
                && (pixelWidth header >? 128) && (pixelHeight header >? 128) then
               n ← static_cast_check_fit_int (numberOfMipmapLevels header);
               mret (if n >=? base_level + 1 then base_level + 1 else base_level)
             else mret base_level);
          mret (header, internal_format, base_level,
                {| ls_file := f; ls_x := x; ls_y := y; ls_arrays := arrays |})
      end
  end.

(** What [LoadKTX] leaves behind: the arrays, [*base_level], and the file
    as it is when it is closed. *)
Record KTX_loaded : Type := KTXLoaded {
  ld_arrays : KTX_arrays;
  ld_base_level : Z;
  ld_file : FILE
}.

Definition LoadKTX (file : option (list byte)) (malloc : Z -> bool)
    (arrays : KTX_arrays) (texture_quality : TextureQuality) (min_quality : Z)
  : result KTX_loaded :=
  '(header, internal_format, base_level, st) ←
    LoadKTX_open file arrays texture_quality min_quality;
  st ← for_countM 0 (Z.to_nat (numberOfMipmapLevels header))
         (load_level malloc internal_format base_level) st;
  mret {| ld_arrays := ls_arrays st; ld_base_level := base_level; ld_file := ls_file st |}.

(** ** The image assembler (lines 2038-2278) *)

(** [*pBlock = (s[0] << 24) | (s[1] << 16) | (s[2] << 8) | s[3]] *)
Definition readBigEndian4byteWord (s : list byte) : Z :=
  u32 (Z.lor (Z.lor (Z.lor (Z.shiftl (byte_at s 0) 24) (Z.shiftl (byte_at s 1) 16))
                    (Z.shiftl (byte_at s 2) 8))
             (byte_at s 3)).

Inductive alphaFormat_t : Type := AF_NONE | AF_1BIT | AF_8BIT | AF_11BIT.

Definition alphaFormat_eqb (a b : alphaFormat_t) : bool :=
  match a, b with
  | AF_NONE, AF_NONE | AF_1BIT, AF_1BIT | AF_8BIT, AF_8BIT | AF_11BIT, AF_11BIT => true
  | _, _ => false
  end.

(** A heap buffer: the size asked of [malloc] and the bytes, addressed from
    the start of the buffer. What a fresh buffer holds is not known:
    [malloc] hands it over as [fresh]. *)
Record buffer : Type := Buffer {
  buf_size : Z;
  buf_mem : mem
}.

(** What the [switch] over [srcFormat] sets. *)
Record unpack_format : Type := UnpackFormat {
  dstChannelBytes : Z;
  dstChannels : Z;
  out_format : Z;
  out_type : Z;
  alphaFormat : alphaFormat_t
}.

Definition unpack_switch (srcFormat : Z) : result unpack_format :=
  if (srcFormat =? GL_ETC1_RGB8_OES) || (srcFormat =? GL_COMPRESSED_RGB8_ETC2) then
    mret {| dstChannelBytes := 1; dstChannels := 3; out_format := GL_RGB;
            out_type := GL_UNSIGNED_BYTE; alphaFormat := AF_NONE |}
  else if srcFormat =? GL_COMPRESSED_RGBA8_ETC2_EAC then
    mret {| dstChannelBytes := 1; dstChannels := 4; out_format := GL_RGBA;
            out_type := GL_UNSIGNED_BYTE; alphaFormat := AF_8BIT |}
  else throw UnsupportedFormat.

(** The state of the block loops: the source cursor [src] and the image. *)
Record unpack_state : Type := UnpackState {
  us_src : list byte;
  us_img : mem
}.

(** The body of the block loops (lines 2221-2238); [dstImage] is address 0
    of the image. The decoders take [int] arguments: the unsigned [width],
    [height], [4 * x] and [4 * y] are converted. *)
Definition unpack_block (g : alpha_globals) (fmt : unpack_format) (width height x y : Z)
    (st : unpack_state) : result unpack_state :=
  let dstImage := 0 in
  let startx := s32 (u32 (4 * x)) in
  let starty := s32 (u32 (4 * y)) in
  (* Decode alpha channel for RGBA *)
  let st :=
    if alphaFormat_eqb (alphaFormat fmt) AF_8BIT then
      {| us_src := drop 8 (us_src st);
         us_img := decompressBlockAlphaC g (us_src st) (dstImage + 3) (s32 width)
                     (s32 height) startx starty (dstChannels fmt) (us_img st) |}
    else st in
  (* Decode color dstChannels *)
  let block_part1 := readBigEndian4byteWord (us_src st) in
  let src := drop 4 (us_src st) in
  let block_part2 := readBigEndian4byteWord src in
  let src := drop 4 src in
  let decoded :=
    if alphaFormat_eqb (alphaFormat fmt) AF_1BIT then
      decompressBlockETC21BitAlphaC block_part1 block_part2 dstImage 0 (s32 width)
        (s32 height) startx starty (dstChannels fmt) (us_img st)
    else
      decompressBlockETC2c block_part1 block_part2 dstImage (s32 width) (s32 height)
        startx starty (dstChannels fmt) (us_img st) in
  match decoded with
  | None => throw ProcessExit
  | Some img => mret {| us_src := src; us_img := img |}
  end.

(** What [KTXUnpackETC] has when the block loops are done: the padded
    image, its dimensions and the globals of the alpha codec. *)
Record unpack_padded : Type := UnpackPadded {
  up_format : unpack_format;
  up_width : Z;
  up_height : Z;
  up_image : buffer;
  up_globals : alpha_globals
}.

Definition KTXUnpackETC_decode (g : alpha_globals) (malloc : Z -> bool) (fresh : mem)
    (srcETC : list byte) (srcFormat activeWidth activeHeight : Z)
  : result unpack_padded :=
  fmt ← unpack_switch srcFormat;
  (* Compute the full width & height. *)
  let width := u32 (Z.quot (u32 (activeWidth + 3)) 4 * 4) in
  let height := u32 (Z.quot (u32 (activeHeight + 3)) 4 * 4) in
  let size := u32 (u32 (s32 (dstChannels fmt * dstChannelBytes fmt) * width) * height) in
  (if malloc size then mret tt else throw OutOfMemory);;
  let g := if negb (alphaFormat_eqb (alphaFormat fmt) AF_NONE)
           then setupAlphaTable g else g in
  if alphaFormat_eqb (alphaFormat fmt) AF_11BIT then throw UnsupportedFormat
  else
    st ← for_countM 0 (Z.to_nat (Z.quot height 4)) (fun y st =>
           for_countM 0 (Z.to_nat (Z.quot width 4)) (fun x st =>
             unpack_block g fmt width height x y st) st)
         {| us_src := srcETC; us_img := fresh |};
    mret {| up_format := fmt; up_width := width; up_height := height;
            up_image := {| buf_size := size; buf_mem := us_img st |};
            up_globals := g |}.

(** [yy * rowBytes + xx * dstPixelBytes + zz], in unsigned arithmetic. *)
Definition row_index (rowBytes dstPixelBytes yy xx zz : Z) : Z :=
  u32 (u32 (yy * rowBytes) + u32 (xx * dstPixelBytes) + zz).

(** The copy loops of the crop, from the padded image into [newimg]. *)
Definition crop_copy (dstImage : mem) (activeWidth activeHeight : Z)
    (dstPixelBytes dstRowBytes activeRowBytes : Z) (newimg : mem) : mem :=
  for_count 0 (Z.to_nat activeHeight) (fun yy newimg =>
    for_count 0 (Z.to_nat activeWidth) (fun xx newimg =>
      for_count 0 (Z.to_nat dstPixelBytes) (fun zz newimg =>
        store newimg (row_index activeRowBytes dstPixelBytes yy xx zz)
          (dstImage (row_index dstRowBytes dstPixelBytes yy xx zz)))
        newimg) newimg) newimg.

(** Convert from total area to active area (lines 2249-2277). *)
Definition crop_active (malloc : Z -> bool) (fresh : mem)
    (activeWidth activeHeight : Z) (p : unpack_padded) : result buffer :=
  let width := up_width p in
  let height := up_height p in
  let dstImage := up_image p in
  if negb ((height =? activeHeight) && (width =? activeWidth)) then
    let dstPixelBytes := s32 (dstChannels (up_format p) * dstChannelBytes (up_format p)) in
    let dstRowBytes := s32 (u32 (dstPixelBytes * width)) in
    let activeRowBytes := s32 (u32 (activeWidth * dstPixelBytes)) in
    let newsize := u32 (u32 (dstPixelBytes * activeWidth) * activeHeight) in
    (if malloc newsize then mret tt else throw OutOfMemory);;
    let newimg := crop_copy (buf_mem dstImage) activeWidth activeHeight
                    dstPixelBytes dstRowBytes activeRowBytes fresh in
    mret {| buf_size := newsize; buf_mem := newimg |}
  else mret dstImage.

(** What [KTXUnpackETC] returns through its pointer arguments. *)
Record unpacked : Type := Unpacked {
  dstImage : buffer;
  format : Z;
  type_ : Z;
  globals : alpha_globals
}.

(** [malloc] tells whether the allocator has a buffer of the size asked
    for; [fresh1] and [fresh2] are what the two buffers hold when they are
    handed over. *)
Definition KTXUnpackETC (g : alpha_globals) (malloc : Z -> bool) (fresh1 fresh2 : mem)
    (srcETC : list byte) (srcFormat activeWidth activeHeight : Z) : result unpacked :=
  p ← KTXUnpackETC_decode g malloc fresh1 srcETC srcFormat activeWidth activeHeight;
  img ← crop_active malloc fresh2 activeWidth activeHeight p;
  mret {| dstImage := img; format := out_format (up_format p);
          type_ := out_type (up_format p); globals := up_globals p |}.

(** ** The level stream in the specification's words *)

(** After the 64-byte header come, per mip level, a [uint32] byte length
    and that many bytes of payload. [level_offset bytes l] is where the
    length of level [l] starts. *)
Fixpoint level_offset (bytes : list byte) (l : nat) : nat :=
  match l with
  | O => 64
  | S l' =>
      let o := level_offset bytes l' in
      (o + 4 + Z.to_nat (le32 (take 4 (drop o bytes))))%nat
  end.

Definition declared_size (bytes : list byte) (l : nat) : Z :=
  le32 (take 4 (drop (level_offset bytes l) bytes)).

Definition payload (bytes : list byte) (l : nat) : list byte :=
  take (Z.to_nat (declared_size bytes l)) (drop (level_offset bytes l + 4) bytes).

(** The dimension of level [l] of an image whose level 0 measures [x]:
    [x = (x + 1) >> 1] once per level. *)
Definition mip_dim (x : Z) (l : nat) : Z :=
  Nat.iter l (fun x => Z.shiftr (s32 (x + 1)) 1) x.

(** What the level loop has established when it has run [n] times. *)
Definition levels_loaded (bytes : list byte) (base_level x0 y0 : Z)
    (internal_format : TextureFormat) (n : nat) (st : level_state) : Prop :=
  f_bytes (ls_file st) = bytes
  /\ f_pos (ls_file st) = level_offset bytes n
  /\ ls_x st = mip_dim x0 n
  /\ ls_y st = mip_dim y0 n
  /\ forall l : Z, 0 <= l < Z.of_nat n ->
       (l < base_level -> buffers (ls_arrays st) !! l = Some None)
       /\ (base_level <= l ->
           buffers (ls_arrays st) !! l = Some (Some (payload bytes (Z.to_nat l)))
           /\ Z.of_nat (length (payload bytes (Z.to_nat l))) = declared_size bytes (Z.to_nat l)
           /\ sizes (ls_arrays st) !! l = Some (declared_size bytes (Z.to_nat l))
           /\ widths (ls_arrays st) !! l = Some (mip_dim x0 (Z.to_nat l))
           /\ heights (ls_arrays st) !! l = Some (mip_dim y0 (Z.to_nat l))
           /\ formats (ls_arrays st) !! l = Some internal_format).

(** ** The crop in the specification's words *)

(** A dimension rounded up to a multiple of 4. *)
Definition padded_dim (active : Z) : Z := (active + 3) / 4 * 4.

(** The bytes the copy loops visit: row [yy], pixel [xx], byte [zz]. *)
Definition crop_cells (activeWidth activeHeight dstPixelBytes : Z) : list (Z * Z * Z) :=
  flat_map (fun yy =>
    flat_map (fun xx =>
      map (fun zz => (yy, xx, zz)) (range 0 (Z.to_nat dstPixelBytes)))
      (range 0 (Z.to_nat activeWidth)))
    (range 0 (Z.to_nat activeHeight)).

Definition crop_write (dstImage : mem) (dstPixelBytes dstRowBytes activeRowBytes : Z)
    (t : Z * Z * Z) (newimg : mem) : mem :=
  store newimg (row_index activeRowBytes dstPixelBytes (fst (fst t)) (snd (fst t)) (snd t))
    (dstImage (row_index dstRowBytes dstPixelBytes (fst (fst t)) (snd (fst t)) (snd t))).

(** ** The loops of the T, H and planar decoders as passes *)

(** What the loop nest of the T and H decoders does at texel [t]. *)
Definition thumb_write (paint_colors : list (list Z))
    (block_part2 img width startx starty channels : Z) (t : Z * Z) (m : mem) : mem :=
  let x := fst t in
  let y := snd t in
  let block_mask := block_mask_at block_part2 x y in
  let m := store m (img + (channels * ((starty + y) * width + startx + x) + R))
             (u8 (CLAMP 0 (get2 paint_colors block_mask R) 255)) in
  let m := store m (img + (channels * ((starty + y) * width + startx + x) + G))
             (u8 (CLAMP 0 (get2 paint_colors block_mask G) 255)) in
  let m := store m (img + (channels * ((starty + y) * width + startx + x) + B))
             (u8 (CLAMP 0 (get2 paint_colors block_mask B) 255)) in
  m.

(** The three corner colors of a planar block, expanded to 8 bits: the
    assignments to [colorO], [colorH] and [colorV] in
    [decompressBlockPlanar57c]. *)
Definition planar_colorO (compressed57_1 : Z) : list Z :=
  let colorO0 := u8 (GETBITSHIGH compressed57_1 6 63) in
  let colorO1 := u8 (GETBITSHIGH compressed57_1 7 57) in
  let colorO2 := u8 (GETBITSHIGH compressed57_1 6 50) in
  [ u8 (Z.lor (Z.shiftl colorO0 2) (Z.shiftr colorO0 4));
    u8 (Z.lor (Z.shiftl colorO1 1) (Z.shiftr colorO1 6));
    u8 (Z.lor (Z.shiftl colorO2 2) (Z.shiftr colorO2 4)) ].
Definition planar_colorH (compressed57_1 compressed57_2 : Z) : list Z :=
  let colorH0 := u8 (GETBITSHIGH compressed57_1 6 44) in
  let colorH1 := u8 (GETBITSHIGH compressed57_1 7 38) in
  let colorH2 := u8 (GETBITS compressed57_2 6 31) in
  [ u8 (Z.lor (Z.shiftl colorH0 2) (Z.shiftr colorH0 4));
    u8 (Z.lor (Z.shiftl colorH1 1) (Z.shiftr colorH1 6));
    u8 (Z.lor (Z.shiftl colorH2 2) (Z.shiftr colorH2 4)) ].
Definition planar_colorV (compressed57_2 : Z) : list Z :=
  let colorV0 := u8 (GETBITS compressed57_2 6 25) in
  let colorV1 := u8 (GETBITS compressed57_2 7 19) in
  let colorV2 := u8 (GETBITS compressed57_2 6 12) in
  [ u8 (Z.lor (Z.shiftl colorV0 2) (Z.shiftr colorV0 4));
    u8 (Z.lor (Z.shiftl colorV1 1) (Z.shiftr colorV1 6));
    u8 (Z.lor (Z.shiftl colorV2 2) (Z.shiftr colorV2 4)) ].

(** What the loop nest of [decompressBlockPlanar57c] does at texel [t]. *)
Definition planar_write (colorO colorH colorV : list Z)
    (img width startx starty channels : Z) (t : Z * Z) (m : mem) : mem :=
  let xx := fst t in
  let yy := snd t in
  let m := store m (img + (channels * width * (starty + yy) + channels * (startx + xx) + 0))
             (u8 (CLAMP 0 (Z.shiftr (xx * (get1 colorH 0 - get1 colorO 0)
                                     + yy * (get1 colorV 0 - get1 colorO 0)
                                     + 4 * get1 colorO 0 + 2) 2) 255)) in
  let m := store m (img + (channels * width * (starty + yy) + channels * (startx + xx) + 1))
             (u8 (CLAMP 0 (Z.shiftr (xx * (get1 colorH 1 - get1 colorO 1)
                                     + yy * (get1 colorV 1 - get1 colorO 1)
                                     + 4 * get1 colorO 1 + 2) 2) 255)) in
  let m := store m (img + (channels * width * (starty + yy) + channels * (startx + xx) + 2))
             (u8 (CLAMP 0 (Z.shiftr (xx * (get1 colorH 2 - get1 colorO 2)
                                     + yy * (get1 colorV 2 - get1 colorO 2)
                                     + 4 * get1 colorO 2 + 2) 2) 255)) in
  m.

(** ** The T, H and planar blocks as they lie in the file *)

(** The fields of the three modes read from the 64 bits of the block
    before unstuffing, and the colors they stand for. *)
Module Layout.

(** T mode. The two base colors have 4 bits per channel: the first one's
    red is split in two (bits 60-59 and 57-56), its green and blue are
    bits 55-52 and 51-48; the second one's channels are bits 47-44, 43-40
    and 39-36. The distance index is bits 35-34 and bit 32. *)
Definition T_base (block_part1 k c : Z) : Z :=
  if k =? 0 then
    (if c =? 0 then GETBITSHIGH block_part1 2 60 * 4 + GETBITSHIGH block_part1 2 57
     else GETBITSHIGH block_part1 4 (59 - 4 * c))
  else GETBITSHIGH block_part1 4 (47 - 4 * c).

Definition T_distance (block_part1 : Z) : Z :=
  get1 table59T (GETBITSHIGH block_part1 2 35 * 2 + GETBITSHIGH block_part1 1 32).

(** The four paint colors of a T block: the first base color, the second
    one plus the distance, the second one, the second one minus the
    distance. *)
Definition T_paint (block_part1 index c : Z) : Z :=
  let c0 := 17 * T_base block_part1 0 c in
  let c1 := 17 * T_base block_part1 1 c in
  let d := T_distance block_part1 in
  if index =? 0 then c0
  else if index =? 1 then CLAMP 0 (c1 + d) 255
  else if index =? 2 then c1
  else CLAMP 0 (c1 - d) 255.

(** H mode. The first base color is [R0] in bits 62-59, [G0] in bits 58-56
    and 52, [B0] in bits 51 and 49-47; the second one is bits 46-43, 42-39
    and 38-35. Two bits of the distance index are stored (bits 34 and 32);
    its lowest bit is the order of the two base colors read as 12-bit
    numbers. *)
Definition H_base (block_part1 k c : Z) : Z :=
  if k =? 0 then
    (if c =? 0 then GETBITSHIGH block_part1 4 62
     else if c =? 1 then GETBITSHIGH block_part1 3 58 * 2 + GETBITSHIGH block_part1 1 52
     else GETBITSHIGH block_part1 1 51 * 8 + GETBITSHIGH block_part1 3 49)
  else GETBITSHIGH block_part1 4 (46 - 4 * c).

Definition H_color12 (block_part1 k : Z) : Z :=
  H_base block_part1 k 0 * 256 + H_base block_part1 k 1 * 16 + H_base block_part1 k 2.

Definition H_distance (block_part1 : Z) : Z :=
  get1 table58H
    ((GETBITSHIGH block_part1 1 34 * 2 + GETBITSHIGH block_part1 1 32) * 2
     + (if H_color12 block_part1 0 >=? H_color12 block_part1 1 then 1 else 0)).

(** The four paint colors of an H block: each base color plus and minus
    the distance. *)
Definition H_paint (block_part1 index c : Z) : Z :=
  let c0 := 17 * H_base block_part1 0 c in
  let c1 := 17 * H_base block_part1 1 c in
  let d := H_distance block_part1 in
  if index =? 0 then CLAMP 0 (c0 + d) 255
  else if index =? 1 then CLAMP 0 (c0 - d) 255
  else if index =? 2 then CLAMP 0 (c1 + d) 255
  else CLAMP 0 (c1 - d) 255.

(** Planar mode. Three colors with 6 bits of red, 7 of green and 6 of
    blue: the origin [O], the color [H] at the right end of the top row
    and the color [V] at the lower end of the left column. *)
Definition P_origin (block_part1 c : Z) : Z :=
  if c =? 0 then GETBITSHIGH block_part1 6 62
  else if c =? 1 then GETBITSHIGH block_part1 1 56 * 64 + GETBITSHIGH block_part1 6 54
  else GETBITSHIGH block_part1 1 48 * 32 + GETBITSHIGH block_part1 2 44 * 8
       + GETBITSHIGH block_part1 3 41.

Definition P_horizontal (block_part1 block_part2 c : Z) : Z :=
  if c =? 0 then GETBITSHIGH block_part1 5 38 * 2 + GETBITSHIGH block_part1 1 32
  else if c =? 1 then GETBITS block_part2 7 31
  else GETBITS block_part2 6 24.

Definition P_vertical (block_part2 c : Z) : Z :=
  if c =? 0 then GETBITS block_part2 6 18
  else if c =? 1 then GETBITS block_part2 7 12
  else GETBITS block_part2 6 5.

(** Expansion to 8 bits: the top bits are repeated below the value. *)
Definition P_expand (c v : Z) : Z :=
  if c =? 1 then 2 * v + v / 64 else 4 * v + v / 16.

(** The color of texel [(dx, dy)]: the plane through the three colors,
    rounded and clamped. *)
Definition P_texel (block_part1 block_part2 dx dy c : Z) : Z :=
  let O := P_expand c (P_origin block_part1 c) in
  let H := P_expand c (P_horizontal block_part1 block_part2 c) in
  let V := P_expand c (P_vertical block_part2 c) in
  CLAMP 0 ((dx * (H - O) + dy * (V - O) + 4 * O + 2) / 4) 255.

End Layout.

(** ** The punch-through T and H decoders *)

(** What the loop nest of the punch-through T and H decoders does at
    texel [t]. *)
Definition thumb_alpha_write (paint_colors : list (list Z))
    (block_part2 img alpha width startx starty channelsRGB channelsA : Z)
    (t : Z * Z) (m : mem) : mem :=
  let x := fst t in
  let y := snd t in
  let block_mask := block_mask_at block_part2 x y in
  let m := store m (img + (channelsRGB * ((starty + y) * width + startx + x) + R))
             (u8 (CLAMP 0 (get2 paint_colors block_mask R) 255)) in
  let m := store m (img + (channelsRGB * ((starty + y) * width + startx + x) + G))
             (u8 (CLAMP 0 (get2 paint_colors block_mask G) 255)) in
  let m := store m (img + (channelsRGB * ((starty + y) * width + startx + x) + B))
             (u8 (CLAMP 0 (get2 paint_colors block_mask B) 255)) in
  if block_mask =? 2 then
    let m := store m (alpha + channelsA * (x + startx + (y + starty) * width)) 0 in
    let m := store m (img + (channelsRGB * ((starty + y) * width + startx + x) + R)) 0 in
    let m := store m (img + (channelsRGB * ((starty + y) * width + startx + x) + G)) 0 in
    let m := store m (img + (channelsRGB * ((starty + y) * width + startx + x) + B)) 0 in
    m
  else
    store m (alpha + channelsA * (x + startx + (y + starty) * width)) 255.

(** The paint color of a T or H block. *)
Definition TH_paint (mode : EncodingMode) (block_part1 index c : Z) : Z :=
  match mode with
  | ModeT => Layout.T_paint block_part1 index c
  | _ => Layout.H_paint block_part1 index c
  end.

(** ** The index stream of an alpha block *)

(** The index [decompressBlockAlphaC] reads for texel number [k]: when the
    loops reach that texel, three bits per texel have been consumed. *)
Definition alpha_stream_index (data : list byte) (k : Z) : Z :=
  fst (alpha_index data {| ac_img := fun _ => 0;
                           ac_bit := Z.rem (3 * k) 8;
                           ac_byte := 2 + Z.quot (3 * k) 8 |}).

(** What the loops of [decompressBlockAlphaC] do at texel [t]. *)
Definition alpha_write (g : alpha_globals) (data : list byte)
    (img width ix iy channels : Z) (t : Z * Z) (m : mem) : mem :=
  store m (img + (ix + fst t + (iy + snd t) * width) * channels)
    (u8 (clamp (byte_at data 0
                + get2 (alphaTable g) (byte_at data 1)
                    (alpha_stream_index data (4 * fst t + snd t))))).

(** The 48 index bits of an alpha block read as one number, the first of
    the six bytes being the most significant. *)
Definition alpha_bits (data : list byte) : Z :=
  byte_at data 2 * 2 ^ 40 + byte_at data 3 * 2 ^ 32 + byte_at data 4 * 2 ^ 24
  + byte_at data 5 * 2 ^ 16 + byte_at data 6 * 2 ^ 8 + byte_at data 7.

(** The 3-bit index of texel [(dx, dy)]: the texels follow each other
    column by column from the most significant bits down. *)
Definition alpha_texel_index (data : list byte) (dx dy : Z) : Z :=
  (alpha_bits data / 2 ^ (45 - 3 * (4 * dx + dy))) mod 8.

(** ** The 11-bit value functions (lines 1894-1971) *)

(** conversion to [uint16] / [int16] *)
Definition u16 (x : Z) : Z := x mod 65536.
Definition s16 (x : Z) : Z := (x + 32768) mod 65536 - 32768.

(** Does decompression and then immediately converts from 11 bit signed to
    a 16-bit format. *)
Definition get16bits11signed (base table mul index : Z) : Z :=
  let elevenbase := base - 128 in
  let elevenbase := if elevenbase =? -128 then -127 else elevenbase in
  let elevenbase := elevenbase * 8 in
  (* i want the positive value here *)
  let tabVal := - get2 alphaBase table (3 - Z.rem index 4) - 1 in
  (* and the sign, please *)
  let sign := 1 - Z.quot index 4 in
  let tabVal := if truthy sign then tabVal + 1 else tabVal in
  let elevenTabVal := tabVal * 8 in
  let elevenTabVal :=
    if negb (mul =? 0) then elevenTabVal * mul else Z.quot elevenTabVal 8 in
  let elevenTabVal := if truthy sign then - elevenTabVal else elevenTabVal in
  (* calculate sum *)
  let elevenbits := elevenbase + elevenTabVal in
  (* clamp.. *)
  let elevenbits :=
    if elevenbits >=? 1024 then 1023
    else if elevenbits <? -1023 then -1023
    else elevenbits in
  (* this is the value we would actually output.. but there aren't any
     good 11-bit file or uncompressed GL formats so we extend to 15 bits
     signed. *)
  let sign := if elevenbits <? 0 then 1 else 0 in
  let elevenbits := Z.abs elevenbits in
  let fifteenbits := s16 (Z.shiftl elevenbits 5 + Z.shiftr elevenbits 5) in
  let sixteenbits := s16 fifteenbits in
  let sixteenbits := if truthy sign then s16 (- sixteenbits) else sixteenbits in
  sixteenbits.

(** Calculates the 11 bit value represented by base, table, mul and index,
    and extends it to 16 bits. *)
Definition get16bits11bits (base table mul index : Z) : Z :=
  let elevenbase := base * 8 + 4 in
  (* i want the positive value here *)
  let tabVal := - get2 alphaBase table (3 - Z.rem index 4) - 1 in
  (* and the sign, please *)
  let sign := 1 - Z.quot index 4 in
  let tabVal := if truthy sign then tabVal + 1 else tabVal in
  let elevenTabVal := tabVal * 8 in
  let elevenTabVal :=
    if negb (mul =? 0) then elevenTabVal * mul else Z.quot elevenTabVal 8 in
  let elevenTabVal := if truthy sign then - elevenTabVal else elevenTabVal in
  (* calculate sum *)
  let elevenbits := elevenbase + elevenTabVal in
  (* clamp.. *)
  let elevenbits :=
    if elevenbits >=? 256 * 8 then 256 * 8 - 1
    else if elevenbits <? 0 then 0
    else elevenbits in
  (* elevenbits now contains the 11 bit alpha value as defined in the spec. *)
  (* extend to 16 bits before returning, since we don't have any good
     11-bit file formats. *)
  let sixteenbits := u16 (Z.shiftl elevenbits 5 + Z.shiftr elevenbits 6) in
  sixteenbits.

(** The modifier both 11-bit functions add to the base: the seed entry of
    the 8-bit codec, multiplied by [8 * mul], or taken as it is when [mul]
    is 0. *)
Definition eleven_modifier (table mul index : Z) : Z :=
  seed table index * (if mul =? 0 then 1 else 8 * mul).

(** The lines the two functions share: the table value with its sign. *)
Definition eleven_tabval (table mul index : Z) : Z :=
  let tabVal := - get2 alphaBase table (3 - Z.rem index 4) - 1 in
  let sign := 1 - Z.quot index 4 in
  let tabVal := if truthy sign then tabVal + 1 else tabVal in
  let elevenTabVal := tabVal * 8 in
  let elevenTabVal :=
    if negb (mul =? 0) then elevenTabVal * mul else Z.quot elevenTabVal 8 in
  if truthy sign then - elevenTabVal else elevenTabVal.

(** ** The container reader and the assembler: what they leave alone, what they accept *)

(** The slots the loop has left alone after [n] levels. *)
Definition levels_frame (arrays : KTX_arrays) (base_level : Z) (n : nat)
    (a : KTX_arrays) : Prop :=
  (forall l : Z, l < 0 \/ Z.of_nat n <= l ->
     buffers a !! l = buffers arrays !! l /\ widths a !! l = widths arrays !! l
     /\ heights a !! l = heights arrays !! l /\ formats a !! l = formats arrays !! l
     /\ sizes a !! l = sizes arrays !! l)
  /\ (forall l : Z, l < base_level ->
        widths a !! l = widths arrays !! l /\ heights a !! l = heights arrays !! l
        /\ formats a !! l = formats arrays !! l /\ sizes a !! l = sizes arrays !! l).

(** The source formats the [switch] of [KTXUnpackETC] has a case for. *)
Definition supported (srcFormat : Z) : Prop :=
  srcFormat = GL_ETC1_RGB8_OES \/ srcFormat = GL_COMPRESSED_RGB8_ETC2
  \/ srcFormat = GL_COMPRESSED_RGBA8_ETC2_EAC.

(** ** Blocks and tiles *)

(** Channel [c] of texel [(dx, dy)] of a color block, as
    [decompressBlockETC2c] decodes the block into an image of its own,
    one block wide, with three channels. *)
Definition decoded_texel (block_part1 block_part2 dx dy c : Z) : Z :=
  match decompressBlockETC2c block_part1 block_part2 0 4 4 0 0 3 (fun _ => 0) with
  | Some m => m (texel_addr 0 4 0 0 3 dx dy c)
  | None => 0
  end.

(** The bytes a 4 x 4 tile takes in the source of [KTXUnpackETC]: an alpha
    block followed by a color block for RGBA, a color block otherwise. *)
Definition tile_bytes (fmt : unpack_format) : Z :=
  if alphaFormat_eqb (alphaFormat fmt) AF_8BIT then 16 else 8.

(** The source from tile [(tx, ty)] on; a row of the image has [tiles]
    tiles. *)
Definition tile_source (fmt : unpack_format) (srcETC : list byte) (tiles tx ty : Z)
  : list byte :=
  drop (Z.to_nat (tile_bytes fmt * (ty * tiles + tx))) srcETC.

(** The color block of a tile. *)
Definition tile_color (fmt : unpack_format) (tile : list byte) : list byte :=
  if alphaFormat_eqb (alphaFormat fmt) AF_8BIT then drop 8 tile else tile.

(** The image holds tile [(tx, ty)] as decoded from [tile]. *)
Definition tile_ok (g : alpha_globals) (fmt : unpack_format) (width : Z)
    (tile : list byte) (img : mem) (tx ty : Z) : Prop :=
  forall dx dy, 0 <= dx < 4 -> 0 <= dy < 4 ->
    (forall c, 0 <= c < 3 ->
       img (texel_addr 0 width (4 * tx) (4 * ty) (dstChannels fmt) dx dy c)
       = decoded_texel (readBigEndian4byteWord (tile_color fmt tile))
           (readBigEndian4byteWord (drop 4 (tile_color fmt tile))) dx dy c)
    /\ (alphaFormat fmt = AF_8BIT ->
        img (texel_addr 0 width (4 * tx) (4 * ty) (dstChannels fmt) dx dy 3)
        = clamp (byte_at tile 0
                 + get2 (alphaTable g) (byte_at tile 1) (alpha_texel_index tile dx dy))).

(** The state of the block loops of [KTXUnpackETC] when the rows of tiles
    before [y] and the tiles before [x] of row [y] are done. *)
Definition tiles_done (g : alpha_globals) (fmt : unpack_format) (srcETC : list byte)
    (width tiles y x : Z) (st : unpack_state) : Prop :=
  us_src st = tile_source fmt srcETC tiles x y
  /\ forall tx ty, 0 <= tx < tiles -> 0 <= ty ->
       ty < y \/ (ty = y /\ tx < x) ->
       tile_ok g fmt width (tile_source fmt srcETC tiles tx ty) (us_img st) tx ty.

(** ** Files that differ in header fields *)

(** The loop state of [LoadKTX] with the bytes of another file under the
    same cursor. *)
Definition with_bytes (bytes : list byte) (st : level_state) : level_state :=
  {| ls_file := {| f_bytes := bytes; f_pos := f_pos (ls_file st) |};
     ls_x := ls_x st; ls_y := ls_y st; ls_arrays := ls_arrays st |}.

(** Two files that differ at most in the header fields [identifier],
    [glType], [glTypeSize], [glFormat] and [glBaseInternalFormat]: the
    bytes 0 to 11, 16 to 27 and 32 to 35. *)
Definition same_but_unread_fields (bytes bytes' : list byte) : Prop :=
  take 4 (drop 12 bytes) = take 4 (drop 12 bytes')
  /\ take 4 (drop 28 bytes) = take 4 (drop 28 bytes')
  /\ drop 36 bytes = drop 36 bytes'.

(** ** Sample inputs *)

Module Sample.

Definition bytes_of (l : list Z) : list byte :=
  map (fun z => default "000"%byte (Byte.of_N (Z.to_N z))) l.

(** A [uint32_t] as it lies in the file. *)
Definition word (z : Z) : list Z :=
  [z mod 256; z / 256 mod 256; z / 65536 mod 256; z / 16777216 mod 256].

(** A KTX header: twelve identifier bytes and thirteen words. *)
Definition header (internal_format width height levels : Z) : list Z :=
  [0xAB; 0x4B; 0x54; 0x58; 0x20; 0x31; 0x31; 0xBB; 0x0D; 0x0A; 0x1A; 0x0A]
  ++ word KTX_ENDIAN_REF ++ word 0 ++ word 1 ++ word 0 ++ word internal_format
  ++ word 0 ++ word width ++ word height ++ word 0 ++ word 0 ++ word 1
  ++ word levels ++ word 0.

(** Three levels of 8, 4 and 4 bytes. *)
Definition three_levels : list byte :=
  bytes_of (header GL_COMPRESSED_RGB8_ETC2 256 256 3
            ++ word 8 ++ [1; 1; 1; 1; 1; 1; 1; 1]
            ++ word 4 ++ [2; 2; 2; 2]
            ++ word 4 ++ [3; 3; 3; 3]).

(** A first level that declares 6 bytes. *)
Definition unaligned_level : list byte :=
  bytes_of (header GL_COMPRESSED_RGB8_ETC2 256 256 3
            ++ word 6 ++ [1; 1; 1; 1; 1; 1; 1; 1]).

Definition no_arrays : KTX_arrays :=
  {| buffers := ∅; widths := ∅; heights := ∅; formats := ∅; sizes := ∅ |}.

Definition any_malloc : Z -> bool := fun _ => true.

Definition loaded_low : KTX_loaded :=
  match LoadKTX (Some three_levels) any_malloc no_arrays kLow 0 with
  | inr out => out
  | inl _ => {| ld_arrays := no_arrays; ld_base_level := 0;
                ld_file := {| f_bytes := []; f_pos := 0 |} |}
  end.

(** Four individual-mode blocks: a 6 x 5 image padded to 8 x 8. *)
Definition four_blocks : list byte :=
  bytes_of [ 0x88; 0x88; 0x88; 0; 255; 255; 255; 255;
             0x44; 0x44; 0x44; 0; 255; 255; 255; 255;
             0x22; 0x22; 0x22; 0; 255; 255; 255; 255;
             0x11; 0x11; 0x11; 0; 255; 255; 255; 255 ].

Definition blank : mem := fun _ => 0.

Definition padded_6x5 : unpack_padded :=
  match KTXUnpackETC_decode alpha_globals_init any_malloc blank four_blocks
          GL_COMPRESSED_RGB8_ETC2 6 5 with
  | inr p => p
  | inl _ => {| up_format := {| dstChannelBytes := 0; dstChannels := 0; out_format := 0;
                                out_type := 0; alphaFormat := AF_NONE |};
                up_width := 0; up_height := 0;
                up_image := {| buf_size := 0; buf_mem := blank |};
                up_globals := alpha_globals_init |}
  end.

Definition unpacked_6x5 : unpacked :=
  match KTXUnpackETC alpha_globals_init any_malloc blank blank four_blocks
          GL_COMPRESSED_RGB8_ETC2 6 5 with
  | inr out => out
  | inl _ => {| dstImage := {| buf_size := 0; buf_mem := blank |}; format := 0;
                type_ := 0; globals := alpha_globals_init |}
  end.

(** An alpha block with base 100 and table selector 3. *)
Definition alpha_block : list byte := bytes_of [100; 3; 1; 2; 3; 4; 5; 6].

End Sample.

(** ** Sample blocks and files *)

Module Inputs.

(** The second word of a color block: sixteen 2-bit texel indices; texel
    [(1, 0)] has index 2 and texel [(1, 2)] has index 1. *)
Definition block_part2 : Z := 0x1234ABCD.

(** First words that the dispatchers route to the T, the H and the planar
    mode; bit 33 is set. *)
Definition T_block_part1 : Z := 0xFBA5C36A.
Definition H_block_part1 : Z := 0x12FB5A36.
Definition planar_block_part1 : Z := 0x1234FB96.

(** The T and the H block with bit 33 cleared. *)
Definition T_punchthrough_part1 : Z := 0xFBA5C368.
Definition H_punchthrough_part1 : Z := 0x12FB5A34.

(** An alpha block: base 100, multiplier 2 with table 5, and sixteen
    indices. *)
Definition alpha_block : list byte :=
  Sample.bytes_of [100; 0x25; 0x12; 0x34; 0x56; 0x78; 0x9A; 0xBC].

(** A file with one level of 8 bytes. *)
Definition one_level : list byte :=
  Sample.bytes_of (Sample.header GL_COMPRESSED_RGB8_ETC2 4 4 1
                   ++ Sample.word 8 ++ [1; 1; 1; 1; 1; 1; 1; 1]).

(** A file that ends inside its second level: the level declares 4 bytes
    and 2 are there. *)
Definition truncated : list byte :=
  Sample.bytes_of (Sample.header GL_COMPRESSED_RGB8_ETC2 256 256 3
                   ++ Sample.word 8 ++ [1; 1; 1; 1; 1; 1; 1; 1]
                   ++ Sample.word 4 ++ [2; 2]).

(** The loop state of [LoadKTX] on [truncated] after level 0. *)
Definition truncated_after_level_0 : level_state :=
  {| ls_file := {| f_bytes := truncated; f_pos := 76 |};
     ls_x := 128; ls_y := 128;
     ls_arrays := {| buffers := <[0 := Some (Sample.bytes_of [1; 1; 1; 1; 1; 1; 1; 1])]> ∅;
                     widths := <[0 := 256]> ∅;
                     heights := <[0 := 256]> ∅;
                     formats := <[0 := kETC2_RGB]> ∅;
                     sizes := <[0 := 8]> ∅ |} |}.

(** Arrays that hold entries from an earlier load. *)
Definition used_arrays : KTX_arrays :=
  {| buffers := <[3 := Some (Sample.bytes_of [7; 7; 7; 7])]> ∅;
     widths := <[1 := 99]> (<[3 := 32]> ∅);
     heights := <[1 := 99]> (<[3 := 32]> ∅);
     formats := <[3 := kETC1]> ∅;
     sizes := <[1 := 99]> (<[3 := 4]> ∅) |}.

Definition loaded_over_used : KTX_loaded :=
  match LoadKTX (Some Sample.three_levels) Sample.any_malloc used_arrays kLow 0 with
  | inr out => out
  | inl _ => {| ld_arrays := used_arrays; ld_base_level := 0;
                ld_file := {| f_bytes := []; f_pos := 0 |} |}
  end.

(** [Sample.three_levels] with zeros for the identifier and ones in the
    fields [glType], [glTypeSize], [glFormat] and [glBaseInternalFormat]. *)
Definition no_identifier : list byte :=
  Sample.bytes_of ([0; 0; 0; 0; 0; 0; 0; 0; 0; 0; 0; 0]
                   ++ Sample.word KTX_ENDIAN_REF ++ Sample.word 1 ++ Sample.word 1
                   ++ Sample.word 1 ++ Sample.word GL_COMPRESSED_RGB8_ETC2
                   ++ Sample.word 1 ++ Sample.word 256 ++ Sample.word 256
                   ++ Sample.word 0 ++ Sample.word 0 ++ Sample.word 1
                   ++ Sample.word 3 ++ Sample.word 0
                   ++ Sample.word 8 ++ [1; 1; 1; 1; 1; 1; 1; 1]
                   ++ Sample.word 4 ++ [2; 2; 2; 2]
                   ++ Sample.word 4 ++ [3; 3; 3; 3]).

(** A first word with 5-bit bases and differences that stay in range, bit
    33 clear. *)
Definition differential_punchthrough_part1 : Z := 0x5A6B7C5C.

End Inputs.

(** * Properties *)

(** ** The alpha modifier table *)

Section AlphaTable.

Lemma nth_map_seq {A : Type} (f : nat -> A) (n i : nat) (d : A) :
  (i < n)%nat -> nth i (map f (seq 0 n)) d = f i.
Proof.
  intros Hi. rewrite (nth_indep _ d (f 0%nat)) by now rewrite length_map, length_seq.
  rewrite (map_nth f). now rewrite seq_nth.
Qed.

Lemma table_shape_tabulate (t : list (list Z)) :
  table_shape t ->
  t = tabulate (fun i j => nth j (nth i t []) 0).
Proof.
  intros [Hlen Hrows]. unfold tabulate.
  apply (nth_ext _ _ [] []).
  - now rewrite length_map, length_seq.
  - intros i Hi. rewrite Hlen in Hi.
    rewrite nth_map_seq by assumption.
    assert (Hrow : length (nth i t []) = 8%nat).
    { rewrite Forall_forall in Hrows. apply Hrows.
      apply list_elem_of_In, nth_In. now rewrite Hlen. }
    apply (nth_ext _ _ 0 0).
    + now rewrite length_map, length_seq.
    + intros j Hj. rewrite Hrow in Hj.
      now rewrite nth_map_seq.
Qed.

(** The build overwrites every entry: its result does not depend on what
    the array held before. *)
Lemma setupAlphaTable_tabulate (f : nat -> nat -> Z) :
  alphaTable (setupAlphaTable {| alphaTableInitialized := 0; alphaTable := tabulate f |})
  = built_table.
Proof. vm_compute. reflexivity. Qed.

Lemma setupAlphaTable_first_call (ini : Z) (t : list (list Z)) :
  ini = 0 ->
  setupAlphaTable {| alphaTableInitialized := ini; alphaTable := t |}
  = {| alphaTableInitialized := 1;
       alphaTable := alphaTable (setupAlphaTable {| alphaTableInitialized := 0; alphaTable := t |}) |}.
Proof.
  intros ->. unfold setupAlphaTable.
  cbv beta iota delta [alphaTableInitialized alphaTable truthy Z.eqb negb].
  reflexivity.
Qed.

Lemma setupAlphaTable_built (g : alpha_globals) :
  alphaTableInitialized g = 0 -> table_shape (alphaTable g) ->
  setupAlphaTable g = {| alphaTableInitialized := 1; alphaTable := built_table |}.
Proof.
  destruct g as [ini t]. cbn [alphaTableInitialized alphaTable]. intros Hini Hshape.
  rewrite setupAlphaTable_first_call by assumption.
  f_equal.
  rewrite (table_shape_tabulate t Hshape).
  apply setupAlphaTable_tabulate.
Qed.

Lemma In_range (lo v : Z) (n : nat) :
  lo <= v < lo + Z.of_nat n -> In v (range lo n).
Proof.
  intros Hv. unfold range. apply in_map_iff. exists (Z.to_nat (v - lo)). split.
  - lia.
  - apply in_seq. lia.
Qed.

Lemma built_table_rows (i j : Z) :
  16 <= i <= 255 -> 0 <= j < 8 ->
  get2 built_table i j = seed ((i - 16) mod 16) j * (i / 16).
Proof.
  intros Hi Hj.
  assert (Hall : forallb (fun i => forallb (fun j =>
                    get2 built_table i j =? seed ((i - 16) mod 16) j * (i / 16))
                    (range 0 8)) (range 16 240) = true)
    by (vm_compute; reflexivity).
  rewrite forallb_forall in Hall.
  specialize (Hall i (In_range 16 i 240 ltac:(lia))).
  rewrite forallb_forall in Hall.
  specialize (Hall j (In_range 0 j 8 ltac:(lia))).
  now apply Z.eqb_eq.
Qed.

Lemma built_table_low_rows (i j : Z) :
  0 <= i < 16 -> get2 built_table i j = 0.
Proof.
  intros Hi.
  assert (Hrows : forallb (fun i => forallb (Z.eqb 0) (nth (Z.to_nat i) built_table []))
                    (range 0 16) = true)
    by (vm_compute; reflexivity).
  rewrite forallb_forall in Hrows.
  specialize (Hrows i (In_range 0 i 16 ltac:(lia))).
  rewrite forallb_forall in Hrows.
  unfold get2.
  destruct (nth_in_or_default (Z.to_nat j) (nth (Z.to_nat i) built_table []) 0)
    as [Hin | ->]; [| reflexivity].
  symmetry. now apply Z.eqb_eq, Hrows.
Qed.

Lemma built_table_shape : table_shape built_table.
Proof.
  split; [reflexivity |].
  apply Forall_forall. intros row Hrow.
  apply list_elem_of_In in Hrow.
  assert (Hall : forallb (fun row => Nat.eqb (length row) 8) built_table = true)
    by (vm_compute; reflexivity).
  rewrite forallb_forall in Hall. now apply Nat.eqb_eq, Hall.
Qed.

(** Once the flag is set a call changes nothing. *)
Lemma setupAlphaTable_initialized (g : alpha_globals) :
  alphaTableInitialized g <> 0 -> setupAlphaTable g = g.
Proof.
  intros Hini. unfold setupAlphaTable, truthy.
  apply Z.eqb_neq in Hini. now rewrite Hini.
Qed.

Lemma setupAlphaTable_idempotent (g : alpha_globals) :
  setupAlphaTable (setupAlphaTable g) = setupAlphaTable g.
Proof.
  destruct (Z.eq_dec (alphaTableInitialized g) 0) as [Hini | Hini].
  - destruct g as [ini t]. change (ini = 0) in Hini.
    rewrite (setupAlphaTable_first_call ini t Hini).
    apply setupAlphaTable_initialized. change (1 <> 0). lia.
  - rewrite (setupAlphaTable_initialized g Hini).
    exact (setupAlphaTable_initialized g Hini).
Qed.

(** Whatever calls came before, a call leaves the built table. *)
Lemma alpha_reachable_setup (g : alpha_globals) :
  alpha_reachable g ->
  setupAlphaTable g = {| alphaTableInitialized := 1; alphaTable := built_table |}.
Proof.
  induction 1 as [t Hshape | g Hreach IH].
  - now apply setupAlphaTable_built.
  - now rewrite setupAlphaTable_idempotent.
Qed.

End AlphaTable.

(** C5. After [setupAlphaTable], entry [j] of every row [i] from 16 to 255
    is the seed entry [seed[(i-16)%16][j]] times [i/16], and calling
    [setupAlphaTable] again changes nothing. *)
Theorem setupAlphaTable_rows_and_idempotence (g : alpha_globals) (i j : Z) :
  alpha_reachable g ->
  16 <= i <= 255 -> 0 <= j < 8 ->
  get2 (alphaTable (setupAlphaTable g)) i j = seed ((i - 16) mod 16) j * (i / 16)
  /\ setupAlphaTable (setupAlphaTable g) = setupAlphaTable g.
Proof.
  intros Hreach Hi Hj. split.
  - rewrite alpha_reachable_setup by assumption. cbn [alphaTable].
    now apply built_table_rows.
  - apply setupAlphaTable_idempotent.
Qed.

(** ** Bit fields *)

Section BitFields.

Lemma GETBITS_range (source size startpos : Z) :
  0 <= size -> 0 <= GETBITS source size startpos < 2 ^ size.
Proof.
  intros Hs. unfold GETBITS.
  change (Z.shiftl 1 size - 1) with (Z.ones size).
  rewrite Z.land_ones by assumption.
  apply Z.mod_pos_bound. now apply Z.pow_pos_nonneg.
Qed.

Lemma GETBITSHIGH_range (source size startpos : Z) :
  0 <= size -> 0 <= GETBITSHIGH source size startpos < 2 ^ size.
Proof.
  intros Hs. unfold GETBITSHIGH.
  change (Z.shiftl 1 size - 1) with (Z.ones size).
  rewrite Z.land_ones by assumption.
  apply Z.mod_pos_bound. now apply Z.pow_pos_nonneg.
Qed.

(** A field read is a division and a remainder. *)
Lemma GETBITSHIGH_div_mod (source size startpos : Z) :
  0 <= size -> 0 <= (startpos - 32) - size + 1 ->
  GETBITSHIGH source size startpos
  = (source / 2 ^ ((startpos - 32) - size + 1)) mod 2 ^ size.
Proof.
  intros Hs Hp. unfold GETBITSHIGH.
  change (Z.shiftl 1 size - 1) with (Z.ones size).
  rewrite Z.land_ones by assumption.
  now rewrite Z.shiftr_div_pow2.
Qed.

(** A property checked on every value of a range holds on the range. *)
Lemma forall_range (P : Z -> bool) (lo : Z) (n : nat) :
  forallb P (range lo n) = true ->
  forall v, lo <= v < lo + Z.of_nat n -> P v = true.
Proof.
  intros Hall v Hv. rewrite forallb_forall in Hall. apply Hall.
  unfold range. apply in_map_iff. exists (Z.to_nat (v - lo)). split.
  - lia.
  - apply in_seq. lia.
Qed.

(** Two stored bits shifted left by one, with a computed low bit. *)
Lemma lor_shift_bit (stored : Z) (low : bool) :
  0 <= stored < 4 ->
  let d := Z.lor (Z.shiftl stored 1) (if low then 1 else 0) in
  Z.testbit d 0 = low /\ Z.shiftr d 1 = stored /\ 0 <= d < 8.
Proof.
  intros Hs.
  assert (Hc : stored = 0 \/ stored = 1 \/ stored = 2 \/ stored = 3) by lia.
  destruct low; destruct Hc as [-> | [-> | [-> | ->]]]; vm_compute;
    repeat split; congruence.
Qed.

Lemma get1_0 (a : Z) (l : list Z) : get1 (a :: l) 0 = a.
Proof. reflexivity. Qed.
Lemma get1_1 (a b : Z) (l : list Z) : get1 (a :: b :: l) 1 = b.
Proof. reflexivity. Qed.
Lemma get1_2 (a b c : Z) (l : list Z) : get1 (a :: b :: c :: l) 2 = c.
Proof. reflexivity. Qed.

End BitFields.

(** ** C3: the H-mode distance index *)

(** C3. The 3-bit distance index of [decompressBlockTHUMB58Hc] is the two
    stored distance bits (bits 33-32) shifted left by one, with its least
    significant bit set exactly when the packed color [col0] (bits 57-46)
    is greater than or equal to [col1] (bits 45-34). The low bit is a
    function of the comparison alone, and the decoder looks up its paint
    colors with that index. *)
Theorem distance58H_from_color_order
    (block_part1 block_part2 img width height startx starty channels : Z) (m : mem) :
  let stored := GETBITSHIGH block_part1 2 33 in
  let col0 := GETBITSHIGH block_part1 12 57 in
  let col1 := GETBITSHIGH block_part1 12 45 in
  let colors :=
    decompressColor R_BITS58H G_BITS58H B_BITS58H
      [ [ u8 (GETBITSHIGH block_part1 4 57); u8 (GETBITSHIGH block_part1 4 53);
          u8 (GETBITSHIGH block_part1 4 49) ];
        [ u8 (GETBITSHIGH block_part1 4 45); u8 (GETBITSHIGH block_part1 4 41);
          u8 (GETBITSHIGH block_part1 4 37) ] ] in
  distance58H block_part1 = Z.lor (Z.shiftl stored 1) (if col0 >=? col1 then 1 else 0)
  /\ Z.shiftr (distance58H block_part1) 1 = stored
  /\ (Z.testbit (distance58H block_part1) 0 = true <-> col0 >= col1)
  /\ 0 <= distance58H block_part1 < 8
  /\ decompressBlockTHUMB58Hc block_part1 block_part2 img width height startx starty
       channels m
     = option_map
         (fun paint_colors =>
            thumb_paint paint_colors block_part2 img width startx starty channels m)
         (calculatePaintColors58H
            (Z.lor (Z.shiftl stored 1) (if col0 >=? col1 then 1 else 0))
            PATTERN_H colors).
Proof.
  intros stored col0 col1 colors.
  assert (Hstored : 0 <= stored < 4) by (apply (GETBITSHIGH_range block_part1 2 33); lia).
  assert (Hd : distance58H block_part1
               = Z.lor (Z.shiftl stored 1) (if col0 >=? col1 then 1 else 0)).
  { unfold distance58H. fold stored col0 col1.
    assert (Hc : stored = 0 \/ stored = 1 \/ stored = 2 \/ stored = 3) by lia.
    destruct (col0 >=? col1); destruct Hc as [-> | [-> | [-> | ->]]]; reflexivity. }
  destruct (lor_shift_bit stored (col0 >=? col1) Hstored) as (Hbit & Hhigh & Hrange).
  split; [exact Hd |].
  split; [now rewrite Hd |].
  split.
  { rewrite Hd, Hbit. destruct (Z.geb_spec col0 col1) as [Hge | Hlt]; split; intros H.
    - lia.
    - reflexivity.
    - discriminate H.
    - lia. }
  split; [now rewrite Hd |].
  unfold decompressBlockTHUMB58Hc. rewrite Hd. fold colors.
  destruct (calculatePaintColors58H _ PATTERN_H colors); reflexivity.
Qed.

(** ** C9: the height argument *)

(** C9. None of the block decoders reads its [height] argument: two calls
    that differ only in [height] leave the same bytes at the same
    addresses. *)
Theorem decoders_ignore_height
    (block_part1 block_part2 img alpha width startx starty channels : Z)
    (g : alpha_globals) (data : list byte) (m : mem) (height1 height2 : Z) :
  decompressBlockETC2c block_part1 block_part2 img width height1 startx starty channels m
  = decompressBlockETC2c block_part1 block_part2 img width height2 startx starty channels m
  /\ decompressBlockDiffFlipC block_part1 block_part2 img width height1 startx starty channels m
     = decompressBlockDiffFlipC block_part1 block_part2 img width height2 startx starty channels m
  /\ decompressBlockTHUMB59Tc block_part1 block_part2 img width height1 startx starty channels m
     = decompressBlockTHUMB59Tc block_part1 block_part2 img width height2 startx starty channels m
  /\ decompressBlockTHUMB58Hc block_part1 block_part2 img width height1 startx starty channels m
     = decompressBlockTHUMB58Hc block_part1 block_part2 img width height2 startx starty channels m
  /\ decompressBlockPlanar57c block_part1 block_part2 img width height1 startx starty channels m
     = decompressBlockPlanar57c block_part1 block_part2 img width height2 startx starty channels m
  /\ decompressBlockDifferentialWithAlphaC block_part1 block_part2 img alpha width height1
       startx starty channels m
     = decompressBlockDifferentialWithAlphaC block_part1 block_part2 img alpha width height2
         startx starty channels m
  /\ decompressBlockAlphaC g data img width height1 startx starty channels m
     = decompressBlockAlphaC g data img width height2 startx starty channels m.
Proof.
  assert (HT : forall b1 b2,
             decompressBlockTHUMB59Tc b1 b2 img width height1 startx starty channels m
             = decompressBlockTHUMB59Tc b1 b2 img width height2 startx starty channels m)
    by (intros; unfold decompressBlockTHUMB59Tc; reflexivity).
  assert (HH : forall b1 b2,
             decompressBlockTHUMB58Hc b1 b2 img width height1 startx starty channels m
             = decompressBlockTHUMB58Hc b1 b2 img width height2 startx starty channels m)
    by (intros; unfold decompressBlockTHUMB58Hc; reflexivity).
  assert (HP : forall b1 b2,
             decompressBlockPlanar57c b1 b2 img width height1 startx starty channels m
             = decompressBlockPlanar57c b1 b2 img width height2 startx starty channels m)
    by (intros; unfold decompressBlockPlanar57c; reflexivity).
  assert (HD : decompressBlockDiffFlipC block_part1 block_part2 img width height1
                 startx starty channels m
               = decompressBlockDiffFlipC block_part1 block_part2 img width height2
                   startx starty channels m)
    by (unfold decompressBlockDiffFlipC; reflexivity).
  split.
  { unfold decompressBlockETC2c.
    destruct (etc2_route block_part1).
    - now rewrite HD.
    - now rewrite HD.
    - destruct (unstuff59bits block_part1 block_part2). apply HT.
    - destruct (unstuff58bits block_part1 block_part2). apply HH.
    - destruct (unstuff57bits block_part1 block_part2). now rewrite HP. }
  split; [exact HD |].
  split; [apply HT |].
  split; [apply HH |].
  split; [apply HP |].
  split.
  - unfold decompressBlockDifferentialWithAlphaC. reflexivity.
  - unfold decompressBlockAlphaC. reflexivity.
Qed.

(** ** C1: the mode dispatcher *)

Section Dispatch.

(** The [signed char] arithmetic of the dispatchers computes the base
    plus the sign-extended delta exactly. *)
Lemma signed_char_second_base (b d : Z) :
  0 <= b < 32 -> 0 <= d < 8 ->
  s8 (s8 b + extend_sign (s8 d)) = b + Spec.sign_extend3 d.
Proof.
  intros Hb Hd.
  pose (P := fun b => forallb (fun d =>
               s8 (s8 b + extend_sign (s8 d)) =? b + Spec.sign_extend3 d) (range 0 8)).
  assert (Hall : forallb P (range 0 32) = true) by (vm_compute; reflexivity).
  pose proof (forall_range P 0 32 Hall b ltac:(lia)) as HPb. unfold P in HPb.
  pose proof (forall_range _ 0 8 HPb d ltac:(lia)) as HPd. cbv beta in HPd.
  now apply Z.eqb_eq.
Qed.

Lemma second_base_color_spec (block_part1 : Z) :
  second_base_color block_part1
  = [ Spec.second_base block_part1 0; Spec.second_base block_part1 1;
      Spec.second_base block_part1 2 ].
Proof.
  unfold second_base_color, Spec.second_base, Spec.base5, Spec.delta3.
  cbn [map]. rewrite !get1_0, !get1_1, !get1_2.
  rewrite !GETBITSHIGH_div_mod by lia.
  repeat f_equal; apply signed_char_second_base;
    try (apply Z.mod_pos_bound; lia).
Qed.

Lemma diffbit_spec (block_part1 : Z) :
  GETBITSHIGH block_part1 1 33 = Spec.diffbit block_part1.
Proof. rewrite GETBITSHIGH_div_mod by lia. reflexivity. Qed.

Lemma flipbit_spec (block_part1 : Z) :
  GETBITSHIGH block_part1 1 32 = Spec.flipbit block_part1.
Proof.
  rewrite GETBITSHIGH_div_mod by lia. unfold Spec.flipbit.
  change (2 ^ (32 - 32 - 1 + 1)) with 1. now rewrite Z.div_1_r.
Qed.

End Dispatch.

(** C1. A block with [diffbit = 1] whose reconstructed second base color
    has a channel outside [0, 31] is sent by [decompressBlockETC2c] to the
    T decoder when red is out of range, otherwise to the H decoder when
    green is, otherwise to the planar decoder, each time on the unstuffed
    block, and never to the differential decoder. The punch-through
    dispatcher takes the same branch. *)
Theorem etc2_dispatch_out_of_range
    (block_part1 block_part2 img width height startx starty channels : Z) (m : mem) :
  Spec.diffbit block_part1 = 1 ->
  let red := Spec.second_base block_part1 0 in
  let green := Spec.second_base block_part1 1 in
  let blue := Spec.second_base block_part1 2 in
  Spec.out_of_range red || Spec.out_of_range green || Spec.out_of_range blue = true ->
  let mode :=
    if Spec.out_of_range red then ModeT
    else if Spec.out_of_range green then ModeH
    else ModePlanar in
  etc2_route block_part1 = mode
  /\ etc2_route block_part1 <> Differential
  /\ etc2_route block_part1 <> Individual
  /\ decompressBlockETC2c block_part1 block_part2 img width height startx starty channels m
     = match mode with
       | ModeT =>
           decompressBlockTHUMB59Tc
             (fst (unstuff59bits block_part1 block_part2))
             (snd (unstuff59bits block_part1 block_part2))
             img width height startx starty channels m
       | ModeH =>
           decompressBlockTHUMB58Hc
             (fst (unstuff58bits block_part1 block_part2))
             (snd (unstuff58bits block_part1 block_part2))
             img width height startx starty channels m
       | _ =>
           Some (decompressBlockPlanar57c
                   (fst (unstuff57bits block_part1 block_part2))
                   (snd (unstuff57bits block_part1 block_part2))
                   img width height startx starty channels m)
       end
  /\ etc21bitalpha_route block_part1 = mode.
Proof.
  intros Hdiff red green blue Hout mode.
  assert (Hroute : etc2_route block_part1 = mode).
  { unfold etc2_route. rewrite diffbit_spec, Hdiff. cbn [truthy Z.eqb negb].
    rewrite second_base_color_spec. rewrite !get1_0, !get1_1, !get1_2.
    fold red green blue. unfold mode, Spec.out_of_range in *.
    destruct ((red <? 0) || (red >? 31)); [reflexivity |].
    destruct ((green <? 0) || (green >? 31)); [reflexivity |].
    destruct ((blue <? 0) || (blue >? 31)); [reflexivity | discriminate Hout]. }
  assert (Hroute' : etc21bitalpha_route block_part1 = mode).
  { unfold etc21bitalpha_route.
    rewrite second_base_color_spec. rewrite !get1_0, !get1_1, !get1_2.
    fold red green blue. unfold mode, Spec.out_of_range in *.
    destruct ((red <? 0) || (red >? 31)); [reflexivity |].
    destruct ((green <? 0) || (green >? 31)); [reflexivity |].
    destruct ((blue <? 0) || (blue >? 31)); [reflexivity | discriminate Hout]. }
  split; [exact Hroute |].
  split; [rewrite Hroute; unfold mode; repeat destruct (Spec.out_of_range _); discriminate |].
  split; [rewrite Hroute; unfold mode; repeat destruct (Spec.out_of_range _); discriminate |].
  split; [| exact Hroute'].
  unfold decompressBlockETC2c. rewrite Hroute. unfold mode.
  destruct (Spec.out_of_range red).
  - destruct (unstuff59bits block_part1 block_part2); reflexivity.
  - destruct (Spec.out_of_range green).
    + destruct (unstuff58bits block_part1 block_part2); reflexivity.
    + destruct (unstuff57bits block_part1 block_part2); reflexivity.
Qed.

(** ** Pixel stores *)

Section Stores.

Lemma store_eq (m : mem) (a v : Z) : store m a v a = v.
Proof. unfold store. now rewrite Z.eqb_refl. Qed.

Lemma store_ne (m : mem) (a v a' : Z) : a' <> a -> store m a v a' = m a'.
Proof. intros Hne. unfold store. now apply Z.eqb_neq in Hne as ->. Qed.

Context {T : Type}.
(** [owns t a]: the pass over [t] may write address [a]. *)
Variable owns : T -> Z -> Prop.
Variable write : T -> mem -> mem.
Variable visited : list T.

Hypothesis owns_dec : forall t a, owns t a \/ ~ owns t a.
(** A pass writes only what it owns, *)
Hypothesis write_frame :
  forall t m a, ~ owns t a -> write t m a = m a.
(** what it leaves there does not depend on the store it started from, *)
Hypothesis write_determined :
  forall t m m' a, In t visited -> owns t a -> write t m a = write t m' a.
(** and no address is owned by two of the visited elements. *)
Hypothesis owns_disjoint :
  forall t t' a, In t visited -> In t' visited -> owns t a -> owns t' a -> t = t'.

Lemma fold_write_lookup_aux (l : list T) (t : T) (a : Z) (m : mem) :
  incl l visited -> In t l -> owns t a ->
  fold_left (fun m t => write t m) l m a = write t m a.
Proof.
  induction l as [| x l IH] using rev_ind; intros Hincl Hin Hown.
  - destruct Hin.
  - rewrite fold_left_app. cbn [fold_left].
    assert (Hx : In x visited) by (apply Hincl, in_or_app; right; now left).
    assert (Ht : In t visited) by now apply Hincl.
    assert (Hl : incl l visited) by (intros y Hy; apply Hincl, in_or_app; now left).
    destruct (owns_dec x a) as [Hox | Hnot].
    + rewrite (owns_disjoint x t a Hx Ht Hox Hown).
      apply write_determined; assumption.
    + rewrite write_frame by assumption.
      apply in_app_or in Hin as [Hin | [-> | []]].
      * now apply IH.
      * contradiction.
Qed.

(** After a pass over all of [visited], an address owned by [t] holds
    what the pass over [t] alone leaves there. *)
Lemma fold_write_lookup (t : T) (a : Z) (m : mem) :
  In t visited -> owns t a ->
  fold_left (fun m t => write t m) visited m a = write t m a.
Proof. apply fold_write_lookup_aux, incl_refl. Qed.

(** Addresses nobody owns are left alone. *)
Lemma fold_write_frame (l : list T) (a : Z) (m : mem) :
  (forall t, In t l -> ~ owns t a) ->
  fold_left (fun m t => write t m) l m a = m a.
Proof.
  induction l as [| x l IH] using rev_ind; intros Hnot; [reflexivity |].
  rewrite fold_left_app. cbn [fold_left].
  rewrite write_frame by (apply Hnot, in_or_app; right; now left).
  apply IH. intros t Ht. apply Hnot, in_or_app. now left.
Qed.

End Stores.

(** ** Block geometry *)

Section Geometry.

Variables img width startx starty channels : Z.
Hypothesis width_ge : 4 <= width.

(** Distinct texels of a block are distinct pixels of the image. *)
Lemma texel_pixel_inj (dx dy dx' dy' : Z) :
  0 <= dx < 4 -> 0 <= dy < 4 -> 0 <= dx' < 4 -> 0 <= dy' < 4 ->
  (starty + dy) * width + (startx + dx) = (starty + dy') * width + (startx + dx') ->
  dx = dx' /\ dy = dy'.
Proof.
  intros Hdx Hdy Hdx' Hdy' Heq.
  assert (Hy : dy = dy') by nia.
  subst dy'. split; [lia | reflexivity].
Qed.

(** Distinct channels of distinct texels have distinct addresses. *)
Lemma texel_addr_inj (dx dy c dx' dy' c' : Z) :
  0 <= dx < 4 -> 0 <= dy < 4 -> 0 <= dx' < 4 -> 0 <= dy' < 4 ->
  0 <= c < channels -> 0 <= c' < channels ->
  texel_addr img width startx starty channels dx dy c
  = texel_addr img width startx starty channels dx' dy' c' ->
  dx = dx' /\ dy = dy' /\ c = c'.
Proof.
  intros Hdx Hdy Hdx' Hdy' Hc Hc'. unfold texel_addr. intros Heq.
  assert (Hp : (starty + dy) * width + (startx + dx)
               = (starty + dy') * width + (startx + dx')) by nia.
  destruct (texel_pixel_inj dx dy dx' dy' Hdx Hdy Hdx' Hdy' Hp) as [-> ->].
  repeat split. lia.
Qed.

End Geometry.

(** ** C2: individual and differential mode *)

Section DiffFlip.

Lemma range_2_from (lo : Z) : range (lo + 2) 2 = [lo + 2; lo + 3].
Proof.
  unfold range. cbn [seq map].
  change (Z.of_nat 0) with 0. change (Z.of_nat 1) with 1.
  f_equal; [lia | f_equal; lia].
Qed.

Lemma diffflip_loops_as_pass (flipbit : Z) (avg_color1 : list Z) (table1 : Z)
    (avg_color2 : list Z) (table2 MSB LSB img width startx starty channels : Z)
    (m : mem) :
  diffflip_second flipbit avg_color2 table2 MSB LSB img width startx starty channels
    (diffflip_first flipbit avg_color1 table1 MSB LSB img width startx starty channels m)
  = fold_left
      (fun m t => diffflip_write flipbit avg_color1 table1 avg_color2 table2
                    MSB LSB img width startx starty channels t m)
      (texel_order flipbit) m.
Proof.
  unfold diffflip_first, diffflip_second, texel_order, diffflip_write, in_first_group,
    for_count.
  rewrite !range_2_from.
  destruct (flipbit =? 0); reflexivity.
Qed.

Lemma texel_order_complete (flipbit dx dy : Z) :
  0 <= dx < 4 -> 0 <= dy < 4 -> In (dx, dy) (texel_order flipbit).
Proof.
  intros Hdx Hdy. unfold texel_order.
  assert (Hx : dx = 0 \/ dx = 1 \/ dx = 2 \/ dx = 3) by lia.
  assert (Hy : dy = 0 \/ dy = 1 \/ dy = 2 \/ dy = 3) by lia.
  destruct (flipbit =? 0);
    destruct Hx as [-> | [-> | [-> | ->]]]; destruct Hy as [-> | [-> | [-> | ->]]];
    cbn [In]; tauto.
Qed.

Lemma texel_order_range (flipbit : Z) (t : Z * Z) :
  In t (texel_order flipbit) -> 0 <= fst t < 4 /\ 0 <= snd t < 4.
Proof.
  unfold texel_order. destruct (flipbit =? 0); cbn [In]; intros H;
    repeat (destruct H as [<- | H]; [cbn; lia |]); destruct H.
Qed.

Lemma owns_rgb_dec (img width startx starty channels : Z) (t : Z * Z) (a : Z) :
  owns_rgb img width startx starty channels t a
  \/ ~ owns_rgb img width startx starty channels t a.
Proof.
  unfold owns_rgb.
  destruct (Z.eq_dec a (texel_addr img width startx starty channels (fst t) (snd t) 0));
  destruct (Z.eq_dec a (texel_addr img width startx starty channels (fst t) (snd t) 1));
  destruct (Z.eq_dec a (texel_addr img width startx starty channels (fst t) (snd t) 2));
  tauto.
Qed.

Variables flipbit table1 table2 MSB LSB img width startx starty channels : Z.
Variables avg_color1 avg_color2 : list Z.
Hypothesis width_ge : 4 <= width.
Hypothesis channels_ge : 3 <= channels.

Let write := diffflip_write flipbit avg_color1 table1 avg_color2 table2
               MSB LSB img width startx starty channels.
Let owns := owns_rgb img width startx starty channels.

(** The value the loops store in channel [c] of texel [(dx, dy)]. *)
Let stored (dx dy c : Z) : Z :=
  let first := in_first_group flipbit dx dy in
  u8 (CLAMP 0 (get1 (if first then avg_color1 else avg_color2) c
               + get2 compressParams (if first then table1 else table2)
                   (get1 unscramble (raw_index MSB LSB (4 * dx + dy)))) 255).

Lemma diffflip_write_lookup (dx dy c : Z) (m : mem) :
  0 <= c < 3 ->
  write (dx, dy) m (texel_addr img width startx starty channels dx dy c)
  = stored dx dy c.
Proof.
  intros Hc. unfold write, stored, diffflip_write, diffflip_texel, raw_index,
    RED_CHANNEL, GREEN_CHANNEL, BLUE_CHANNEL, texel_addr. cbn [fst snd].
  assert (Hcases : c = 0 \/ c = 1 \/ c = 2) by lia.
  destruct Hcases as [-> | [-> | ->]].
  - rewrite store_ne by lia. rewrite store_ne by lia. now rewrite store_eq.
  - rewrite store_ne by lia. now rewrite store_eq.
  - now rewrite store_eq.
Qed.

Lemma diffflip_write_frame (t : Z * Z) (m : mem) (a : Z) :
  ~ owns t a -> write t m a = m a.
Proof.
  unfold owns, owns_rgb, write, diffflip_write, diffflip_texel,
    RED_CHANNEL, GREEN_CHANNEL, BLUE_CHANNEL, texel_addr. cbn [fst snd].
  intros Hnot. rewrite !store_ne; [reflexivity | tauto | tauto | tauto].
Qed.

Lemma diffflip_write_determined (t : Z * Z) (m m' : mem) (a : Z) :
  In t (texel_order flipbit) -> owns t a -> write t m a = write t m' a.
Proof.
  intros _. destruct t as [dx dy]. unfold owns, owns_rgb. cbn [fst snd].
  intros [-> | [-> | ->]]; rewrite !diffflip_write_lookup by lia; reflexivity.
Qed.

Lemma owns_rgb_disjoint (t t' : Z * Z) (a : Z) :
  In t (texel_order flipbit) -> In t' (texel_order flipbit) ->
  owns t a -> owns t' a -> t = t'.
Proof.
  intros Ht Ht'. apply texel_order_range in Ht, Ht'.
  destruct t as [dx dy], t' as [dx' dy']. unfold owns, owns_rgb. cbn [fst snd] in *.
  intros Ha Ha'.
  assert (Heq : exists c c', 0 <= c < 3 /\ 0 <= c' < 3 /\
            texel_addr img width startx starty channels dx dy c
            = texel_addr img width startx starty channels dx' dy' c').
  { destruct Ha as [Ha | [Ha | Ha]]; destruct Ha' as [Ha' | [Ha' | Ha']];
      rewrite Ha in Ha'; eexists _, _; (split; [| split; [| exact Ha']]); lia. }
  destruct Heq as (c & c' & Hc & Hc' & Heq).
  apply texel_addr_inj in Heq; try assumption; try lia.
  destruct Heq as (-> & -> & _). reflexivity.
Qed.

(** After the loops, channel [c] of texel [(dx, dy)] holds what the loop
    body stored there. *)
Lemma diffflip_pass_lookup (dx dy c : Z) (m : mem) :
  0 <= dx < 4 -> 0 <= dy < 4 -> 0 <= c < 3 ->
  fold_left (fun m t => write t m) (texel_order flipbit) m
    (texel_addr img width startx starty channels dx dy c)
  = stored dx dy c.
Proof.
  intros Hdx Hdy Hc.
  rewrite (fold_write_lookup owns write (texel_order flipbit)
             (owns_rgb_dec img width startx starty channels) diffflip_write_frame diffflip_write_determined
             owns_rgb_disjoint (dx, dy)).
  - now apply diffflip_write_lookup.
  - now apply texel_order_complete.
  - unfold owns, owns_rgb. cbn [fst snd].
    assert (Hcases : c = 0 \/ c = 1 \/ c = 2) by lia.
    destruct Hcases as [-> | [-> | ->]]; tauto.
Qed.

End DiffFlip.

Section DiffFlipValues.

Lemma plane_bit (x s : Z) :
  0 <= s -> Z.land (Z.shiftr x s) 1 = Z.b2z (Z.testbit x s).
Proof.
  intros Hs. change 1 with (Z.ones 1) at 1. rewrite Z.land_ones by lia.
  rewrite Z.shiftr_div_pow2 by assumption. symmetry. now apply Z.testbit_spec'.
Qed.

Lemma testbit_plane (block_part2 startpos s : Z) :
  15 <= startpos -> 0 <= s < 16 ->
  Z.testbit (GETBITS block_part2 16 startpos) s
  = Z.testbit block_part2 (startpos - 15 + s).
Proof.
  intros Hpos Hs. unfold GETBITS.
  change (Z.shiftl 1 16 - 1) with (Z.ones 16).
  rewrite Z.land_spec, Z.shiftr_spec by lia.
  rewrite Z.ones_spec_low by lia. rewrite andb_true_r.
  f_equal. lia.
Qed.

Lemma raw_index_spec (block_part2 dx dy : Z) :
  0 <= dx < 4 -> 0 <= dy < 4 ->
  raw_index (GETBITS block_part2 16 31) (GETBITS block_part2 16 15) (4 * dx + dy)
  = Spec.texel_index block_part2 dx dy.
Proof.
  intros Hdx Hdy. unfold raw_index, Spec.texel_index.
  rewrite !plane_bit by lia.
  rewrite !testbit_plane by lia.
  change (31 - 15) with 16. change (15 - 15) with 0. rewrite Z.add_0_l.
  destruct (Z.testbit block_part2 (16 + (4 * dx + dy)));
    destruct (Z.testbit block_part2 (4 * dx + dy)); reflexivity.
Qed.

Lemma raw_index_range (MSB LSB shift : Z) :
  0 <= shift -> 0 <= raw_index MSB LSB shift < 4.
Proof.
  intros Hs. unfold raw_index. rewrite !plane_bit by assumption.
  destruct (Z.testbit MSB shift); destruct (Z.testbit LSB shift); cbv; intuition congruence.
Qed.

Lemma u8_CLAMP (x : Z) : u8 (CLAMP 0 x 255) = CLAMP 0 x 255.
Proof.
  unfold u8, CLAMP. apply Z.mod_small.
  destruct (Z.ltb_spec x 0); [lia |]. destruct (Z.gtb_spec x 255); lia.
Qed.

Lemma expand4_code (v : Z) :
  0 <= v < 16 -> u8 (Z.lor (u8 v) (Z.shiftl (u8 v) 4)) = Spec.expand4 v.
Proof.
  intros Hv. apply Z.eqb_eq.
  apply (forall_range
           (fun v => u8 (Z.lor (u8 v) (Z.shiftl (u8 v) 4)) =? Spec.expand4 v) 0 16);
    [vm_compute; reflexivity | lia].
Qed.

Lemma expand5_code (v : Z) :
  0 <= v < 32 -> u8 (Z.lor (Z.shiftl v 3) (Z.shiftr v 2)) = Spec.expand5 v.
Proof.
  intros Hv. apply Z.eqb_eq.
  apply (forall_range
           (fun v => u8 (Z.lor (Z.shiftl v 3) (Z.shiftr v 2)) =? Spec.expand5 v) 0 32);
    [vm_compute; reflexivity | lia].
Qed.

Lemma u8_small (v : Z) : 0 <= v < 256 -> u8 v = v.
Proof. apply Z.mod_small. Qed.

(** The [uint8] arithmetic of the decoder computes the second base color
    exactly when it is in range. *)
Lemma second_color_code (b d : Z) :
  0 <= b < 32 -> 0 <= d < 8 -> 0 <= b + Spec.sign_extend3 d <= 31 ->
  u8 (u8 b + extend_sign (s8 d)) = b + Spec.sign_extend3 d.
Proof.
  intros Hb Hd Hin.
  pose (P := fun b => forallb (fun d =>
               implb ((0 <=? b + Spec.sign_extend3 d) && (b + Spec.sign_extend3 d <=? 31))
                     (u8 (u8 b + extend_sign (s8 d)) =? b + Spec.sign_extend3 d))
               (range 0 8)).
  assert (Hall : forallb P (range 0 32) = true) by (vm_compute; reflexivity).
  pose proof (forall_range P 0 32 Hall b ltac:(lia)) as HPb. unfold P in HPb.
  pose proof (forall_range _ 0 8 HPb d ltac:(lia)) as HPd. cbv beta in HPd.
  assert (Hguard : (0 <=? b + Spec.sign_extend3 d) && (b + Spec.sign_extend3 d <=? 31) = true)
    by (apply andb_true_iff; split; apply Z.leb_le; lia).
  rewrite Hguard in HPd. now apply Z.eqb_eq.
Qed.

Lemma base5_range (block_part1 c : Z) : 0 <= Spec.base5 block_part1 c < 32.
Proof. apply Z.mod_pos_bound. lia. Qed.
Lemma delta3_range (block_part1 c : Z) : 0 <= Spec.delta3 block_part1 c < 8.
Proof. apply Z.mod_pos_bound. lia. Qed.
Lemma base4_range (block_part1 sub c : Z) : 0 <= Spec.base4 block_part1 sub c < 16.
Proof. apply Z.mod_pos_bound. lia. Qed.

Lemma field_base5 (block_part1 : Z) :
  GETBITSHIGH block_part1 5 63 = Spec.base5 block_part1 0
  /\ GETBITSHIGH block_part1 5 55 = Spec.base5 block_part1 1
  /\ GETBITSHIGH block_part1 5 47 = Spec.base5 block_part1 2.
Proof. rewrite !GETBITSHIGH_div_mod by lia. repeat split. Qed.

Lemma field_delta3 (block_part1 : Z) :
  GETBITSHIGH block_part1 3 58 = Spec.delta3 block_part1 0
  /\ GETBITSHIGH block_part1 3 50 = Spec.delta3 block_part1 1
  /\ GETBITSHIGH block_part1 3 42 = Spec.delta3 block_part1 2.
Proof. rewrite !GETBITSHIGH_div_mod by lia. repeat split. Qed.

Lemma field_base4 (block_part1 : Z) :
  (GETBITSHIGH block_part1 4 63 = Spec.base4 block_part1 0 0
   /\ GETBITSHIGH block_part1 4 55 = Spec.base4 block_part1 0 1
   /\ GETBITSHIGH block_part1 4 47 = Spec.base4 block_part1 0 2)
  /\ (GETBITSHIGH block_part1 4 59 = Spec.base4 block_part1 1 0
      /\ GETBITSHIGH block_part1 4 51 = Spec.base4 block_part1 1 1
      /\ GETBITSHIGH block_part1 4 43 = Spec.base4 block_part1 1 2).
Proof. rewrite !GETBITSHIGH_div_mod by lia. repeat split. Qed.

Lemma field_selector (block_part1 : Z) :
  Z.shiftl (GETBITSHIGH block_part1 3 39) 1 = Spec.selector block_part1 0
  /\ Z.shiftl (GETBITSHIGH block_part1 3 36) 1 = Spec.selector block_part1 1.
Proof. rewrite !GETBITSHIGH_div_mod by lia. repeat split. Qed.

(** The expanded base colors the decoder computes, in both modes. *)
Lemma individual_base_code (block_part1 sub c : Z) :
  u8 (Z.lor (u8 (Spec.base4 block_part1 sub c))
            (Z.shiftl (u8 (Spec.base4 block_part1 sub c)) 4))
  = Spec.expand4 (Spec.base4 block_part1 sub c).
Proof. apply expand4_code, base4_range. Qed.

Lemma differential_first_code (block_part1 c : Z) :
  u8 (Z.lor (Z.shiftl (u8 (Spec.base5 block_part1 c)) 3)
            (Z.shiftr (u8 (Spec.base5 block_part1 c)) 2))
  = Spec.expand5 (Spec.base5 block_part1 c).
Proof.
  pose proof (base5_range block_part1 c).
  rewrite (u8_small (Spec.base5 block_part1 c)) by lia. now apply expand5_code.
Qed.

Lemma differential_second_code (block_part1 c : Z) :
  0 <= Spec.second_base block_part1 c <= 31 ->
  u8 (Z.lor (Z.shiftl (u8 (u8 (Spec.base5 block_part1 c)
                             + extend_sign (s8 (Spec.delta3 block_part1 c)))) 3)
            (Z.shiftr (u8 (u8 (Spec.base5 block_part1 c)
                             + extend_sign (s8 (Spec.delta3 block_part1 c)))) 2))
  = Spec.expand5 (Spec.second_base block_part1 c).
Proof.
  intros Hin. unfold Spec.second_base in *.
  rewrite second_color_code
    by (first [apply base5_range | apply delta3_range | assumption]).
  apply expand5_code. lia.
Qed.

End DiffFlipValues.

(** C2. After [decompressBlockDiffFlipC] has decoded a block in individual
    mode, or in differential mode with the second base color in range,
    every channel [c] of every texel [(dx, dy)] of the block holds
    [clamp(base_color[sub-block] + compressParams[selector][unscramble[index]], 0, 255)],
    with the base expanded from 4 or 5 bits, the selector the sub-block's
    codeword shifted left by one and the index reassembled from the two
    bit planes. The image is at least one block wide and a pixel has at
    least three channels. *)
Theorem decompressBlockDiffFlipC_texel_value
    (block_part1 block_part2 img width height startx starty channels : Z) (m : mem)
    (dx dy c : Z) :
  4 <= width -> 3 <= channels ->
  (Spec.diffbit block_part1 = 1 ->
   forall c, 0 <= c < 3 -> 0 <= Spec.second_base block_part1 c <= 31) ->
  0 <= dx < 4 -> 0 <= dy < 4 -> 0 <= c < 3 ->
  decompressBlockDiffFlipC block_part1 block_part2 img width height startx starty
    channels m (texel_addr img width startx starty channels dx dy c)
  = Spec.texel_value block_part1 block_part2 dx dy c.
Proof.
  intros Hw Hch Hrange Hdx Hdy Hc.
  assert (Hc3 : c = 0 \/ c = 1 \/ c = 2) by lia.
  assert (Hdb : Spec.diffbit block_part1 = 0 \/ Spec.diffbit block_part1 = 1).
  { unfold Spec.diffbit. pose proof (Z.mod_pos_bound (block_part1 / 2) 2). lia. }
  destruct (field_base5 block_part1) as (Hb0 & Hb1 & Hb2).
  destruct (field_delta3 block_part1) as (Hdl0 & Hdl1 & Hdl2).
  destruct (field_base4 block_part1) as ((Hi0 & Hi1 & Hi2) & (Hj0 & Hj1 & Hj2)).
  destruct (field_selector block_part1) as (Hsel1 & Hsel2).
  unfold decompressBlockDiffFlipC. cbv zeta.
  unfold Spec.texel_value, Spec.subblock, Spec.base_color.
  rewrite diffbit_spec, flipbit_spec, Hsel1, Hsel2.
  destruct Hdb as [Hd0 | Hd1].
  - (* individual mode *)
    rewrite Hd0. cbn [truthy Z.eqb negb].
    rewrite diffflip_loops_as_pass.
    rewrite diffflip_pass_lookup by assumption. cbv zeta.
    rewrite raw_index_spec by assumption. rewrite u8_CLAMP.
    unfold in_first_group. cbn [map].
    rewrite Hi0, Hi1, Hi2, Hj0, Hj1, Hj2.
    destruct (Spec.flipbit block_part1 =? 0);
      [destruct (dx <? 2) | destruct (dy <? 2)];
      destruct Hc3 as [-> | [-> | ->]];
      rewrite ?get1_0, ?get1_1, ?get1_2, individual_base_code; reflexivity.
  - (* differential mode *)
    rewrite Hd1. cbn [truthy Z.eqb negb].
    rewrite diffflip_loops_as_pass.
    rewrite diffflip_pass_lookup by assumption. cbv zeta.
    rewrite raw_index_spec by assumption. rewrite u8_CLAMP.
    unfold in_first_group. cbn [map].
    rewrite Hb0, Hb1, Hb2, Hdl0, Hdl1, Hdl2.
    specialize (Hrange Hd1).
    rewrite !get1_0, !get1_1, !get1_2.
    destruct (Spec.flipbit block_part1 =? 0);
      [destruct (dx <? 2) | destruct (dy <? 2)];
      destruct Hc3 as [-> | [-> | ->]]; cbn [Z.eqb];
      rewrite ?get1_0, ?get1_1, ?get1_2;
      rewrite ?differential_first_code, ?differential_second_code
        by (apply Hrange; lia);
      reflexivity.
Qed.

(** ** C4: punch-through alpha *)

Section DiffAlpha.

Lemma diffalpha_texel_step (diffbit : Z) (avg_color : list Z)
    (table MSB LSB img alpha width channelsRGB channelsA x y shift : Z) (m : mem) :
  diffalpha_texel diffbit avg_color table MSB LSB img alpha width channelsRGB
    channelsA x y (m, shift)
  = (diffalpha_store diffbit avg_color table MSB LSB img alpha width channelsRGB
       channelsA x y shift m, shift + 1).
Proof. reflexivity. Qed.

Lemma diffalpha_loops_as_pass (diffbit flipbit : Z) (avg_color1 : list Z) (table1 : Z)
    (avg_color2 : list Z)
    (table2 MSB LSB img alpha width startx starty channelsRGB channelsA : Z)
    (m : mem) :
  diffalpha_second diffbit flipbit avg_color2 table2 MSB LSB img alpha width
    startx starty channelsRGB channelsA
    (diffalpha_first diffbit flipbit avg_color1 table1 MSB LSB img alpha width
       startx starty channelsRGB channelsA m)
  = fold_left
      (fun m t => diffalpha_write diffbit flipbit avg_color1 table1 avg_color2 table2
                    MSB LSB img alpha width startx starty channelsRGB channelsA t m)
      (texel_order flipbit) m.
Proof.
  unfold diffalpha_first, diffalpha_second, texel_order, diffalpha_write,
    in_first_group, for_count.
  rewrite !range_2_from.
  destruct (flipbit =? 0);
    cbv [range seq map fold_left];
    repeat (rewrite diffalpha_texel_step; cbn [fst snd]);
    reflexivity.
Qed.

Variables diffbit flipbit table1 table2 MSB LSB : Z.
Variables img alpha width startx starty channelsRGB channelsA : Z.
Variables avg_color1 avg_color2 : list Z.
Hypothesis width_ge : 4 <= width.
Hypothesis channelsRGB_ge : 3 <= channelsRGB.
Hypothesis channelsA_pos : 0 < channelsA.
Hypothesis separate :
  alpha_separate img alpha width startx starty channelsRGB channelsA.

Let write := diffalpha_write diffbit flipbit avg_color1 table1 avg_color2 table2
               MSB LSB img alpha width startx starty channelsRGB channelsA.
Let owns := owns_rgba img alpha width startx starty channelsRGB channelsA.
Let index (dx dy : Z) : Z := get1 unscramble (raw_index MSB LSB (4 * dx + dy)).
Let transparent (dx dy : Z) : bool := (diffbit =? 0) && (index dx dy =? 1).

(** What the loop body leaves in the color channel [c] of its texel. *)
Let stored (dx dy c : Z) : Z :=
  if transparent dx dy then 0
  else
    let first := in_first_group flipbit dx dy in
    let mod_ := get2 compressParams (if first then table1 else table2) (index dx dy) in
    let mod_ := if (diffbit =? 0) && ((index dx dy =? 1) || (index dx dy =? 2))
                then 0 else mod_ in
    u8 (CLAMP 0 (get1 (if first then avg_color1 else avg_color2) c + mod_) 255).

Lemma diffalpha_write_color (dx dy c : Z) (m : mem) :
  0 <= dx < 4 -> 0 <= dy < 4 -> 0 <= c < 3 ->
  write (dx, dy) m (texel_addr img width startx starty channelsRGB dx dy c)
  = stored dx dy c.
Proof.
  intros Hdx Hdy Hc.
  pose proof (separate dx dy dx dy c Hdx Hdy Hdx Hdy Hc) as Hsep.
  unfold write, stored, transparent, index, diffalpha_write, diffalpha_store,
    diffalpha_texel, raw_index.
  cbn [fst snd].
  change (RED_CHANNEL img width (startx + dx) (starty + dy) channelsRGB)
    with (texel_addr img width startx starty channelsRGB dx dy 0).
  change (GREEN_CHANNEL img width (startx + dx) (starty + dy) channelsRGB)
    with (texel_addr img width startx starty channelsRGB dx dy 1).
  change (BLUE_CHANNEL img width (startx + dx) (starty + dy) channelsRGB)
    with (texel_addr img width startx starty channelsRGB dx dy 2).
  change (alpha + ((starty + dy) * width + (startx + dx)) * channelsA)
    with (alpha_addr alpha width startx starty channelsA dx dy).
  assert (Hcases : c = 0 \/ c = 1 \/ c = 2) by lia.
  destruct ((diffbit =? 0) && (_ =? 1));
    destruct Hcases as [-> | [-> | ->]];
    repeat first [ rewrite store_eq
                 | rewrite store_ne by (unfold texel_addr; lia)
                 | rewrite store_ne by (intros Heq; apply Hsep; now rewrite Heq) ];
    reflexivity.
Qed.

Lemma diffalpha_write_alpha (dx dy : Z) (m : mem) :
  0 <= dx < 4 -> 0 <= dy < 4 ->
  write (dx, dy) m (alpha_addr alpha width startx starty channelsA dx dy)
  = if transparent dx dy then 0 else 255.
Proof.
  intros Hdx Hdy.
  pose proof (separate dx dy dx dy 0 Hdx Hdy Hdx Hdy ltac:(lia)) as Hsep0.
  pose proof (separate dx dy dx dy 1 Hdx Hdy Hdx Hdy ltac:(lia)) as Hsep1.
  pose proof (separate dx dy dx dy 2 Hdx Hdy Hdx Hdy ltac:(lia)) as Hsep2.
  unfold write, transparent, index, diffalpha_write, diffalpha_store,
    diffalpha_texel, raw_index.
  cbn [fst snd].
  change (RED_CHANNEL img width (startx + dx) (starty + dy) channelsRGB)
    with (texel_addr img width startx starty channelsRGB dx dy 0).
  change (GREEN_CHANNEL img width (startx + dx) (starty + dy) channelsRGB)
    with (texel_addr img width startx starty channelsRGB dx dy 1).
  change (BLUE_CHANNEL img width (startx + dx) (starty + dy) channelsRGB)
    with (texel_addr img width startx starty channelsRGB dx dy 2).
  change (alpha + ((starty + dy) * width + (startx + dx)) * channelsA)
    with (alpha_addr alpha width startx starty channelsA dx dy).
  destruct ((diffbit =? 0) && (_ =? 1));
    repeat first [ rewrite store_eq | rewrite store_ne by assumption ];
    reflexivity.
Qed.

Lemma diffalpha_write_frame (t : Z * Z) (m : mem) (a : Z) :
  ~ owns t a -> write t m a = m a.
Proof.
  unfold owns, owns_rgba, owns_rgb, write, diffalpha_write, diffalpha_store,
    diffalpha_texel.
  cbn [fst snd].
  change (RED_CHANNEL img width (startx + fst t) (starty + snd t) channelsRGB)
    with (texel_addr img width startx starty channelsRGB (fst t) (snd t) 0).
  change (GREEN_CHANNEL img width (startx + fst t) (starty + snd t) channelsRGB)
    with (texel_addr img width startx starty channelsRGB (fst t) (snd t) 1).
  change (BLUE_CHANNEL img width (startx + fst t) (starty + snd t) channelsRGB)
    with (texel_addr img width startx starty channelsRGB (fst t) (snd t) 2).
  change (alpha + ((starty + snd t) * width + (startx + fst t)) * channelsA)
    with (alpha_addr alpha width startx starty channelsA (fst t) (snd t)).
  intros Hnot.
  destruct ((diffbit =? 0) && _);
    repeat rewrite store_ne by tauto; reflexivity.
Qed.

Lemma diffalpha_write_determined (t : Z * Z) (m m' : mem) (a : Z) :
  In t (texel_order flipbit) -> owns t a -> write t m a = write t m' a.
Proof.
  intros Ht. apply texel_order_range in Ht.
  destruct t as [dx dy]. unfold owns, owns_rgba, owns_rgb. cbn [fst snd] in *.
  intros [[-> | [-> | ->]] | ->];
    rewrite ?diffalpha_write_color, ?diffalpha_write_alpha by lia; reflexivity.
Qed.

Lemma owns_rgba_dec (t : Z * Z) (a : Z) : owns t a \/ ~ owns t a.
Proof.
  unfold owns, owns_rgba.
  destruct (owns_rgb_dec img width startx starty channelsRGB t a);
  destruct (Z.eq_dec a (alpha_addr alpha width startx starty channelsA (fst t) (snd t)));
  tauto.
Qed.

Lemma owns_rgba_disjoint (t t' : Z * Z) (a : Z) :
  In t (texel_order flipbit) -> In t' (texel_order flipbit) ->
  owns t a -> owns t' a -> t = t'.
Proof.
  intros Ht Ht'. unfold owns, owns_rgba. intros [Ha | Ha] [Ha' | Ha'].
  - now apply (owns_rgb_disjoint flipbit img width startx starty channelsRGB
                 width_ge channelsRGB_ge t t' a).
  - exfalso. apply texel_order_range in Ht, Ht'.
    unfold owns_rgb in Ha. subst a.
    destruct Ha as [Ha | [Ha | Ha]];
      [ apply (separate (fst t') (snd t') (fst t) (snd t) 0)
      | apply (separate (fst t') (snd t') (fst t) (snd t) 1)
      | apply (separate (fst t') (snd t') (fst t) (snd t) 2) ];
      solve [tauto | lia | exact Ha].
  - exfalso. apply texel_order_range in Ht, Ht'.
    unfold owns_rgb in Ha'. subst a.
    destruct Ha' as [Ha' | [Ha' | Ha']];
      [ apply (separate (fst t) (snd t) (fst t') (snd t') 0)
      | apply (separate (fst t) (snd t) (fst t') (snd t') 1)
      | apply (separate (fst t) (snd t) (fst t') (snd t') 2) ];
      solve [tauto | lia | exact Ha'].
  - apply texel_order_range in Ht, Ht'. subst a. unfold alpha_addr in Ha'.
    destruct t as [dx dy], t' as [dx' dy']. cbn [fst snd] in *.
    assert (Hp : (starty + dy') * width + (startx + dx')
                 = (starty + dy) * width + (startx + dx)) by nia.
    apply (texel_pixel_inj width startx starty width_ge) in Hp; try tauto.
    destruct Hp as [-> ->]. reflexivity.
Qed.

Lemma diffalpha_pass_color (dx dy c : Z) (m : mem) :
  0 <= dx < 4 -> 0 <= dy < 4 -> 0 <= c < 3 ->
  fold_left (fun m t => write t m) (texel_order flipbit) m
    (texel_addr img width startx starty channelsRGB dx dy c)
  = stored dx dy c.
Proof.
  intros Hdx Hdy Hc.
  rewrite (fold_write_lookup owns write (texel_order flipbit)
             owns_rgba_dec diffalpha_write_frame diffalpha_write_determined
             owns_rgba_disjoint (dx, dy)).
  - now apply diffalpha_write_color.
  - now apply texel_order_complete.
  - left. unfold owns_rgb. cbn [fst snd].
    assert (Hcases : c = 0 \/ c = 1 \/ c = 2) by lia.
    destruct Hcases as [-> | [-> | ->]]; tauto.
Qed.

Lemma diffalpha_pass_alpha (dx dy : Z) (m : mem) :
  0 <= dx < 4 -> 0 <= dy < 4 ->
  fold_left (fun m t => write t m) (texel_order flipbit) m
    (alpha_addr alpha width startx starty channelsA dx dy)
  = if transparent dx dy then 0 else 255.
Proof.
  intros Hdx Hdy.
  rewrite (fold_write_lookup owns write (texel_order flipbit)
             owns_rgba_dec diffalpha_write_frame diffalpha_write_determined
             owns_rgba_disjoint (dx, dy)).
  - now apply diffalpha_write_alpha.
  - now apply texel_order_complete.
  - right. reflexivity.
Qed.

End DiffAlpha.

(** Interleaved RGBA: the alpha byte is the fourth channel of its pixel. *)
Lemma alpha_separate_interleaved (img alpha width startx starty : Z) :
  4 <= width ->
  alpha_separate img (alpha_pointer 4 img alpha) width startx starty 4
    (alpha_channels 4).
Proof.
  intros Hw dx dy dx' dy' c Hdx Hdy Hdx' Hdy' Hc.
  change (alpha_pointer 4 img alpha) with (img + (0 + 3)).
  change (alpha_channels 4) with 4.
  replace (alpha_addr (img + (0 + 3)) width startx starty 4 dx dy)
    with (texel_addr img width startx starty 4 dx dy 3)
    by (unfold alpha_addr, texel_addr; lia).
  intros Heq. apply texel_addr_inj in Heq; try assumption; lia.
Qed.

Lemma unscramble_one (i : Z) : 0 <= i < 4 -> (get1 unscramble i = 1 <-> i = 2).
Proof.
  intros Hi. assert (Hc : i = 0 \/ i = 1 \/ i = 2 \/ i = 3) by lia.
  destruct Hc as [-> | [-> | [-> | ->]]]; cbv; intuition congruence.
Qed.

Lemma texel_index_range (block_part2 dx dy : Z) :
  0 <= Spec.texel_index block_part2 dx dy < 4.
Proof.
  unfold Spec.texel_index.
  destruct (Z.testbit block_part2 (16 + (4 * dx + dy)));
    destruct (Z.testbit block_part2 (4 * dx + dy)); cbn; lia.
Qed.

(** C4. After [decompressBlockDifferentialWithAlphaC] has decoded a block
    with [diffbit = 0], every texel whose index equals 1 holds 0 in its
    red, green and blue channels and 0 in its alpha byte, and every other
    texel holds 255 in its alpha byte. The index is the value the
    decoder's variable [index] holds when it is tested, the texel's 2-bit
    value after the unscramble table: it is 1 exactly for the texels whose
    bit in the most significant plane is 1 and whose bit in the least
    significant plane is 0. The alpha bytes are interleaved with the colors
    (four channels), or lie in an area of their own that the block's
    colors do not overlap (three channels). *)
Theorem punchthrough_transparent_texels
    (block_part1 block_part2 img alpha width height startx starty channelsRGB : Z)
    (m : mem) (dx dy : Z) :
  Spec.diffbit block_part1 = 0 ->
  4 <= width ->
  channelsRGB = 4
  \/ (channelsRGB = 3 /\ alpha_separate img alpha width startx starty 3 1) ->
  0 <= dx < 4 -> 0 <= dy < 4 ->
  let m' := decompressBlockDifferentialWithAlphaC block_part1 block_part2 img alpha
              width height startx starty channelsRGB m in
  let alpha_byte := alpha_addr (alpha_pointer channelsRGB img alpha) width startx starty
                      (alpha_channels channelsRGB) dx dy in
  (unscrambled_index block_part2 dx dy = 1 ->
     m' (texel_addr img width startx starty channelsRGB dx dy 0) = 0
     /\ m' (texel_addr img width startx starty channelsRGB dx dy 1) = 0
     /\ m' (texel_addr img width startx starty channelsRGB dx dy 2) = 0
     /\ m' alpha_byte = 0)
  /\ (unscrambled_index block_part2 dx dy <> 1 -> m' alpha_byte = 255)
  /\ (unscrambled_index block_part2 dx dy = 1
      <-> Z.testbit block_part2 (16 + (4 * dx + dy)) = true
          /\ Z.testbit block_part2 (4 * dx + dy) = false).
Proof.
  intros Hdiff Hw Hlayout Hdx Hdy m' alpha_byte.
  assert (Hsep : alpha_separate img (alpha_pointer channelsRGB img alpha) width
                   startx starty channelsRGB (alpha_channels channelsRGB)).
  { destruct Hlayout as [-> | [-> Hsep]].
    - now apply alpha_separate_interleaved.
    - exact Hsep. }
  assert (Hch : 3 <= channelsRGB) by (destruct Hlayout as [-> | [-> _]]; lia).
  assert (HchA : 0 < alpha_channels channelsRGB)
    by (destruct Hlayout as [-> | [-> _]]; reflexivity).
  assert (Hcolor : forall c, 0 <= c < 3 ->
            m' (texel_addr img width startx starty channelsRGB dx dy c)
            = if unscrambled_index block_part2 dx dy =? 1 then 0
              else m' (texel_addr img width startx starty channelsRGB dx dy c)).
  { intros c Hc. destruct (unscrambled_index block_part2 dx dy =? 1) eqn:Hidx;
      [| reflexivity].
    unfold m', decompressBlockDifferentialWithAlphaC. cbv zeta.
    rewrite diffalpha_loops_as_pass.
    rewrite diffalpha_pass_color by assumption. cbv zeta.
    rewrite raw_index_spec by assumption.
    rewrite diffbit_spec, Hdiff. fold (unscrambled_index block_part2 dx dy).
    rewrite Hidx. reflexivity. }
  assert (Halpha : m' alpha_byte
                   = if unscrambled_index block_part2 dx dy =? 1 then 0 else 255).
  { unfold m', alpha_byte, decompressBlockDifferentialWithAlphaC. cbv zeta.
    rewrite diffalpha_loops_as_pass.
    rewrite diffalpha_pass_alpha by assumption. cbv zeta.
    rewrite raw_index_spec by assumption.
    rewrite diffbit_spec, Hdiff. reflexivity. }
  split; [| split].
  - intros Hidx. apply Z.eqb_eq in Hidx.
    rewrite (Hcolor 0), (Hcolor 1), (Hcolor 2), Halpha by lia.
    rewrite Hidx. repeat split.
  - intros Hidx. apply Z.eqb_neq in Hidx. rewrite Halpha, Hidx. reflexivity.
  - unfold unscrambled_index.
    rewrite unscramble_one by apply texel_index_range.
    unfold Spec.texel_index.
    destruct (Z.testbit block_part2 (16 + (4 * dx + dy)));
      destruct (Z.testbit block_part2 (4 * dx + dy)); cbn; intuition (try lia; congruence).
Qed.

(** ** C10: alpha blocks with a table selector below 16 *)

Section AlphaBlock.

Lemma byte_at_range (data : list byte) (i : Z) : 0 <= byte_at data i < 256.
Proof.
  unfold byte_at. pose proof (Byte.to_N_bounded (nth (Z.to_nat i) data "000"%byte)).
  lia.
Qed.

Lemma clamp_byte (v : Z) : 0 <= v < 256 -> u8 (clamp (v + 0)) = v.
Proof.
  intros Hv. rewrite Z.add_0_r. unfold clamp.
  destruct (Z.ltb_spec v 0); [lia |]. destruct (Z.gtb_spec v 255); [lia |].
  now apply Z.mod_small.
Qed.

(** Reading an index moves the bit cursor and leaves the image alone. *)
Lemma alpha_index_img (data : list byte) (c : alpha_cursor) :
  ac_img (snd (alpha_index data c)) = ac_img c.
Proof.
  unfold alpha_index, for_range, for_count.
  change (Z.to_nat (3 - 0)) with 3%nat. cbv [range seq map fold_left].
  cbn [fst snd].
  repeat match goal with
         | |- context [if ?b then _ else _] => destruct b; cbn [fst snd ac_img ac_bit ac_byte]
         end; reflexivity.
Qed.

(** The loop state threaded through a loop, seen from the image. *)
Lemma fold_cursor_img (step : Z -> alpha_cursor -> alpha_cursor)
    (write : Z -> mem -> mem) (l : list Z) :
  (forall i c, ac_img (step i c) = write i (ac_img c)) ->
  forall c, ac_img (fold_left (fun c i => step i c) l c)
            = fold_left (fun m i => write i m) l (ac_img c).
Proof.
  intros Hstep. induction l as [| i l IH]; intros c; [reflexivity |].
  cbn [fold_left]. now rewrite IH, Hstep.
Qed.

Variable g : alpha_globals.
Variable data : list byte.
Variables img width height ix iy channels : Z.
Hypothesis width_ge : 4 <= width.
Hypothesis channels_pos : 0 < channels.
(** The selected row of the table holds zeros only. *)
Hypothesis row_zero : forall j, get2 (alphaTable g) (byte_at data 1) j = 0.

Let write (t : Z * Z) (m : mem) : mem :=
  store m (alpha_texel_addr img width ix iy channels (fst t) (snd t)) (byte_at data 0).
Let owns (t : Z * Z) (a : Z) : Prop :=
  a = alpha_texel_addr img width ix iy channels (fst t) (snd t).

Lemma decompressBlockAlphaC_as_pass (m : mem) :
  decompressBlockAlphaC g data img width height ix iy channels m
  = fold_left (fun m t => write t m) (texel_order 0) m.
Proof.
  unfold decompressBlockAlphaC, for_range, for_count.
  change (Z.to_nat (4 - 0)) with 4%nat.
  rewrite (fold_cursor_img _
             (fun x m => fold_left (fun m y => write (x, y) m) (range 0 4) m)).
  - reflexivity.
  - intros x c.
    rewrite (fold_cursor_img _ (fun y m => write (x, y) m)); [reflexivity |].
    intros y c'.
    destruct (alpha_index data c') as [index c''] eqn:Hidx.
    cbn [ac_img]. rewrite row_zero, clamp_byte by apply byte_at_range.
    change c'' with (snd (index, c'')). rewrite <- Hidx, alpha_index_img.
    reflexivity.
Qed.

Lemma alpha_owns_disjoint (t t' : Z * Z) (a : Z) :
  In t (texel_order 0) -> In t' (texel_order 0) -> owns t a -> owns t' a -> t = t'.
Proof.
  intros Ht Ht'. apply texel_order_range in Ht, Ht'.
  destruct t as [dx dy], t' as [dx' dy']. unfold owns, alpha_texel_addr.
  cbn [fst snd] in *. intros -> Heq.
  assert (Hp : (iy + dy) * width + (ix + dx) = (iy + dy') * width + (ix + dx')) by nia.
  apply (texel_pixel_inj width ix iy width_ge) in Hp; try tauto.
  destruct Hp as [-> ->]. reflexivity.
Qed.

(** After the block is decoded every texel holds the base alpha. *)
Lemma decompressBlockAlphaC_base (m : mem) (dx dy : Z) :
  0 <= dx < 4 -> 0 <= dy < 4 ->
  decompressBlockAlphaC g data img width height ix iy channels m
    (alpha_texel_addr img width ix iy channels dx dy)
  = byte_at data 0.
Proof.
  intros Hdx Hdy. rewrite decompressBlockAlphaC_as_pass.
  rewrite (fold_write_lookup owns write (texel_order 0)) with (t := (dx, dy)).
  - unfold write. cbn [fst snd]. apply store_eq.
  - intros t a. unfold owns. destruct (Z.eq_dec a
      (alpha_texel_addr img width ix iy channels (fst t) (snd t))); tauto.
  - intros t m0 a Hnot. unfold write. now apply store_ne.
  - intros t m0 m1 a _ Hown. unfold owns in Hown. subst a. unfold write.
    now rewrite !store_eq.
  - apply alpha_owns_disjoint.
  - now apply texel_order_complete.
  - reflexivity.
Qed.

End AlphaBlock.

(** C10. After [setupAlphaTable], rows 0 to 15 of [alphaTable] hold zeros
    only, and a later call leaves the table as it is; so
    [decompressBlockAlphaC], on an 8-byte block whose second byte is below
    16, leaves the block's first byte in the alpha byte of all sixteen
    texels. *)
Theorem alpha_low_rows_zero_and_base_alpha
    (g : alpha_globals) (data : list byte)
    (img width height ix iy channels : Z) (m : mem) :
  alpha_reachable g ->
  let g' := setupAlphaTable g in
  (forall i j, 0 <= i < 16 -> 0 <= j < 8 -> get2 (alphaTable g') i j = 0)
  /\ setupAlphaTable g' = g'
  /\ (length data = 8%nat -> byte_at data 1 < 16 -> 4 <= width -> 0 < channels ->
      forall dx dy, 0 <= dx < 4 -> 0 <= dy < 4 ->
        decompressBlockAlphaC g' data img width height ix iy channels m
          (alpha_texel_addr img width ix iy channels dx dy)
        = byte_at data 0).
Proof.
  intros Hreach g'.
  assert (Hg' : g' = {| alphaTableInitialized := 1; alphaTable := built_table |})
    by now apply alpha_reachable_setup.
  split; [| split].
  - intros i j Hi Hj. rewrite Hg'. now apply built_table_low_rows.
  - apply setupAlphaTable_idempotent.
  - intros Hlen Hsel Hw Hch dx dy Hdx Hdy.
    apply decompressBlockAlphaC_base; try assumption.
    intros j. rewrite Hg'. apply built_table_low_rows.
    pose proof (byte_at_range data 1). lia.
Qed.

(** ** The container reader *)

Section Container.

Lemma range_S (lo : Z) (n : nat) :
  range lo (S n) = range lo n ++ [lo + Z.of_nat n].
Proof. unfold range. now rewrite seq_S, map_app. Qed.

Lemma for_countM_S {S : Type} (lo : Z) (n : nat) (body : Z -> S -> result S) (s : S) :
  for_countM lo (Datatypes.S n) body s
  = for_countM lo n body s ≫= body (lo + Z.of_nat n).
Proof. unfold for_countM. now rewrite range_S, fold_left_app. Qed.

(** A loop that has thrown stays thrown. *)
Lemma for_countM_throw {S : Type} (lo : Z) (n m : nat) (body : Z -> S -> result S)
    (s : S) (e : error) :
  (n <= m)%nat -> for_countM lo n body s = inl e -> for_countM lo m body s = inl e.
Proof.
  intros Hle Hn. induction Hle as [| m Hle IH]; [assumption |].
  now rewrite for_countM_S, IH.
Qed.

Lemma byte_val_range (b : byte) : 0 <= byte_val b < 256.
Proof. unfold byte_val. pose proof (Byte.to_N_bounded b). lia. Qed.

Lemma le32_range (bs : list byte) :
  (length bs <= 4)%nat -> 0 <= le32 bs < 4294967296.
Proof.
  intros Hlen. unfold le32.
  destruct bs as [| b0 [| b1 [| b2 [| b3 [| b4 bs]]]]]; cbn [fold_right length] in *;
    try lia;
    repeat match goal with
           | b : byte |- _ => pose proof (byte_val_range b); generalize dependent (byte_val b); clear b; intros
           end; lia.
Qed.

(** The size check passes exactly on the multiples of 4. *)
Lemma sizeRounded_aligned (size : Z) :
  0 <= size < 4294967296 ->
  (size =? sizeRounded size) = true <-> size mod 4 = 0.
Proof.
  intros Hsize. rewrite Z.eqb_eq. unfold sizeRounded.
  set (Y := u32 (size + 3)).
  assert (HY : 0 <= Y < 4294967296) by (apply Z.mod_pos_bound; lia).
  assert (Hland : Z.land Y (u32 (Z.lnot 3)) = Y / 4 * 4).
  { change (u32 (Z.lnot 3)) with (Z.land (Z.lnot (Z.ones 2)) (Z.ones 32)).
    rewrite Z.land_assoc, (Z.land_comm Y), <- Z.land_assoc.
    rewrite (Z.land_ones Y 32) by lia.
    change (2 ^ 32) with 4294967296. rewrite (Z.mod_small Y) by assumption.
    rewrite Z.land_comm, <- Z.ldiff_land, Z.ldiff_ones_r by lia.
    rewrite Z.shiftl_mul_pow2, Z.shiftr_div_pow2 by lia. reflexivity. }
  rewrite Hland. unfold Y, u32.
  destruct (Z_lt_le_dec (size + 3) 4294967296) as [Hlt | Hge].
  - rewrite Z.mod_small by lia. Z.div_mod_to_equations. lia.
  - replace ((size + 3) mod 4294967296) with (size + 3 - 4294967296)
      by (Z.div_mod_to_equations; lia).
    Z.div_mod_to_equations. lia.
Qed.

Lemma fread_spec (size : Z) (f : FILE) (bs : list byte) (f' : FILE) :
  fread size f = Some (bs, f') ->
  0 < size
  /\ (f_pos f + Z.to_nat size <= length (f_bytes f))%nat
  /\ bs = take (Z.to_nat size) (drop (f_pos f) (f_bytes f))
  /\ length bs = Z.to_nat size
  /\ f' = {| f_bytes := f_bytes f; f_pos := (f_pos f + Z.to_nat size)%nat |}.
Proof.
  unfold fread.
  destruct (Z.ltb_spec 0 size) as [Hpos | Hpos]; [| discriminate].
  destruct (Nat.leb_spec (f_pos f + Z.to_nat size) (length (f_bytes f))) as [Hle | Hle];
    [| discriminate].
  cbn [andb]. intros [= <- <-]. repeat split; try assumption.
  rewrite length_take, length_drop. lia.
Qed.

Lemma s32_range (x : Z) : INT_MIN <= s32 x <= INT_MAX.
Proof.
  unfold s32, INT_MIN, INT_MAX.
  pose proof (Z.mod_pos_bound (x + 2147483648) 4294967296). lia.
Qed.

Lemma s32_u32 (x : Z) : INT_MIN <= x <= INT_MAX -> s32 (u32 x) = x.
Proof.
  unfold s32, u32, INT_MIN, INT_MAX. intros Hx. Z.div_mod_to_equations. lia.
Qed.

Lemma halve_range (x : Z) : INT_MIN <= Z.shiftr (s32 (x + 1)) 1 <= INT_MAX.
Proof.
  pose proof (s32_range (x + 1)) as H. rewrite Z.shiftr_div_pow2 by lia.
  unfold INT_MIN, INT_MAX in *. change (2 ^ 1) with 2. Z.div_mod_to_equations. lia.
Qed.

Lemma mip_dim_range (x : Z) (l : nat) :
  INT_MIN <= x <= INT_MAX -> INT_MIN <= mip_dim x l <= INT_MAX.
Proof.
  intros Hx. destruct l as [| l]; [exact Hx |].
  unfold mip_dim. cbn [Nat.iter]. apply halve_range.
Qed.

End Container.

Section Levels.

Variable bytes : list byte.
Variable malloc : Z -> bool.
Variable internal_format : TextureFormat.
Variables base_level x0 y0 : Z.

Lemma load_level_inv (n : nat) (st st' : level_state) :
  f_bytes (ls_file st) = bytes ->
  f_pos (ls_file st) = level_offset bytes n ->
  load_level malloc internal_format base_level (Z.of_nat n) st = inr st' ->
  let size := declared_size bytes n in
  (level_offset bytes n + 4 <= length bytes)%nat
  /\ (size =? sizeRounded size) = true
  /\ f_bytes (ls_file st') = bytes
  /\ f_pos (ls_file st') = level_offset bytes (S n)
  /\ ls_x st' = Z.shiftr (s32 (ls_x st + 1)) 1
  /\ ls_y st' = Z.shiftr (s32 (ls_y st + 1)) 1
  /\ (Z.of_nat n < base_level ->
      ls_arrays st'
      = {| buffers := <[Z.of_nat n := None]> (buffers (ls_arrays st));
           widths := widths (ls_arrays st); heights := heights (ls_arrays st);
           formats := formats (ls_arrays st); sizes := sizes (ls_arrays st) |})
  /\ (base_level <= Z.of_nat n ->
      Z.of_nat (length (payload bytes n)) = size
      /\ ls_arrays st'
         = {| buffers := <[Z.of_nat n := Some (payload bytes n)]> (buffers (ls_arrays st));
              widths := <[Z.of_nat n := s32 (u32 (ls_x st))]> (widths (ls_arrays st));
              heights := <[Z.of_nat n := s32 (u32 (ls_y st))]> (heights (ls_arrays st));
              formats := <[Z.of_nat n := internal_format]> (formats (ls_arrays st));
              sizes := <[Z.of_nat n := size]> (sizes (ls_arrays st)) |}).
Proof.
  intros Hbytes Hpos Hload size.
  unfold load_level in Hload.
  destruct (fread 4 (ls_file st)) as [[size_bytes f1] |] eqn:Hread; [| discriminate].
  apply fread_spec in Hread as (_ & Hlen4 & Hsb & _ & Hf1).
  rewrite Hbytes, Hpos in *. change (Z.to_nat 4) with 4%nat in *.
  assert (Hsize : le32 size_bytes = size) by (now rewrite Hsb).
  rewrite Hsize in Hload.
  assert (Hoff : level_offset bytes (S n)
                 = (level_offset bytes n + 4 + Z.to_nat size)%nat) by reflexivity.
  destruct (size =? sizeRounded size) eqn:Hcheck;
    [| cbv in Hload; discriminate Hload].
  destruct ((INT_MIN <=? Z.of_nat n) && (Z.of_nat n <=? INT_MAX)) eqn:Hfit;
    cbv beta iota zeta delta [mbind result_bind mret result_ret throw BA_PRECONDITION
                                static_cast_check_fit_int] in Hload;
    rewrite Hfit in Hload; [| discriminate Hload].
  cbv beta iota in Hload.
  destruct (Z.leb_spec base_level (Z.of_nat n)) as [Hbase | Hbase].
  - (* materialised *)
    destruct (malloc size); [| discriminate Hload].
    cbv beta iota delta [buffers widths heights formats sizes] in Hload.
    destruct (fread size f1) as [[pl f2] |] eqn:Hread2; [| discriminate Hload].
    apply fread_spec in Hread2 as (Hpos2 & Hlen2 & Hpl & Hpllen & Hf2).
    injection Hload as <-. subst f1 f2. cbn [ls_file ls_x ls_y ls_arrays f_bytes f_pos] in *.
    assert (Hpayload : pl = payload bytes n) by (now rewrite Hpl).
    repeat split; try assumption; try reflexivity; try lia.
    + rewrite <- Hpayload, Hpllen. lia.
    + now rewrite Hpayload.
  - (* skipped *)
    cbv beta iota zeta delta [static_cast_check_fit_long mbind result_bind mret
                                result_ret throw] in Hload.
    destruct ((- LONG_MAX - 1 <=? size) && (size <=? LONG_MAX)); [| discriminate Hload].
    cbv beta iota zeta delta [fseek_cur Z.eqb BA_PRECONDITION mret result_ret
                                buffers widths heights formats sizes] in Hload.
    injection Hload as <-. subst f1. cbn [ls_file ls_x ls_y ls_arrays f_bytes f_pos] in *.
    repeat split; try assumption; try reflexivity; try lia.
Qed.

Hypothesis x0_int : INT_MIN <= x0 <= INT_MAX.
Hypothesis y0_int : INT_MIN <= y0 <= INT_MAX.

Lemma levels_loaded_step (n : nat) (st st' : level_state) :
  levels_loaded bytes base_level x0 y0 internal_format n st ->
  load_level malloc internal_format base_level (Z.of_nat n) st = inr st' ->
  levels_loaded bytes base_level x0 y0 internal_format (S n) st'.
Proof.
  intros (Hbytes & Hpos & Hx & Hy & Hslots) Hload.
  apply load_level_inv in Hload; [| assumption | assumption].
  destruct Hload as (_ & _ & Hbytes' & Hpos' & Hx' & Hy' & Hskip & Hmat).
  unfold levels_loaded.
  split; [assumption |]. split; [assumption |].
  split; [rewrite Hx', Hx; reflexivity |].
  split; [rewrite Hy', Hy; reflexivity |].
  intros l Hl.
  destruct (Z.eq_dec l (Z.of_nat n)) as [-> | Hne].
  - rewrite Nat2Z.id. split.
    + intros Hlt. rewrite (Hskip Hlt). cbn [buffers]. apply lookup_insert_eq.
    + intros Hge. destruct (Hmat Hge) as (Hlen & ->).
      cbn [buffers widths heights formats sizes].
      rewrite !lookup_insert_eq.
      rewrite Hx, Hy, !s32_u32 by now apply mip_dim_range.
      repeat split; assumption.
  - assert (Hold : 0 <= l < Z.of_nat n) by lia.
    destruct (Hslots l Hold) as (Hnull & Hbuf).
    destruct (Z.lt_ge_cases (Z.of_nat n) base_level) as [Hlt | Hge].
    + rewrite (Hskip Hlt). cbn [buffers widths heights formats sizes].
      rewrite lookup_insert_ne by lia. split; assumption.
    + destruct (Hmat Hge) as (_ & ->).
      cbn [buffers widths heights formats sizes].
      rewrite !lookup_insert_ne by lia. split; assumption.
Qed.

(** The invariant of the level loop. *)
Lemma levels_loaded_loop (n : nat) (st0 st : level_state) :
  levels_loaded bytes base_level x0 y0 internal_format 0 st0 ->
  for_countM 0 n (load_level malloc internal_format base_level) st0 = inr st ->
  levels_loaded bytes base_level x0 y0 internal_format n st.
Proof.
  intros Hinit. revert st. induction n as [| n IH]; intros st Hloop.
  - injection Hloop as <-. exact Hinit.
  - rewrite for_countM_S in Hloop.
    destruct (for_countM 0 n (load_level malloc internal_format base_level) st0)
      as [e | st1]; [discriminate Hloop |].
    cbn in Hloop. rewrite Z.add_0_l in Hloop.
    eapply levels_loaded_step; [| exact Hloop]. now apply IH.
Qed.

End Levels.

(** What [LoadKTX] knows when it enters the level loop. *)
Lemma LoadKTX_open_inv (bytes : list byte) (arrays : KTX_arrays)
    (texture_quality : TextureQuality) (min_quality : Z)
    (header : KTX_header) (internal_format : TextureFormat) (base_level : Z)
    (st0 : level_state) :
  LoadKTX_open (Some bytes) arrays texture_quality min_quality
  = inr (header, internal_format, base_level, st0) ->
  header = header_of_bytes (take 64 bytes)
  /\ st0 = {| ls_file := {| f_bytes := bytes; f_pos := 64 |};
              ls_x := s32 (pixelWidth header); ls_y := s32 (pixelHeight header);
              ls_arrays := arrays |}
  /\ 0 <= base_level <= 2
  /\ (0 <= numberOfMipmapLevels header -> base_level <= numberOfMipmapLevels header).
Proof.
  unfold LoadKTX_open. intros Hopen.
  destruct (fread KTX_HEADER_SIZE {| f_bytes := bytes; f_pos := 0 |})
    as [[header_bytes f] |] eqn:Hread; [| discriminate Hopen].
  apply fread_spec in Hread as (_ & _ & Hhb & _ & Hf).
  cbn [f_bytes f_pos drop] in Hhb, Hf. change (Z.to_nat KTX_HEADER_SIZE) with 64%nat in *.
  subst header_bytes f.
  set (h := header_of_bytes (take 64 bytes)) in *.
  cbv beta iota zeta delta [mbind result_bind mret result_ret throw BA_PRECONDITION
                              static_cast_check_fit_int] in Hopen.
  repeat match type of Hopen with
         | context [if ?b then _ else _] =>
             let E := fresh "E" in destruct b eqn:E; try discriminate Hopen
         end;
    injection Hopen as <- <- <- <-;
    repeat split; try lia;
    repeat match goal with
           | H : (_ >=? _) = true |- _ => apply Z.geb_le in H
           | H : (_ >=? _) = false |- _ => clear H
           end; try lia.
Qed.

Lemma LoadKTX_inv (bytes : list byte) (malloc : Z -> bool) (arrays : KTX_arrays)
    (texture_quality : TextureQuality) (min_quality : Z) (out : KTX_loaded) :
  LoadKTX (Some bytes) malloc arrays texture_quality min_quality = inr out ->
  exists internal_format st0 st,
    LoadKTX_open (Some bytes) arrays texture_quality min_quality
    = inr (header_of_bytes (take 64 bytes), internal_format, ld_base_level out, st0)
    /\ for_countM 0 (Z.to_nat (numberOfMipmapLevels (header_of_bytes (take 64 bytes))))
         (load_level malloc internal_format (ld_base_level out)) st0 = inr st
    /\ ld_arrays out = ls_arrays st
    /\ ld_file out = ls_file st.
Proof.
  unfold LoadKTX. intros Hload.
  destruct (LoadKTX_open (Some bytes) arrays texture_quality min_quality)
    as [e | [[[header fmt] k] st0]] eqn:Hopen; [discriminate Hload |].
  pose proof (LoadKTX_open_inv _ _ _ _ _ _ _ _ Hopen) as (Hheader & _).
  cbn in Hload.
  destruct (for_countM 0 (Z.to_nat (numberOfMipmapLevels header))
              (load_level malloc fmt k) st0) as [e | st] eqn:Hloop;
    [discriminate Hload |].
  cbn in Hload. injection Hload as <-. cbn [ld_arrays ld_base_level ld_file].
  subst header. now exists fmt, st0, st.
Qed.

Lemma header_levels_nonneg (bytes : list byte) :
  0 <= numberOfMipmapLevels (header_of_bytes bytes) < 4294967296.
Proof.
  cbn [header_of_bytes numberOfMipmapLevels]. apply le32_range.
  rewrite length_take. lia.
Qed.


(** A level with an aligned size passes the size check, and the level's
    other checks decide: a level below the base level is skipped, a level
    that is kept is read when its size is above 0, the buffer is
    allocated and the payload is in the file. *)
Lemma load_level_accepts (bytes : list byte) (malloc : Z -> bool)
    (internal_format : TextureFormat) (base_level : Z) (l : nat) (st : level_state) :
  f_bytes (ls_file st) = bytes ->
  f_pos (ls_file st) = level_offset bytes l ->
  (level_offset bytes l + 4 <= length bytes)%nat ->
  let size := declared_size bytes l in
  size mod 4 = 0 -> Z.of_nat l <= INT_MAX ->
  Z.of_nat l < base_level
  \/ (0 < size /\ malloc size = true
      /\ (level_offset bytes l + 4 + Z.to_nat size <= length bytes)%nat) ->
  exists st', load_level malloc internal_format base_level (Z.of_nat l) st = inr st'.
Proof.
  intros Hbytes Hpos Hlen size Haligned Hl Hrest.
  assert (Hsize : 0 <= size < 4294967296)
    by (apply le32_range; rewrite length_take; lia).
  unfold load_level, fread. rewrite Hbytes, Hpos. change (Z.to_nat 4) with 4%nat.
  destruct (Nat.leb_spec (level_offset bytes l + 4) (length bytes)) as [_ | Hshort];
    [| lia].
  cbn [andb Z.ltb Z.compare].
  fold (declared_size bytes l). fold size.
  rewrite (proj2 (sizeRounded_aligned size Hsize) Haligned).
  unfold BA_PRECONDITION, static_cast_check_fit_int, static_cast_check_fit_long.
  cbn [mbind result_bind mret result_ret throw].
  destruct (Z.leb_spec INT_MIN (Z.of_nat l)) as [_ | Hneg]; [| unfold INT_MIN in Hneg; lia].
  destruct (Z.leb_spec (Z.of_nat l) INT_MAX) as [_ | Hbig]; [| lia].
  cbn [andb mbind result_bind mret result_ret throw].
  destruct (Z.leb_spec base_level (Z.of_nat l)) as [Hkept | Hskipped].
  - (* the level is kept *)
    destruct Hrest as [Hbelow | (Hpositive & Hmalloc & Hpayload)]; [lia |].
    rewrite Hmalloc. cbn [mbind result_bind mret result_ret throw f_bytes f_pos].
    destruct (Z.ltb_spec 0 size) as [_ | Hzero]; [| lia].
    destruct (Nat.leb_spec (level_offset bytes l + 4 + Z.to_nat size) (length bytes))
      as [_ | Hshort]; [| lia].
    cbn [andb mbind result_bind mret result_ret]. eexists. reflexivity.
  - (* the level is skipped *)
    destruct (Z.leb_spec (- LONG_MAX - 1) size) as [_ | Hneg];
      [| unfold LONG_MAX in Hneg; lia].
    destruct (Z.leb_spec size LONG_MAX) as [_ | Hbig]; [| unfold LONG_MAX in Hbig; lia].
    cbn [andb mbind result_bind mret result_ret throw].
    unfold fseek_cur. change (0 =? 0) with true.
    cbn [mbind result_bind mret result_ret]. eexists. reflexivity.
Qed.

(** C6. When [LoadKTX] reaches a mip level whose declared byte size is not
    a multiple of 4, the load fails on the size check, whatever follows in
    the file. A level whose size is a multiple of 4 is not rejected for
    its size: when the level's other checks pass (it is skipped, or its
    size is above 0, [malloc] returns a buffer and the payload is in the
    file), the loop goes on to the next level, and [LoadKTX] returns when
    the level is the last. *)
Theorem LoadKTX_rejects_unaligned_size
    (bytes : list byte) (malloc : Z -> bool) (arrays : KTX_arrays)
    (texture_quality : TextureQuality) (min_quality : Z)
    (header : KTX_header) (internal_format : TextureFormat) (base_level : Z)
    (st0 st : level_state) (l : nat) :
  LoadKTX_open (Some bytes) arrays texture_quality min_quality
  = inr (header, internal_format, base_level, st0) ->
  (l < Z.to_nat (numberOfMipmapLevels header))%nat ->
  for_countM 0 l (load_level malloc internal_format base_level) st0 = inr st ->
  (level_offset bytes l + 4 <= length bytes)%nat ->
  let size := declared_size bytes l in
  (size mod 4 <> 0 ->
   LoadKTX (Some bytes) malloc arrays texture_quality min_quality = inl PreconditionFailed)
  /\ (size mod 4 = 0 -> Z.of_nat l <= INT_MAX ->
      Z.of_nat l < base_level
      \/ (0 < size /\ malloc size = true
          /\ (level_offset bytes l + 4 + Z.to_nat size <= length bytes)%nat) ->
      exists st',
        for_countM 0 (S l) (load_level malloc internal_format base_level) st0 = inr st'
        /\ (S l = Z.to_nat (numberOfMipmapLevels header) ->
            exists out,
              LoadKTX (Some bytes) malloc arrays texture_quality min_quality = inr out)).
Proof.
  intros Hopen Hl Hloop Hprefix size.
  assert (Hsize : 0 <= size < 4294967296)
    by (apply le32_range; rewrite length_take; lia).
  pose proof (sizeRounded_aligned size Hsize) as Hcheck.
  pose proof (LoadKTX_open_inv _ _ _ _ _ _ _ _ Hopen) as (_ & Hst0 & _ & _).
  assert (Hinv : levels_loaded bytes base_level (s32 (pixelWidth header))
                   (s32 (pixelHeight header)) internal_format l st).
  { eapply levels_loaded_loop; [apply s32_range | apply s32_range | | exact Hloop].
    subst st0. unfold levels_loaded. cbn [ls_file ls_x ls_y ls_arrays f_bytes f_pos].
    repeat split; try reflexivity; intros; lia. }
  destruct Hinv as (Hbytes & Hpos & _).
  split.
  - intros Hodd.
    assert (Hbody : load_level malloc internal_format base_level (0 + Z.of_nat l) st
                    = inl PreconditionFailed).
    { rewrite Z.add_0_l. unfold load_level, fread.
      rewrite Hbytes, Hpos. change (Z.to_nat 4) with 4%nat.
      destruct (Nat.leb_spec (level_offset bytes l + 4) (length bytes)) as [_ | Hshort];
        [| lia].
      cbn [andb Z.ltb Z.compare].
      fold (declared_size bytes l). fold size.
      destruct (size =? sizeRounded size) eqn:Hc.
      - exfalso. apply Hodd, Hcheck. reflexivity.
      - reflexivity. }
    assert (Hfail : for_countM 0 (Z.to_nat (numberOfMipmapLevels header))
                      (load_level malloc internal_format base_level) st0
                    = inl PreconditionFailed).
    { apply (for_countM_throw 0 (S l)); [lia |].
      rewrite for_countM_S, Hloop. exact Hbody. }
    unfold LoadKTX. rewrite Hopen. cbn. now rewrite Hfail.
  - intros Haligned Hfit Hrest.
    destruct (load_level_accepts bytes malloc internal_format base_level l st
                Hbytes Hpos Hprefix Haligned Hfit Hrest) as [st' Hbody].
    exists st'. split.
    + rewrite for_countM_S, Hloop. rewrite Z.add_0_l. exact Hbody.
    + intros Hlast. unfold LoadKTX. rewrite Hopen.
      cbn [mbind result_bind]. rewrite <- Hlast.
      rewrite for_countM_S, Hloop. rewrite Z.add_0_l.
      cbn [mbind result_bind]. rewrite Hbody.
      cbn [mbind result_bind mret result_ret]. eexists. reflexivity.
Qed.

(** ** The crop *)

Section Crop.

Lemma fold_left_flat_map {A B C : Type} (f : A -> C -> A) (g : B -> list C)
    (l : list B) (a : A) :
  fold_left f (flat_map g l) a = fold_left (fun a x => fold_left f (g x) a) l a.
Proof.
  revert a. induction l as [| x l IH]; intros a; [reflexivity |].
  cbn [flat_map fold_left]. now rewrite fold_left_app, IH.
Qed.

Lemma fold_left_map' {A B C : Type} (f : A -> C -> A) (h : B -> C) (l : list B) (a : A) :
  fold_left f (map h l) a = fold_left (fun a x => f a (h x)) l a.
Proof.
  revert a. induction l as [| x l IH]; intros a; [reflexivity |].
  cbn [map fold_left]. now rewrite IH.
Qed.

Lemma fold_left_ext' {A B : Type} (f g : A -> B -> A) (l : list B) (a : A) :
  (forall a x, f a x = g a x) -> fold_left f l a = fold_left g l a.
Proof.
  intros Hfg. revert a. induction l as [| x l IH]; intros a; [reflexivity |].
  cbn [fold_left]. now rewrite Hfg, IH.
Qed.

Lemma crop_copy_as_pass (dstImage : mem) (activeWidth activeHeight : Z)
    (dstPixelBytes dstRowBytes activeRowBytes : Z) (newimg : mem) :
  crop_copy dstImage activeWidth activeHeight dstPixelBytes dstRowBytes activeRowBytes
    newimg
  = fold_left (fun m t => crop_write dstImage dstPixelBytes dstRowBytes activeRowBytes t m)
      (crop_cells activeWidth activeHeight dstPixelBytes) newimg.
Proof.
  unfold crop_copy, crop_cells, for_count.
  rewrite fold_left_flat_map. apply fold_left_ext'. intros m yy.
  rewrite fold_left_flat_map. apply fold_left_ext'. intros m' xx.
  rewrite fold_left_map'. reflexivity.
Qed.

Lemma In_crop_cells (activeWidth activeHeight dstPixelBytes yy xx zz : Z) :
  In (yy, xx, zz) (crop_cells activeWidth activeHeight dstPixelBytes)
  <-> 0 <= yy < activeHeight /\ 0 <= xx < activeWidth /\ 0 <= zz < dstPixelBytes.
Proof.
  unfold crop_cells. rewrite in_flat_map. split.
  - intros (yy' & Hyy & Hin). apply in_flat_map in Hin as (xx' & Hxx & Hin).
    apply in_map_iff in Hin as (zz' & [= <- <- <-] & Hzz).
    unfold range in *.
    apply in_map_iff in Hyy as (a & <- & Ha%in_seq).
    apply in_map_iff in Hxx as (b & <- & Hb%in_seq).
    apply in_map_iff in Hzz as (c & <- & Hc%in_seq). lia.
  - intros (Hyy & Hxx & Hzz). exists yy. split; [apply In_range; lia |].
    apply in_flat_map. exists xx. split; [apply In_range; lia |].
    apply in_map_iff. exists zz. split; [reflexivity | apply In_range; lia].
Qed.

Variable dstImage : mem.
Variables activeWidth activeHeight dstPixelBytes dstRowBytes : Z.
Hypothesis pixel_pos : 0 < dstPixelBytes.
Hypothesis active_rows_fit : activeHeight * (activeWidth * dstPixelBytes) <= INT_MAX.
Hypothesis padded_rows_fit : activeHeight * dstRowBytes <= INT_MAX.
Hypothesis row_le : activeWidth * dstPixelBytes <= dstRowBytes.

Let activeRowBytes := activeWidth * dstPixelBytes.
Let write := crop_write dstImage dstPixelBytes dstRowBytes activeRowBytes.
Let owns (t : Z * Z * Z) (a : Z) : Prop :=
  a = row_index activeRowBytes dstPixelBytes (fst (fst t)) (snd (fst t)) (snd t).

(** Inside the image the unsigned index arithmetic does not wrap. *)
Lemma row_index_exact (rowBytes yy xx zz : Z) :
  activeWidth * dstPixelBytes <= rowBytes -> activeHeight * rowBytes <= INT_MAX ->
  0 <= yy < activeHeight -> 0 <= xx < activeWidth -> 0 <= zz < dstPixelBytes ->
  row_index rowBytes dstPixelBytes yy xx zz = yy * rowBytes + (xx * dstPixelBytes + zz).
Proof.
  intros Hrow Hfit Hyy Hxx Hzz. unfold row_index, u32, INT_MAX in *.
  assert (H1 : 0 <= xx * dstPixelBytes + zz < activeWidth * dstPixelBytes) by nia.
  assert (H2 : 0 <= yy * rowBytes) by nia.
  assert (H3 : yy * rowBytes + rowBytes <= activeHeight * rowBytes) by nia.
  assert (H4 : 0 <= xx * dstPixelBytes) by nia.
  rewrite (Z.mod_small (yy * rowBytes)) by lia.
  rewrite (Z.mod_small (xx * dstPixelBytes)) by lia.
  rewrite Z.mod_small by lia. lia.
Qed.

Lemma crop_owns_disjoint (t t' : Z * Z * Z) (a : Z) :
  In t (crop_cells activeWidth activeHeight dstPixelBytes) ->
  In t' (crop_cells activeWidth activeHeight dstPixelBytes) ->
  owns t a -> owns t' a -> t = t'.
Proof.
  destruct t as [[yy xx] zz], t' as [[yy' xx'] zz'].
  rewrite !In_crop_cells. intros (Hyy & Hxx & Hzz) (Hyy' & Hxx' & Hzz').
  unfold owns. cbn [fst snd]. intros -> Heq.
  unfold activeRowBytes in Heq.
  rewrite !row_index_exact in Heq by (assumption || lia).
  assert (H1 : 0 <= xx * dstPixelBytes + zz < activeWidth * dstPixelBytes) by nia.
  assert (H2 : 0 <= xx' * dstPixelBytes + zz' < activeWidth * dstPixelBytes) by nia.
  assert (Hy : yy = yy') by nia. subst yy'.
  assert (Hx : xx = xx') by nia. subst xx'.
  assert (Hz : zz = zz') by lia. now subst zz'.
Qed.

(** After the copy, byte [i] of row [r] of the new image is byte [i] of
    row [r] of the padded image. *)
Lemma crop_copy_row (fresh : mem) (r i : Z) :
  0 <= r < activeHeight -> 0 <= i < activeWidth * dstPixelBytes ->
  crop_copy dstImage activeWidth activeHeight dstPixelBytes dstRowBytes activeRowBytes
    fresh (r * (activeWidth * dstPixelBytes) + i)
  = dstImage (r * dstRowBytes + i).
Proof.
  intros Hr Hi. rewrite crop_copy_as_pass.
  assert (Hxx : 0 <= i / dstPixelBytes < activeWidth)
    by (split; [apply Z.div_pos; lia | apply Z.div_lt_upper_bound; lia]).
  assert (Hzz : 0 <= i mod dstPixelBytes < dstPixelBytes)
    by (apply Z.mod_pos_bound; lia).
  assert (Hi' : i = i / dstPixelBytes * dstPixelBytes + i mod dstPixelBytes)
    by (rewrite (Z.mul_comm (i / dstPixelBytes)); apply Z.div_mod; lia).
  rewrite (fold_write_lookup owns write
             (crop_cells activeWidth activeHeight dstPixelBytes))
    with (t := (r, i / dstPixelBytes, i mod dstPixelBytes)).
  - unfold write, crop_write. cbn [fst snd]. unfold activeRowBytes.
    rewrite !row_index_exact by (assumption || lia).
    rewrite <- Hi'. apply store_eq.
  - intros t a. unfold owns. apply Z.eq_decidable.
  - intros t m a Hnot. unfold write, crop_write. now apply store_ne.
  - intros t m m' a _ Hown. unfold owns in Hown. subst a.
    unfold write, crop_write. now rewrite !store_eq.
  - apply crop_owns_disjoint.
  - apply In_crop_cells. lia.
  - unfold owns. cbn [fst snd]. unfold activeRowBytes.
    rewrite row_index_exact by (assumption || lia). lia.
Qed.

End Crop.

Lemma unpack_switch_inv (srcFormat : Z) (fmt : unpack_format) :
  unpack_switch srcFormat = inr fmt ->
  dstChannelBytes fmt = 1 /\ (dstChannels fmt = 3 \/ dstChannels fmt = 4).
Proof.
  unfold unpack_switch.
  destruct ((srcFormat =? GL_ETC1_RGB8_OES) || (srcFormat =? GL_COMPRESSED_RGB8_ETC2)).
  - intros [= <-]. cbn. auto.
  - destruct (srcFormat =? GL_COMPRESSED_RGBA8_ETC2_EAC).
    + intros [= <-]. cbn. auto.
    + discriminate.
Qed.

Lemma KTXUnpackETC_decode_inv (g : alpha_globals) (malloc : Z -> bool) (fresh : mem)
    (srcETC : list byte) (srcFormat activeWidth activeHeight : Z) (p : unpack_padded) :
  KTXUnpackETC_decode g malloc fresh srcETC srcFormat activeWidth activeHeight = inr p ->
  unpack_switch srcFormat = inr (up_format p)
  /\ up_width p = u32 (Z.quot (u32 (activeWidth + 3)) 4 * 4)
  /\ up_height p = u32 (Z.quot (u32 (activeHeight + 3)) 4 * 4).
Proof.
  unfold KTXUnpackETC_decode. intros Hdec.
  destruct (unpack_switch srcFormat) as [e | fmt]; [discriminate Hdec |].
  cbv beta iota zeta delta [mbind result_bind mret result_ret throw] in Hdec.
  destruct (malloc _); [| discriminate Hdec].
  destruct (alphaFormat_eqb (alphaFormat fmt) AF_11BIT); [discriminate Hdec |].
  destruct (for_countM _ _ _ _) as [e | st]; [discriminate Hdec |].
  injection Hdec as <-. cbn [up_format up_width up_height]. auto.
Qed.

Lemma padded_dim_wrap (active : Z) :
  0 <= active -> padded_dim active <= INT_MAX ->
  u32 (Z.quot (u32 (active + 3)) 4 * 4) = padded_dim active.
Proof.
  intros Hpos Hfit. unfold padded_dim, u32, INT_MAX in *.
  assert (Hsmall : active + 3 < 4294967296) by (Z.div_mod_to_equations; lia).
  rewrite (Z.mod_small (active + 3)) by lia.
  rewrite Z.quot_div_nonneg by lia.
  apply Z.mod_small. Z.div_mod_to_equations. lia.
Qed.

(** Rounding up changes a dimension in the code exactly when it does in
    the arithmetic of the specification. *)
Lemma padded_dim_differs (active : Z) :
  0 <= active < 4294967296 ->
  u32 (Z.quot (u32 (active + 3)) 4 * 4) = active <-> padded_dim active = active.
Proof.
  intros Hrange. unfold padded_dim, u32.
  destruct (Z_lt_le_dec (active + 3) 4294967296) as [Hlt | Hge].
  - rewrite (Z.mod_small (active + 3)) by lia.
    rewrite Z.quot_div_nonneg by lia.
    rewrite Z.mod_small by (Z.div_mod_to_equations; lia). reflexivity.
  - replace ((active + 3) mod 4294967296) with (active + 3 - 4294967296)
      by (Z.div_mod_to_equations; lia).
    rewrite Z.quot_div_nonneg by lia.
    split; intros H; exfalso; revert H; Z.div_mod_to_equations; lia.
Qed.

(** C8. When the active dimensions differ from the padded ones,
    [KTXUnpackETC] returns a buffer of
    [activeWidth * activeHeight * channel_count * channel_bytes] bytes, and
    each of its rows [r < activeHeight] is the first
    [activeWidth * channel_count * channel_bytes] bytes of row [r] of the
    padded image. The padded image fits the [int] arithmetic of the copy
    loops. *)
Theorem KTXUnpackETC_crops_to_active_area
    (g : alpha_globals) (malloc : Z -> bool) (fresh1 fresh2 : mem)
    (srcETC : list byte) (srcFormat activeWidth activeHeight : Z)
    (p : unpack_padded) (out : unpacked) :
  0 <= activeWidth < 4294967296 -> 0 <= activeHeight < 4294967296 ->
  KTXUnpackETC_decode g malloc fresh1 srcETC srcFormat activeWidth activeHeight = inr p ->
  KTXUnpackETC g malloc fresh1 fresh2 srcETC srcFormat activeWidth activeHeight = inr out ->
  let channel_count := dstChannels (up_format p) in
  let channel_bytes := dstChannelBytes (up_format p) in
  let stride := channel_count * channel_bytes in
  stride * padded_dim activeWidth * padded_dim activeHeight <= INT_MAX ->
  ~ (padded_dim activeHeight = activeHeight /\ padded_dim activeWidth = activeWidth) ->
  buf_size (dstImage out) = activeWidth * activeHeight * channel_count * channel_bytes
  /\ forall r i, 0 <= r < activeHeight -> 0 <= i < activeWidth * stride ->
       buf_mem (dstImage out) (r * (activeWidth * stride) + i)
       = buf_mem (up_image p) (r * (padded_dim activeWidth * stride) + i).
Proof.
  intros Haw Hah Hdec Hunpack channel_count channel_bytes stride Hfit Hdiffer.
  pose proof (KTXUnpackETC_decode_inv _ _ _ _ _ _ _ _ Hdec) as (Hswitch & Hwidth & Hheight).
  apply unpack_switch_inv in Hswitch as (Hcb & Hcc).
  fold channel_bytes in Hcb. fold channel_count in Hcc.
  assert (Hstride : stride = channel_count /\ 3 <= stride <= 4)
    by (unfold stride; rewrite Hcb; lia).
  destruct Hstride as (Hstride_eq & Hstride).
  assert (Hs32 : s32 stride = stride)
    by (unfold s32; destruct Hcc as [Hc | Hc]; rewrite Hstride_eq, Hc; reflexivity).
  unfold KTXUnpackETC in Hunpack. rewrite Hdec in Hunpack.
  cbv beta iota zeta delta [mbind result_bind mret result_ret throw] in Hunpack.
  unfold crop_active in Hunpack.
  assert (Hcond : (up_height p =? activeHeight) && (up_width p =? activeWidth) = false).
  { apply andb_false_iff.
    destruct (Z.eqb_spec (up_height p) activeHeight) as [Hh | Hh]; [| now left].
    destruct (Z.eqb_spec (up_width p) activeWidth) as [Hw | Hw]; [| now right].
    exfalso. apply Hdiffer. rewrite Hheight in Hh. rewrite Hwidth in Hw.
    split; now apply padded_dim_differs. }
  rewrite Hcond in Hunpack.
  cbv beta iota zeta delta [negb mbind result_bind mret result_ret throw] in Hunpack.
  fold channel_count channel_bytes in Hunpack. fold stride in Hunpack.
  rewrite Hs32 in Hunpack.
  destruct (malloc _); [| discriminate Hunpack].
  injection Hunpack as <-. cbn [dstImage buf_size buf_mem].
  assert (Hpad_w : activeWidth <= padded_dim activeWidth)
    by (unfold padded_dim; Z.div_mod_to_equations; lia).
  assert (Hpad_h : activeHeight <= padded_dim activeHeight)
    by (unfold padded_dim; Z.div_mod_to_equations; lia).
  destruct (Z.eq_dec activeWidth 0) as [Hw0 | Hw0].
  { (* no columns *)
    subst activeWidth. split.
    - rewrite Z.mul_0_r. reflexivity.
    - intros r i _ Hi. lia. }
  destruct (Z.eq_dec activeHeight 0) as [Hh0 | Hh0].
  { (* no rows *)
    subst activeHeight. split.
    - rewrite Z.mul_0_r. unfold u32. now rewrite Z.mul_0_r.
    - intros r i Hr _. lia. }
  assert (Hw4 : 4 <= padded_dim activeWidth)
    by (unfold padded_dim; Z.div_mod_to_equations; lia).
  assert (Hh4 : 4 <= padded_dim activeHeight)
    by (unfold padded_dim; Z.div_mod_to_equations; lia).
  unfold INT_MAX in Hfit.
  assert (Hrow_fit : stride * padded_dim activeWidth <= 2147483647) by nia.
  assert (Hwfit : padded_dim activeWidth <= INT_MAX) by (unfold INT_MAX; nia).
  assert (Hwidth' : up_width p = padded_dim activeWidth)
    by (rewrite Hwidth; apply padded_dim_wrap; lia).
  assert (Harea : 0 <= stride * activeWidth * activeHeight <= 2147483647) by nia.
  assert (Harow : 0 <= stride * activeWidth <= 2147483647) by nia.
  rewrite Hwidth'.
  assert (Hdrb : s32 (u32 (stride * padded_dim activeWidth)) = stride * padded_dim activeWidth)
    by (apply s32_u32; unfold INT_MIN, INT_MAX; nia).
  assert (Harb : s32 (u32 (activeWidth * stride)) = activeWidth * stride)
    by (apply s32_u32; unfold INT_MIN, INT_MAX; nia).
  rewrite Hdrb, Harb.
  split.
  - unfold u32. rewrite (Z.mod_small (stride * activeWidth)) by lia.
    rewrite Z.mod_small by lia. unfold stride. lia.
  - intros r i Hr Hi.
    rewrite (crop_copy_row (buf_mem (up_image p)) activeWidth activeHeight stride
               (stride * padded_dim activeWidth)); try (unfold INT_MAX; nia).
    all: try assumption.
    f_equal. lia.
Qed.

(** ** The theorems on sample inputs *)

Lemma etc2_dispatch_out_of_range_witness :
  Spec.diffbit 0x04000002 = 1
  /\ Spec.out_of_range (Spec.second_base 0x04000002 0) = true
  /\ etc2_route 0x04000002 = ModeT.
Proof.
  split; [reflexivity |]. split; [reflexivity |].
  exact (proj1 (etc2_dispatch_out_of_range 0x04000002 0 0 4 4 0 0 3 Sample.blank
                  eq_refl eq_refl)).
Defined.

Lemma decompressBlockDiffFlipC_texel_value_witness :
  Spec.diffbit 0x80808002 = 1
  /\ Spec.second_base 0x80808002 0 = 16
  /\ decompressBlockDiffFlipC 0x80808002 0xFFFFFFFF 0 4 4 0 0 3 Sample.blank
       (texel_addr 0 4 0 0 3 1 2 0)
     = Spec.texel_value 0x80808002 0xFFFFFFFF 1 2 0.
Proof.
  split; [reflexivity |]. split; [reflexivity |].
  apply (decompressBlockDiffFlipC_texel_value 0x80808002 0xFFFFFFFF 0 4 4 0 0 3
           Sample.blank 1 2 0); try lia.
  intros _ c Hc.
  assert (Hcases : c = 0 \/ c = 1 \/ c = 2) by lia.
  destruct Hcases as [-> | [-> | ->]]; vm_compute; split; discriminate.
Defined.

Lemma punchthrough_transparent_texels_witness :
  Spec.diffbit 0x88888800 = 0
  /\ unscrambled_index 0xFFFF0000 1 2 = 1
  /\ decompressBlockDifferentialWithAlphaC 0x88888800 0xFFFF0000 0 0 4 4 0 0 4
       Sample.blank (alpha_addr (alpha_pointer 4 0 0) 4 0 0 (alpha_channels 4) 1 2) = 0.
Proof.
  split; [reflexivity |]. split; [reflexivity |].
  refine (proj2 (proj2 (proj2
            (proj1 (punchthrough_transparent_texels 0x88888800 0xFFFF0000 0 0 4 4 0 0 4
                      Sample.blank 1 2 eq_refl _ (or_introl eq_refl) _ _)
               eq_refl)))); lia.
Defined.

Lemma alpha_globals_init_reachable : alpha_reachable alpha_globals_init.
Proof.
  apply reach_start. split; [reflexivity |].
  apply Forall_forall. intros row Hrow.
  apply elem_of_replicate in Hrow as [-> _]. reflexivity.
Qed.

Lemma setupAlphaTable_rows_and_idempotence_witness :
  get2 (alphaTable (setupAlphaTable alpha_globals_init)) 37 5 = seed ((37 - 16) mod 16) 5 * (37 / 16)
  /\ setupAlphaTable (setupAlphaTable alpha_globals_init) = setupAlphaTable alpha_globals_init.
Proof.
  apply (setupAlphaTable_rows_and_idempotence alpha_globals_init 37 5);
    [exact alpha_globals_init_reachable | lia | lia].
Defined.

Lemma alpha_low_rows_zero_and_base_alpha_witness :
  byte_at Sample.alpha_block 1 < 16
  /\ decompressBlockAlphaC (setupAlphaTable alpha_globals_init) Sample.alpha_block
       3 8 8 4 0 4 Sample.blank (alpha_texel_addr 3 8 4 0 4 2 1)
     = byte_at Sample.alpha_block 0.
Proof.
  split; [reflexivity |].
  apply (proj2 (proj2 (alpha_low_rows_zero_and_base_alpha alpha_globals_init
                         Sample.alpha_block 3 8 8 4 0 4 Sample.blank
                         alpha_globals_init_reachable)));
    first [reflexivity | lia].
Defined.

Lemma LoadKTX_rejects_unaligned_size_witness :
  declared_size Sample.unaligned_level 0 = 6
  /\ LoadKTX (Some Sample.unaligned_level) Sample.any_malloc Sample.no_arrays kHigh 0
     = inl PreconditionFailed
  /\ declared_size Sample.three_levels 0 = 8
  /\ exists st',
       for_countM 0 1 (load_level Sample.any_malloc kETC2_RGB 0)
         {| ls_file := {| f_bytes := Sample.three_levels; f_pos := 64 |};
            ls_x := 256; ls_y := 256; ls_arrays := Sample.no_arrays |}
       = inr st'.
Proof.
  split; [reflexivity |]. split; [| split; [reflexivity |]].
  - refine (proj1 (LoadKTX_rejects_unaligned_size Sample.unaligned_level Sample.any_malloc
                     Sample.no_arrays kHigh 0
                     (header_of_bytes (take 64 Sample.unaligned_level)) kETC2_RGB 0
                     {| ls_file := {| f_bytes := Sample.unaligned_level; f_pos := 64 |};
                        ls_x := 256; ls_y := 256; ls_arrays := Sample.no_arrays |}
                     _ 0%nat _ _ _ _) _).
    + vm_compute. reflexivity.
    + vm_compute. lia.
    + reflexivity.
    + vm_compute. lia.
    + vm_compute. discriminate.
  - destruct (proj2 (LoadKTX_rejects_unaligned_size Sample.three_levels Sample.any_malloc
                       Sample.no_arrays kHigh 0
                       (header_of_bytes (take 64 Sample.three_levels)) kETC2_RGB 0
                       {| ls_file := {| f_bytes := Sample.three_levels; f_pos := 64 |};
                          ls_x := 256; ls_y := 256; ls_arrays := Sample.no_arrays |}
                       {| ls_file := {| f_bytes := Sample.three_levels; f_pos := 64 |};
                          ls_x := 256; ls_y := 256; ls_arrays := Sample.no_arrays |}
                       0%nat
                       ltac:(vm_compute; reflexivity) ltac:(vm_compute; lia)
                       ltac:(reflexivity) ltac:(vm_compute; lia))
                    ltac:(vm_compute; reflexivity) ltac:(vm_compute; discriminate)
                    ltac:(right; vm_compute; repeat split; lia))
      as (st' & Hloop & _).
    exists st'. exact Hloop.
Defined.


Lemma KTXUnpackETC_crops_to_active_area_witness :
  KTXUnpackETC_decode alpha_globals_init Sample.any_malloc Sample.blank Sample.four_blocks
    GL_COMPRESSED_RGB8_ETC2 6 5 = inr Sample.padded_6x5
  /\ up_width Sample.padded_6x5 = 8
  /\ up_height Sample.padded_6x5 = 8
  /\ buf_size (dstImage Sample.unpacked_6x5) = 6 * 5 * 3 * 1
  /\ forall r i, 0 <= r < 5 -> 0 <= i < 6 * (3 * 1) ->
       buf_mem (dstImage Sample.unpacked_6x5) (r * (6 * (3 * 1)) + i)
       = buf_mem (up_image Sample.padded_6x5) (r * (8 * (3 * 1)) + i).
Proof.
  assert (Hdec : KTXUnpackETC_decode alpha_globals_init Sample.any_malloc Sample.blank
                   Sample.four_blocks GL_COMPRESSED_RGB8_ETC2 6 5 = inr Sample.padded_6x5)
    by (vm_compute; reflexivity).
  assert (Hout : KTXUnpackETC alpha_globals_init Sample.any_malloc Sample.blank Sample.blank
                   Sample.four_blocks GL_COMPRESSED_RGB8_ETC2 6 5 = inr Sample.unpacked_6x5)
    by (vm_compute; reflexivity).
  split; [exact Hdec |]. split; [reflexivity |]. split; [reflexivity |].
  apply (KTXUnpackETC_crops_to_active_area alpha_globals_init Sample.any_malloc
           Sample.blank Sample.blank Sample.four_blocks GL_COMPRESSED_RGB8_ETC2 6 5
           Sample.padded_6x5 Sample.unpacked_6x5); try lia; try assumption.
  - vm_compute. discriminate.
  - vm_compute. intros [H _]. discriminate H.
Defined.

(** * Further properties *)

(** ** Bit fields written and read back *)

Section BitFieldAlgebra.

Lemma testbit_u32 (a n : Z) :
  0 <= n -> Z.testbit (u32 a) n = (n <? 32) && Z.testbit a n.
Proof.
  intros Hn. unfold u32. change 4294967296 with (2 ^ 32).
  destruct (Z.ltb_spec n 32).
  - now rewrite Z.mod_pow2_bits_low by lia.
  - now rewrite Z.mod_pow2_bits_high by lia.
Qed.

Lemma testbit_ones_lt (size n : Z) :
  0 <= size -> 0 <= n -> Z.testbit (Z.ones size) n = (n <? size).
Proof.
  intros Hs Hn. destruct (Z.ltb_spec n size).
  - apply Z.ones_spec_low. lia.
  - apply Z.ones_spec_high. lia.
Qed.

Lemma field_mask (size sh n : Z) :
  1 <= size -> 0 <= sh -> 0 <= n ->
  Z.testbit (Z.shiftl (Z.shiftl 2 (size - 1) - 1) sh) n
  = (sh <=? n) && (n <? sh + size).
Proof.
  intros Hs Hsh Hn.
  replace (Z.shiftl 2 (size - 1) - 1) with (Z.ones size).
  2:{ rewrite Z.ones_equiv, Z.shiftl_mul_pow2 by lia.
      replace size with (Z.succ (size - 1)) at 1 by lia.
      rewrite Z.pow_succ_r by lia. lia. }
  destruct (Z.leb_spec sh n).
  - rewrite Z.shiftl_spec by lia. rewrite testbit_ones_lt by lia.
    cbn. destruct (Z.ltb_spec (n - sh) size), (Z.ltb_spec n (sh + size)); lia.
  - rewrite Z.shiftl_spec_low by lia. reflexivity.
Qed.

Lemma field_mask_high (size sh n : Z) :
  0 <= size -> 0 <= sh -> 0 <= n ->
  Z.testbit (Z.shiftl (Z.shiftl 1 size - 1) sh) n
  = (sh <=? n) && (n <? sh + size).
Proof.
  intros Hs Hsh Hn.
  change (Z.shiftl 1 size - 1) with (Z.ones size).
  destruct (Z.leb_spec sh n).
  - rewrite Z.shiftl_spec by lia. rewrite testbit_ones_lt by lia.
    cbn. destruct (Z.ltb_spec (n - sh) size), (Z.ltb_spec n (sh + size)); lia.
  - rewrite Z.shiftl_spec_low by lia. reflexivity.
Qed.

(** Bit [n] of a word after a field was put into it. *)
Lemma testbit_PUTBITS (dest data size startpos n : Z) :
  1 <= size -> 0 <= SHIFT size startpos -> 0 <= n ->
  Z.testbit (PUTBITS dest data size startpos) n
  = (n <? 32)
    && (if (SHIFT size startpos <=? n) && (n <? SHIFT size startpos + size)
        then Z.testbit data (n - SHIFT size startpos) else Z.testbit dest n).
Proof.
  intros Hs Hsh Hn. unfold PUTBITS, MASK.
  rewrite testbit_u32 by assumption. f_equal.
  rewrite Z.lor_spec, !Z.land_spec, Z.lnot_spec by assumption.
  rewrite field_mask by assumption.
  destruct ((SHIFT size startpos <=? n) && (n <? SHIFT size startpos + size)) eqn:E.
  - rewrite Z.shiftl_spec by assumption. cbn. now rewrite andb_false_r, andb_true_r.
  - cbn. now rewrite andb_true_r, andb_false_r, orb_false_r.
Qed.

Lemma testbit_PUTBITSHIGH (dest data size startpos n : Z) :
  0 <= size -> 0 <= SHIFTHIGH size startpos -> 0 <= n ->
  Z.testbit (PUTBITSHIGH dest data size startpos) n
  = (n <? 32)
    && (if (SHIFTHIGH size startpos <=? n) && (n <? SHIFTHIGH size startpos + size)
        then Z.testbit data (n - SHIFTHIGH size startpos) else Z.testbit dest n).
Proof.
  intros Hs Hsh Hn. unfold PUTBITSHIGH, MASKHIGH.
  rewrite testbit_u32 by assumption. f_equal.
  rewrite Z.lor_spec, !Z.land_spec, Z.lnot_spec by assumption.
  rewrite field_mask_high by assumption.
  destruct ((SHIFTHIGH size startpos <=? n) && (n <? SHIFTHIGH size startpos + size)) eqn:E.
  - rewrite Z.shiftl_spec by assumption. cbn. now rewrite andb_false_r, andb_true_r.
  - cbn. now rewrite andb_true_r, andb_false_r, orb_false_r.
Qed.

Lemma testbit_GETBITS (source size startpos n : Z) :
  0 <= size -> 0 <= n ->
  Z.testbit (GETBITS source size startpos) n
  = (n <? size) && Z.testbit source (n + SHIFT size startpos).
Proof.
  intros Hs Hn. unfold GETBITS, SHIFT.
  change (Z.shiftl 1 size - 1) with (Z.ones size).
  rewrite Z.land_spec, Z.shiftr_spec, testbit_ones_lt by assumption.
  apply andb_comm.
Qed.

Lemma testbit_GETBITSHIGH (source size startpos n : Z) :
  0 <= size -> 0 <= n ->
  Z.testbit (GETBITSHIGH source size startpos) n
  = (n <? size) && Z.testbit source (n + SHIFTHIGH size startpos).
Proof.
  intros Hs Hn. unfold GETBITSHIGH, SHIFTHIGH.
  change (Z.shiftl 1 size - 1) with (Z.ones size).
  rewrite Z.land_spec, Z.shiftr_spec, testbit_ones_lt by assumption.
  apply andb_comm.
Qed.

Lemma testbit_mod_pow2 (a size n : Z) :
  0 <= size -> 0 <= n ->
  Z.testbit (a mod 2 ^ size) n = (n <? size) && Z.testbit a n.
Proof.
  intros Hs Hn. destruct (Z.ltb_spec n size).
  - now rewrite Z.mod_pow2_bits_low by lia.
  - now rewrite Z.mod_pow2_bits_high by lia.
Qed.

End BitFieldAlgebra.

Section PutGet.

Lemma PUTBITS_GETBITS_same (dest data size startpos : Z) :
  1 <= size -> size - 1 <= startpos <= 31 ->
  GETBITS (PUTBITS dest data size startpos) size startpos = data mod 2 ^ size.
Proof.
  intros Hs Hp.
  apply Z.bits_inj'. intros n Hn.
  rewrite testbit_GETBITS, testbit_mod_pow2 by lia.
  destruct (Z.ltb_spec n size); [| reflexivity]. cbn [andb].
  rewrite testbit_PUTBITS by (unfold SHIFT; lia).
  unfold SHIFT.
  replace (n + (startpos - size + 1) <? 32) with true by (symmetry; apply Z.ltb_lt; lia).
  replace (startpos - size + 1 <=? n + (startpos - size + 1)) with true
    by (symmetry; apply Z.leb_le; lia).
  replace (n + (startpos - size + 1) <? startpos - size + 1 + size) with true
    by (symmetry; apply Z.ltb_lt; lia).
  cbn. f_equal. lia.
Qed.

Lemma PUTBITS_GETBITS_other (dest data size startpos size' startpos' : Z) :
  0 <= dest < 4294967296 ->
  1 <= size -> size - 1 <= startpos <= 31 ->
  1 <= size' -> size' - 1 <= startpos' <= 31 ->
  startpos' < startpos - size + 1 \/ startpos < startpos' - size' + 1 ->
  GETBITS (PUTBITS dest data size startpos) size' startpos' = GETBITS dest size' startpos'.
Proof.
  intros Hd Hs Hp Hs' Hp' Hdisj.
  rewrite <- (Z.mod_small dest 4294967296) at 2 by assumption. fold (u32 dest).
  apply Z.bits_inj'. intros n Hn.
  rewrite !testbit_GETBITS by lia.
  destruct (Z.ltb_spec n size'); [| reflexivity]. cbn [andb].
  rewrite testbit_PUTBITS by (unfold SHIFT; lia).
  rewrite testbit_u32 by (unfold SHIFT; lia).
  f_equal. unfold SHIFT.
  destruct (Z.leb_spec (startpos - size + 1) (n + (startpos' - size' + 1)));
    destruct (Z.ltb_spec (n + (startpos' - size' + 1)) (startpos - size + 1 + size));
    cbn; try reflexivity; lia.
Qed.

Lemma PUTBITSHIGH_GETBITSHIGH_same (dest data size startpos : Z) :
  1 <= size -> 32 + size - 1 <= startpos <= 63 ->
  GETBITSHIGH (PUTBITSHIGH dest data size startpos) size startpos = data mod 2 ^ size.
Proof.
  intros Hs Hp.
  apply Z.bits_inj'. intros n Hn.
  rewrite testbit_GETBITSHIGH, testbit_mod_pow2 by lia.
  destruct (Z.ltb_spec n size); [| reflexivity]. cbn [andb].
  rewrite testbit_PUTBITSHIGH by (unfold SHIFTHIGH; lia).
  unfold SHIFTHIGH.
  replace (n + (startpos - 32 - size + 1) <? 32) with true
    by (symmetry; apply Z.ltb_lt; lia).
  replace (startpos - 32 - size + 1 <=? n + (startpos - 32 - size + 1)) with true
    by (symmetry; apply Z.leb_le; lia).
  replace (n + (startpos - 32 - size + 1) <? startpos - 32 - size + 1 + size) with true
    by (symmetry; apply Z.ltb_lt; lia).
  cbn. f_equal. lia.
Qed.

Lemma PUTBITSHIGH_GETBITSHIGH_other (dest data size startpos size' startpos' : Z) :
  0 <= dest < 4294967296 ->
  1 <= size -> 32 + size - 1 <= startpos <= 63 ->
  1 <= size' -> 32 + size' - 1 <= startpos' <= 63 ->
  startpos' < startpos - size + 1 \/ startpos < startpos' - size' + 1 ->
  GETBITSHIGH (PUTBITSHIGH dest data size startpos) size' startpos'
  = GETBITSHIGH dest size' startpos'.
Proof.
  intros Hd Hs Hp Hs' Hp' Hdisj.
  rewrite <- (Z.mod_small dest 4294967296) at 2 by assumption. fold (u32 dest).
  apply Z.bits_inj'. intros n Hn.
  rewrite !testbit_GETBITSHIGH by lia.
  destruct (Z.ltb_spec n size'); [| reflexivity]. cbn [andb].
  rewrite testbit_PUTBITSHIGH by (unfold SHIFTHIGH; lia).
  rewrite testbit_u32 by (unfold SHIFTHIGH; lia).
  f_equal. unfold SHIFTHIGH.
  destruct (Z.leb_spec (startpos - 32 - size + 1) (n + (startpos' - 32 - size' + 1)));
    destruct (Z.ltb_spec (n + (startpos' - 32 - size' + 1))
                (startpos - 32 - size + 1 + size));
    cbn; try reflexivity; lia.
Qed.

End PutGet.

(** X1. A field written with [PUTBITS] is read back by [GETBITS] at the
    same position, cut to its [size] bits, and every field that does not
    overlap it reads as before; the same holds of [PUTBITSHIGH] and
    [GETBITSHIGH] for the positions 32 to 63 of a block. The words are
    32-bit unsigned values and the sizes stay below the width of an
    [int]. *)
Theorem PUTBITS_then_GETBITS (dest data size startpos : Z) :
  0 <= dest < 4294967296 -> 0 <= data < 4294967296 -> 1 <= size <= 30 ->
  (size - 1 <= startpos <= 31 ->
   GETBITS (PUTBITS dest data size startpos) size startpos = data mod 2 ^ size
   /\ forall size' startpos' : Z,
        1 <= size' <= 30 -> size' - 1 <= startpos' <= 31 ->
        startpos' < startpos - size + 1 \/ startpos < startpos' - size' + 1 ->
        GETBITS (PUTBITS dest data size startpos) size' startpos'
        = GETBITS dest size' startpos')
  /\ (32 + size - 1 <= startpos <= 63 ->
      GETBITSHIGH (PUTBITSHIGH dest data size startpos) size startpos = data mod 2 ^ size
      /\ forall size' startpos' : Z,
           1 <= size' <= 30 -> 32 + size' - 1 <= startpos' <= 63 ->
           startpos' < startpos - size + 1 \/ startpos < startpos' - size' + 1 ->
           GETBITSHIGH (PUTBITSHIGH dest data size startpos) size' startpos'
           = GETBITSHIGH dest size' startpos').
Proof.
  intros Hd _ Hs. split; intros Hp; (split; [| intros size' startpos' Hs' Hp' Hdisj]).
  - apply PUTBITS_GETBITS_same; lia.
  - apply PUTBITS_GETBITS_other; lia.
  - apply PUTBITSHIGH_GETBITSHIGH_same; lia.
  - apply PUTBITSHIGH_GETBITSHIGH_other; lia.
Qed.

Lemma PUTBITS_then_GETBITS_witness :
  GETBITS (PUTBITS 4294967295 5 3 10) 3 10 = 5 mod 2 ^ 3
  /\ GETBITS (PUTBITS 4294967295 5 3 10) 4 31 = GETBITS 4294967295 4 31.
Proof.
  destruct (proj1 (PUTBITS_then_GETBITS 4294967295 5 3 10
                     ltac:(lia) ltac:(lia) ltac:(lia)) ltac:(lia)) as [Hsame Hother].
  split; [exact Hsame |].
  apply Hother; lia.
Defined.

(** ** The unstuffing converters *)

Lemma testbit_u8 (a n : Z) :
  0 <= n -> Z.testbit (u8 a) n = (n <? 8) && Z.testbit a n.
Proof.
  intros Hn. unfold u8. change 256 with (2 ^ 8). now apply testbit_mod_pow2.
Qed.

Lemma testbit_lor_shiftl (a b k n : Z) :
  0 <= k -> 0 <= n ->
  Z.testbit (Z.lor (Z.shiftl a k) b) n
  = (if k <=? n then Z.testbit a (n - k) else false) || Z.testbit b n.
Proof.
  intros Hk Hn. rewrite Z.lor_spec. f_equal.
  destruct (Z.leb_spec k n).
  - now rewrite Z.shiftl_spec by lia.
  - now rewrite Z.shiftl_spec_low by lia.
Qed.

(** [hi * 2^k + lo] for a [lo] below [2^k] is the two fields side by side. *)
Lemma concat_bits (hi lo k : Z) :
  0 <= k -> 0 <= lo < 2 ^ k -> hi * 2 ^ k + lo = Z.lor (Z.shiftl hi k) lo.
Proof.
  intros Hk Hlo. rewrite Z.shiftl_mul_pow2 by assumption.
  assert (Hdisj : Z.land (hi * 2 ^ k) lo = 0).
  { apply Z.bits_inj'. intros n Hn. rewrite Z.land_spec, Z.bits_0.
    destruct (Z.ltb_spec n k).
    - now rewrite Z.mul_pow2_bits_low by lia.
    - rewrite <- (Z.mod_small lo (2 ^ k)) by assumption.
      rewrite Z.mod_pow2_bits_high by lia. apply andb_false_r. }
  rewrite <- Z.lxor_lor by assumption. now apply Z.add_nocarry_lxor.
Qed.

Ltac field_side := first [ lia | unfold SHIFTHIGH, SHIFT; lia ].

Ltac bits_of_fields :=
  repeat first
    [ rewrite testbit_GETBITSHIGH by field_side
    | rewrite testbit_GETBITS by field_side
    | rewrite testbit_PUTBITSHIGH by field_side
    | rewrite testbit_PUTBITS by field_side
    | rewrite testbit_u8 by field_side
    | rewrite testbit_u32 by field_side
    | rewrite testbit_lor_shiftl by field_side
    | rewrite Z.shiftr_spec by field_side
    | rewrite Z.bits_0
    | progress cbv -[Z.testbit u8 u32 GETBITSHIGH GETBITS PUTBITSHIGH PUTBITS Z.lor Z.shiftl Z.shiftr] ].

Ltac split_bits n k :=
  lazymatch k with
  | O => idtac
  | S ?k' =>
      let H := fresh "Hne" in
      destruct (Z.eq_dec n (Z.of_nat k')) as [-> | H]; [| split_bits n k']
  end.

Ltac bits_beyond :=
  repeat first
    [ rewrite testbit_GETBITSHIGH by lia
    | rewrite testbit_GETBITS by lia
    | rewrite testbit_lor_shiftl by lia ];
  repeat match goal with
    | |- context [?a <? ?b] =>
        replace (a <? b) with false by (symmetry; apply Z.ltb_ge; lia)
    | |- context [?a <=? ?b] =>
        replace (a <=? b) with true by (symmetry; apply Z.leb_le; lia)
    end;
  cbn [andb orb]; reflexivity.

Ltac bool_atoms :=
  try reflexivity;
  repeat match goal with
    | |- context [Z.testbit ?w ?k] => destruct (Z.testbit w k)
    end;
  reflexivity.

(** Two words agree when they agree on their [k] low bits and have no others. *)
Ltac field_eq k :=
  apply Z.bits_inj';
  let n := fresh "n" in
  let Hn := fresh "Hn" in
  intros n Hn; split_bits n k;
  [ bits_of_fields; bool_atoms .. | bits_beyond ].

Lemma concat3 (a b c : Z) (j k : Z) :
  0 <= j -> 0 <= k -> 0 <= b < 2 ^ j -> 0 <= c < 2 ^ k ->
  a * 2 ^ (j + k) + b * 2 ^ k + c = Z.lor (Z.shiftl (Z.lor (Z.shiftl a j) b) k) c.
Proof.
  intros Hj Hk Hb Hc.
  rewrite <- (concat_bits a b j), <- concat_bits by assumption.
  rewrite Z.pow_add_r by assumption. ring.
Qed.

Section Unstuff.

Variables w1 w2 : Z.

Lemma T_fields :
  let b := fst (unstuff59bits w1 w2) in
  GETBITSHIGH b 4 58 = GETBITSHIGH w1 2 60 * 4 + GETBITSHIGH w1 2 57
  /\ GETBITSHIGH b 4 54 = GETBITSHIGH w1 4 55
  /\ GETBITSHIGH b 4 50 = GETBITSHIGH w1 4 51
  /\ GETBITSHIGH b 4 46 = GETBITSHIGH w1 4 47
  /\ GETBITSHIGH b 4 42 = GETBITSHIGH w1 4 43
  /\ GETBITSHIGH b 4 38 = GETBITSHIGH w1 4 39
  /\ GETBITSHIGH b 3 34 = GETBITSHIGH w1 2 35 * 2 + GETBITSHIGH w1 1 32
  /\ snd (unstuff59bits w1 w2) = w2.
Proof.
  cbv zeta. unfold unstuff59bits, fst, snd.
  repeat split.
  - rewrite (concat_bits _ _ 2) by (pose proof (GETBITSHIGH_range w1 2 57); lia).
    field_eq 4%nat.
  - field_eq 4%nat.
  - field_eq 4%nat.
  - field_eq 4%nat.
  - field_eq 4%nat.
  - field_eq 4%nat.
  - rewrite (concat_bits _ _ 1) by (pose proof (GETBITSHIGH_range w1 1 32); lia).
    field_eq 3%nat.
Qed.

Lemma H_fields :
  let b := fst (unstuff58bits w1 w2) in
  GETBITSHIGH b 4 57 = GETBITSHIGH w1 4 62
  /\ GETBITSHIGH b 4 53 = GETBITSHIGH w1 3 58 * 2 + GETBITSHIGH w1 1 52
  /\ GETBITSHIGH b 4 49 = GETBITSHIGH w1 1 51 * 8 + GETBITSHIGH w1 3 49
  /\ GETBITSHIGH b 4 45 = GETBITSHIGH w1 4 46
  /\ GETBITSHIGH b 4 41 = GETBITSHIGH w1 4 42
  /\ GETBITSHIGH b 4 37 = GETBITSHIGH w1 4 38
  /\ GETBITSHIGH b 2 33 = GETBITSHIGH w1 1 34 * 2 + GETBITSHIGH w1 1 32
  /\ GETBITSHIGH b 12 57
     = GETBITSHIGH w1 7 62 * 32 + GETBITSHIGH w1 2 52 * 8 + GETBITSHIGH w1 3 49
  /\ GETBITSHIGH b 12 45 = GETBITSHIGH w1 12 46
  /\ snd (unstuff58bits w1 w2) = w2.
Proof.
  cbv zeta. unfold unstuff58bits, fst, snd.
  repeat split.
  - field_eq 4%nat.
  - rewrite (concat_bits _ _ 1) by (pose proof (GETBITSHIGH_range w1 1 52); lia).
    field_eq 4%nat.
  - rewrite (concat_bits _ _ 3) by (pose proof (GETBITSHIGH_range w1 3 49); lia).
    field_eq 4%nat.
  - field_eq 4%nat.
  - field_eq 4%nat.
  - field_eq 4%nat.
  - rewrite (concat_bits _ _ 1) by (pose proof (GETBITSHIGH_range w1 1 32); lia).
    field_eq 2%nat.
  - rewrite (concat3 _ _ _ 2 3)
      by (pose proof (GETBITSHIGH_range w1 2 52); pose proof (GETBITSHIGH_range w1 3 49); lia).
    field_eq 12%nat.
  - field_eq 12%nat.
Qed.

Lemma Planar_fields :
  let b1 := fst (unstuff57bits w1 w2) in
  let b2 := snd (unstuff57bits w1 w2) in
  GETBITSHIGH b1 6 63 = GETBITSHIGH w1 6 62
  /\ GETBITSHIGH b1 7 57 = GETBITSHIGH w1 1 56 * 64 + GETBITSHIGH w1 6 54
  /\ GETBITSHIGH b1 6 50
     = GETBITSHIGH w1 1 48 * 32 + GETBITSHIGH w1 2 44 * 8 + GETBITSHIGH w1 3 41
  /\ GETBITSHIGH b1 6 44 = GETBITSHIGH w1 5 38 * 2 + GETBITSHIGH w1 1 32
  /\ GETBITSHIGH b1 7 38 = GETBITS w2 7 31
  /\ GETBITS b2 6 31 = GETBITS w2 6 24
  /\ GETBITS b2 6 25 = GETBITS w2 6 18
  /\ GETBITS b2 7 19 = GETBITS w2 7 12
  /\ GETBITS b2 6 12 = GETBITS w2 6 5.
Proof.
  cbv zeta. unfold unstuff57bits, fst, snd.
  repeat split.
  - field_eq 6%nat.
  - rewrite (concat_bits _ _ 6) by (pose proof (GETBITSHIGH_range w1 6 54); lia).
    field_eq 7%nat.
  - rewrite (concat3 _ _ _ 2 3)
      by (pose proof (GETBITSHIGH_range w1 2 44); pose proof (GETBITSHIGH_range w1 3 41); lia).
    field_eq 6%nat.
  - rewrite (concat_bits _ _ 1) by (pose proof (GETBITSHIGH_range w1 1 32); lia).
    field_eq 6%nat.
  - field_eq 7%nat.
  - field_eq 6%nat.
  - field_eq 6%nat.
  - field_eq 7%nat.
  - field_eq 6%nat.
Qed.

End Unstuff.

(** X2. [unstuff59bits] brings the fields of a T-mode block together: in
    the word it returns, the decoder's 4-bit fields at positions 58, 54,
    50, 46, 42 and 38 are the block's [R0] (bits 60-59 and 57-56), [G0]
    (bits 55-52), [B0] (bits 51-48), [R1] (bits 47-44), [G1] (bits 43-40)
    and [B1] (bits 39-36), and the 3-bit distance index at position 34 is
    made of bits 35-34 and bit 32; bit 33, the bits 63-61 and bit 58 of
    the block are not used. The second word is returned as it is. *)
Theorem unstuff59bits_fields (thumbT_word1 thumbT_word2 : Z) :
  let thumbT59_word1 := fst (unstuff59bits thumbT_word1 thumbT_word2) in
  GETBITSHIGH thumbT59_word1 4 58
  = GETBITSHIGH thumbT_word1 2 60 * 4 + GETBITSHIGH thumbT_word1 2 57
  /\ GETBITSHIGH thumbT59_word1 4 54 = GETBITSHIGH thumbT_word1 4 55
  /\ GETBITSHIGH thumbT59_word1 4 50 = GETBITSHIGH thumbT_word1 4 51
  /\ GETBITSHIGH thumbT59_word1 4 46 = GETBITSHIGH thumbT_word1 4 47
  /\ GETBITSHIGH thumbT59_word1 4 42 = GETBITSHIGH thumbT_word1 4 43
  /\ GETBITSHIGH thumbT59_word1 4 38 = GETBITSHIGH thumbT_word1 4 39
  /\ GETBITSHIGH thumbT59_word1 3 34
     = GETBITSHIGH thumbT_word1 2 35 * 2 + GETBITSHIGH thumbT_word1 1 32
  /\ snd (unstuff59bits thumbT_word1 thumbT_word2) = thumbT_word2.
Proof. exact (T_fields thumbT_word1 thumbT_word2). Qed.

(** X3. [unstuff58bits] brings the fields of an H-mode block together: in
    the word it returns, the decoder's 4-bit fields at positions 57, 53,
    49, 45, 41 and 37 are the block's [R0] (bits 62-59), [G0] (bits 58-56
    and bit 52), [B0] (bit 51 and bits 49-47), [R1] (bits 46-43), [G1]
    (bits 42-39) and [B1] (bits 38-35), and the two stored distance bits
    at position 33 are bit 34 and bit 32 of the block; bit 33, bit 63,
    the bits 55-53 and bit 50 are not used. The second word is returned
    as it is. *)
Theorem unstuff58bits_fields (thumbH_word1 thumbH_word2 : Z) :
  let thumbH58_word1 := fst (unstuff58bits thumbH_word1 thumbH_word2) in
  GETBITSHIGH thumbH58_word1 4 57 = GETBITSHIGH thumbH_word1 4 62
  /\ GETBITSHIGH thumbH58_word1 4 53
     = GETBITSHIGH thumbH_word1 3 58 * 2 + GETBITSHIGH thumbH_word1 1 52
  /\ GETBITSHIGH thumbH58_word1 4 49
     = GETBITSHIGH thumbH_word1 1 51 * 8 + GETBITSHIGH thumbH_word1 3 49
  /\ GETBITSHIGH thumbH58_word1 4 45 = GETBITSHIGH thumbH_word1 4 46
  /\ GETBITSHIGH thumbH58_word1 4 41 = GETBITSHIGH thumbH_word1 4 42
  /\ GETBITSHIGH thumbH58_word1 4 37 = GETBITSHIGH thumbH_word1 4 38
  /\ GETBITSHIGH thumbH58_word1 2 33
     = GETBITSHIGH thumbH_word1 1 34 * 2 + GETBITSHIGH thumbH_word1 1 32
  /\ snd (unstuff58bits thumbH_word1 thumbH_word2) = thumbH_word2.
Proof.
  destruct (H_fields thumbH_word1 thumbH_word2)
    as (H1 & H2 & H3 & H4 & H5 & H6 & H7 & _ & _ & H8).
  cbv zeta. repeat split; assumption.
Qed.

(** X4. [unstuff57bits] packs the thirteen fields of a planar block without
    gaps: the decoder's fields of the two words it returns are the origin
    color [RO] (bits 62-57), [GO] (bit 56 and bits 54-49) and [BO] (bit
    48, bits 44-43 and bits 41-39), the horizontal color [RH] (bits 38-34
    and bit 32), [GH] (bits 31-25) and [BH] (bits 24-19), and the vertical
    color [RV] (bits 18-13), [GV] (bits 12-6) and [BV] (bits 5-0) of the
    block. *)
Theorem unstuff57bits_fields (planar_word1 planar_word2 : Z) :
  let planar57_word1 := fst (unstuff57bits planar_word1 planar_word2) in
  let planar57_word2 := snd (unstuff57bits planar_word1 planar_word2) in
  GETBITSHIGH planar57_word1 6 63 = GETBITSHIGH planar_word1 6 62
  /\ GETBITSHIGH planar57_word1 7 57
     = GETBITSHIGH planar_word1 1 56 * 64 + GETBITSHIGH planar_word1 6 54
  /\ GETBITSHIGH planar57_word1 6 50
     = GETBITSHIGH planar_word1 1 48 * 32 + GETBITSHIGH planar_word1 2 44 * 8
       + GETBITSHIGH planar_word1 3 41
  /\ GETBITSHIGH planar57_word1 6 44
     = GETBITSHIGH planar_word1 5 38 * 2 + GETBITSHIGH planar_word1 1 32
  /\ GETBITSHIGH planar57_word1 7 38 = GETBITS planar_word2 7 31
  /\ GETBITS planar57_word2 6 31 = GETBITS planar_word2 6 24
  /\ GETBITS planar57_word2 6 25 = GETBITS planar_word2 6 18
  /\ GETBITS planar57_word2 7 19 = GETBITS planar_word2 7 12
  /\ GETBITS planar57_word2 6 12 = GETBITS planar_word2 6 5.
Proof. exact (Planar_fields planar_word1 planar_word2). Qed.

(** ** T mode *)

Lemma thumb_paint_as_pass (paint_colors : list (list Z))
    (block_part2 img width startx starty channels : Z) (m : mem) :
  thumb_paint paint_colors block_part2 img width startx starty channels m
  = fold_left (fun m t => thumb_write paint_colors block_part2 img width startx starty
                            channels t m)
      (texel_order 0) m.
Proof. reflexivity. Qed.

Lemma decompressBlockPlanar57c_as_pass
    (compressed57_1 compressed57_2 img width height startx starty channels : Z) (m : mem) :
  decompressBlockPlanar57c compressed57_1 compressed57_2 img width height startx starty
    channels m
  = fold_left (fun m t => planar_write (planar_colorO compressed57_1)
                            (planar_colorH compressed57_1 compressed57_2)
                            (planar_colorV compressed57_2)
                            img width startx starty channels t m)
      (texel_order 0) m.
Proof. reflexivity. Qed.

Lemma store_eq' (m : mem) (a v a' : Z) : a' = a -> store m a v a' = v.
Proof. intros ->. apply store_eq. Qed.

Section RgbPass.

Variables img width startx starty channels : Z.
Variable write : Z * Z -> mem -> mem.
Hypothesis write_frame :
  forall t m a, ~ owns_rgb img width startx starty channels t a -> write t m a = m a.

(** A pass over texels of the block leaves every byte outside the block
    alone. *)
Lemma rgb_pass_frame (l : list (Z * Z)) (a : Z) (m : mem) :
  (forall t, In t l -> 0 <= fst t < 4 /\ 0 <= snd t < 4) ->
  (forall dx dy c, 0 <= dx < 4 -> 0 <= dy < 4 -> 0 <= c < 3 ->
     a <> texel_addr img width startx starty channels dx dy c) ->
  fold_left (fun m t => write t m) l m a = m a.
Proof.
  intros Hl Hout.
  apply (fold_write_frame (owns_rgb img width startx starty channels) write write_frame).
  intros t Ht [Ha | [Ha | Ha]]; destruct (Hl t Ht);
    (eapply Hout; [| | | exact Ha]; lia).
Qed.

Variable value : Z -> Z -> Z -> Z.
Hypothesis width_ge : 4 <= width.
Hypothesis channels_ge : 3 <= channels.
Hypothesis write_value :
  forall dx dy c m, 0 <= c < 3 ->
    write (dx, dy) m (texel_addr img width startx starty channels dx dy c) = value dx dy c.

(** After the pass, channel [c] of texel [(dx, dy)] holds what the loop
    body stored there. *)
Lemma rgb_pass_lookup (flipbit dx dy c : Z) (m : mem) :
  0 <= dx < 4 -> 0 <= dy < 4 -> 0 <= c < 3 ->
  fold_left (fun m t => write t m) (texel_order flipbit) m
    (texel_addr img width startx starty channels dx dy c)
  = value dx dy c.
Proof.
  intros Hdx Hdy Hc.
  rewrite (fold_write_lookup (owns_rgb img width startx starty channels) write
             (texel_order flipbit)
             (owns_rgb_dec img width startx starty channels) write_frame) with (t := (dx, dy)).
  - now apply write_value.
  - intros [x y] m1 m2 a _. unfold owns_rgb. cbn [fst snd].
    intros [-> | [-> | ->]]; rewrite !write_value by lia; reflexivity.
  - apply owns_rgb_disjoint; assumption.
  - now apply texel_order_complete.
  - unfold owns_rgb. cbn [fst snd].
    assert (Hcases : c = 0 \/ c = 1 \/ c = 2) by lia.
    destruct Hcases as [-> | [-> | ->]]; tauto.
Qed.

End RgbPass.

Section ThumbPass.

Variables block_part2 img width startx starty channels : Z.
Variable paint_colors : list (list Z).

Lemma thumb_write_frame (t : Z * Z) (m : mem) (a : Z) :
  ~ owns_rgb img width startx starty channels t a ->
  thumb_write paint_colors block_part2 img width startx starty channels t m a = m a.
Proof.
  unfold owns_rgb, thumb_write, texel_addr, R, G, B. intros Hnot.
  rewrite !store_ne; [reflexivity | lia ..].
Qed.

Lemma thumb_write_value (dx dy c : Z) (m : mem) :
  0 <= c < 3 ->
  thumb_write paint_colors block_part2 img width startx starty channels (dx, dy) m
    (texel_addr img width startx starty channels dx dy c)
  = CLAMP 0 (get2 paint_colors (block_mask_at block_part2 dx dy) c) 255.
Proof.
  intros Hc. unfold thumb_write, texel_addr, R, G, B. cbn [fst snd].
  rewrite !u8_CLAMP.
  assert (Hcases : c = 0 \/ c = 1 \/ c = 2) by lia.
  destruct Hcases as [-> | [-> | ->]].
  - rewrite store_ne by lia. rewrite store_ne by lia. rewrite store_eq' by lia. reflexivity.
  - rewrite store_ne by lia. rewrite store_eq' by lia. reflexivity.
  - rewrite store_eq' by lia. reflexivity.
Qed.

End ThumbPass.

Section ThumbValues.

Lemma block_mask_at_spec (block_part2 dx dy : Z) :
  0 <= dx < 4 -> 0 <= dy < 4 ->
  block_mask_at block_part2 dx dy = Spec.texel_index block_part2 dx dy.
Proof.
  intros Hdx Hdy. unfold block_mask_at, Spec.texel_index, GETBITS.
  change (Z.shiftl 1 1 - 1) with 1.
  rewrite !plane_bit by lia.
  replace (dy + dx * 4 + 16 - 1 + 1) with (16 + (4 * dx + dy)) by lia.
  replace (dy + dx * 4 - 1 + 1) with (4 * dx + dy) by lia.
  destruct (Z.testbit block_part2 (16 + (4 * dx + dy)));
    destruct (Z.testbit block_part2 (4 * dx + dy)); reflexivity.
Qed.

Lemma texel_index_cases (block_part2 dx dy : Z) :
  let i := Spec.texel_index block_part2 dx dy in
  i = 0 \/ i = 1 \/ i = 2 \/ i = 3.
Proof.
  unfold Spec.texel_index.
  destruct (Z.testbit block_part2 (16 + (4 * dx + dy)));
    destruct (Z.testbit block_part2 (4 * dx + dy)); cbn; tauto.
Qed.

(** A 4-bit component expanded to 8 bits is 17 times the component. *)
Lemma expand444 (v : Z) :
  0 <= v < 16 ->
  u8 (Z.lor (Z.shiftl (u8 v) (8 - 4)) (Z.shiftr (u8 v) (4 - (8 - 4)))) = 17 * v.
Proof.
  intros Hv. apply Z.eqb_eq.
  apply (forall_range
           (fun v => u8 (Z.lor (Z.shiftl (u8 v) (8 - 4)) (Z.shiftr (u8 v) (4 - (8 - 4))))
                     =? 17 * v) 0 16);
    [vm_compute; reflexivity | lia].
Qed.

Lemma CLAMP_idem (x : Z) : CLAMP 0 (CLAMP 0 x 255) 255 = CLAMP 0 x 255.
Proof.
  unfold CLAMP.
  destruct (Z.ltb_spec x 0); [reflexivity |].
  destruct (Z.gtb_spec x 255); [reflexivity |].
  destruct (Z.ltb_spec x 0); [lia |]. destruct (Z.gtb_spec x 255); [lia | reflexivity].
Qed.

Lemma CLAMP_small (x : Z) : 0 <= x <= 255 -> CLAMP 0 x 255 = x.
Proof.
  intros Hx. unfold CLAMP.
  destruct (Z.ltb_spec x 0); [lia |]. destruct (Z.gtb_spec x 255); [lia | reflexivity].
Qed.

Lemma table59T_range (d : Z) : 0 <= get1 table59T d <= 64.
Proof.
  unfold get1, table59T.
  destruct (Z.to_nat d) as [| [| [| [| [| [| [| [| [| n]]]]]]]]]; cbn; lia.
Qed.

End ThumbValues.

Ltac get_lit :=
  cbv [get2 get1 R G B Z.to_nat Pos.to_nat Pos.iter_op Init.Nat.add nth].

Lemma decompressColor_444 (r0 g0 b0 r1 g1 b1 : Z) :
  0 <= r0 < 16 -> 0 <= g0 < 16 -> 0 <= b0 < 16 ->
  0 <= r1 < 16 -> 0 <= g1 < 16 -> 0 <= b1 < 16 ->
  decompressColor 4 4 4 [[u8 r0; u8 g0; u8 b0]; [u8 r1; u8 g1; u8 b1]]
  = [[17 * r0; 17 * g0; 17 * b0]; [17 * r1; 17 * g1; 17 * b1]].
Proof.
  intros. unfold decompressColor. get_lit.
  now rewrite !expand444 by assumption.
Qed.

Lemma paint59T_code (d r0 g0 b0 r1 g1 b1 index c : Z) :
  0 <= r0 < 16 -> 0 <= g0 < 16 -> 0 <= b0 < 16 ->
  0 <= r1 < 16 -> 0 <= g1 < 16 -> 0 <= b1 < 16 ->
  index = 0 \/ index = 1 \/ index = 2 \/ index = 3 -> 0 <= c < 3 ->
  exists paint,
    calculatePaintColors59T d PATTERN_T
      (decompressColor 4 4 4 [[u8 r0; u8 g0; u8 b0]; [u8 r1; u8 g1; u8 b1]]) = Some paint
    /\ CLAMP 0 (get2 paint index c) 255
       = (let c0 := 17 * get1 [r0; g0; b0] c in
          let c1 := 17 * get1 [r1; g1; b1] c in
          let dd := get1 table59T d in
          if index =? 0 then c0
          else if index =? 1 then CLAMP 0 (c1 + dd) 255
          else if index =? 2 then c1
          else CLAMP 0 (c1 - dd) 255).
Proof.
  intros Hr0 Hg0 Hb0 Hr1 Hg1 Hb1 Hi Hc.
  rewrite decompressColor_444 by assumption.
  unfold calculatePaintColors59T. change (PATTERN_T =? PATTERN_T) with true. cbv iota.
  eexists. split; [reflexivity |].
  pose proof (table59T_range d) as Hdd. revert Hdd.
  generalize (get1 table59T d). intros dd Hdd.
  assert (Hcc : c = 0 \/ c = 1 \/ c = 2) by lia.
  destruct Hi as [-> | [-> | [-> | ->]]]; destruct Hcc as [-> | [-> | ->]];
    get_lit; cbv zeta;
    repeat match goal with |- context [?a =? ?b] =>
      (change (a =? b) with true || change (a =? b) with false) end;
    cbv iota;
    rewrite ?u8_CLAMP, ?CLAMP_idem; try reflexivity; apply CLAMP_small; lia.
Qed.

Lemma T_texel (bp1 bp2 img width height startx starty channels : Z) (m : mem)
    (dx dy c : Z) :
  4 <= width -> 3 <= channels ->
  0 <= dx < 4 -> 0 <= dy < 4 -> 0 <= c < 3 ->
  exists m',
    (let '(b1, b2) := unstuff59bits bp1 bp2 in
     decompressBlockTHUMB59Tc b1 b2 img width height startx starty channels m) = Some m'
    /\ m' (texel_addr img width startx starty channels dx dy c)
       = Layout.T_paint bp1 (Spec.texel_index bp2 dx dy) c.
Proof.
  intros Hw Hch Hdx Hdy Hc.
  pose proof (T_fields bp1 bp2) as HF. cbv zeta in HF.
  destruct (unstuff59bits bp1 bp2) as [b1 b2]. cbn [fst snd] in HF.
  destruct HF as (HR0 & HG0 & HB0 & HR1 & HG1 & HB1 & Hd & ->).
  unfold decompressBlockTHUMB59Tc.
  unfold TABLE_BITS_59T, R_BITS59T, G_BITS59T, B_BITS59T.
  rewrite HR0, HG0, HB0, HR1, HG1, HB1.
  pose proof (GETBITSHIGH_range bp1 2 60 ltac:(lia)) as Ha.
  pose proof (GETBITSHIGH_range bp1 2 57 ltac:(lia)) as Hb.
  pose proof (GETBITSHIGH_range bp1 4 55 ltac:(lia)) as Hg0.
  pose proof (GETBITSHIGH_range bp1 4 51 ltac:(lia)) as Hb0.
  pose proof (GETBITSHIGH_range bp1 4 47 ltac:(lia)) as Hr1.
  pose proof (GETBITSHIGH_range bp1 4 43 ltac:(lia)) as Hg1.
  pose proof (GETBITSHIGH_range bp1 4 39 ltac:(lia)) as Hb1.
  change (2 ^ 2) with 4 in Ha, Hb. change (2 ^ 4) with 16 in Hg0, Hb0, Hr1, Hg1, Hb1.
  assert (Hr0 : 0 <= GETBITSHIGH bp1 2 60 * 4 + GETBITSHIGH bp1 2 57 < 16) by lia.
  destruct (paint59T_code (u8 (GETBITSHIGH b1 3 34)) _ _ _ _ _ _
              (Spec.texel_index bp2 dx dy) c
              Hr0 Hg0 Hb0 Hr1 Hg1 Hb1 (texel_index_cases bp2 dx dy) Hc)
    as (paint & -> & Hpaint).
  eexists. split; [reflexivity |].
  rewrite thumb_paint_as_pass.
  rewrite (rgb_pass_lookup img width startx starty channels _
             (thumb_write_frame bp2 img width startx starty channels _)
             _ Hw Hch
             (thumb_write_value bp2 img width startx starty channels _)) by assumption.
  rewrite block_mask_at_spec by assumption.
  rewrite Hpaint, Hd. cbv zeta.
  pose proof (GETBITSHIGH_range bp1 2 35 ltac:(lia)) as Hda.
  pose proof (GETBITSHIGH_range bp1 1 32 ltac:(lia)) as Hdb.
  change (2 ^ 2) with 4 in Hda. change (2 ^ 1) with 2 in Hdb.
  rewrite u8_small by lia.
  unfold Layout.T_paint, Layout.T_base, Layout.T_distance.
  assert (Hcc : c = 0 \/ c = 1 \/ c = 2) by lia.
  destruct Hcc as [-> | [-> | ->]]; reflexivity.
Qed.

(** ** H mode *)

Lemma table58H_range (d : Z) : 0 <= get1 table58H d <= 64.
Proof.
  unfold get1, table58H.
  destruct (Z.to_nat d) as [| [| [| [| [| [| [| [| [| n]]]]]]]]]; cbn; lia.
Qed.

Lemma paint58H_code (d r0 g0 b0 r1 g1 b1 index c : Z) :
  0 <= r0 < 16 -> 0 <= g0 < 16 -> 0 <= b0 < 16 ->
  0 <= r1 < 16 -> 0 <= g1 < 16 -> 0 <= b1 < 16 ->
  index = 0 \/ index = 1 \/ index = 2 \/ index = 3 -> 0 <= c < 3 ->
  exists paint,
    calculatePaintColors58H d PATTERN_H
      (decompressColor 4 4 4 [[u8 r0; u8 g0; u8 b0]; [u8 r1; u8 g1; u8 b1]]) = Some paint
    /\ CLAMP 0 (get2 paint index c) 255
       = (let c0 := 17 * get1 [r0; g0; b0] c in
          let c1 := 17 * get1 [r1; g1; b1] c in
          let dd := get1 table58H d in
          if index =? 0 then CLAMP 0 (c0 + dd) 255
          else if index =? 1 then CLAMP 0 (c0 - dd) 255
          else if index =? 2 then CLAMP 0 (c1 + dd) 255
          else CLAMP 0 (c1 - dd) 255).
Proof.
  intros Hr0 Hg0 Hb0 Hr1 Hg1 Hb1 Hi Hc.
  rewrite decompressColor_444 by assumption.
  unfold calculatePaintColors58H. change (PATTERN_H =? PATTERN_H) with true. cbv iota.
  eexists. split; [reflexivity |].
  generalize (get1 table58H d). intros dd.
  assert (Hcc : c = 0 \/ c = 1 \/ c = 2) by lia.
  destruct Hi as [-> | [-> | [-> | ->]]]; destruct Hcc as [-> | [-> | ->]];
    get_lit; cbv zeta;
    repeat match goal with |- context [?a =? ?b] =>
      (change (a =? b) with true || change (a =? b) with false) end;
    cbv iota;
    rewrite ?u8_CLAMP, ?CLAMP_idem; reflexivity.
Qed.

Section HFields.

Variables w1 w2 : Z.

Lemma H_fields12 :
  let b := fst (unstuff58bits w1 w2) in
  GETBITSHIGH b 12 57 = Layout.H_color12 w1 0
  /\ GETBITSHIGH b 12 45 = Layout.H_color12 w1 1.
Proof.
  cbv zeta. unfold unstuff58bits, fst, Layout.H_color12, Layout.H_base.
  change (0 =? 0) with true. change (1 =? 0) with false. change (2 =? 0) with false.
  change (1 =? 1) with true. change (2 =? 1) with false. cbv iota.
  change (46 - 4 * 0) with 46. change (46 - 4 * 1) with 42. change (46 - 4 * 2) with 38.
  pose proof (GETBITSHIGH_range w1 3 58 ltac:(lia)).
  pose proof (GETBITSHIGH_range w1 1 52 ltac:(lia)).
  pose proof (GETBITSHIGH_range w1 1 51 ltac:(lia)).
  pose proof (GETBITSHIGH_range w1 3 49 ltac:(lia)).
  pose proof (GETBITSHIGH_range w1 4 42 ltac:(lia)).
  pose proof (GETBITSHIGH_range w1 4 38 ltac:(lia)).
  split.
  - replace (GETBITSHIGH w1 4 62 * 256
             + (GETBITSHIGH w1 3 58 * 2 + GETBITSHIGH w1 1 52) * 16
             + (GETBITSHIGH w1 1 51 * 8 + GETBITSHIGH w1 3 49))
      with ((GETBITSHIGH w1 4 62 * 2 ^ 4
             + (GETBITSHIGH w1 3 58 * 2 ^ 1 + GETBITSHIGH w1 1 52)) * 2 ^ 4
            + (GETBITSHIGH w1 1 51 * 2 ^ 3 + GETBITSHIGH w1 3 49)) by lia.
    rewrite (concat_bits _ (_ * 2 ^ 3 + _) 4) by lia.
    rewrite (concat_bits _ (_ * 2 ^ 1 + _) 4) by lia.
    rewrite (concat_bits _ _ 3), (concat_bits _ _ 1) by lia.
    field_eq 12%nat.
  - replace (GETBITSHIGH w1 4 46 * 256 + GETBITSHIGH w1 4 42 * 16 + GETBITSHIGH w1 4 38)
      with ((GETBITSHIGH w1 4 46 * 2 ^ 4 + GETBITSHIGH w1 4 42) * 2 ^ 4
            + GETBITSHIGH w1 4 38) by lia.
    rewrite (concat_bits _ (GETBITSHIGH w1 4 38) 4) by lia.
    rewrite (concat_bits _ _ 4) by lia.
    field_eq 12%nat.
Qed.

End HFields.

Lemma distance_code (s : Z) :
  0 <= s < 4 ->
  u8 (Z.lor (u8 (Z.shiftl s 1)) 1) = s * 2 + 1 /\ u8 (Z.shiftl s 1) = s * 2 + 0.
Proof.
  intros Hs. assert (Hc : s = 0 \/ s = 1 \/ s = 2 \/ s = 3) by lia.
  destruct Hc as [-> | [-> | [-> | ->]]]; vm_compute; split; reflexivity.
Qed.

Lemma distance58H_layout (bp1 b1 : Z) :
  GETBITSHIGH b1 2 33 = GETBITSHIGH bp1 1 34 * 2 + GETBITSHIGH bp1 1 32 ->
  GETBITSHIGH b1 12 57 = Layout.H_color12 bp1 0 ->
  GETBITSHIGH b1 12 45 = Layout.H_color12 bp1 1 ->
  distance58H b1
  = (GETBITSHIGH bp1 1 34 * 2 + GETBITSHIGH bp1 1 32) * 2
    + (if Layout.H_color12 bp1 0 >=? Layout.H_color12 bp1 1 then 1 else 0).
Proof.
  intros Hd Hcol0 Hcol1.
  unfold distance58H. rewrite Hcol0, Hcol1, Hd.
  pose proof (GETBITSHIGH_range bp1 1 34 ltac:(lia)) as Hda.
  pose proof (GETBITSHIGH_range bp1 1 32 ltac:(lia)) as Hdb.
  change (2 ^ 1) with 2 in Hda, Hdb.
  destruct (distance_code (GETBITSHIGH bp1 1 34 * 2 + GETBITSHIGH bp1 1 32) ltac:(lia))
    as [H1 H0].
  destruct (Layout.H_color12 bp1 0 >=? Layout.H_color12 bp1 1); assumption.
Qed.

Lemma H_texel (bp1 bp2 img width height startx starty channels : Z) (m : mem)
    (dx dy c : Z) :
  4 <= width -> 3 <= channels ->
  0 <= dx < 4 -> 0 <= dy < 4 -> 0 <= c < 3 ->
  exists m',
    (let '(b1, b2) := unstuff58bits bp1 bp2 in
     decompressBlockTHUMB58Hc b1 b2 img width height startx starty channels m) = Some m'
    /\ m' (texel_addr img width startx starty channels dx dy c)
       = Layout.H_paint bp1 (Spec.texel_index bp2 dx dy) c.
Proof.
  intros Hw Hch Hdx Hdy Hc.
  pose proof (H_fields bp1 bp2) as HF. pose proof (H_fields12 bp1 bp2) as HF12.
  cbv zeta in HF, HF12.
  destruct (unstuff58bits bp1 bp2) as [b1 b2]. cbn [fst snd] in HF, HF12.
  destruct HF as (HR0 & HG0 & HB0 & HR1 & HG1 & HB1 & Hd & _ & _ & ->).
  destruct HF12 as [Hcol0 Hcol1].
  unfold decompressBlockTHUMB58Hc.
  unfold R_BITS58H, G_BITS58H, B_BITS58H.
  rewrite HR0, HG0, HB0, HR1, HG1, HB1.
  pose proof (GETBITSHIGH_range bp1 4 62 ltac:(lia)) as Hr0.
  pose proof (GETBITSHIGH_range bp1 3 58 ltac:(lia)) as Hg0a.
  pose proof (GETBITSHIGH_range bp1 1 52 ltac:(lia)) as Hg0b.
  pose proof (GETBITSHIGH_range bp1 1 51 ltac:(lia)) as Hb0a.
  pose proof (GETBITSHIGH_range bp1 3 49 ltac:(lia)) as Hb0b.
  pose proof (GETBITSHIGH_range bp1 4 46 ltac:(lia)) as Hr1.
  pose proof (GETBITSHIGH_range bp1 4 42 ltac:(lia)) as Hg1.
  pose proof (GETBITSHIGH_range bp1 4 38 ltac:(lia)) as Hb1.
  change (2 ^ 4) with 16 in *. change (2 ^ 3) with 8 in *. change (2 ^ 1) with 2 in *.
  assert (Hg0 : 0 <= GETBITSHIGH bp1 3 58 * 2 + GETBITSHIGH bp1 1 52 < 16) by lia.
  assert (Hb0 : 0 <= GETBITSHIGH bp1 1 51 * 8 + GETBITSHIGH bp1 3 49 < 16) by lia.
  destruct (paint58H_code (distance58H b1) _ _ _ _ _ _
              (Spec.texel_index bp2 dx dy) c
              Hr0 Hg0 Hb0 Hr1 Hg1 Hb1 (texel_index_cases bp2 dx dy) Hc)
    as (paint & -> & Hpaint).
  eexists. split; [reflexivity |].
  rewrite thumb_paint_as_pass.
  rewrite (rgb_pass_lookup img width startx starty channels _
             (thumb_write_frame bp2 img width startx starty channels _)
             _ Hw Hch
             (thumb_write_value bp2 img width startx starty channels _)) by assumption.
  rewrite block_mask_at_spec by assumption.
  rewrite Hpaint. cbv zeta.
  pose proof (distance58H_layout bp1 b1 Hd Hcol0 Hcol1) as Hdist.
  rewrite Hdist.
  unfold Layout.H_paint, Layout.H_base, Layout.H_distance.
  assert (Hcc : c = 0 \/ c = 1 \/ c = 2) by lia.
  destruct Hcc as [-> | [-> | ->]]; reflexivity.
Qed.

(** ** Planar mode *)

Section PlanarPass.

Variables img width startx starty channels : Z.
Variables colorO colorH colorV : list Z.

Lemma planar_write_frame (t : Z * Z) (m : mem) (a : Z) :
  ~ owns_rgb img width startx starty channels t a ->
  planar_write colorO colorH colorV img width startx starty channels t m a = m a.
Proof.
  unfold owns_rgb, planar_write, texel_addr. intros Hnot.
  rewrite !store_ne; [reflexivity | lia ..].
Qed.

Lemma planar_write_value (dx dy c : Z) (m : mem) :
  0 <= c < 3 ->
  planar_write colorO colorH colorV img width startx starty channels (dx, dy) m
    (texel_addr img width startx starty channels dx dy c)
  = CLAMP 0 ((dx * (get1 colorH c - get1 colorO c) + dy * (get1 colorV c - get1 colorO c)
              + 4 * get1 colorO c + 2) / 4) 255.
Proof.
  intros Hc. unfold planar_write, texel_addr. cbn [fst snd].
  rewrite !u8_CLAMP. rewrite !Z.shiftr_div_pow2 by lia. change (2 ^ 2) with 4.
  assert (Hcases : c = 0 \/ c = 1 \/ c = 2) by lia.
  destruct Hcases as [-> | [-> | ->]].
  - rewrite store_ne by lia. rewrite store_ne by lia. rewrite store_eq' by lia. reflexivity.
  - rewrite store_ne by lia. rewrite store_eq' by lia. reflexivity.
  - rewrite store_eq' by lia. reflexivity.
Qed.

End PlanarPass.

Lemma expand6_code (v : Z) :
  0 <= v < 64 -> u8 (Z.lor (Z.shiftl (u8 v) 2) (Z.shiftr (u8 v) 4)) = 4 * v + v / 16.
Proof.
  intros Hv. apply Z.eqb_eq.
  apply (forall_range
           (fun v => u8 (Z.lor (Z.shiftl (u8 v) 2) (Z.shiftr (u8 v) 4)) =? 4 * v + v / 16)
           0 64);
    [vm_compute; reflexivity | lia].
Qed.

Lemma expand7_code (v : Z) :
  0 <= v < 128 -> u8 (Z.lor (Z.shiftl (u8 v) 1) (Z.shiftr (u8 v) 6)) = 2 * v + v / 64.
Proof.
  intros Hv. apply Z.eqb_eq.
  apply (forall_range
           (fun v => u8 (Z.lor (Z.shiftl (u8 v) 1) (Z.shiftr (u8 v) 6)) =? 2 * v + v / 64)
           0 128);
    [vm_compute; reflexivity | lia].
Qed.

Lemma Planar_colors (bp1 bp2 : Z) (c : Z) :
  0 <= c < 3 ->
  let b1 := fst (unstuff57bits bp1 bp2) in
  let b2 := snd (unstuff57bits bp1 bp2) in
  get1 (planar_colorO b1) c = Layout.P_expand c (Layout.P_origin bp1 c)
  /\ get1 (planar_colorH b1 b2) c = Layout.P_expand c (Layout.P_horizontal bp1 bp2 c)
  /\ get1 (planar_colorV b2) c = Layout.P_expand c (Layout.P_vertical bp2 c).
Proof.
  intros Hc. pose proof (Planar_fields bp1 bp2) as HF. cbv zeta in *.
  destruct HF as (HO0 & HO1 & HO2 & HH0 & HH1 & HH2 & HV0 & HV1 & HV2).
  unfold planar_colorO, planar_colorH, planar_colorV.
  rewrite HO0, HO1, HO2, HH0, HH1, HH2, HV0, HV1, HV2.
  pose proof (GETBITSHIGH_range bp1 6 62 ltac:(lia)).
  pose proof (GETBITSHIGH_range bp1 1 56 ltac:(lia)).
  pose proof (GETBITSHIGH_range bp1 6 54 ltac:(lia)).
  pose proof (GETBITSHIGH_range bp1 1 48 ltac:(lia)).
  pose proof (GETBITSHIGH_range bp1 2 44 ltac:(lia)).
  pose proof (GETBITSHIGH_range bp1 3 41 ltac:(lia)).
  pose proof (GETBITSHIGH_range bp1 5 38 ltac:(lia)).
  pose proof (GETBITSHIGH_range bp1 1 32 ltac:(lia)).
  pose proof (GETBITS_range bp2 7 31 ltac:(lia)).
  pose proof (GETBITS_range bp2 6 24 ltac:(lia)).
  pose proof (GETBITS_range bp2 6 18 ltac:(lia)).
  pose proof (GETBITS_range bp2 7 12 ltac:(lia)).
  pose proof (GETBITS_range bp2 6 5 ltac:(lia)).
  change (2 ^ 1) with 2 in *. change (2 ^ 2) with 4 in *. change (2 ^ 3) with 8 in *.
  change (2 ^ 5) with 32 in *. change (2 ^ 6) with 64 in *. change (2 ^ 7) with 128 in *.
  rewrite !expand6_code, !expand7_code by lia.
  assert (Hcc : c = 0 \/ c = 1 \/ c = 2) by lia.
  destruct Hcc as [-> | [-> | ->]]; repeat split; reflexivity.
Qed.

Lemma Planar_texel (bp1 bp2 img width height startx starty channels : Z) (m : mem)
    (dx dy c : Z) :
  4 <= width -> 3 <= channels ->
  0 <= dx < 4 -> 0 <= dy < 4 -> 0 <= c < 3 ->
  (let '(b1, b2) := unstuff57bits bp1 bp2 in
   decompressBlockPlanar57c b1 b2 img width height startx starty channels m)
    (texel_addr img width startx starty channels dx dy c)
  = Layout.P_texel bp1 bp2 dx dy c.
Proof.
  intros Hw Hch Hdx Hdy Hc.
  pose proof (Planar_colors bp1 bp2 c Hc) as HC. cbv zeta in HC.
  destruct (unstuff57bits bp1 bp2) as [b1 b2]. cbn [fst snd] in HC.
  destruct HC as (HO & HH & HV).
  rewrite decompressBlockPlanar57c_as_pass.
  rewrite (rgb_pass_lookup img width startx starty channels _
             (planar_write_frame img width startx starty channels _ _ _)
             _ Hw Hch
             (planar_write_value img width startx starty channels _ _ _)) by assumption.
  rewrite HO, HH, HV. reflexivity.
Qed.

Lemma Planar_corner (bp1 bp2 c : Z) :
  0 <= c < 3 ->
  Layout.P_texel bp1 bp2 0 0 c = Layout.P_expand c (Layout.P_origin bp1 c).
Proof.
  intros Hc. unfold Layout.P_texel. cbv zeta.
  set (O := Layout.P_expand c (Layout.P_origin bp1 c)).
  assert (HO : 0 <= O <= 255).
  { unfold O, Layout.P_expand, Layout.P_origin.
    pose proof (GETBITSHIGH_range bp1 6 62 ltac:(lia)).
    pose proof (GETBITSHIGH_range bp1 1 56 ltac:(lia)).
    pose proof (GETBITSHIGH_range bp1 6 54 ltac:(lia)).
    pose proof (GETBITSHIGH_range bp1 1 48 ltac:(lia)).
    pose proof (GETBITSHIGH_range bp1 2 44 ltac:(lia)).
    pose proof (GETBITSHIGH_range bp1 3 41 ltac:(lia)).
    change (2 ^ 1) with 2 in *. change (2 ^ 2) with 4 in *. change (2 ^ 3) with 8 in *.
    change (2 ^ 6) with 64 in *.
    assert (Hcc : c = 0 \/ c = 1 \/ c = 2) by lia.
    destruct Hcc as [-> | [-> | ->]];
      repeat match goal with |- context [?a =? ?b] =>
        (change (a =? b) with true || change (a =? b) with false) end; cbv iota;
      Z.div_mod_to_equations; lia. }
  replace (0 * _ + 0 * _ + 4 * O + 2) with (4 * O + 2) by lia.
  replace ((4 * O + 2) / 4) with O by (Z.div_mod_to_equations; lia).
  apply CLAMP_small. lia.
Qed.

(** ** The RGB dispatcher *)

Section Returns.

Lemma decompressBlockTHUMB59Tc_returns
    (b1 b2 img width height startx starty channels : Z) (m : mem) :
  exists m', decompressBlockTHUMB59Tc b1 b2 img width height startx starty channels m
             = Some m'
    /\ forall a,
         (forall dx dy c, 0 <= dx < 4 -> 0 <= dy < 4 -> 0 <= c < 3 ->
            a <> texel_addr img width startx starty channels dx dy c) ->
         m' a = m a.
Proof.
  unfold decompressBlockTHUMB59Tc, calculatePaintColors59T.
  change (PATTERN_T =? PATTERN_T) with true. cbv iota.
  eexists. split; [reflexivity |]. intros a Hout.
  rewrite thumb_paint_as_pass.
  apply (rgb_pass_frame img width startx starty channels _
           (thumb_write_frame b2 img width startx starty channels _));
    [apply texel_order_range | exact Hout].
Qed.

Lemma decompressBlockTHUMB58Hc_returns
    (b1 b2 img width height startx starty channels : Z) (m : mem) :
  exists m', decompressBlockTHUMB58Hc b1 b2 img width height startx starty channels m
             = Some m'
    /\ forall a,
         (forall dx dy c, 0 <= dx < 4 -> 0 <= dy < 4 -> 0 <= c < 3 ->
            a <> texel_addr img width startx starty channels dx dy c) ->
         m' a = m a.
Proof.
  unfold decompressBlockTHUMB58Hc, calculatePaintColors58H.
  change (PATTERN_H =? PATTERN_H) with true. cbv iota.
  eexists. split; [reflexivity |]. intros a Hout.
  rewrite thumb_paint_as_pass.
  apply (rgb_pass_frame img width startx starty channels _
           (thumb_write_frame b2 img width startx starty channels _));
    [apply texel_order_range | exact Hout].
Qed.

Lemma decompressBlockPlanar57c_frame
    (b1 b2 img width height startx starty channels : Z) (m : mem) (a : Z) :
  (forall dx dy c, 0 <= dx < 4 -> 0 <= dy < 4 -> 0 <= c < 3 ->
     a <> texel_addr img width startx starty channels dx dy c) ->
  decompressBlockPlanar57c b1 b2 img width height startx starty channels m a = m a.
Proof.
  intros Hout. rewrite decompressBlockPlanar57c_as_pass.
  apply (rgb_pass_frame img width startx starty channels _
           (planar_write_frame img width startx starty channels _ _ _));
    [apply texel_order_range | exact Hout].
Qed.

Lemma decompressBlockDiffFlipC_frame
    (bp1 bp2 img width height startx starty channels : Z) (m : mem) (a : Z) :
  (forall dx dy c, 0 <= dx < 4 -> 0 <= dy < 4 -> 0 <= c < 3 ->
     a <> texel_addr img width startx starty channels dx dy c) ->
  decompressBlockDiffFlipC bp1 bp2 img width height startx starty channels m a = m a.
Proof.
  intros Hout. unfold decompressBlockDiffFlipC. cbv zeta.
  destruct (negb (truthy (GETBITSHIGH bp1 1 33)));
    rewrite diffflip_loops_as_pass;
    (apply (rgb_pass_frame img width startx starty channels _
              (diffflip_write_frame _ _ _ _ _ img width startx starty channels _ _));
     [apply texel_order_range | exact Hout]).
Qed.

Lemma decompressBlockETC2c_returns
    (bp1 bp2 img width height startx starty channels : Z) (m : mem) :
  exists m', decompressBlockETC2c bp1 bp2 img width height startx starty channels m
             = Some m'
    /\ forall a,
         (forall dx dy c, 0 <= dx < 4 -> 0 <= dy < 4 -> 0 <= c < 3 ->
            a <> texel_addr img width startx starty channels dx dy c) ->
         m' a = m a.
Proof.
  unfold decompressBlockETC2c.
  destruct (etc2_route bp1).
  1, 2: eexists; split; [reflexivity |]; intros a Hout;
    now apply decompressBlockDiffFlipC_frame.
  - destruct (unstuff59bits bp1 bp2). apply decompressBlockTHUMB59Tc_returns.
  - destruct (unstuff58bits bp1 bp2). apply decompressBlockTHUMB58Hc_returns.
  - destruct (unstuff57bits bp1 bp2). eexists. split; [reflexivity |].
    intros a Hout. now apply decompressBlockPlanar57c_frame.
Qed.

End Returns.

(** X5. [decompressBlockETC2c] returns for every block (none of its five
    modes reaches the decoders' [exit]), and of the image memory it
    changes nothing but the 48 color bytes of the block's own sixteen
    texels: every other byte holds what it held before the call. *)
Theorem decompressBlockETC2c_writes_only_its_block
    (block_part1 block_part2 img width height startx starty channels : Z) (m : mem) :
  exists m',
    decompressBlockETC2c block_part1 block_part2 img width height startx starty channels m
    = Some m'
    /\ forall a,
         (forall dx dy c, 0 <= dx < 4 -> 0 <= dy < 4 -> 0 <= c < 3 ->
            a <> texel_addr img width startx starty channels dx dy c) ->
         m' a = m a.
Proof. apply decompressBlockETC2c_returns. Qed.

(** X6. A block that [decompressBlockETC2c] routes to the T mode (the red
    sum of base and difference leaves 0..31) is decoded from the bits of
    the block as they lie in the file: channel [c] of texel [(dx, dy)]
    is the paint color that the texel's 2-bit index selects among the
    first base color, the second plus the distance, the second, and the
    second minus the distance, the base colors being the 4-bit fields
    times 17 and the sums clamped to 0..255. The image is at least one
    block wide and pixels have at least three channels. *)
Theorem decompressBlockETC2c_T_mode
    (block_part1 block_part2 img width height startx starty channels : Z) (m : mem)
    (dx dy c : Z) :
  etc2_route block_part1 = ModeT ->
  4 <= width -> 3 <= channels ->
  0 <= dx < 4 -> 0 <= dy < 4 -> 0 <= c < 3 ->
  exists m',
    decompressBlockETC2c block_part1 block_part2 img width height startx starty channels m
    = Some m'
    /\ m' (texel_addr img width startx starty channels dx dy c)
       = Layout.T_paint block_part1 (Spec.texel_index block_part2 dx dy) c.
Proof.
  intros Hroute. unfold decompressBlockETC2c. rewrite Hroute. apply T_texel.
Qed.

(** X7. A block that [decompressBlockETC2c] routes to the H mode (red in
    range, the green sum out of 0..31) is decoded from the bits of the
    block as they lie in the file: channel [c] of texel [(dx, dy)] is
    the paint color that the texel's 2-bit index selects among the first
    base color plus and minus the distance and the second base color
    plus and minus the distance, clamped to 0..255; the lowest bit of
    the distance index is 1 exactly when the first base color, read as a
    12-bit number, is at least the second. *)
Theorem decompressBlockETC2c_H_mode
    (block_part1 block_part2 img width height startx starty channels : Z) (m : mem)
    (dx dy c : Z) :
  etc2_route block_part1 = ModeH ->
  4 <= width -> 3 <= channels ->
  0 <= dx < 4 -> 0 <= dy < 4 -> 0 <= c < 3 ->
  exists m',
    decompressBlockETC2c block_part1 block_part2 img width height startx starty channels m
    = Some m'
    /\ m' (texel_addr img width startx starty channels dx dy c)
       = Layout.H_paint block_part1 (Spec.texel_index block_part2 dx dy) c.
Proof.
  intros Hroute. unfold decompressBlockETC2c. rewrite Hroute. apply H_texel.
Qed.

(** X8. A block that [decompressBlockETC2c] routes to the planar mode (red
    and green in range, the blue sum out of 0..31) is decoded from the
    bits of the block as they lie in the file: channel [c] of texel
    [(dx, dy)] is [(dx * (H - O) + dy * (V - O) + 4 * O + 2) / 4] rounded
    down and clamped to 0..255, where [O], [H] and [V] are the three
    stored colors expanded to 8 bits; the texel at the block's corner
    [(0, 0)] is the origin color itself. *)
Theorem decompressBlockETC2c_planar_mode
    (block_part1 block_part2 img width height startx starty channels : Z) (m : mem)
    (dx dy c : Z) :
  etc2_route block_part1 = ModePlanar ->
  4 <= width -> 3 <= channels ->
  0 <= dx < 4 -> 0 <= dy < 4 -> 0 <= c < 3 ->
  exists m',
    decompressBlockETC2c block_part1 block_part2 img width height startx starty channels m
    = Some m'
    /\ m' (texel_addr img width startx starty channels dx dy c)
       = Layout.P_texel block_part1 block_part2 dx dy c
    /\ m' (texel_addr img width startx starty channels 0 0 c)
       = Layout.P_expand c (Layout.P_origin block_part1 c).
Proof.
  intros Hroute Hw Hch Hdx Hdy Hc. unfold decompressBlockETC2c. rewrite Hroute.
  pose proof (Planar_texel block_part1 block_part2 img width height startx starty channels
                m dx dy c Hw Hch Hdx Hdy Hc) as Ht.
  pose proof (Planar_texel block_part1 block_part2 img width height startx starty channels
                m 0 0 c Hw Hch ltac:(lia) ltac:(lia) Hc) as H0.
  rewrite Planar_corner in H0 by assumption.
  destruct (unstuff57bits block_part1 block_part2) as [b1 b2].
  eexists. split; [reflexivity |]. split; assumption.
Qed.

(** A T-mode block: base colors [(15, 0, 0)] and [(0, 15, 0)], distance
    index 0; the texel read has index 1. *)
Lemma decompressBlockETC2c_T_mode_witness :
  exists m',
    decompressBlockETC2c Inputs.T_block_part1 Inputs.block_part2 0 4 4 0 0 3 Sample.blank
    = Some m'
    /\ m' (texel_addr 0 4 0 0 3 1 2 0)
       = Layout.T_paint Inputs.T_block_part1
           (Spec.texel_index Inputs.block_part2 1 2) 0.
Proof.
  apply (decompressBlockETC2c_T_mode Inputs.T_block_part1 Inputs.block_part2
           0 4 4 0 0 3 Sample.blank 1 2 0);
    [vm_compute; reflexivity | lia ..].
Defined.

Lemma decompressBlockETC2c_H_mode_witness :
  exists m',
    decompressBlockETC2c Inputs.H_block_part1 Inputs.block_part2 0 4 4 0 0 3 Sample.blank
    = Some m'
    /\ m' (texel_addr 0 4 0 0 3 1 2 0)
       = Layout.H_paint Inputs.H_block_part1
           (Spec.texel_index Inputs.block_part2 1 2) 0.
Proof.
  apply (decompressBlockETC2c_H_mode Inputs.H_block_part1 Inputs.block_part2
           0 4 4 0 0 3 Sample.blank 1 2 0);
    [vm_compute; reflexivity | lia ..].
Defined.

Lemma decompressBlockETC2c_planar_mode_witness :
  exists m',
    decompressBlockETC2c Inputs.planar_block_part1 Inputs.block_part2 0 4 4 0 0 3
      Sample.blank
    = Some m'
    /\ m' (texel_addr 0 4 0 0 3 1 2 0)
       = Layout.P_texel Inputs.planar_block_part1 Inputs.block_part2 1 2 0
    /\ m' (texel_addr 0 4 0 0 3 0 0 0)
       = Layout.P_expand 0 (Layout.P_origin Inputs.planar_block_part1 0).
Proof.
  apply (decompressBlockETC2c_planar_mode Inputs.planar_block_part1 Inputs.block_part2
           0 4 4 0 0 3 Sample.blank 1 2 0);
    [vm_compute; reflexivity | lia ..].
Defined.

(** ** The punch-through dispatcher *)

(** A loop nest over the columns and rows of a block visits the texels
    column by column. *)
Lemma block_nest_as_pass (body : Z * Z -> mem -> mem) (m : mem) :
  for_range 0 BLOCKWIDTH (fun x m =>
    for_range 0 BLOCKHEIGHT (fun y m => body (x, y) m) m) m
  = fold_left (fun m t => body t m) (texel_order 0) m.
Proof. reflexivity. Qed.

Lemma thumb_paint_alpha_as_pass (paint_colors : list (list Z))
    (block_part2 img alpha width startx starty channelsRGB channelsA : Z) (m : mem) :
  thumb_paint_alpha paint_colors block_part2 img alpha width startx starty channelsRGB
    channelsA m
  = fold_left (fun m t => thumb_alpha_write paint_colors block_part2 img alpha width
                            startx starty channelsRGB channelsA t m)
      (texel_order 0) m.
Proof.
  exact (block_nest_as_pass
           (thumb_alpha_write paint_colors block_part2 img alpha width startx starty
              channelsRGB channelsA) m).
Qed.

Lemma fill_alpha_255_as_pass (alphaimg width startx starty channelsA : Z) (m : mem) :
  fill_alpha_255 alphaimg width startx starty channelsA m
  = fold_left (fun m t => store m (alphaimg + channelsA
                                   * (startx + fst t + (starty + snd t) * width)) 255)
      (texel_order 0) m.
Proof. reflexivity. Qed.

(** Stores of one value: every address written holds it afterwards. *)
Lemma fold_store_const {T : Type} (addr : T -> Z) (v : Z) (l : list T) (m : mem) (a : Z) :
  (exists t, In t l /\ addr t = a) ->
  fold_left (fun m t => store m (addr t) v) l m a = v.
Proof.
  induction l as [| x l IH] using rev_ind; intros (t & Hin & Ha).
  - destruct Hin.
  - rewrite fold_left_app. cbn [fold_left].
    destruct (Z.eq_dec a (addr x)) as [-> | Hne]; [apply store_eq |].
    rewrite store_ne by assumption. apply IH.
    apply in_app_or in Hin as [Hin | [-> | []]]; [| congruence].
    now exists t.
Qed.

Lemma fill_alpha_255_value (alphaimg width startx starty channelsA : Z) (m : mem)
    (dx dy : Z) :
  0 <= dx < 4 -> 0 <= dy < 4 ->
  fill_alpha_255 alphaimg width startx starty channelsA m
    (alpha_addr alphaimg width startx starty channelsA dx dy) = 255.
Proof.
  intros Hdx Hdy. rewrite fill_alpha_255_as_pass.
  apply (fold_store_const
           (fun t => alphaimg + channelsA * (startx + fst t + (starty + snd t) * width))).
  exists (dx, dy). split; [now apply texel_order_complete |].
  unfold alpha_addr. cbn [fst snd]. lia.
Qed.

Lemma decompressBlockTHUMB59TAlphaC_returns
    (b1 b2 img alpha width height startx starty channelsRGB : Z) (m : mem) :
  exists m', decompressBlockTHUMB59TAlphaC b1 b2 img alpha width height startx starty
               channelsRGB m = Some m'.
Proof.
  unfold decompressBlockTHUMB59TAlphaC, calculatePaintColors59T.
  change (PATTERN_T =? PATTERN_T) with true. cbv iota. eexists. reflexivity.
Qed.

Lemma decompressBlockTHUMB58HAlphaC_returns
    (b1 b2 img alpha width height startx starty channelsRGB : Z) (m : mem) :
  exists m', decompressBlockTHUMB58HAlphaC b1 b2 img alpha width height startx starty
               channelsRGB m = Some m'.
Proof.
  unfold decompressBlockTHUMB58HAlphaC, calculatePaintColors58H.
  change (PATTERN_H =? PATTERN_H) with true. cbv iota. eexists. reflexivity.
Qed.

Lemma decompressBlockETC21BitAlphaC_returns
    (bp1 bp2 img alphaimg width height startx starty channelsRGB : Z) (m : mem) :
  exists m', decompressBlockETC21BitAlphaC bp1 bp2 img alphaimg width height startx starty
               channelsRGB m = Some m'.
Proof.
  unfold decompressBlockETC21BitAlphaC. cbv zeta.
  destruct (truthy (GETBITSHIGH bp1 1 33)); destruct (etc21bitalpha_route bp1);
    eexists; reflexivity.
Qed.

(** X9. A punch-through block whose opaque bit (bit 33) is set, or that
    is routed to the planar mode, has no transparent texel: after
    [decompressBlockETC21BitAlphaC] the alpha byte of each of the block's
    sixteen texels is 255, whatever mode decoded the colors and whether
    the alpha bytes are interleaved with them or lie in a separate area. *)
Theorem opaque_block_alpha_is_255
    (block_part1 block_part2 img alphaimg width height startx starty channelsRGB : Z)
    (m : mem) (dx dy : Z) :
  Spec.diffbit block_part1 = 1 \/ etc21bitalpha_route block_part1 = ModePlanar ->
  0 <= dx < 4 -> 0 <= dy < 4 ->
  exists m',
    decompressBlockETC21BitAlphaC block_part1 block_part2 img alphaimg width height
      startx starty channelsRGB m = Some m'
    /\ m' (alpha_addr (alpha_pointer channelsRGB img alphaimg) width startx starty
             (alpha_channels channelsRGB) dx dy) = 255.
Proof.
  intros Hopaque Hdx Hdy.
  unfold decompressBlockETC21BitAlphaC. cbv zeta.
  destruct (truthy (GETBITSHIGH block_part1 1 33)) eqn:Hbit.
  - match goal with
    | |- exists m', match ?d with Some _ => _ | None => _ end = _ /\ _ =>
        assert (Hd : exists m1, d = Some m1)
    end.
    { destruct (etc21bitalpha_route block_part1); eexists; reflexivity. }
    destruct Hd as (m1 & ->).
    eexists. split; [reflexivity |].
    now apply fill_alpha_255_value.
  - destruct Hopaque as [Hdiff | Hroute].
    + rewrite diffbit_spec, Hdiff in Hbit. discriminate Hbit.
    + rewrite Hroute.
      destruct (unstuff57bits block_part1 block_part2) as [b1 b2].
      eexists. split; [reflexivity |].
      now apply fill_alpha_255_value.
Qed.

Lemma opaque_block_alpha_is_255_witness :
  exists m',
    decompressBlockETC21BitAlphaC Inputs.H_block_part1 Inputs.block_part2 0 0 4 4 0 0 4
      Sample.blank = Some m'
    /\ m' (alpha_addr (alpha_pointer 4 0 0) 4 0 0 (alpha_channels 4) 1 0) = 255.
Proof.
  apply (opaque_block_alpha_is_255 Inputs.H_block_part1 Inputs.block_part2
           0 0 4 4 0 0 4 Sample.blank 1 0);
    [left; vm_compute; reflexivity | lia ..].
Defined.

Section RgbaPass.

Variables img alpha width startx starty channelsRGB channelsA : Z.
Variable write : Z * Z -> mem -> mem.
Variable color : Z -> Z -> Z -> Z.
Variable opacity : Z -> Z -> Z.
Hypothesis width_ge : 4 <= width.
Hypothesis channelsRGB_ge : 3 <= channelsRGB.
Hypothesis channelsA_pos : 0 < channelsA.
Hypothesis separate :
  alpha_separate img alpha width startx starty channelsRGB channelsA.
Hypothesis write_frame :
  forall t m a,
    ~ owns_rgba img alpha width startx starty channelsRGB channelsA t a ->
    write t m a = m a.
Hypothesis write_color :
  forall dx dy c m, 0 <= dx < 4 -> 0 <= dy < 4 -> 0 <= c < 3 ->
    write (dx, dy) m (texel_addr img width startx starty channelsRGB dx dy c)
    = color dx dy c.
Hypothesis write_alpha :
  forall dx dy m, 0 <= dx < 4 -> 0 <= dy < 4 ->
    write (dx, dy) m (alpha_addr alpha width startx starty channelsA dx dy)
    = opacity dx dy.

Lemma rgba_write_determined (t : Z * Z) (m m' : mem) (a : Z) :
  In t (texel_order 0) ->
  owns_rgba img alpha width startx starty channelsRGB channelsA t a ->
  write t m a = write t m' a.
Proof.
  intros Ht. apply texel_order_range in Ht.
  destruct t as [dx dy]. unfold owns_rgba, owns_rgb. cbn [fst snd] in *.
  intros [[-> | [-> | ->]] | ->];
    rewrite ?write_color, ?write_alpha by lia; reflexivity.
Qed.

Lemma rgba_pass_color (dx dy c : Z) (m : mem) :
  0 <= dx < 4 -> 0 <= dy < 4 -> 0 <= c < 3 ->
  fold_left (fun m t => write t m) (texel_order 0) m
    (texel_addr img width startx starty channelsRGB dx dy c)
  = color dx dy c.
Proof.
  intros Hdx Hdy Hc.
  rewrite (fold_write_lookup
             (owns_rgba img alpha width startx starty channelsRGB channelsA)
             write (texel_order 0)
             (owns_rgba_dec 0 0 0 0 0 0 img alpha width startx starty channelsRGB
                channelsA [] [])
             write_frame rgba_write_determined
             (owns_rgba_disjoint 0 0 0 0 0 0 img alpha width startx starty channelsRGB
                channelsA [] [] width_ge channelsRGB_ge channelsA_pos separate)
             (dx, dy)).
  - now apply write_color.
  - now apply texel_order_complete.
  - left. unfold owns_rgb. cbn [fst snd].
    assert (Hcases : c = 0 \/ c = 1 \/ c = 2) by lia.
    destruct Hcases as [-> | [-> | ->]]; tauto.
Qed.

Lemma rgba_pass_alpha (dx dy : Z) (m : mem) :
  0 <= dx < 4 -> 0 <= dy < 4 ->
  fold_left (fun m t => write t m) (texel_order 0) m
    (alpha_addr alpha width startx starty channelsA dx dy)
  = opacity dx dy.
Proof.
  intros Hdx Hdy.
  rewrite (fold_write_lookup
             (owns_rgba img alpha width startx starty channelsRGB channelsA)
             write (texel_order 0)
             (owns_rgba_dec 0 0 0 0 0 0 img alpha width startx starty channelsRGB
                channelsA [] [])
             write_frame rgba_write_determined
             (owns_rgba_disjoint 0 0 0 0 0 0 img alpha width startx starty channelsRGB
                channelsA [] [] width_ge channelsRGB_ge channelsA_pos separate)
             (dx, dy)).
  - now apply write_alpha.
  - now apply texel_order_complete.
  - right. reflexivity.
Qed.

End RgbaPass.

Section ThumbAlphaPass.

Variables block_part2 img alpha width startx starty channelsRGB channelsA : Z.
Variable paint_colors : list (list Z).
Hypothesis separate :
  alpha_separate img alpha width startx starty channelsRGB channelsA.

Let write := thumb_alpha_write paint_colors block_part2 img alpha width startx starty
               channelsRGB channelsA.

Ltac name_addresses x y :=
  replace (img + (channelsRGB * ((starty + y) * width + startx + x) + R))
    with (texel_addr img width startx starty channelsRGB x y 0)
    by (unfold texel_addr, R; lia);
  replace (img + (channelsRGB * ((starty + y) * width + startx + x) + G))
    with (texel_addr img width startx starty channelsRGB x y 1)
    by (unfold texel_addr, G; lia);
  replace (img + (channelsRGB * ((starty + y) * width + startx + x) + B))
    with (texel_addr img width startx starty channelsRGB x y 2)
    by (unfold texel_addr, B; lia);
  replace (alpha + channelsA * (x + startx + (y + starty) * width))
    with (alpha_addr alpha width startx starty channelsA x y)
    by (unfold alpha_addr; lia).

Lemma thumb_alpha_write_frame (t : Z * Z) (m : mem) (a : Z) :
  ~ owns_rgba img alpha width startx starty channelsRGB channelsA t a ->
  write t m a = m a.
Proof.
  unfold owns_rgba, owns_rgb, write, thumb_alpha_write. cbv zeta.
  name_addresses (fst t) (snd t).
  intros Hnot.
  destruct (block_mask_at block_part2 (fst t) (snd t) =? 2);
    repeat rewrite store_ne by tauto; reflexivity.
Qed.

Lemma thumb_alpha_write_color (dx dy c : Z) (m : mem) :
  0 <= dx < 4 -> 0 <= dy < 4 -> 0 <= c < 3 ->
  write (dx, dy) m (texel_addr img width startx starty channelsRGB dx dy c)
  = if block_mask_at block_part2 dx dy =? 2 then 0
    else CLAMP 0 (get2 paint_colors (block_mask_at block_part2 dx dy) c) 255.
Proof.
  intros Hdx Hdy Hc.
  pose proof (separate dx dy dx dy c Hdx Hdy Hdx Hdy Hc) as Hsep.
  unfold write, thumb_alpha_write. cbv zeta. cbn [fst snd].
  name_addresses dx dy. rewrite !u8_CLAMP.
  assert (Hcases : c = 0 \/ c = 1 \/ c = 2) by lia.
  destruct (block_mask_at block_part2 dx dy =? 2);
    destruct Hcases as [-> | [-> | ->]];
    repeat first [ rewrite store_eq
                 | rewrite store_ne by (unfold texel_addr; lia)
                 | rewrite store_ne by (intros Heq; apply Hsep; now rewrite Heq) ];
    reflexivity.
Qed.

Lemma thumb_alpha_write_alpha (dx dy : Z) (m : mem) :
  0 <= dx < 4 -> 0 <= dy < 4 ->
  write (dx, dy) m (alpha_addr alpha width startx starty channelsA dx dy)
  = if block_mask_at block_part2 dx dy =? 2 then 0 else 255.
Proof.
  intros Hdx Hdy.
  pose proof (separate dx dy dx dy 0 Hdx Hdy Hdx Hdy ltac:(lia)) as Hsep0.
  pose proof (separate dx dy dx dy 1 Hdx Hdy Hdx Hdy ltac:(lia)) as Hsep1.
  pose proof (separate dx dy dx dy 2 Hdx Hdy Hdx Hdy ltac:(lia)) as Hsep2.
  unfold write, thumb_alpha_write. cbv zeta. cbn [fst snd].
  name_addresses dx dy.
  destruct (block_mask_at block_part2 dx dy =? 2);
    repeat first [ rewrite store_eq | rewrite store_ne by assumption ];
    reflexivity.
Qed.

End ThumbAlphaPass.

Lemma punchthrough_layout (img alpha width startx starty channelsRGB : Z) :
  4 <= width ->
  channelsRGB = 4
  \/ (channelsRGB = 3 /\ alpha_separate img alpha width startx starty 3 1) ->
  alpha_separate img (alpha_pointer channelsRGB img alpha) width startx starty
    channelsRGB (alpha_channels channelsRGB)
  /\ 3 <= channelsRGB /\ 0 < alpha_channels channelsRGB.
Proof.
  intros Hw [-> | [-> Hsep]].
  - split; [now apply alpha_separate_interleaved | split; [lia | reflexivity]].
  - split; [exact Hsep | split; [lia | reflexivity]].
Qed.

Lemma alpha_pointer_idem (channelsRGB img alpha : Z) :
  alpha_pointer channelsRGB img (alpha_pointer channelsRGB img alpha)
  = alpha_pointer channelsRGB img alpha.
Proof. unfold alpha_pointer. now destruct (channelsRGB =? 3). Qed.

(** X10. A punch-through block whose opaque bit (bit 33) is clear and
    that is routed to the T or the H mode is decoded like the RGB block
    of that mode, except for the texels whose 2-bit index is 2: those
    get alpha 0 and the color (0, 0, 0), every other texel gets alpha 255
    and its paint color. The alpha bytes are interleaved (four channels)
    or lie in a separate area that shares no byte with the block's
    colors. *)
Theorem punchthrough_T_H_texels
    (bp1 bp2 img alpha width height startx starty channelsRGB : Z) (m : mem)
    (dx dy c : Z) :
  Spec.diffbit bp1 = 0 ->
  etc21bitalpha_route bp1 = ModeT \/ etc21bitalpha_route bp1 = ModeH ->
  4 <= width ->
  channelsRGB = 4
  \/ (channelsRGB = 3 /\ alpha_separate img alpha width startx starty 3 1) ->
  0 <= dx < 4 -> 0 <= dy < 4 -> 0 <= c < 3 ->
  exists m',
    decompressBlockETC21BitAlphaC bp1 bp2 img alpha width height startx starty
      channelsRGB m = Some m'
    /\ m' (alpha_addr (alpha_pointer channelsRGB img alpha) width startx starty
             (alpha_channels channelsRGB) dx dy)
       = (if Spec.texel_index bp2 dx dy =? 2 then 0 else 255)
    /\ m' (texel_addr img width startx starty channelsRGB dx dy c)
       = (if Spec.texel_index bp2 dx dy =? 2 then 0
          else TH_paint (etc21bitalpha_route bp1) bp1 (Spec.texel_index bp2 dx dy) c).
Proof.
  intros Hdiff Hroute Hw Hlayout Hdx Hdy Hc.
  destruct (punchthrough_layout img alpha width startx starty channelsRGB Hw Hlayout)
    as (Hsep & Hch & HchA).
  unfold decompressBlockETC21BitAlphaC. cbv zeta.
  rewrite diffbit_spec, Hdiff. change (truthy 0) with false. cbv iota.
  destruct Hroute as [Hroute | Hroute]; rewrite Hroute; unfold TH_paint.
  - (* T *)
    pose proof (T_fields bp1 bp2) as HF. cbv zeta in HF.
    destruct (unstuff59bits bp1 bp2) as [b1 b2]. cbn [fst snd] in HF.
    destruct HF as (HR0 & HG0 & HB0 & HR1 & HG1 & HB1 & Hd & ->).
    unfold decompressBlockTHUMB59TAlphaC. cbv zeta. rewrite alpha_pointer_idem.
    unfold TABLE_BITS_59T, R_BITS59T, G_BITS59T, B_BITS59T.
    rewrite HR0, HG0, HB0, HR1, HG1, HB1.
    pose proof (GETBITSHIGH_range bp1 2 60 ltac:(lia)) as Ha.
    pose proof (GETBITSHIGH_range bp1 2 57 ltac:(lia)) as Hb.
    pose proof (GETBITSHIGH_range bp1 4 55 ltac:(lia)) as Hg0.
    pose proof (GETBITSHIGH_range bp1 4 51 ltac:(lia)) as Hb0.
    pose proof (GETBITSHIGH_range bp1 4 47 ltac:(lia)) as Hr1.
    pose proof (GETBITSHIGH_range bp1 4 43 ltac:(lia)) as Hg1.
    pose proof (GETBITSHIGH_range bp1 4 39 ltac:(lia)) as Hb1.
    change (2 ^ 2) with 4 in Ha, Hb. change (2 ^ 4) with 16 in Hg0, Hb0, Hr1, Hg1, Hb1.
    assert (Hr0 : 0 <= GETBITSHIGH bp1 2 60 * 4 + GETBITSHIGH bp1 2 57 < 16) by lia.
    destruct (paint59T_code (u8 (GETBITSHIGH b1 3 34)) _ _ _ _ _ _
                (Spec.texel_index bp2 dx dy) c
                Hr0 Hg0 Hb0 Hr1 Hg1 Hb1 (texel_index_cases bp2 dx dy) Hc)
      as (paint & -> & Hpaint).
    eexists. split; [reflexivity |].
    rewrite thumb_paint_alpha_as_pass.
    rewrite (rgba_pass_alpha img _ width startx starty channelsRGB _ _ _ _
               Hw Hch HchA Hsep
               (thumb_alpha_write_frame bp2 img _ width startx starty channelsRGB _ paint)
               (thumb_alpha_write_color bp2 img _ width startx starty channelsRGB _ paint Hsep)
               (thumb_alpha_write_alpha bp2 img _ width startx starty channelsRGB _ paint Hsep))
      by assumption.
    rewrite (rgba_pass_color img _ width startx starty channelsRGB _ _ _ _
               Hw Hch HchA Hsep
               (thumb_alpha_write_frame bp2 img _ width startx starty channelsRGB _ paint)
               (thumb_alpha_write_color bp2 img _ width startx starty channelsRGB _ paint Hsep)
               (thumb_alpha_write_alpha bp2 img _ width startx starty channelsRGB _ paint Hsep))
      by assumption.
    rewrite block_mask_at_spec by assumption.
    split; [reflexivity |].
    rewrite Hpaint, Hd. cbv zeta.
    pose proof (GETBITSHIGH_range bp1 2 35 ltac:(lia)) as Hda.
    pose proof (GETBITSHIGH_range bp1 1 32 ltac:(lia)) as Hdb.
    change (2 ^ 2) with 4 in Hda. change (2 ^ 1) with 2 in Hdb.
    rewrite u8_small by lia.
    unfold Layout.T_paint, Layout.T_base, Layout.T_distance.
    assert (Hcc : c = 0 \/ c = 1 \/ c = 2) by lia.
    destruct Hcc as [-> | [-> | ->]]; reflexivity.
  - (* H *)
    pose proof (H_fields bp1 bp2) as HF. pose proof (H_fields12 bp1 bp2) as HF12.
    cbv zeta in HF, HF12.
    destruct (unstuff58bits bp1 bp2) as [b1 b2]. cbn [fst snd] in HF, HF12.
    destruct HF as (HR0 & HG0 & HB0 & HR1 & HG1 & HB1 & Hd & _ & _ & ->).
    destruct HF12 as [Hcol0 Hcol1].
    unfold decompressBlockTHUMB58HAlphaC. cbv zeta. rewrite alpha_pointer_idem.
    unfold R_BITS58H, G_BITS58H, B_BITS58H.
    rewrite HR0, HG0, HB0, HR1, HG1, HB1.
    pose proof (GETBITSHIGH_range bp1 4 62 ltac:(lia)) as Hr0.
    pose proof (GETBITSHIGH_range bp1 3 58 ltac:(lia)) as Hg0a.
    pose proof (GETBITSHIGH_range bp1 1 52 ltac:(lia)) as Hg0b.
    pose proof (GETBITSHIGH_range bp1 1 51 ltac:(lia)) as Hb0a.
    pose proof (GETBITSHIGH_range bp1 3 49 ltac:(lia)) as Hb0b.
    pose proof (GETBITSHIGH_range bp1 4 46 ltac:(lia)) as Hr1.
    pose proof (GETBITSHIGH_range bp1 4 42 ltac:(lia)) as Hg1.
    pose proof (GETBITSHIGH_range bp1 4 38 ltac:(lia)) as Hb1.
    change (2 ^ 4) with 16 in *. change (2 ^ 3) with 8 in *. change (2 ^ 1) with 2 in *.
    assert (Hg0 : 0 <= GETBITSHIGH bp1 3 58 * 2 + GETBITSHIGH bp1 1 52 < 16) by lia.
    assert (Hb0 : 0 <= GETBITSHIGH bp1 1 51 * 8 + GETBITSHIGH bp1 3 49 < 16) by lia.
    destruct (paint58H_code (distance58H b1) _ _ _ _ _ _
                (Spec.texel_index bp2 dx dy) c
                Hr0 Hg0 Hb0 Hr1 Hg1 Hb1 (texel_index_cases bp2 dx dy) Hc)
      as (paint & -> & Hpaint).
    eexists. split; [reflexivity |].
    rewrite thumb_paint_alpha_as_pass.
    rewrite (rgba_pass_alpha img _ width startx starty channelsRGB _ _ _ _
               Hw Hch HchA Hsep
               (thumb_alpha_write_frame bp2 img _ width startx starty channelsRGB _ paint)
               (thumb_alpha_write_color bp2 img _ width startx starty channelsRGB _ paint Hsep)
               (thumb_alpha_write_alpha bp2 img _ width startx starty channelsRGB _ paint Hsep))
      by assumption.
    rewrite (rgba_pass_color img _ width startx starty channelsRGB _ _ _ _
               Hw Hch HchA Hsep
               (thumb_alpha_write_frame bp2 img _ width startx starty channelsRGB _ paint)
               (thumb_alpha_write_color bp2 img _ width startx starty channelsRGB _ paint Hsep)
               (thumb_alpha_write_alpha bp2 img _ width startx starty channelsRGB _ paint Hsep))
      by assumption.
    rewrite block_mask_at_spec by assumption.
    split; [reflexivity |].
    rewrite Hpaint. cbv zeta.
    rewrite (distance58H_layout bp1 b1 Hd Hcol0 Hcol1).
    unfold Layout.H_paint, Layout.H_base, Layout.H_distance.
    assert (Hcc : c = 0 \/ c = 1 \/ c = 2) by lia.
    destruct Hcc as [-> | [-> | ->]]; reflexivity.
Qed.

(** Texel [(1, 0)] of the T block is transparent. *)
Lemma punchthrough_T_H_texels_witness :
  exists m',
    decompressBlockETC21BitAlphaC Inputs.T_punchthrough_part1 Inputs.block_part2
      0 0 4 4 0 0 4 Sample.blank = Some m'
    /\ m' (alpha_addr (alpha_pointer 4 0 0) 4 0 0 (alpha_channels 4) 1 0)
       = (if Spec.texel_index Inputs.block_part2 1 0 =? 2 then 0 else 255)
    /\ m' (texel_addr 0 4 0 0 4 1 0 1)
       = (if Spec.texel_index Inputs.block_part2 1 0 =? 2 then 0
          else TH_paint (etc21bitalpha_route Inputs.T_punchthrough_part1)
                 Inputs.T_punchthrough_part1
                 (Spec.texel_index Inputs.block_part2 1 0) 1).
Proof.
  apply (punchthrough_T_H_texels Inputs.T_punchthrough_part1 Inputs.block_part2
           0 0 4 4 0 0 4 Sample.blank 1 0 1);
    [vm_compute; reflexivity | left; vm_compute; reflexivity | lia | left; reflexivity
    | lia ..].
Defined.

(** ** The 8-bit alpha codec, texel by texel *)

Lemma decompressBlockAlphaC_any_as_pass (g : alpha_globals) (data : list byte)
    (img width height ix iy channels : Z) (m : mem) :
  decompressBlockAlphaC g data img width height ix iy channels m
  = fold_left (fun m t => alpha_write g data img width ix iy channels t m)
      (texel_order 0) m.
Proof. reflexivity. Qed.

Lemma getbit_spec (input frompos topos : Z) :
  0 <= input < 256 -> 0 <= frompos <= 7 -> 0 <= topos <= 7 ->
  getbit input frompos topos = Z.b2z (Z.testbit input frompos) * 2 ^ topos.
Proof.
  intros Hi Hf Ht.
  pose (P := fun i => forallb (fun f => forallb (fun t =>
               getbit i f t =? Z.b2z (Z.testbit i f) * 2 ^ t) (range 0 8)) (range 0 8)).
  assert (Hall : forallb P (range 0 256) = true) by (vm_compute; reflexivity).
  pose proof (forall_range P 0 256 Hall input ltac:(lia)) as H1. unfold P in H1.
  pose proof (forall_range _ 0 8 H1 frompos ltac:(lia)) as H2. cbv beta in H2.
  pose proof (forall_range _ 0 8 H2 topos ltac:(lia)) as H3. cbv beta in H3.
  now apply Z.eqb_eq.
Qed.

(** Three consecutive bits of a number. *)
Lemma three_bits (N s : Z) :
  0 <= s ->
  (N / 2 ^ s) mod 8
  = 4 * Z.b2z (Z.testbit N (s + 2)) + 2 * Z.b2z (Z.testbit N (s + 1))
    + Z.b2z (Z.testbit N s).
Proof.
  intros Hs.
  rewrite !Z.testbit_spec' by lia.
  rewrite !Z.pow_add_r by lia. rewrite <- !Z.div_div by lia.
  change (2 ^ 2) with 4. change (2 ^ 1) with 2.
  generalize (N / 2 ^ s). intros M.
  Z.div_mod_to_equations. lia.
Qed.

(** A byte inside a number. *)
Lemma testbit_middle (hi b lo m q : Z) :
  0 <= m -> 0 <= q < 8 -> 0 <= b < 256 -> 0 <= lo < 2 ^ m ->
  Z.testbit (hi * 2 ^ (m + 8) + b * 2 ^ m + lo) (m + q) = Z.testbit b q.
Proof.
  intros Hm Hq Hb Hlo.
  replace (hi * 2 ^ (m + 8) + b * 2 ^ m + lo) with ((hi * 2 ^ 8 + b) * 2 ^ m + lo)
    by (rewrite Z.pow_add_r by lia; ring).
  rewrite (concat_bits _ lo m) by assumption.
  rewrite (concat_bits hi b 8) by (change (2 ^ 8) with 256; lia).
  rewrite testbit_lor_shiftl by lia.
  replace (m <=? m + q) with true by (symmetry; apply Z.leb_le; lia).
  replace (m + q - m) with q by lia.
  rewrite testbit_lor_shiftl by lia.
  replace (8 <=? q) with false by (symmetry; apply Z.leb_gt; lia).
  cbn [orb].
  rewrite <- (Z.mod_small lo (2 ^ m)) by assumption.
  rewrite Z.mod_pow2_bits_high by lia. apply orb_false_r.
Qed.

Lemma alpha_bits_testbit (data : list byte) (j q : Z) :
  0 <= j < 6 -> 0 <= q < 8 ->
  Z.testbit (alpha_bits data) (8 * (5 - j) + q) = Z.testbit (byte_at data (2 + j)) q.
Proof.
  intros Hj Hq. unfold alpha_bits.
  pose proof (byte_at_range data 2). pose proof (byte_at_range data 3).
  pose proof (byte_at_range data 4). pose proof (byte_at_range data 5).
  pose proof (byte_at_range data 6). pose proof (byte_at_range data 7).
  assert (Hc : j = 0 \/ j = 1 \/ j = 2 \/ j = 3 \/ j = 4 \/ j = 5) by lia.
  destruct Hc as [-> | [-> | [-> | [-> | [-> | ->]]]]];
    [ change (2 + 0) with 2 | change (2 + 1) with 3 | change (2 + 2) with 4
    | change (2 + 3) with 5 | change (2 + 4) with 6 | change (2 + 5) with 7 ].
  - rewrite <- (testbit_middle 0 (byte_at data 2)
                  (byte_at data 3 * 2 ^ 32 + byte_at data 4 * 2 ^ 24
                   + byte_at data 5 * 2 ^ 16 + byte_at data 6 * 2 ^ 8 + byte_at data 7)
                  40 q) by lia.
    f_equal. lia.
  - rewrite <- (testbit_middle (byte_at data 2) (byte_at data 3)
                  (byte_at data 4 * 2 ^ 24
                   + byte_at data 5 * 2 ^ 16 + byte_at data 6 * 2 ^ 8 + byte_at data 7)
                  32 q) by lia.
    f_equal. lia.
  - rewrite <- (testbit_middle (byte_at data 2 * 2 ^ 8 + byte_at data 3) (byte_at data 4)
                  (byte_at data 5 * 2 ^ 16 + byte_at data 6 * 2 ^ 8 + byte_at data 7)
                  24 q) by lia.
    f_equal. lia.
  - rewrite <- (testbit_middle
                  (byte_at data 2 * 2 ^ 16 + byte_at data 3 * 2 ^ 8 + byte_at data 4)
                  (byte_at data 5)
                  (byte_at data 6 * 2 ^ 8 + byte_at data 7)
                  16 q) by lia.
    f_equal. lia.
  - rewrite <- (testbit_middle
                  (byte_at data 2 * 2 ^ 24 + byte_at data 3 * 2 ^ 16
                   + byte_at data 4 * 2 ^ 8 + byte_at data 5)
                  (byte_at data 6) (byte_at data 7) 8 q) by lia.
    f_equal. lia.
  - rewrite <- (testbit_middle
                  (byte_at data 2 * 2 ^ 32 + byte_at data 3 * 2 ^ 24
                   + byte_at data 4 * 2 ^ 16 + byte_at data 5 * 2 ^ 8 + byte_at data 6)
                  (byte_at data 7) 0 0 q) by lia.
    f_equal. lia.
Qed.

Lemma alpha_bits_testbit_at (data : list byte) (p : Z) :
  0 <= p < 48 ->
  Z.testbit (alpha_bits data) p = Z.testbit (byte_at data (7 - p / 8)) (p mod 8).
Proof.
  intros Hp.
  replace (7 - p / 8) with (2 + (5 - p / 8)) by lia.
  rewrite <- (alpha_bits_testbit data (5 - p / 8) (p mod 8))
    by (Z.div_mod_to_equations; lia).
  f_equal. Z.div_mod_to_equations; lia.
Qed.

Lemma alpha_stream_index_spec (data : list byte) (dx dy : Z) :
  0 <= dx < 4 -> 0 <= dy < 4 ->
  alpha_stream_index data (4 * dx + dy) = alpha_texel_index data dx dy.
Proof.
  intros Hdx Hdy. unfold alpha_texel_index.
  assert (Hx : dx = 0 \/ dx = 1 \/ dx = 2 \/ dx = 3) by lia.
  assert (Hy : dy = 0 \/ dy = 1 \/ dy = 2 \/ dy = 3) by lia.
  destruct Hx as [-> | [-> | [-> | ->]]]; destruct Hy as [-> | [-> | [-> | ->]]];
    rewrite three_bits by lia;
    rewrite !alpha_bits_testbit_at by lia;
    match goal with
    | |- ?L = ?R => set (rhs := R); cbv -[getbit byte_at Z.lor rhs]; subst rhs
    end;
    rewrite !getbit_spec by (first [apply byte_at_range | lia]);
    cbv -[byte_at Z.testbit];
    repeat match goal with
      | |- context [Z.testbit ?a ?b] => destruct (Z.testbit a b)
      end;
    reflexivity.
Qed.

Lemma u8_clamp (v : Z) : u8 (clamp v) = clamp v.
Proof.
  unfold u8, clamp. apply Z.mod_small.
  destruct (Z.ltb_spec v 0).
  - destruct (Z.gtb_spec 0 255); lia.
  - destruct (Z.gtb_spec v 255); lia.
Qed.

Section AlphaPass.

Variable g : alpha_globals.
Variable data : list byte.
Variables img width ix iy channels : Z.

Let write := alpha_write g data img width ix iy channels.
Let owns (t : Z * Z) (a : Z) : Prop :=
  a = alpha_texel_addr img width ix iy channels (fst t) (snd t).

Lemma alpha_write_frame (t : Z * Z) (m : mem) (a : Z) :
  ~ owns t a -> write t m a = m a.
Proof. intros Hnot. unfold write, alpha_write. now apply store_ne. Qed.

Lemma alpha_pass_frame (m : mem) (a : Z) :
  (forall dx dy, 0 <= dx < 4 -> 0 <= dy < 4 ->
     a <> alpha_texel_addr img width ix iy channels dx dy) ->
  fold_left (fun m t => write t m) (texel_order 0) m a = m a.
Proof.
  intros Hout. apply (fold_write_frame owns write alpha_write_frame).
  intros t Ht Ha. apply texel_order_range in Ht. now apply (Hout (fst t) (snd t)).
Qed.

Hypothesis width_ge : 4 <= width.
Hypothesis channels_pos : 0 < channels.

Lemma alpha_pass_lookup (m : mem) (dx dy : Z) :
  0 <= dx < 4 -> 0 <= dy < 4 ->
  fold_left (fun m t => write t m) (texel_order 0) m
    (alpha_texel_addr img width ix iy channels dx dy)
  = clamp (byte_at data 0
           + get2 (alphaTable g) (byte_at data 1) (alpha_texel_index data dx dy)).
Proof.
  intros Hdx Hdy.
  rewrite (fold_write_lookup owns write (texel_order 0)) with (t := (dx, dy)).
  - unfold write, alpha_write. cbn [fst snd]. rewrite store_eq' by reflexivity.
    rewrite u8_clamp. now rewrite alpha_stream_index_spec.
  - intros t a. unfold owns. destruct (Z.eq_dec a
      (alpha_texel_addr img width ix iy channels (fst t) (snd t))); tauto.
  - apply alpha_write_frame.
  - intros t m0 m1 a _ Hown. unfold owns in Hown. subst a. unfold write, alpha_write.
    now rewrite !store_eq' by reflexivity.
  - apply (alpha_owns_disjoint data img width ix iy channels width_ge channels_pos).
  - now apply texel_order_complete.
  - reflexivity.
Qed.

End AlphaPass.

(** X11. [getbit] moves one bit of a byte: the result is [2 ^ topos] when
    bit [frompos] of [input] is set and 0 when it is clear; no other bit
    of the input reaches the result. Both positions are bit numbers of a
    byte, 0 to 7. *)
Theorem getbit_moves_one_bit (input frompos topos : Z) :
  0 <= input < 256 -> 0 <= frompos <= 7 -> 0 <= topos <= 7 ->
  getbit input frompos topos = Z.b2z (Z.testbit input frompos) * 2 ^ topos.
Proof. apply getbit_spec. Qed.

Lemma getbit_moves_one_bit_witness :
  getbit 165 5 2 = Z.b2z (Z.testbit 165 5) * 2 ^ 2.
Proof. apply (getbit_moves_one_bit 165 5 2); lia. Defined.

(** X12. [decompressBlockAlphaC] reads an 8-byte block as a base value
    (byte 0), a table selector (byte 1) and sixteen 3-bit indices: the
    bytes 2 to 7 are one 48-bit number, first byte most significant, and
    texel [(dx, dy)] owns the three bits that start [3 * (4 * dx + dy)]
    bits below the top, the texels following each other column by
    column. The byte stored for the texel is the base plus the table
    entry of the selector and the index, clamped to 0..255. The image is
    at least one block wide and the pixel stride is positive. *)
Theorem decompressBlockAlphaC_texel_value
    (g : alpha_globals) (data : list byte) (img width height ix iy channels : Z)
    (m : mem) (dx dy : Z) :
  4 <= width -> 0 < channels -> 0 <= dx < 4 -> 0 <= dy < 4 ->
  decompressBlockAlphaC g data img width height ix iy channels m
    (alpha_texel_addr img width ix iy channels dx dy)
  = clamp (byte_at data 0
           + get2 (alphaTable g) (byte_at data 1) (alpha_texel_index data dx dy)).
Proof.
  intros Hw Hch Hdx Hdy. rewrite decompressBlockAlphaC_any_as_pass.
  now apply alpha_pass_lookup.
Qed.

Lemma decompressBlockAlphaC_texel_value_witness :
  decompressBlockAlphaC (setupAlphaTable alpha_globals_init) Inputs.alpha_block
    0 4 4 0 0 1 Sample.blank (alpha_texel_addr 0 4 0 0 1 2 3)
  = clamp (byte_at Inputs.alpha_block 0
           + get2 (alphaTable (setupAlphaTable alpha_globals_init))
               (byte_at Inputs.alpha_block 1)
               (alpha_texel_index Inputs.alpha_block 2 3)).
Proof.
  apply (decompressBlockAlphaC_texel_value (setupAlphaTable alpha_globals_init)
           Inputs.alpha_block 0 4 4 0 0 1 Sample.blank 2 3); lia.
Defined.

(** ** The 11-bit value functions *)

Lemma eleven_tabval_modifier (table mul index : Z) :
  0 <= table < 16 -> 0 <= mul < 16 -> 0 <= index < 8 ->
  eleven_tabval table mul index = eleven_modifier table mul index
  /\ -1800 <= eleven_modifier table mul index <= 1800.
Proof.
  intros Ht Hm Hi.
  pose (P := fun t => forallb (fun m => forallb (fun i =>
               (eleven_tabval t m i =? eleven_modifier t m i)
               && (-1800 <=? eleven_modifier t m i) && (eleven_modifier t m i <=? 1800))
               (range 0 8)) (range 0 16)).
  assert (Hall : forallb P (range 0 16) = true) by (vm_compute; reflexivity).
  pose proof (forall_range P 0 16 Hall table ltac:(lia)) as H1. unfold P in H1.
  pose proof (forall_range _ 0 16 H1 mul ltac:(lia)) as H2. cbv beta in H2.
  pose proof (forall_range _ 0 8 H2 index ltac:(lia)) as H3. cbv beta in H3.
  apply andb_true_iff in H3 as [H3 Hhi]. apply andb_true_iff in H3 as [Heq Hlo].
  apply Z.eqb_eq in Heq. apply Z.leb_le in Hlo, Hhi. auto.
Qed.

Lemma extend_unsigned (e : Z) :
  0 <= e <= 2047 -> u16 (Z.shiftl e 5 + Z.shiftr e 6) = 32 * e + e / 64.
Proof.
  intros He. rewrite Z.shiftl_mul_pow2, Z.shiftr_div_pow2 by lia.
  change (2 ^ 5) with 32. change (2 ^ 6) with 64.
  unfold u16. rewrite Z.mod_small; [lia |]. Z.div_mod_to_equations. lia.
Qed.

Lemma extend_signed (e : Z) :
  0 <= e <= 1023 -> s16 (s16 (Z.shiftl e 5 + Z.shiftr e 5)) = 32 * e + e / 32.
Proof.
  intros He. rewrite Z.shiftl_mul_pow2, Z.shiftr_div_pow2 by lia.
  change (2 ^ 5) with 32.
  assert (Hr : 0 <= e * 32 + e / 32 <= 32767) by (Z.div_mod_to_equations; lia).
  assert (Hs : forall v, -32768 <= v <= 32767 -> s16 v = v).
  { intros v Hv. unfold s16. rewrite Z.mod_small; lia. }
  rewrite (Hs (e * 32 + e / 32)) by lia. rewrite (Hs (e * 32 + e / 32)) by lia. lia.
Qed.

(** X13. [get16bits11bits] computes the unsigned 11-bit value of an EAC
    texel and stretches it to 16 bits: the value is [8 * base + 4] plus
    the modifier (the table entry times [8 * mul], or the entry itself
    when [mul] is 0), clamped to 0..2047, and the result is that value
    shifted left by 5 with its top five bits repeated below, a number in
    0..65535 that no 16-bit conversion cuts. The arguments are a byte,
    two 4-bit fields and a 3-bit index. *)
Theorem get16bits11bits_value (base table mul index : Z) :
  0 <= base < 256 -> 0 <= table < 16 -> 0 <= mul < 16 -> 0 <= index < 8 ->
  let eleven := CLAMP 0 (8 * base + 4 + eleven_modifier table mul index) 2047 in
  get16bits11bits base table mul index = 32 * eleven + eleven / 64
  /\ 0 <= get16bits11bits base table mul index <= 65535.
Proof.
  intros Hb Ht Hm Hi eleven.
  destruct (eleven_tabval_modifier table mul index Ht Hm Hi) as [Htab Hmod].
  assert (Hval : get16bits11bits base table mul index = 32 * eleven + eleven / 64).
  { change (get16bits11bits base table mul index)
      with (let elevenbits := base * 8 + 4 + eleven_tabval table mul index in
            let elevenbits :=
              if elevenbits >=? 256 * 8 then 256 * 8 - 1
              else if elevenbits <? 0 then 0 else elevenbits in
            u16 (Z.shiftl elevenbits 5 + Z.shiftr elevenbits 6)).
    cbv zeta. rewrite Htab. change (256 * 8) with 2048. change (2048 - 1) with 2047.
    replace (base * 8 + 4 + eleven_modifier table mul index)
      with (8 * base + 4 + eleven_modifier table mul index) by lia.
    assert (He : (if 8 * base + 4 + eleven_modifier table mul index >=? 2048 then 2047
                  else if 8 * base + 4 + eleven_modifier table mul index <? 0 then 0
                  else 8 * base + 4 + eleven_modifier table mul index) = eleven).
    { unfold eleven, CLAMP.
      destruct (Z.geb_spec (8 * base + 4 + eleven_modifier table mul index) 2048);
        destruct (Z.ltb_spec (8 * base + 4 + eleven_modifier table mul index) 0);
        destruct (Z.gtb_spec (8 * base + 4 + eleven_modifier table mul index) 2047);
        try lia; reflexivity. }
    rewrite He. apply extend_unsigned.
    unfold eleven, CLAMP.
    destruct (Z.ltb_spec (8 * base + 4 + eleven_modifier table mul index) 0); [lia |].
    destruct (Z.gtb_spec (8 * base + 4 + eleven_modifier table mul index) 2047); lia. }
  split; [exact Hval |]. rewrite Hval.
  assert (He : 0 <= eleven <= 2047).
  { unfold eleven, CLAMP.
    destruct (Z.ltb_spec (8 * base + 4 + eleven_modifier table mul index) 0); [lia |].
    destruct (Z.gtb_spec (8 * base + 4 + eleven_modifier table mul index) 2047); lia. }
  Z.div_mod_to_equations. lia.
Qed.

Lemma get16bits11bits_value_witness :
  let eleven := CLAMP 0 (8 * 200 + 4 + eleven_modifier 5 2 6) 2047 in
  get16bits11bits 200 5 2 6 = 32 * eleven + eleven / 64
  /\ 0 <= get16bits11bits 200 5 2 6 <= 65535.
Proof. apply (get16bits11bits_value 200 5 2 6); lia. Defined.

(** X14. [get16bits11signed] computes the signed 11-bit value of an EAC
    texel and stretches it to 16 bits: the base byte is read as
    [base - 128] with -128 raised to -127, the value is 8 times that
    plus the modifier, clamped to -1023..1023, and the result has the
    sign of the value and the magnitude shifted left by 5 with its top
    five bits repeated below; it lies in -32767..32767, so neither
    16-bit conversion nor the negation overflows. *)
Theorem get16bits11signed_value (base table mul index : Z) :
  0 <= base < 256 -> 0 <= table < 16 -> 0 <= mul < 16 -> 0 <= index < 8 ->
  let eleven := CLAMP (-1023) (8 * Z.max (base - 128) (-127)
                               + eleven_modifier table mul index) 1023 in
  get16bits11signed base table mul index
  = Z.sgn eleven * (32 * Z.abs eleven + Z.abs eleven / 32)
  /\ -32767 <= get16bits11signed base table mul index <= 32767.
Proof.
  intros Hb Ht Hm Hi eleven.
  destruct (eleven_tabval_modifier table mul index Ht Hm Hi) as [Htab Hmod].
  assert (Hval : get16bits11signed base table mul index
                 = Z.sgn eleven * (32 * Z.abs eleven + Z.abs eleven / 32)).
  { change (get16bits11signed base table mul index)
      with (let elevenbase := base - 128 in
            let elevenbase := if elevenbase =? -128 then -127 else elevenbase in
            let elevenbase := elevenbase * 8 in
            let elevenbits := elevenbase + eleven_tabval table mul index in
            let elevenbits :=
              if elevenbits >=? 1024 then 1023
              else if elevenbits <? -1023 then -1023 else elevenbits in
            let sign := if elevenbits <? 0 then 1 else 0 in
            let elevenbits := Z.abs elevenbits in
            let sixteenbits := s16 (s16 (Z.shiftl elevenbits 5 + Z.shiftr elevenbits 5)) in
            if truthy sign then s16 (- sixteenbits) else sixteenbits).
    cbv zeta. rewrite Htab.
    assert (Hbase : (if base - 128 =? -128 then -127 else base - 128) * 8
                    = 8 * Z.max (base - 128) (-127)).
    { destruct (Z.eqb_spec (base - 128) (-128)); lia. }
    rewrite Hbase.
    set (x := 8 * Z.max (base - 128) (-127) + eleven_modifier table mul index) in *.
    assert (He : (if x >=? 1024 then 1023 else if x <? -1023 then -1023 else x) = eleven).
    { unfold eleven, CLAMP.
      destruct (Z.geb_spec x 1024); destruct (Z.ltb_spec x (-1023));
        destruct (Z.gtb_spec x 1023); try lia; reflexivity. }
    rewrite He.
    assert (Hrange : -1023 <= eleven <= 1023).
    { unfold eleven, CLAMP.
      destruct (Z.ltb_spec x (-1023)); [lia |]. destruct (Z.gtb_spec x 1023); lia. }
    rewrite extend_signed by lia.
    assert (Hpos : 0 <= 32 * Z.abs eleven + Z.abs eleven / 32 <= 32767)
      by (Z.div_mod_to_equations; lia).
    destruct (Z.ltb_spec eleven 0).
    - change (truthy 1) with true. cbv iota.
      unfold s16. rewrite Z.mod_small by lia. rewrite Z.sgn_neg by lia. lia.
    - change (truthy 0) with false. cbv iota.
      destruct (Z.eq_dec eleven 0) as [-> | Hne]; [reflexivity |].
      rewrite Z.sgn_pos by lia. lia. }
  split; [exact Hval |]. rewrite Hval.
  assert (Hrange : -1023 <= eleven <= 1023).
  { unfold eleven, CLAMP.
    destruct (Z.ltb_spec (8 * Z.max (base - 128) (-127) + eleven_modifier table mul index)
                (-1023)); [lia |].
    destruct (Z.gtb_spec (8 * Z.max (base - 128) (-127) + eleven_modifier table mul index)
                1023); lia. }
  assert (Hpos : 0 <= 32 * Z.abs eleven + Z.abs eleven / 32 <= 32767)
    by (Z.div_mod_to_equations; lia).
  destruct (Z.sgn_spec eleven) as [[_ ->] | [[_ ->] | [_ ->]]]; lia.
Qed.

Lemma get16bits11signed_value_witness :
  let eleven := CLAMP (-1023) (8 * Z.max (3 - 128) (-127) + eleven_modifier 5 2 1) 1023 in
  get16bits11signed 3 5 2 1 = Z.sgn eleven * (32 * Z.abs eleven + Z.abs eleven / 32)
  /\ -32767 <= get16bits11signed 3 5 2 1 <= 32767.
Proof. apply (get16bits11signed_value 3 5 2 1); lia. Defined.

(** ** The container reader: header, failures, levels *)

Section Monad.

Lemma bind_inr {A B : Type} (m : result A) (k : A -> result B) (b : B) :
  m ≫= k = inr b -> exists a, m = inr a /\ k a = inr b.
Proof. destruct m as [e | a]; [discriminate | intros H; now exists a]. Qed.

Lemma bind_inl {A B : Type} (m : result A) (k : A -> result B) (e : error) :
  m = inl e -> m ≫= k = inl e.
Proof. now intros ->. Qed.

Lemma bind_step {A B : Type} (m : result A) (k : A -> result B) (a : A) :
  m = inr a -> m ≫= k = k a.
Proof. now intros ->. Qed.

Lemma BA_PRECONDITION_inr (cond : bool) (u : unit) :
  BA_PRECONDITION cond = inr u -> cond = true.
Proof. destruct cond; [reflexivity | discriminate]. Qed.

Lemma static_cast_check_fit_int_inr (v n : Z) :
  static_cast_check_fit_int v = inr n -> n = v /\ INT_MIN <= v <= INT_MAX.
Proof.
  unfold static_cast_check_fit_int.
  destruct (Z.leb_spec INT_MIN v); destruct (Z.leb_spec v INT_MAX);
    cbn [andb]; try discriminate.
  intros [= <-]. lia.
Qed.

End Monad.

Section Header.

(** What [LoadKTX] has checked when it enters the level loop, and the base
    level it has chosen. *)
Lemma LoadKTX_open_checks (bytes : list byte) (arrays : KTX_arrays)
    (texture_quality : TextureQuality) (min_quality : Z)
    (header : KTX_header) (internal_format : TextureFormat) (base_level : Z)
    (st0 : level_state) :
  LoadKTX_open (Some bytes) arrays texture_quality min_quality
  = inr (header, internal_format, base_level, st0) ->
  (64 <= length bytes)%nat
  /\ endianness header = KTX_ENDIAN_REF
  /\ numberOfArrayElements header = 0
  /\ numberOfFaces header = 1
  /\ bytesOfKeyValueData header = 0
  /\ 0 < pixelWidth header /\ 0 < pixelHeight header /\ pixelDepth header = 0
  /\ (glInternalFormat header = GL_COMPRESSED_RGB8_ETC2 /\ internal_format = kETC2_RGB
      \/ glInternalFormat header = GL_COMPRESSED_RGBA8_ETC2_EAC
         /\ internal_format = kETC2_RGBA
      \/ glInternalFormat header = GL_ETC1_RGB8_OES /\ internal_format = kETC1)
  /\ base_level
     = (let N := numberOfMipmapLevels header in
        let first :=
          if (TextureQuality_eqb texture_quality kLow
              || TextureQuality_eqb texture_quality kMedium)
             && (min_quality <? 2) && (N >=? 1) then 1 else 0 in
        let second :=
          if TextureQuality_eqb texture_quality kLow && (min_quality <? 1)
             && (pixelWidth header >? 128) && (pixelHeight header >? 128)
             && (N >=? first + 1) then 1 else 0 in
        first + second).
Proof.
  unfold LoadKTX_open. intros Hopen.
  destruct (fread KTX_HEADER_SIZE {| f_bytes := bytes; f_pos := 0 |})
    as [[header_bytes f] |] eqn:Hread; [| discriminate Hopen].
  apply fread_spec in Hread as (_ & Hlen & Hhb & _ & Hf).
  cbn [f_bytes f_pos] in Hhb, Hf, Hlen.
  change (Z.to_nat KTX_HEADER_SIZE) with 64%nat in *.
  apply bind_inr in Hopen as (u1 & E1 & Hopen). apply BA_PRECONDITION_inr in E1.
  apply bind_inr in Hopen as (u2 & E2 & Hopen). apply BA_PRECONDITION_inr in E2.
  apply bind_inr in Hopen as (u3 & E3 & Hopen). apply BA_PRECONDITION_inr in E3.
  apply bind_inr in Hopen as (u4 & E4 & Hopen). apply BA_PRECONDITION_inr in E4.
  apply bind_inr in Hopen as (u5 & E5 & Hopen). apply BA_PRECONDITION_inr in E5.
  apply bind_inr in Hopen as (fmt & Hfmt & Hopen).
  apply bind_inr in Hopen as (b1 & Hb1 & Hopen).
  apply bind_inr in Hopen as (b2 & Hb2 & Hopen).
  injection Hopen as <- <- <- <-.
  set (h := header_of_bytes header_bytes) in *.
  apply andb_true_iff in E5 as [E5 E7]. apply andb_true_iff in E5 as [E5 E6].
  apply Z.eqb_eq in E1, E2, E3, E4, E7. apply Z.gtb_lt in E5, E6.
  split; [lia |]. do 7 (split; [assumption |]).
  split.
  - destruct (Z.eqb_spec (glInternalFormat h) GL_COMPRESSED_RGB8_ETC2);
      [injection Hfmt as <-; auto |].
    destruct (Z.eqb_spec (glInternalFormat h) GL_COMPRESSED_RGBA8_ETC2_EAC);
      [injection Hfmt as <-; auto |].
    destruct (Z.eqb_spec (glInternalFormat h) GL_ETC1_RGB8_OES);
      [injection Hfmt as <-; auto | discriminate Hfmt].
  - cbv zeta.
    assert (H1 : b1 = if (TextureQuality_eqb texture_quality kLow
                          || TextureQuality_eqb texture_quality kMedium)
                         && (min_quality <? 2) && (numberOfMipmapLevels h >=? 1)
                      then 1 else 0).
    { destruct ((TextureQuality_eqb texture_quality kLow
                 || TextureQuality_eqb texture_quality kMedium) && (min_quality <? 2)).
      - apply bind_inr in Hb1 as (n & Hn & Hb1).
        apply static_cast_check_fit_int_inr in Hn as [-> _].
        injection Hb1 as <-. reflexivity.
      - injection Hb1 as <-. reflexivity. }
    destruct (TextureQuality_eqb texture_quality kLow && (min_quality <? 1)
              && (pixelWidth h >? 128) && (pixelHeight h >? 128)).
    + apply bind_inr in Hb2 as (n & Hn & Hb2).
      apply static_cast_check_fit_int_inr in Hn as [-> _].
      injection Hb2 as <-. rewrite andb_true_l, <- H1.
      change (le32 (take 4 (drop 56 header_bytes))) with (numberOfMipmapLevels h).
      destruct (numberOfMipmapLevels h >=? b1 + 1); lia.
    + injection Hb2 as <-. rewrite andb_false_l, <- H1. lia.
Qed.

End Header.

Section LevelOutcome.

Variable malloc : Z -> bool.
Variable internal_format : TextureFormat.
Variable base_level : Z.

(** The length field of a level that is there. *)
Lemma fread_length_field (f : FILE) :
  (f_pos f + 4 <= length (f_bytes f))%nat ->
  fread 4 f = Some (take 4 (drop (f_pos f) (f_bytes f)),
                    {| f_bytes := f_bytes f; f_pos := (f_pos f + 4)%nat |}).
Proof.
  intros Hlen. unfold fread. change (Z.to_nat 4) with 4%nat.
  change (0 <? 4) with true.
  destruct (Nat.leb_spec (f_pos f + 4) (length (f_bytes f))); [reflexivity | lia].
Qed.

(** A level below the base level is passed over by seeking: its payload is
    not read, and need not be in the file. *)
Lemma load_level_skips (level : Z) (st : level_state) :
  (f_pos (ls_file st) + 4 <= length (f_bytes (ls_file st)))%nat ->
  let size := le32 (take 4 (drop (f_pos (ls_file st)) (f_bytes (ls_file st)))) in
  size mod 4 = 0 ->
  0 <= level <= INT_MAX -> level < base_level ->
  load_level malloc internal_format base_level level st
  = inr {| ls_file := {| f_bytes := f_bytes (ls_file st);
                         f_pos := (f_pos (ls_file st) + 4 + Z.to_nat size)%nat |};
           ls_x := Z.shiftr (s32 (ls_x st + 1)) 1;
           ls_y := Z.shiftr (s32 (ls_y st + 1)) 1;
           ls_arrays := {| buffers := <[level := None]> (buffers (ls_arrays st));
                           widths := widths (ls_arrays st);
                           heights := heights (ls_arrays st);
                           formats := formats (ls_arrays st);
                           sizes := sizes (ls_arrays st) |} |}.
Proof.
  intros Hlen size Haligned Hlevel Hskip.
  assert (Hsize : 0 <= size < 4294967296)
    by (apply le32_range; rewrite length_take; lia).
  unfold load_level. rewrite (fread_length_field _ Hlen). fold size.
  rewrite (proj2 (sizeRounded_aligned size Hsize) Haligned).
  unfold BA_PRECONDITION at 1. rewrite (bind_step _ _ tt) by reflexivity.
  rewrite (bind_step _ _ level).
  2:{ unfold static_cast_check_fit_int.
      destruct (Z.leb_spec INT_MIN level); [| unfold INT_MIN in *; lia].
      destruct (Z.leb_spec level INT_MAX); [reflexivity | lia]. }
  destruct (Z.leb_spec base_level level); [lia |].
  rewrite (bind_step _ _ size).
  2:{ unfold static_cast_check_fit_long.
      destruct (Z.leb_spec (- LONG_MAX - 1) size); [| unfold LONG_MAX in *; lia].
      destruct (Z.leb_spec size LONG_MAX); [reflexivity | unfold LONG_MAX in *; lia]. }
  reflexivity.
Qed.

End LevelOutcome.

(** X15. [LoadKTX] returns only for a file that holds a whole 64-byte
    header with the reference endianness, no array elements, one face, no
    key-value data, a width and a height above 0, depth 0, and one of
    the three ETC internal formats; the base level it reports is 0, 1 or
    2. *)
Theorem LoadKTX_validates_the_header
    (bytes : list byte) (malloc : Z -> bool) (arrays : KTX_arrays)
    (texture_quality : TextureQuality) (min_quality : Z) (out : KTX_loaded) :
  LoadKTX (Some bytes) malloc arrays texture_quality min_quality = inr out ->
  let header := header_of_bytes (take 64 bytes) in
  (64 <= length bytes)%nat
  /\ endianness header = KTX_ENDIAN_REF
  /\ numberOfArrayElements header = 0
  /\ numberOfFaces header = 1
  /\ bytesOfKeyValueData header = 0
  /\ 0 < pixelWidth header /\ 0 < pixelHeight header /\ pixelDepth header = 0
  /\ (glInternalFormat header = GL_COMPRESSED_RGB8_ETC2
      \/ glInternalFormat header = GL_COMPRESSED_RGBA8_ETC2_EAC
      \/ glInternalFormat header = GL_ETC1_RGB8_OES)
  /\ 0 <= ld_base_level out <= 2.
Proof.
  intros Hload header.
  apply LoadKTX_inv in Hload as (fmt & st0 & st & Hopen & _).
  pose proof (LoadKTX_open_inv _ _ _ _ _ _ _ _ Hopen) as (_ & _ & Hk & _).
  apply LoadKTX_open_checks in Hopen
    as (H1 & H2 & H3 & H4 & H5 & H6 & H7 & H8 & H9 & _).
  fold header in H2, H3, H4, H5, H6, H7, H8, H9.
  repeat split; try assumption; lia.
Qed.


Lemma LoadKTX_validates_the_header_witness :
  LoadKTX (Some Sample.three_levels) Sample.any_malloc Sample.no_arrays kLow 0
  = inr Sample.loaded_low
  /\ numberOfFaces (header_of_bytes (take 64 Sample.three_levels)) = 1
  /\ 0 <= ld_base_level Sample.loaded_low <= 2.
Proof.
  assert (Hload : LoadKTX (Some Sample.three_levels) Sample.any_malloc Sample.no_arrays
                    kLow 0 = inr Sample.loaded_low)
    by (vm_compute; reflexivity).
  split; [exact Hload |].
  pose proof (LoadKTX_validates_the_header Sample.three_levels Sample.any_malloc
                Sample.no_arrays kLow 0 Sample.loaded_low Hload)
    as (_ & _ & _ & Hfaces & _ & _ & _ & _ & _ & Hlevel).
  split; [exact Hfaces | exact Hlevel].
Defined.

(** X16. A file with a single mip level, loaded at low or medium quality
    with [min_quality] below 2, yields no image: its header passes the
    checks, the base level becomes 1, which is the number of levels, so
    the one level is skipped, and [LoadKTX] returns with slot 0 of
    [buffers] set to null and nothing written to [widths], [heights],
    [formats] and [sizes]. The file holds the level's length field, a
    multiple of 4; the payload itself need not be there, the cursor is
    moved past it without a read. *)
Theorem LoadKTX_single_level_is_dropped
    (bytes : list byte) (malloc : Z -> bool) (arrays : KTX_arrays)
    (texture_quality : TextureQuality) (min_quality : Z)
    (header : KTX_header) (internal_format : TextureFormat) (base_level : Z)
    (st0 : level_state) :
  LoadKTX_open (Some bytes) arrays texture_quality min_quality
  = inr (header, internal_format, base_level, st0) ->
  numberOfMipmapLevels header = 1 ->
  texture_quality = kLow \/ texture_quality = kMedium ->
  min_quality < 2 ->
  (68 <= length bytes)%nat ->
  declared_size bytes 0 mod 4 = 0 ->
  LoadKTX (Some bytes) malloc arrays texture_quality min_quality
  = inr {| ld_arrays := {| buffers := <[0 := None]> (buffers arrays);
                           widths := widths arrays; heights := heights arrays;
                           formats := formats arrays; sizes := sizes arrays |};
           ld_base_level := 1;
           ld_file := {| f_bytes := bytes;
                         f_pos := (68 + Z.to_nat (declared_size bytes 0))%nat |} |}.
Proof.
  intros Hopen HN Hq Hmq Hlen Haligned.
  pose proof (LoadKTX_open_inv _ _ _ _ _ _ _ _ Hopen) as (_ & Hst0 & _ & _).
  pose proof (LoadKTX_open_checks _ _ _ _ _ _ _ _ Hopen) as Hchecks.
  destruct Hchecks as (_ & _ & _ & _ & _ & _ & _ & _ & _ & Hk).
  cbv zeta in Hk. rewrite HN in Hk.
  assert (Hk1 : base_level = 1).
  { rewrite Hk.
    replace (min_quality <? 2) with true by (symmetry; apply Z.ltb_lt; lia).
    destruct Hq as [-> | ->]; cbn [TextureQuality_eqb orb andb];
      change (1 >=? 1) with true; change (1 >=? 1 + 1) with false; cbv iota;
      rewrite ?andb_false_r; reflexivity. }
  clear Hk. subst base_level.
  unfold LoadKTX. rewrite Hopen. cbn [mbind result_bind]. rewrite HN.
  change (Z.to_nat 1) with 1%nat.
  unfold for_countM, range. cbn [seq map fold_left mret result_ret mbind result_bind].
  change (0 + Z.of_nat 0) with 0.
  rewrite load_level_skips.
  - subst st0. cbn [ls_file ls_arrays f_bytes f_pos mbind result_bind mret result_ret].
    reflexivity.
  - subst st0. cbn [ls_file f_bytes f_pos]. lia.
  - subst st0. cbn [ls_file f_bytes f_pos]. exact Haligned.
  - unfold INT_MAX. lia.
  - lia.
Qed.


Lemma LoadKTX_single_level_is_dropped_witness :
  LoadKTX (Some Inputs.one_level) Sample.any_malloc Sample.no_arrays kMedium 0
  = inr {| ld_arrays := {| buffers := <[0 := None]> (buffers Sample.no_arrays);
                           widths := widths Sample.no_arrays;
                           heights := heights Sample.no_arrays;
                           formats := formats Sample.no_arrays;
                           sizes := sizes Sample.no_arrays |};
           ld_base_level := 1;
           ld_file := {| f_bytes := Inputs.one_level;
                         f_pos := (68 + Z.to_nat (declared_size Inputs.one_level 0))%nat |} |}.
Proof.
  apply (LoadKTX_single_level_is_dropped Inputs.one_level Sample.any_malloc
           Sample.no_arrays kMedium 0
           (header_of_bytes (take 64 Inputs.one_level)) kETC2_RGB 1
           {| ls_file := {| f_bytes := Inputs.one_level; f_pos := 64 |};
              ls_x := 4; ls_y := 4; ls_arrays := Sample.no_arrays |}).
  - vm_compute. reflexivity.
  - vm_compute. reflexivity.
  - right. reflexivity.
  - lia.
  - vm_compute. lia.
  - vm_compute. reflexivity.
Defined.

Section Failures.

Variable bytes : list byte.
Variable malloc : Z -> bool.
Variable arrays : KTX_arrays.
Variable texture_quality : TextureQuality.
Variable min_quality : Z.
Variable header : KTX_header.
Variable internal_format : TextureFormat.
Variable base_level : Z.
Variables st0 st : level_state.
Variable l : nat.
Hypothesis opened :
  LoadKTX_open (Some bytes) arrays texture_quality min_quality
  = inr (header, internal_format, base_level, st0).
Hypothesis reached : (l < Z.to_nat (numberOfMipmapLevels header))%nat.
Hypothesis before :
  for_countM 0 l (load_level malloc internal_format base_level) st0 = inr st.

(** The file cursor stands at the length field of level [l]. *)
Lemma level_reached :
  f_bytes (ls_file st) = bytes /\ f_pos (ls_file st) = level_offset bytes l.
Proof.
  pose proof (LoadKTX_open_inv _ _ _ _ _ _ _ _ opened) as (_ & Hst0 & _ & _).
  assert (Hinv : levels_loaded bytes base_level (s32 (pixelWidth header))
                   (s32 (pixelHeight header)) internal_format l st).
  { eapply levels_loaded_loop; [apply s32_range | apply s32_range | | exact before].
    subst st0. unfold levels_loaded. cbn [ls_file ls_x ls_y ls_arrays f_bytes f_pos].
    repeat split; try reflexivity; intros; lia. }
  destruct Hinv as (Hbytes & Hpos & _). now split.
Qed.

(** A level that fails makes the whole load fail the same way. *)
Lemma LoadKTX_fails_at (e : error) :
  load_level malloc internal_format base_level (Z.of_nat l) st = inl e ->
  LoadKTX (Some bytes) malloc arrays texture_quality min_quality = inl e.
Proof.
  intros Hbody.
  assert (Hfail : for_countM 0 (Z.to_nat (numberOfMipmapLevels header))
                    (load_level malloc internal_format base_level) st0 = inl e).
  { apply (for_countM_throw 0 (S l)); [lia |].
    rewrite for_countM_S, before. cbn [mbind result_bind]. now rewrite Z.add_0_l. }
  unfold LoadKTX. rewrite opened. cbn [mbind result_bind]. now rewrite Hfail.
Qed.

End Failures.

(** X17. Where a file ends decides how [LoadKTX] fails. Once the header
    has passed the checks and the levels before level [l] have been
    read, a file that ends before the four bytes of the level's length
    field makes the call throw the read error; a file that has the
    field, with an aligned size, for a level that is to be kept, makes
    the call fail its precondition when the size is 0, when [malloc]
    returns null, or when the file ends before the last byte of the
    payload. *)
Theorem LoadKTX_fails_on_truncated_level
    (bytes : list byte) (malloc : Z -> bool) (arrays : KTX_arrays)
    (texture_quality : TextureQuality) (min_quality : Z)
    (header : KTX_header) (internal_format : TextureFormat) (base_level : Z)
    (st0 st : level_state) (l : nat) :
  LoadKTX_open (Some bytes) arrays texture_quality min_quality
  = inr (header, internal_format, base_level, st0) ->
  (l < Z.to_nat (numberOfMipmapLevels header))%nat ->
  for_countM 0 l (load_level malloc internal_format base_level) st0 = inr st ->
  let size := declared_size bytes l in
  ((length bytes < level_offset bytes l + 4)%nat ->
   LoadKTX (Some bytes) malloc arrays texture_quality min_quality = inl ReadError)
  /\ ((level_offset bytes l + 4 <= length bytes)%nat ->
      size mod 4 = 0 -> base_level <= Z.of_nat l <= INT_MAX ->
      size = 0 \/ malloc size = false
      \/ (length bytes < level_offset bytes l + 4 + Z.to_nat size)%nat ->
      LoadKTX (Some bytes) malloc arrays texture_quality min_quality
      = inl PreconditionFailed).
Proof.
  intros Hopen Hl Hloop size.
  destruct (level_reached bytes malloc arrays texture_quality min_quality header
              internal_format base_level st0 st l Hopen Hl Hloop) as [Hbytes Hpos].
  split.
  - intros Hshort.
    apply (LoadKTX_fails_at bytes malloc arrays texture_quality min_quality header
             internal_format base_level st0 st l Hopen Hl Hloop).
    unfold load_level, fread. rewrite Hbytes, Hpos. change (Z.to_nat 4) with 4%nat.
    destruct (Nat.leb_spec (level_offset bytes l + 4) (length bytes)); [lia |].
    rewrite andb_false_r. reflexivity.
  - intros Hlen Haligned Hlevel Hbad.
    apply (LoadKTX_fails_at bytes malloc arrays texture_quality min_quality header
             internal_format base_level st0 st l Hopen Hl Hloop).
    assert (Hsize : 0 <= size < 4294967296)
      by (apply le32_range; rewrite length_take; lia).
    unfold load_level.
    rewrite fread_length_field by (rewrite Hbytes, Hpos; exact Hlen).
    rewrite Hbytes, Hpos. fold (declared_size bytes l). fold size.
    rewrite (proj2 (sizeRounded_aligned size Hsize) Haligned).
    unfold BA_PRECONDITION at 1. rewrite (bind_step _ _ tt) by reflexivity.
    rewrite (bind_step _ _ (Z.of_nat l)).
    2:{ unfold static_cast_check_fit_int.
        destruct (Z.leb_spec INT_MIN (Z.of_nat l)); [| unfold INT_MIN in *; lia].
        destruct (Z.leb_spec (Z.of_nat l) INT_MAX); [reflexivity | lia]. }
    destruct (Z.leb_spec base_level (Z.of_nat l)); [| lia].
    destruct (malloc size) eqn:Hmalloc; [| reflexivity].
    unfold BA_PRECONDITION. rewrite (bind_step _ _ tt) by reflexivity.
    assert (Hread : fread size {| f_bytes := bytes; f_pos := (level_offset bytes l + 4)%nat |}
                    = None).
    { unfold fread. cbn [f_bytes f_pos].
      destruct Hbad as [Hzero | [Hno | Hshort]].
      - rewrite Hzero. reflexivity.
      - congruence.
      - destruct (Nat.leb_spec (level_offset bytes l + 4 + Z.to_nat size) (length bytes));
          [lia |]. now rewrite andb_false_r. }
    rewrite Hread. reflexivity.
Qed.


(** The file ends two bytes into the payload of level 1. *)
Lemma LoadKTX_fails_on_truncated_level_witness :
  LoadKTX (Some Inputs.truncated) Sample.any_malloc Sample.no_arrays kHigh 0
  = inl PreconditionFailed.
Proof.
  refine (proj2 (LoadKTX_fails_on_truncated_level Inputs.truncated Sample.any_malloc
                   Sample.no_arrays kHigh 0
                   (header_of_bytes (take 64 Inputs.truncated)) kETC2_RGB 0
                   {| ls_file := {| f_bytes := Inputs.truncated; f_pos := 64 |};
                      ls_x := 256; ls_y := 256; ls_arrays := Sample.no_arrays |}
                   Inputs.truncated_after_level_0 1 _ _ _) _ _ _ _).
  - vm_compute. reflexivity.
  - vm_compute. lia.
  - vm_compute. reflexivity.
  - vm_compute. lia.
  - vm_compute. reflexivity.
  - vm_compute. split; discriminate.
  - right. right. vm_compute. lia.
Defined.

Section LoadedInvariant.

Lemma for_countM_prefix {S : Type} (lo : Z) (n : nat) (body : Z -> S -> result S)
    (s s' : S) :
  for_countM lo (Datatypes.S n) body s = inr s' ->
  exists s1, for_countM lo n body s = inr s1 /\ body (lo + Z.of_nat n) s1 = inr s'.
Proof. rewrite for_countM_S. apply bind_inr. Qed.

(** What holds of the arrays when [LoadKTX] returns. *)
Lemma LoadKTX_loaded (bytes : list byte) (malloc : Z -> bool) (arrays : KTX_arrays)
    (texture_quality : TextureQuality) (min_quality : Z) (out : KTX_loaded) :
  LoadKTX (Some bytes) malloc arrays texture_quality min_quality = inr out ->
  let header := header_of_bytes (take 64 bytes) in
  exists fmt st,
    levels_loaded bytes (ld_base_level out) (s32 (pixelWidth header))
      (s32 (pixelHeight header)) fmt (Z.to_nat (numberOfMipmapLevels header)) st
    /\ ld_arrays out = ls_arrays st /\ ld_file out = ls_file st.
Proof.
  intros Hload header.
  apply LoadKTX_inv in Hload as (fmt & st0 & st & Hopen & Hloop & Harrays & Hfile).
  pose proof (LoadKTX_open_inv _ _ _ _ _ _ _ _ Hopen) as (_ & Hst0 & _ & _).
  exists fmt, st. split; [| now split].
  eapply levels_loaded_loop; [apply s32_range | apply s32_range | | exact Hloop].
  subst st0. unfold levels_loaded. cbn [ls_file ls_x ls_y ls_arrays f_bytes f_pos].
  repeat split; try reflexivity; intros; lia.
Qed.

Lemma levels_frame_loop (bytes : list byte) (malloc : Z -> bool)
    (internal_format : TextureFormat) (base_level x0 y0 : Z) (arrays : KTX_arrays)
    (n : nat) (st0 st : level_state) :
  INT_MIN <= x0 <= INT_MAX -> INT_MIN <= y0 <= INT_MAX ->
  levels_loaded bytes base_level x0 y0 internal_format 0 st0 ->
  ls_arrays st0 = arrays ->
  for_countM 0 n (load_level malloc internal_format base_level) st0 = inr st ->
  levels_frame arrays base_level n (ls_arrays st).
Proof.
  intros Hx0 Hy0 Hinit Harr. revert st. induction n as [| n IH]; intros st Hloop.
  - injection Hloop as <-. rewrite Harr. split; intros; repeat split; reflexivity.
  - apply for_countM_prefix in Hloop as (st1 & Hloop & Hbody).
    rewrite Z.add_0_l in Hbody.
    pose proof (levels_loaded_loop bytes malloc internal_format base_level x0 y0
                  Hx0 Hy0 n st0 st1 Hinit Hloop) as (Hbytes & Hpos & _).
    apply (load_level_inv bytes malloc internal_format base_level n st1 st Hbytes Hpos)
      in Hbody.
    destruct Hbody as (_ & _ & _ & _ & _ & _ & Hskip & Hmat).
    destruct (IH st1 Hloop) as [Hout Hlow].
    destruct (Z.lt_ge_cases (Z.of_nat n) base_level) as [Hlt | Hge].
    + rewrite (Hskip Hlt). split.
      * intros l Hl. cbn [buffers widths heights formats sizes].
        rewrite lookup_insert_ne by lia. apply Hout. lia.
      * intros l Hl. cbn [buffers widths heights formats sizes]. now apply Hlow.
    + destruct (Hmat Hge) as (_ & ->). split.
      * intros l Hl. cbn [buffers widths heights formats sizes].
        rewrite !lookup_insert_ne by lia. apply Hout. lia.
      * intros l Hl. cbn [buffers widths heights formats sizes].
        rewrite !lookup_insert_ne by lia. now apply Hlow.
Qed.

(** Halving with rounding up, [l] times. *)
Lemma mip_dim_ceil (x : Z) (l : nat) :
  1 <= x <= INT_MAX - 1 ->
  mip_dim x l = (x + 2 ^ Z.of_nat l - 1) / 2 ^ Z.of_nat l
  /\ 1 <= mip_dim x l <= INT_MAX - 1.
Proof.
  intros Hx. induction l as [| l [IH Hr]].
  - change (mip_dim x 0) with x. change (2 ^ Z.of_nat 0) with 1. rewrite Z.div_1_r.
    split; lia.
  - assert (Hstep : mip_dim x (S l) = (mip_dim x l + 1) / 2).
    { change (mip_dim x (S l)) with (Z.shiftr (s32 (mip_dim x l + 1)) 1).
      rewrite Z.shiftr_div_pow2 by lia. change (2 ^ 1) with 2.
      f_equal. unfold s32, INT_MAX in *. rewrite Z.mod_small; lia. }
    rewrite Hstep. split; [| unfold INT_MAX in *; Z.div_mod_to_equations; lia].
    rewrite IH. rewrite Nat2Z.inj_succ, Z.pow_succ_r by lia.
    assert (Ha : 0 < 2 ^ Z.of_nat l) by (apply Z.pow_pos_nonneg; lia).
    set (a := 2 ^ Z.of_nat l) in *. clearbody a.
    apply Z.div_unique with
      (r := a * (((x + a - 1) / a + 1) mod 2) + (x + a - 1) mod a).
    + left. pose proof (Z.mod_pos_bound ((x + a - 1) / a + 1) 2 ltac:(lia)).
      pose proof (Z.mod_pos_bound (x + a - 1) a Ha). nia.
    + pose proof (Z.div_mod ((x + a - 1) / a + 1) 2 ltac:(lia)).
      pose proof (Z.div_mod (x + a - 1) a ltac:(lia)). nia.
Qed.

End LoadedInvariant.

Lemma s32_small (x : Z) : INT_MIN <= x <= INT_MAX -> s32 x = x.
Proof. unfold s32, INT_MIN, INT_MAX. intros Hx. rewrite Z.mod_small; lia. Qed.

Lemma LoadKTX_validates_open (bytes : list byte) (malloc : Z -> bool)
    (arrays : KTX_arrays) (texture_quality : TextureQuality) (min_quality : Z)
    (out : KTX_loaded) :
  LoadKTX (Some bytes) malloc arrays texture_quality min_quality = inr out ->
  0 < pixelWidth (header_of_bytes (take 64 bytes))
  /\ 0 < pixelHeight (header_of_bytes (take 64 bytes))
  /\ 0 <= ld_base_level out.
Proof.
  intros Hload.
  apply LoadKTX_inv in Hload as (fmt & st0 & st & Hopen & _).
  pose proof (LoadKTX_open_inv _ _ _ _ _ _ _ _ Hopen) as (_ & _ & Hk & _).
  apply LoadKTX_open_checks in Hopen as (_ & _ & _ & _ & _ & H6 & H7 & _).
  repeat split; try assumption; lia.
Qed.

(** X18. [LoadKTX] writes to the caller's arrays only at the levels of the
    file: a slot below 0 or from the number of levels on keeps what it
    held in all five arrays, and below the base level only [buffers] is
    written (with null), [widths], [heights], [formats] and [sizes] keep
    what they held. *)
Theorem LoadKTX_leaves_other_slots_alone
    (bytes : list byte) (malloc : Z -> bool) (arrays : KTX_arrays)
    (texture_quality : TextureQuality) (min_quality : Z) (out : KTX_loaded) :
  LoadKTX (Some bytes) malloc arrays texture_quality min_quality = inr out ->
  let N := numberOfMipmapLevels (header_of_bytes (take 64 bytes)) in
  let a := ld_arrays out in
  (forall l : Z, l < 0 \/ N <= l ->
     buffers a !! l = buffers arrays !! l /\ widths a !! l = widths arrays !! l
     /\ heights a !! l = heights arrays !! l /\ formats a !! l = formats arrays !! l
     /\ sizes a !! l = sizes arrays !! l)
  /\ (forall l : Z, l < ld_base_level out ->
        widths a !! l = widths arrays !! l /\ heights a !! l = heights arrays !! l
        /\ formats a !! l = formats arrays !! l /\ sizes a !! l = sizes arrays !! l).
Proof.
  intros Hload N a.
  apply LoadKTX_inv in Hload as (fmt & st0 & st & Hopen & Hloop & Harrays & _).
  pose proof (LoadKTX_open_inv _ _ _ _ _ _ _ _ Hopen) as (_ & Hst0 & _ & _).
  pose proof (header_levels_nonneg (take 64 bytes)) as HN. fold N in HN, Hloop.
  assert (Hframe : levels_frame arrays (ld_base_level out) (Z.to_nat N) (ls_arrays st)).
  { eapply (levels_frame_loop bytes malloc fmt (ld_base_level out)
              (s32 (pixelWidth (header_of_bytes (take 64 bytes))))
              (s32 (pixelHeight (header_of_bytes (take 64 bytes)))));
      [apply s32_range | apply s32_range | | | exact Hloop].
    - subst st0. unfold levels_loaded. cbn [ls_file ls_x ls_y ls_arrays f_bytes f_pos].
      repeat split; try reflexivity; intros; lia.
    - subst st0. reflexivity. }
  unfold a. rewrite Harrays. destruct Hframe as [Hout Hlow]. split.
  - intros l Hl. apply Hout. lia.
  - exact Hlow.
Qed.


Lemma LoadKTX_leaves_other_slots_alone_witness :
  LoadKTX (Some Sample.three_levels) Sample.any_malloc Inputs.used_arrays kLow 0
  = inr Inputs.loaded_over_used
  /\ buffers (ld_arrays Inputs.loaded_over_used) !! 3 = buffers Inputs.used_arrays !! 3
  /\ sizes (ld_arrays Inputs.loaded_over_used) !! 1 = sizes Inputs.used_arrays !! 1.
Proof.
  assert (Hload : LoadKTX (Some Sample.three_levels) Sample.any_malloc Inputs.used_arrays
                    kLow 0 = inr Inputs.loaded_over_used)
    by (vm_compute; reflexivity).
  split; [exact Hload |].
  pose proof (LoadKTX_leaves_other_slots_alone Sample.three_levels Sample.any_malloc
                Inputs.used_arrays kLow 0 Inputs.loaded_over_used Hload) as [Hout Hlow].
  split.
  - apply (Hout 3). right. vm_compute. discriminate.
  - apply (Hlow 1). vm_compute. reflexivity.
Defined.

(** X19. The dimensions [LoadKTX] stores for a level it keeps are the
    header's, halved once per level with rounding up: level [l] is
    [ceil (pixelWidth / 2 ^ l)] by [ceil (pixelHeight / 2 ^ l)], and
    never below 1 by 1. The header's dimensions are below [INT_MAX], so
    that [x + 1] does not overflow. *)
Theorem LoadKTX_level_dimensions
    (bytes : list byte) (malloc : Z -> bool) (arrays : KTX_arrays)
    (texture_quality : TextureQuality) (min_quality : Z) (out : KTX_loaded) (l : Z) :
  LoadKTX (Some bytes) malloc arrays texture_quality min_quality = inr out ->
  let header := header_of_bytes (take 64 bytes) in
  pixelWidth header <= INT_MAX - 1 -> pixelHeight header <= INT_MAX - 1 ->
  ld_base_level out <= l < numberOfMipmapLevels header ->
  exists w h,
    widths (ld_arrays out) !! l = Some w /\ heights (ld_arrays out) !! l = Some h
    /\ w = (pixelWidth header + 2 ^ l - 1) / 2 ^ l
    /\ h = (pixelHeight header + 2 ^ l - 1) / 2 ^ l
    /\ 1 <= w /\ 1 <= h.
Proof.
  intros Hload header Hw Hh Hl.
  pose proof (LoadKTX_validates_open bytes malloc arrays texture_quality min_quality out
                Hload) as (Hwpos & Hhpos & Hk).
  fold header in Hwpos, Hhpos.
  apply LoadKTX_loaded in Hload as (fmt & st & Hinv & Harrays & _).
  fold header in Hinv.
  destruct Hinv as (_ & _ & _ & _ & Hslots).
  destruct (Hslots l ltac:(lia)) as (_ & Hmat).
  destruct (Hmat ltac:(lia)) as (_ & _ & _ & Hwl & Hhl & _).
  rewrite !s32_small in Hwl, Hhl by (unfold INT_MIN, INT_MAX in *; lia).
  destruct (mip_dim_ceil (pixelWidth header) (Z.to_nat l) ltac:(lia)) as [Hcw Hrw].
  destruct (mip_dim_ceil (pixelHeight header) (Z.to_nat l) ltac:(lia)) as [Hch Hrh].
  rewrite Z2Nat.id in Hcw, Hch by lia.
  exists (mip_dim (pixelWidth header) (Z.to_nat l)),
         (mip_dim (pixelHeight header) (Z.to_nat l)).
  rewrite Harrays. repeat split; try assumption; lia.
Qed.


Lemma LoadKTX_level_dimensions_witness :
  LoadKTX (Some Sample.three_levels) Sample.any_malloc Sample.no_arrays kLow 0
  = inr Sample.loaded_low
  /\ exists w h,
       widths (ld_arrays Sample.loaded_low) !! 2 = Some w
       /\ heights (ld_arrays Sample.loaded_low) !! 2 = Some h
       /\ w = (pixelWidth (header_of_bytes (take 64 Sample.three_levels)) + 2 ^ 2 - 1)
              / 2 ^ 2
       /\ h = (pixelHeight (header_of_bytes (take 64 Sample.three_levels)) + 2 ^ 2 - 1)
              / 2 ^ 2
       /\ 1 <= w /\ 1 <= h.
Proof.
  assert (Hload : LoadKTX (Some Sample.three_levels) Sample.any_malloc Sample.no_arrays
                    kLow 0 = inr Sample.loaded_low)
    by (vm_compute; reflexivity).
  split; [exact Hload |].
  apply (LoadKTX_level_dimensions Sample.three_levels Sample.any_malloc Sample.no_arrays
           kLow 0 Sample.loaded_low 2 Hload).
  - vm_compute. discriminate.
  - vm_compute. discriminate.
  - vm_compute. split; [discriminate | reflexivity].
Defined.

(** ** The image assembler: failures and the reported format *)

Section Unpack.

Lemma for_countM_total {S : Type} (lo : Z) (n : nat) (body : Z -> S -> result S) (s : S) :
  (forall i s, exists s', body i s = inr s') ->
  exists s', for_countM lo n body s = inr s'.
Proof.
  intros Hbody. induction n as [| n [s1 IH]].
  - now exists s.
  - rewrite for_countM_S, IH. cbn [mbind result_bind]. apply Hbody.
Qed.

(** A block never makes the assembler stop: no decoder takes the exit. *)
Lemma unpack_block_returns (g : alpha_globals) (fmt : unpack_format)
    (width height x y : Z) (st : unpack_state) :
  exists st', unpack_block g fmt width height x y st = inr st'.
Proof.
  unfold unpack_block. cbv zeta.
  destruct (alphaFormat_eqb (alphaFormat fmt) AF_1BIT).
  - match goal with
    | |- context [decompressBlockETC21BitAlphaC ?a ?b ?c ?d ?e ?f ?g ?h ?i ?m] =>
        destruct (decompressBlockETC21BitAlphaC_returns a b c d e f g h i m) as [m' ->]
    end.
    eexists. reflexivity.
  - match goal with
    | |- context [decompressBlockETC2c ?a ?b ?c ?d ?e ?f ?g ?h ?m] =>
        destruct (decompressBlockETC2c_returns a b c d e f g h m) as (m' & -> & _)
    end.
    eexists. reflexivity.
Qed.

Lemma unpack_switch_cases (srcFormat : Z) :
  (supported srcFormat
   /\ exists fmt, unpack_switch srcFormat = inr fmt
        /\ dstChannelBytes fmt = 1 /\ out_type fmt = GL_UNSIGNED_BYTE
        /\ (srcFormat = GL_COMPRESSED_RGBA8_ETC2_EAC
            /\ dstChannels fmt = 4 /\ out_format fmt = GL_RGBA /\ alphaFormat fmt = AF_8BIT
            \/ srcFormat <> GL_COMPRESSED_RGBA8_ETC2_EAC
               /\ dstChannels fmt = 3 /\ out_format fmt = GL_RGB
               /\ alphaFormat fmt = AF_NONE))
  \/ (~ supported srcFormat /\ unpack_switch srcFormat = inl UnsupportedFormat).
Proof.
  unfold unpack_switch, supported.
  destruct (Z.eqb_spec srcFormat GL_ETC1_RGB8_OES) as [-> | H1].
  { left. split; [auto |]. eexists. split; [reflexivity |]. cbn.
    repeat split. right. repeat split. discriminate. }
  destruct (Z.eqb_spec srcFormat GL_COMPRESSED_RGB8_ETC2) as [-> | H2].
  { left. split; [auto |]. eexists. split; [reflexivity |]. cbn.
    repeat split. right. repeat split. discriminate. }
  destruct (Z.eqb_spec srcFormat GL_COMPRESSED_RGBA8_ETC2_EAC) as [-> | H3].
  { left. split; [auto |]. eexists. split; [reflexivity |]. cbn.
    repeat split. left. repeat split. }
  right. split; [tauto | reflexivity].
Qed.

End Unpack.

(** X20. [KTXUnpackETC] fails in two ways only. A source format other
    than ETC1, ETC2 RGB and ETC2 RGBA with EAC alpha makes it throw
    before anything is allocated; for these three formats it throws
    only when one of its two [malloc] calls returns null. No block makes
    a decoder terminate the process, and the 11-bit branch is never
    taken: the call returns when both allocations succeed, the
    dimensions are [uint32] values whose padded image fits an [int]
    (beyond that the padding and the index arithmetic of the real code
    wrap), and the source holds a block for every 4 x 4 tile. *)
Theorem KTXUnpackETC_failures
    (g : alpha_globals) (malloc : Z -> bool) (fresh1 fresh2 : mem)
    (srcETC : list byte) (srcFormat activeWidth activeHeight : Z) :
  (~ supported srcFormat ->
   KTXUnpackETC g malloc fresh1 fresh2 srcETC srcFormat activeWidth activeHeight
   = inl UnsupportedFormat)
  /\ (forall e,
        KTXUnpackETC g malloc fresh1 fresh2 srcETC srcFormat activeWidth activeHeight
        = inl e ->
        e = UnsupportedFormat /\ ~ supported srcFormat
        \/ e = OutOfMemory /\ supported srcFormat /\ exists n, malloc n = false)
  /\ (supported srcFormat -> (forall n, malloc n = true) ->
      0 <= activeWidth < 4294967296 -> 0 <= activeHeight < 4294967296 ->
      (if srcFormat =? GL_COMPRESSED_RGBA8_ETC2_EAC then 4 else 3)
      * padded_dim activeWidth * padded_dim activeHeight <= INT_MAX ->
      (if srcFormat =? GL_COMPRESSED_RGBA8_ETC2_EAC then 16 else 8)
      * (padded_dim activeWidth / 4 * (padded_dim activeHeight / 4))
      <= Z.of_nat (length srcETC) ->
      exists out,
        KTXUnpackETC g malloc fresh1 fresh2 srcETC srcFormat activeWidth activeHeight
        = inr out).
Proof.
  unfold KTXUnpackETC, KTXUnpackETC_decode.
  destruct (unpack_switch_cases srcFormat)
    as [(Hsup & fmt & -> & _ & _ & Hfmt) | (Hnot & ->)].
  2:{ split; [reflexivity |]. split; [| tauto].
      intros e [= <-]. left. now split. }
  split; [tauto |].
  cbn [mbind result_bind].
  assert (H11 : alphaFormat_eqb (alphaFormat fmt) AF_11BIT = false)
    by (destruct Hfmt as [(_ & _ & _ & ->) | (_ & _ & _ & ->)]; reflexivity).
  rewrite H11.
  match goal with
  | |- context [for_countM 0 ?n ?body ?s] =>
      destruct (for_countM_total 0 n body s) as [st Hloop]
  end.
  { intros y st.
    apply for_countM_total. intros x st'. apply unpack_block_returns. }
  split.
  - intros e.
    destruct (malloc _) eqn:Hm1; cbn [mbind result_bind mret result_ret throw].
    2:{ intros [= <-]. right. split; [reflexivity |]. split; [assumption |]. eauto. }
    rewrite Hloop. cbn [mbind result_bind mret result_ret]. unfold crop_active.
    cbn [up_width up_height up_format up_image].
    destruct (negb ((_ =? activeHeight) && (_ =? activeWidth)));
      cbn [mbind result_bind mret result_ret]; [| discriminate].
    match goal with
    | |- context [malloc ?n] => destruct (malloc n) eqn:Hm2
    end; cbn [mbind result_bind mret result_ret throw]; [discriminate |].
    intros [= <-]. right. split; [reflexivity |]. split; [assumption |]. eauto.
  - intros _ Hmalloc _ _ _ _. rewrite Hmalloc. cbn [mbind result_bind mret result_ret].
    rewrite Hloop. cbn [mbind result_bind mret result_ret]. unfold crop_active.
    cbn [up_width up_height up_format up_image].
    destruct (negb ((_ =? activeHeight) && (_ =? activeWidth)));
      cbn [mbind result_bind mret result_ret]; [| eexists; reflexivity].
    rewrite Hmalloc. eexists. reflexivity.
Qed.

Lemma KTXUnpackETC_failures_witness :
  KTXUnpackETC alpha_globals_init Sample.any_malloc Sample.blank Sample.blank
    Sample.four_blocks 0 6 5 = inl UnsupportedFormat
  /\ exists out,
       KTXUnpackETC alpha_globals_init Sample.any_malloc Sample.blank Sample.blank
         Sample.four_blocks GL_COMPRESSED_RGB8_ETC2 6 5 = inr out.
Proof.
  split.
  - apply (proj1 (KTXUnpackETC_failures alpha_globals_init Sample.any_malloc Sample.blank
                    Sample.blank Sample.four_blocks 0 6 5)).
    unfold supported. vm_compute. intros [H | [H | H]]; discriminate H.
  - apply (proj2 (proj2 (KTXUnpackETC_failures alpha_globals_init Sample.any_malloc
                           Sample.blank Sample.blank Sample.four_blocks
                           GL_COMPRESSED_RGB8_ETC2 6 5))).
    + right. left. reflexivity.
    + reflexivity.
    + lia.
    + lia.
    + vm_compute. discriminate.
    + vm_compute. discriminate.
Defined.

(** X21. What [KTXUnpackETC] reports about the image it returns: the
    format is [GL_RGBA] for the RGBA source format and [GL_RGB] for the
    two RGB formats, the type is [GL_UNSIGNED_BYTE], the buffer has one
    byte per channel for the active area only,
    [channels * activeWidth * activeHeight] bytes, and the alpha table
    is set up exactly when the format has alpha. The padded image fits
    an [int]. *)
Theorem KTXUnpackETC_describes_its_output
    (g : alpha_globals) (malloc : Z -> bool) (fresh1 fresh2 : mem)
    (srcETC : list byte) (srcFormat activeWidth activeHeight : Z) (out : unpacked) :
  0 <= activeWidth < 4294967296 -> 0 <= activeHeight < 4294967296 ->
  KTXUnpackETC g malloc fresh1 fresh2 srcETC srcFormat activeWidth activeHeight = inr out ->
  let channels := if srcFormat =? GL_COMPRESSED_RGBA8_ETC2_EAC then 4 else 3 in
  channels * padded_dim activeWidth * padded_dim activeHeight <= INT_MAX ->
  supported srcFormat
  /\ format out = (if srcFormat =? GL_COMPRESSED_RGBA8_ETC2_EAC then GL_RGBA else GL_RGB)
  /\ type_ out = GL_UNSIGNED_BYTE
  /\ globals out = (if srcFormat =? GL_COMPRESSED_RGBA8_ETC2_EAC
                    then setupAlphaTable g else g)
  /\ buf_size (dstImage out) = channels * activeWidth * activeHeight.
Proof.
  intros Haw Hah Hunpack channels Hfit.
  unfold KTXUnpackETC in Hunpack.
  apply bind_inr in Hunpack as (p & Hdec & Hunpack).
  apply bind_inr in Hunpack as (img & Hcrop & Hunpack).
  injection Hunpack as <-. cbn [format type_ globals dstImage].
  pose proof (KTXUnpackETC_decode_inv _ _ _ _ _ _ _ _ Hdec) as (Hswitch & Hwidth & Hheight).
  destruct (unpack_switch_cases srcFormat)
    as [(Hsup & fmt & Hsw & Hcb & Hty & Hfmt) | (Hnot & Hsw)];
    rewrite Hsw in Hswitch; [| discriminate Hswitch].
  injection Hswitch as Hswitch. split; [assumption |].
  assert (Hch : dstChannels fmt = channels
                /\ out_format fmt
                   = (if srcFormat =? GL_COMPRESSED_RGBA8_ETC2_EAC then GL_RGBA else GL_RGB)
                /\ alphaFormat fmt
                   = (if srcFormat =? GL_COMPRESSED_RGBA8_ETC2_EAC then AF_8BIT
                      else AF_NONE)).
  { unfold channels.
    destruct Hfmt as [(-> & -> & -> & ->) | (Hne & -> & -> & ->)].
    - rewrite Z.eqb_refl. auto.
    - apply Z.eqb_neq in Hne. rewrite Hne. auto. }
  destruct Hch as (Hch & Hof & Haf).
  rewrite <- Hswitch, Hof, Hty. do 2 (split; [reflexivity |]).
  assert (Hchan : 3 <= channels <= 4)
    by (unfold channels; destruct (srcFormat =? GL_COMPRESSED_RGBA8_ETC2_EAC); lia).
  assert (Hpad_w : activeWidth <= padded_dim activeWidth)
    by (unfold padded_dim; Z.div_mod_to_equations; lia).
  assert (Hpad_h : activeHeight <= padded_dim activeHeight)
    by (unfold padded_dim; Z.div_mod_to_equations; lia).
  assert (Hpw : 0 <= padded_dim activeWidth)
    by (unfold padded_dim; Z.div_mod_to_equations; lia).
  assert (Hph : 0 <= padded_dim activeHeight)
    by (unfold padded_dim; Z.div_mod_to_equations; lia).
  split.
  - (* the globals *)
    unfold KTXUnpackETC_decode in Hdec. rewrite Hsw in Hdec.
    cbn [mbind result_bind] in Hdec.
    apply bind_inr in Hdec as (u & _ & Hdec).
    rewrite Haf in Hdec.
    destruct (srcFormat =? GL_COMPRESSED_RGBA8_ETC2_EAC);
      cbn [alphaFormat_eqb negb] in Hdec;
      apply bind_inr in Hdec as (st & _ & Hdec);
      injection Hdec as <-; reflexivity.
  - (* the size *)
    unfold INT_MAX in Hfit.
    assert (Hs32 : s32 (channels * 1) = channels)
      by (unfold s32; rewrite Z.mul_1_r, Z.mod_small; lia).
    unfold crop_active in Hcrop.
    destruct (negb ((up_height p =? activeHeight) && (up_width p =? activeWidth))) eqn:Hc.
    + rewrite <- Hswitch, Hch, Hcb, Hs32 in Hcrop.
      apply bind_inr in Hcrop as (u & _ & Hcrop). injection Hcrop as <-.
      cbn [buf_size]. unfold u32.
      destruct (Z.eq_dec activeWidth 0) as [-> | Hw0];
        [rewrite !Z.mul_0_r; reflexivity |].
      destruct (Z.eq_dec activeHeight 0) as [-> | Hh0];
        [rewrite !Z.mul_0_r; reflexivity |].
      rewrite (Z.mod_small (channels * activeWidth)) by nia.
      rewrite Z.mod_small by nia. reflexivity.
    + injection Hcrop as <-.
      apply negb_false_iff, andb_true_iff in Hc as [Hh Hw].
      apply Z.eqb_eq in Hh, Hw.
      unfold KTXUnpackETC_decode in Hdec. rewrite Hsw in Hdec.
      cbn [mbind result_bind] in Hdec.
      apply bind_inr in Hdec as (u & _ & Hdec).
      destruct (alphaFormat_eqb (alphaFormat fmt) AF_11BIT); [discriminate Hdec |].
      apply bind_inr in Hdec as (st & _ & Hdec).
      injection Hdec as <-. cbn [up_image buf_size up_width up_height] in *.
      rewrite Hch, Hcb, Hs32, Hw, Hh. unfold u32.
      destruct (Z.eq_dec activeWidth 0) as [-> | Hw0];
        [rewrite !Z.mul_0_r; reflexivity |].
      destruct (Z.eq_dec activeHeight 0) as [-> | Hh0];
        [rewrite !Z.mul_0_r; reflexivity |].
      rewrite (Z.mod_small (channels * activeWidth)) by nia.
      rewrite Z.mod_small by nia. reflexivity.
Qed.

Lemma KTXUnpackETC_describes_its_output_witness :
  KTXUnpackETC alpha_globals_init Sample.any_malloc Sample.blank Sample.blank
    Sample.four_blocks GL_COMPRESSED_RGB8_ETC2 6 5 = inr Sample.unpacked_6x5
  /\ format Sample.unpacked_6x5 = GL_RGB
  /\ buf_size (dstImage Sample.unpacked_6x5) = 3 * 6 * 5.
Proof.
  assert (Hout : KTXUnpackETC alpha_globals_init Sample.any_malloc Sample.blank Sample.blank
                   Sample.four_blocks GL_COMPRESSED_RGB8_ETC2 6 5 = inr Sample.unpacked_6x5)
    by (vm_compute; reflexivity).
  split; [exact Hout |].
  pose proof (KTXUnpackETC_describes_its_output alpha_globals_init Sample.any_malloc
                Sample.blank Sample.blank Sample.four_blocks GL_COMPRESSED_RGB8_ETC2 6 5
                Sample.unpacked_6x5 ltac:(lia) ltac:(lia) Hout
                ltac:(vm_compute; discriminate))
    as (_ & Hformat & _ & _ & Hsize).
  split; [exact Hformat | exact Hsize].
Defined.

(** ** Blocks decode on their own *)

Section Independence.

Variables block_part1 block_part2 : Z.
Variables img width height startx starty channels : Z.
Variable m : mem.
Variables img' width' height' startx' starty' channels' : Z.
Variable m' : mem.
Hypothesis width_ge : 4 <= width.
Hypothesis channels_ge : 3 <= channels.
Hypothesis width_ge' : 4 <= width'.
Hypothesis channels_ge' : 3 <= channels'.
Variables dx dy c : Z.
Hypothesis dx_range : 0 <= dx < 4.
Hypothesis dy_range : 0 <= dy < 4.
Hypothesis c_range : 0 <= c < 3.

Lemma decompressBlockDiffFlipC_independent :
  decompressBlockDiffFlipC block_part1 block_part2 img width height startx starty
    channels m (texel_addr img width startx starty channels dx dy c)
  = decompressBlockDiffFlipC block_part1 block_part2 img' width' height' startx' starty'
      channels' m' (texel_addr img' width' startx' starty' channels' dx dy c).
Proof.
  unfold decompressBlockDiffFlipC. cbv zeta.
  destruct (negb (truthy (GETBITSHIGH block_part1 1 33)));
    rewrite !diffflip_loops_as_pass;
    rewrite !diffflip_pass_lookup by assumption; reflexivity.
Qed.

Lemma decompressBlockETC2c_independent :
  exists m1 m2,
    decompressBlockETC2c block_part1 block_part2 img width height startx starty channels m
    = Some m1
    /\ decompressBlockETC2c block_part1 block_part2 img' width' height' startx' starty'
         channels' m' = Some m2
    /\ m1 (texel_addr img width startx starty channels dx dy c)
       = m2 (texel_addr img' width' startx' starty' channels' dx dy c).
Proof.
  unfold decompressBlockETC2c.
  destruct (etc2_route block_part1).
  1, 2: do 2 eexists; split; [reflexivity |]; split; [reflexivity |];
    apply decompressBlockDiffFlipC_independent.
  - destruct (T_texel block_part1 block_part2 img width height startx starty channels m
                dx dy c width_ge channels_ge dx_range dy_range c_range) as (m1 & H1 & V1).
    destruct (T_texel block_part1 block_part2 img' width' height' startx' starty' channels'
                m' dx dy c width_ge' channels_ge' dx_range dy_range c_range)
      as (m2 & H2 & V2).
    exists m1, m2. split; [exact H1 |]. split; [exact H2 |]. now rewrite V1, V2.
  - destruct (H_texel block_part1 block_part2 img width height startx starty channels m
                dx dy c width_ge channels_ge dx_range dy_range c_range) as (m1 & H1 & V1).
    destruct (H_texel block_part1 block_part2 img' width' height' startx' starty' channels'
                m' dx dy c width_ge' channels_ge' dx_range dy_range c_range)
      as (m2 & H2 & V2).
    exists m1, m2. split; [exact H1 |]. split; [exact H2 |]. now rewrite V1, V2.
  - pose proof (Planar_texel block_part1 block_part2 img width height startx starty channels
                  m dx dy c width_ge channels_ge dx_range dy_range c_range) as V1.
    pose proof (Planar_texel block_part1 block_part2 img' width' height' startx' starty'
                  channels' m' dx dy c width_ge' channels_ge' dx_range dy_range c_range)
      as V2.
    destruct (unstuff57bits block_part1 block_part2) as [b1 b2].
    do 2 eexists. split; [reflexivity |]. split; [reflexivity |]. now rewrite V1, V2.
Qed.

End Independence.

Lemma decompressBlockETC2c_decoded_texel
    (block_part1 block_part2 img width height startx starty channels : Z) (m : mem)
    (dx dy c : Z) :
  4 <= width -> 3 <= channels -> 0 <= dx < 4 -> 0 <= dy < 4 -> 0 <= c < 3 ->
  exists m1,
    decompressBlockETC2c block_part1 block_part2 img width height startx starty channels m
    = Some m1
    /\ m1 (texel_addr img width startx starty channels dx dy c)
       = decoded_texel block_part1 block_part2 dx dy c.
Proof.
  intros Hw Hch Hdx Hdy Hc.
  destruct (decompressBlockETC2c_independent block_part1 block_part2
              img width height startx starty channels m 0 4 4 0 0 3 (fun _ => 0)
              Hw Hch ltac:(lia) ltac:(lia) dx dy c Hdx Hdy Hc) as (m1 & m2 & H1 & H2 & V).
  exists m1. split; [exact H1 |]. unfold decoded_texel. now rewrite H2.
Qed.

(** X22. What [decompressBlockETC2c] decodes depends on the block alone:
    the three color bytes of texel [(dx, dy)] are the same wherever the
    block is placed, whatever the width, the height and the number of
    channels of the image, and whatever the image held before. The
    image is at least one block wide and pixels have at least three
    channels. *)
Theorem decompressBlockETC2c_depends_on_block_only
    (block_part1 block_part2 : Z)
    (img width height startx starty channels : Z) (m : mem)
    (img' width' height' startx' starty' channels' : Z) (m' : mem)
    (dx dy c : Z) :
  4 <= width -> 3 <= channels -> 4 <= width' -> 3 <= channels' ->
  0 <= dx < 4 -> 0 <= dy < 4 -> 0 <= c < 3 ->
  exists m1 m2,
    decompressBlockETC2c block_part1 block_part2 img width height startx starty channels m
    = Some m1
    /\ decompressBlockETC2c block_part1 block_part2 img' width' height' startx' starty'
         channels' m' = Some m2
    /\ m1 (texel_addr img width startx starty channels dx dy c)
       = m2 (texel_addr img' width' startx' starty' channels' dx dy c).
Proof. intros. now apply decompressBlockETC2c_independent. Qed.

Lemma decompressBlockETC2c_depends_on_block_only_witness :
  exists m1 m2,
    decompressBlockETC2c Inputs.H_block_part1 Inputs.block_part2 0 4 4 0 0 3 Sample.blank
    = Some m1
    /\ decompressBlockETC2c Inputs.H_block_part1 Inputs.block_part2 100 16 8 4 4 4
         (fun _ => 77) = Some m2
    /\ m1 (texel_addr 0 4 0 0 3 2 1 2) = m2 (texel_addr 100 16 4 4 4 2 1 2).
Proof.
  apply (decompressBlockETC2c_depends_on_block_only Inputs.H_block_part1
           Inputs.block_part2 0 4 4 0 0 3 Sample.blank 100 16 8 4 4 4 (fun _ => 77) 2 1 2);
    lia.
Defined.

(** ** The image, tile by tile *)

Section Tiles.

Lemma pixel_channel_inj (channels p c p' c' : Z) :
  0 <= c < channels -> 0 <= c' < channels ->
  channels * p + c = channels * p' + c' -> p = p' /\ c = c'.
Proof. intros Hc Hc' Heq. assert (p = p') by nia. subst. lia. Qed.

Lemma row_column_inj (width X Y X' Y' : Z) :
  0 <= X < width -> 0 <= X' < width ->
  Y * width + X = Y' * width + X' -> Y = Y' /\ X = X'.
Proof. intros HX HX' Heq. assert (Y = Y') by nia. subst. lia. Qed.

(** Two tiles share no byte. *)
Lemma tile_addr_disjoint (tiles channels tx ty x y dx dy c dx' dy' c' : Z) :
  0 <= tx < tiles -> 0 <= x < tiles ->
  0 <= dx < 4 -> 0 <= dy < 4 -> 0 <= dx' < 4 -> 0 <= dy' < 4 ->
  0 <= c < channels -> 0 <= c' < channels ->
  texel_addr 0 (4 * tiles) (4 * tx) (4 * ty) channels dx dy c
  = texel_addr 0 (4 * tiles) (4 * x) (4 * y) channels dx' dy' c' ->
  tx = x /\ ty = y.
Proof.
  intros Hbx Hx Hdx Hdy Hdx' Hdy' Hc Hc'. unfold texel_addr. intros Heq.
  apply (pixel_channel_inj channels) in Heq as [Hp _]; [| lia | lia].
  apply (row_column_inj (4 * tiles)) in Hp as [HY HX]; lia.
Qed.

Variable g : alpha_globals.
Variable fmt : unpack_format.
Variables tiles height : Z.
Variable srcETC : list byte.
Hypothesis fmt_shape :
  alphaFormat fmt = AF_8BIT /\ dstChannels fmt = 4
  \/ alphaFormat fmt = AF_NONE /\ dstChannels fmt = 3.
Hypothesis width_fits : 4 * tiles <= INT_MAX.
Hypothesis height_range : 0 <= height <= INT_MAX.

Lemma unpack_block_tile (x y : Z) (st : unpack_state) :
  0 <= x < tiles -> 0 <= 4 * y <= INT_MAX ->
  exists st',
    unpack_block g fmt (4 * tiles) height x y st = inr st'
    /\ us_src st' = drop (Z.to_nat (tile_bytes fmt)) (us_src st)
    /\ tile_ok g fmt (4 * tiles) (us_src st) (us_img st') x y
    /\ forall a,
         (forall dx dy c, 0 <= dx < 4 -> 0 <= dy < 4 -> 0 <= c < dstChannels fmt ->
            a <> texel_addr 0 (4 * tiles) (4 * x) (4 * y) (dstChannels fmt) dx dy c) ->
         us_img st' a = us_img st a.
Proof.
  intros Hx Hy.
  assert (Hw : 4 <= 4 * tiles) by lia.
  unfold unpack_block, tile_ok, tile_bytes, tile_color. cbv zeta.
  rewrite !s32_u32 by (unfold INT_MIN, INT_MAX in *; lia).
  rewrite !s32_small by (unfold INT_MIN, INT_MAX in *; lia).
  destruct fmt_shape as [[Ha Hc] | [Ha Hc]]; rewrite Ha, Hc; cbn [alphaFormat_eqb us_src us_img].
  - (* RGBA: the alpha block, then the color block *)
    set (m0 := decompressBlockAlphaC g (us_src st) (0 + 3) (4 * tiles) height (4 * x) (4 * y)
                 4 (us_img st)).
    set (bp1 := readBigEndian4byteWord (drop 8 (us_src st))).
    set (bp2 := readBigEndian4byteWord (drop 4 (drop 8 (us_src st)))).
    destruct (decompressBlockETC2c_returns bp1 bp2 0 (4 * tiles) height (4 * x) (4 * y) 4 m0)
      as (m1 & Hdec & Hframe).
    rewrite Hdec. eexists. split; [reflexivity |]. cbn [us_src us_img].
    split; [rewrite !drop_drop; reflexivity |].
    assert (Halpha : forall dx dy,
              texel_addr 0 (4 * tiles) (4 * x) (4 * y) 4 dx dy 3
              = alpha_texel_addr (0 + 3) (4 * tiles) (4 * x) (4 * y) 4 dx dy)
      by (intros; unfold texel_addr, alpha_texel_addr; lia).
    assert (Hkeep : forall dx dy, 0 <= dx < 4 -> 0 <= dy < 4 ->
              m1 (texel_addr 0 (4 * tiles) (4 * x) (4 * y) 4 dx dy 3)
              = m0 (texel_addr 0 (4 * tiles) (4 * x) (4 * y) 4 dx dy 3)).
    { intros dx dy Hdx Hdy. apply Hframe. intros dx' dy' c' Hdx' Hdy' Hc' Heq.
      apply (texel_addr_inj 0 (4 * tiles) (4 * x) (4 * y) 4 Hw) in Heq; lia. }
    split.
    + intros dx dy Hdx Hdy. split.
      * intros c Hc3.
        destruct (decompressBlockETC2c_decoded_texel bp1 bp2 0 (4 * tiles) height (4 * x)
                    (4 * y) 4 m0 dx dy c Hw ltac:(lia) Hdx Hdy Hc3) as (m2 & Hdec2 & Hval).
        rewrite Hdec in Hdec2. injection Hdec2 as <-. exact Hval.
      * intros _. rewrite Hkeep by assumption. rewrite Halpha. unfold m0.
        rewrite decompressBlockAlphaC_any_as_pass.
        now apply alpha_pass_lookup.
    + intros a Hout.
      rewrite Hframe by (intros dx dy c Hdx Hdy Hc3; apply Hout; lia).
      unfold m0. rewrite decompressBlockAlphaC_any_as_pass.
      apply alpha_pass_frame. intros dx dy Hdx Hdy. rewrite <- Halpha.
      apply Hout; lia.
  - (* RGB: the color block *)
    set (bp1 := readBigEndian4byteWord (us_src st)).
    set (bp2 := readBigEndian4byteWord (drop 4 (us_src st))).
    destruct (decompressBlockETC2c_returns bp1 bp2 0 (4 * tiles) height (4 * x) (4 * y) 3
                (us_img st)) as (m1 & Hdec & Hframe).
    rewrite Hdec. eexists. split; [reflexivity |]. cbn [us_src us_img].
    split; [rewrite !drop_drop; reflexivity |].
    split.
    + intros dx dy Hdx Hdy. split; [| discriminate].
      intros c Hc3.
      destruct (decompressBlockETC2c_decoded_texel bp1 bp2 0 (4 * tiles) height (4 * x)
                  (4 * y) 3 (us_img st) dx dy c Hw ltac:(lia) Hdx Hdy Hc3)
        as (m2 & Hdec2 & Hval).
      rewrite Hdec in Hdec2. injection Hdec2 as <-. exact Hval.
    + intros a Hout. apply Hframe. exact Hout.
Qed.

End Tiles.

Section TileLoops.

Variable g : alpha_globals.
Variable fmt : unpack_format.
Variables tiles height : Z.
Variable srcETC : list byte.
Hypothesis fmt_shape :
  alphaFormat fmt = AF_8BIT /\ dstChannels fmt = 4
  \/ alphaFormat fmt = AF_NONE /\ dstChannels fmt = 3.
Hypothesis tiles_range : 0 <= tiles.
Hypothesis width_fits : 4 * tiles <= INT_MAX.
Hypothesis height_range : 0 <= height <= INT_MAX.

Lemma tile_bytes_pos : 0 < tile_bytes fmt.
Proof. unfold tile_bytes. destruct (alphaFormat_eqb _ _); lia. Qed.

Lemma tile_source_next (x y : Z) :
  0 <= x -> 0 <= y ->
  drop (Z.to_nat (tile_bytes fmt)) (tile_source fmt srcETC tiles x y)
  = tile_source fmt srcETC tiles (x + 1) y.
Proof.
  intros Hx Hy. unfold tile_source. rewrite drop_drop. f_equal.
  pose proof tile_bytes_pos. nia.
Qed.

(** One row of tiles. *)
Lemma unpack_row (y : Z) (n : nat) (st : unpack_state) :
  0 <= 4 * y <= INT_MAX -> Z.of_nat n <= tiles ->
  tiles_done g fmt srcETC (4 * tiles) tiles y 0 st ->
  exists st',
    for_countM 0 n (fun x st => unpack_block g fmt (4 * tiles) height x y st) st = inr st'
    /\ tiles_done g fmt srcETC (4 * tiles) tiles y (Z.of_nat n) st'.
Proof.
  intros Hy Hn Hstart. induction n as [| n IH].
  - exists st. split; [reflexivity | exact Hstart].
  - destruct IH as (st1 & Hloop & Hsrc & Hdone); [lia |].
    rewrite for_countM_S, Hloop. cbn [mbind result_bind].
    change (0 + Z.of_nat n) with (Z.of_nat n).
    destruct (unpack_block_tile g fmt tiles height fmt_shape width_fits height_range
                (Z.of_nat n) y st1 ltac:(lia) Hy) as (st2 & Hstep & Hsrc2 & Hnew & Hframe).
    exists st2. split; [exact Hstep |]. split.
    + rewrite Hsrc2, Hsrc, tile_source_next by lia. f_equal. lia.
    + intros tx ty Htx Hty Hbefore.
      destruct (Z.eq_dec ty y) as [-> | Hrow];
        [destruct (Z.eq_dec tx (Z.of_nat n)) as [-> | Hcol] |].
      * rewrite <- Hsrc. exact Hnew.
      * intros dx dy Hdx Hdy.
        destruct (Hdone tx y Htx Hty ltac:(lia) dx dy Hdx Hdy) as [Hcolor Halpha].
        split.
        -- intros c Hc. rewrite <- (Hcolor c Hc). apply Hframe.
           intros dx' dy' c' Hdx' Hdy' Hc' Heq.
           apply tile_addr_disjoint in Heq; try lia;
             destruct fmt_shape as [[_ ->] | [_ ->]]; lia.
        -- intros Ha. rewrite <- (Halpha Ha). apply Hframe.
           intros dx' dy' c' Hdx' Hdy' Hc' Heq.
           apply tile_addr_disjoint in Heq; try lia;
             (destruct fmt_shape as [[_ Hch] | [Hnone _]];
              [rewrite Hch; lia | congruence]).
      * intros dx dy Hdx Hdy.
        destruct (Hdone tx ty Htx Hty ltac:(lia) dx dy Hdx Hdy) as [Hcolor Halpha].
        split.
        -- intros c Hc. rewrite <- (Hcolor c Hc). apply Hframe.
           intros dx' dy' c' Hdx' Hdy' Hc' Heq.
           apply tile_addr_disjoint in Heq; try lia;
             destruct fmt_shape as [[_ ->] | [_ ->]]; lia.
        -- intros Ha. rewrite <- (Halpha Ha). apply Hframe.
           intros dx' dy' c' Hdx' Hdy' Hc' Heq.
           apply tile_addr_disjoint in Heq; try lia;
             (destruct fmt_shape as [[_ Hch] | [Hnone _]];
              [rewrite Hch; lia | congruence]).
Qed.

Lemma tile_source_row (y : Z) :
  0 <= y ->
  tile_source fmt srcETC tiles tiles y = tile_source fmt srcETC tiles 0 (y + 1).
Proof. intros Hy. unfold tile_source. f_equal. f_equal. lia. Qed.

(** The rows of tiles. *)
Lemma unpack_rows (n : nat) (st : unpack_state) :
  4 * Z.of_nat n <= INT_MAX ->
  tiles_done g fmt srcETC (4 * tiles) tiles 0 0 st ->
  exists st',
    for_countM 0 n (fun y st =>
      for_countM 0 (Z.to_nat tiles) (fun x st =>
        unpack_block g fmt (4 * tiles) height x y st) st) st = inr st'
    /\ tiles_done g fmt srcETC (4 * tiles) tiles (Z.of_nat n) 0 st'.
Proof.
  intros Hn Hstart. induction n as [| n IH].
  - exists st. split; [reflexivity | exact Hstart].
  - destruct IH as (st1 & Hloop & Hdone); [lia |].
    rewrite for_countM_S, Hloop. cbn [mbind result_bind].
    change (0 + Z.of_nat n) with (Z.of_nat n).
    destruct (unpack_row (Z.of_nat n) (Z.to_nat tiles) st1 ltac:(lia) ltac:(lia) Hdone)
      as (st2 & Hrow & Hsrc & Hdone2).
    exists st2. split; [exact Hrow |].
    rewrite Z2Nat.id in Hsrc, Hdone2 by assumption.
    replace (Z.of_nat (S n)) with (Z.of_nat n + 1) by lia. split.
    + rewrite Hsrc. apply tile_source_row. lia.
    + intros tx ty Htx Hty Hbefore. apply Hdone2; [assumption | assumption | lia].
Qed.

End TileLoops.

(** The padded image is the tiling of its blocks, each decoded on its own. *)
Lemma KTXUnpackETC_decode_tiles
    (g : alpha_globals) (malloc : Z -> bool) (fresh : mem) (srcETC : list byte)
    (srcFormat activeWidth activeHeight : Z) (p : unpack_padded) (tx ty dx dy : Z) :
  KTXUnpackETC_decode g malloc fresh srcETC srcFormat activeWidth activeHeight = inr p ->
  0 <= activeWidth -> 0 <= activeHeight ->
  let width := padded_dim activeWidth in
  let height := padded_dim activeHeight in
  let fmt := up_format p in
  dstChannels fmt * width * height <= INT_MAX ->
  tile_bytes fmt * (width / 4 * (height / 4)) <= Z.of_nat (length srcETC) ->
  0 <= tx < width / 4 -> 0 <= ty < height / 4 -> 0 <= dx < 4 -> 0 <= dy < 4 ->
  let tile := tile_source fmt srcETC (width / 4) tx ty in
  let color := tile_color fmt tile in
  up_width p = width /\ up_height p = height
  /\ dstChannels fmt = (if srcFormat =? GL_COMPRESSED_RGBA8_ETC2_EAC then 4 else 3)
  /\ tile_bytes fmt = (if srcFormat =? GL_COMPRESSED_RGBA8_ETC2_EAC then 16 else 8)
  /\ (forall c, 0 <= c < 3 ->
        buf_mem (up_image p)
          (texel_addr 0 width (4 * tx) (4 * ty) (dstChannels fmt) dx dy c)
        = decoded_texel (readBigEndian4byteWord color)
            (readBigEndian4byteWord (drop 4 color)) dx dy c)
  /\ (srcFormat = GL_COMPRESSED_RGBA8_ETC2_EAC ->
      buf_mem (up_image p)
        (texel_addr 0 width (4 * tx) (4 * ty) (dstChannels fmt) dx dy 3)
      = clamp (byte_at tile 0
               + get2 (alphaTable (setupAlphaTable g)) (byte_at tile 1)
                   (alpha_texel_index tile dx dy))).
Proof.
  intros Hdec Haw Hah width height fmt Hfit _ Htx Hty Hdx Hdy tile color.
  subst tile color.
  pose proof (KTXUnpackETC_decode_inv _ _ _ _ _ _ _ _ Hdec) as (Hswitch & Hwidth & Hheight).
  fold fmt in Hswitch.
  destruct (unpack_switch_cases srcFormat)
    as [(_ & fmt0 & Hsw & _ & _ & Hfmt) | (_ & Hsw)];
    rewrite Hsw in Hswitch; [| discriminate Hswitch].
  injection Hswitch as Hfmt0. subst fmt0.
  assert (Hshape : alphaFormat fmt = AF_8BIT /\ dstChannels fmt = 4
                   \/ alphaFormat fmt = AF_NONE /\ dstChannels fmt = 3)
    by (destruct Hfmt as [(_ & ? & _ & ?) | (_ & ? & _ & ?)]; auto).
  assert (Hch : dstChannels fmt
                = if srcFormat =? GL_COMPRESSED_RGBA8_ETC2_EAC then 4 else 3).
  { destruct Hfmt as [(-> & -> & _) | (Hne & -> & _)].
    - now rewrite Z.eqb_refl.
    - apply Z.eqb_neq in Hne. now rewrite Hne. }
  assert (Hbytes : tile_bytes fmt
                   = if srcFormat =? GL_COMPRESSED_RGBA8_ETC2_EAC then 16 else 8).
  { unfold tile_bytes. destruct Hfmt as [(-> & _ & _ & ->) | (Hne & _ & _ & ->)].
    - now rewrite Z.eqb_refl.
    - apply Z.eqb_neq in Hne. now rewrite Hne. }
  set (tiles := (activeWidth + 3) / 4).
  set (rows := (activeHeight + 3) / 4).
  assert (Hw4 : width = 4 * tiles) by (unfold width, padded_dim, tiles; lia).
  assert (Hh4 : height = 4 * rows) by (unfold height, padded_dim, rows; lia).
  assert (Htiles : width / 4 = tiles) by (rewrite Hw4; Z.div_mod_to_equations; lia).
  assert (Hrows : height / 4 = rows) by (rewrite Hh4; Z.div_mod_to_equations; lia).
  rewrite Htiles in *. rewrite Hrows in *.
  assert (Hch3 : 3 <= dstChannels fmt <= 4)
    by (destruct Hshape as [[_ ->] | [_ ->]]; lia).
  assert (Hwfit : width <= INT_MAX) by (unfold INT_MAX in *; nia).
  assert (Hhfit : height <= INT_MAX) by (unfold INT_MAX in *; nia).
  rewrite padded_dim_wrap in Hwidth, Hheight by assumption.
  fold width in Hwidth. fold height in Hheight.
  split; [exact Hwidth |]. split; [exact Hheight |].
  split; [exact Hch |]. split; [exact Hbytes |].
  (* the loops *)
  unfold KTXUnpackETC_decode in Hdec. rewrite Hsw in Hdec.
  cbn [mbind result_bind] in Hdec.
  rewrite !padded_dim_wrap in Hdec by assumption.
  fold width height in Hdec.
  apply bind_inr in Hdec as (u & _ & Hdec).
  assert (H11 : alphaFormat_eqb (alphaFormat fmt) AF_11BIT = false)
    by (destruct Hshape as [[-> _] | [-> _]]; reflexivity).
  rewrite H11 in Hdec.
  apply bind_inr in Hdec as (st & Hloop & Hdec).
  injection Hdec as Hp.
  assert (Himg : buf_mem (up_image p) = us_img st) by (rewrite <- Hp; reflexivity).
  rewrite Himg.
  set (g' := if negb (alphaFormat_eqb (alphaFormat fmt) AF_NONE)
             then setupAlphaTable g else g) in *.
  replace (Z.quot width 4) with tiles in Hloop
    by (rewrite Z.quot_div_nonneg by lia; symmetry; exact Htiles).
  replace (Z.quot height 4) with rows in Hloop
    by (rewrite Z.quot_div_nonneg by lia; symmetry; exact Hrows).
  rewrite Hw4 in Hloop.
  destruct (unpack_rows g' fmt tiles height srcETC Hshape ltac:(lia) ltac:(lia)
              ltac:(unfold INT_MAX in *; lia) (Z.to_nat rows)
              {| us_src := srcETC; us_img := fresh |})
    as (st' & Hloop' & _ & Hdone).
  { rewrite Z2Nat.id by lia. lia. }
  { split.
    - unfold tile_source. cbn [us_src].
      replace (Z.to_nat (tile_bytes fmt * (0 * tiles + 0))) with 0%nat by lia.
      reflexivity.
    - intros ? ? ? ? ?. lia. }
  rewrite Hloop in Hloop'. injection Hloop' as <-.
  rewrite Z2Nat.id in Hdone by lia.
  destruct (Hdone tx ty ltac:(lia) ltac:(lia) ltac:(lia) dx dy Hdx Hdy) as [Hcolor Halpha].
  rewrite <- Hw4 in Hcolor, Halpha.
  split.
  - exact Hcolor.
  - intros Hrgba.
    assert (Ha8 : alphaFormat fmt = AF_8BIT).
    { destruct Hfmt as [(_ & _ & _ & Ha) | (Hne & _)]; [exact Ha | contradiction]. }
    specialize (Halpha Ha8). unfold g' in Halpha. rewrite Ha8 in Halpha.
    exact Halpha.
Qed.

(** What the crop keeps: byte [i] of row [r] of the returned image is byte
    [i] of row [r] of the padded image, cropped or not. *)
Lemma crop_active_rows (malloc : Z -> bool) (fresh : mem) (activeWidth activeHeight : Z)
    (p : unpack_padded) (img : buffer) (r i : Z) :
  crop_active malloc fresh activeWidth activeHeight p = inr img ->
  0 < activeWidth -> 0 < activeHeight ->
  up_width p = padded_dim activeWidth -> up_height p = padded_dim activeHeight ->
  dstChannelBytes (up_format p) = 1 -> 3 <= dstChannels (up_format p) <= 4 ->
  dstChannels (up_format p) * padded_dim activeWidth * padded_dim activeHeight <= INT_MAX ->
  0 <= r < activeHeight -> 0 <= i < activeWidth * dstChannels (up_format p) ->
  buf_mem img (r * (activeWidth * dstChannels (up_format p)) + i)
  = buf_mem (up_image p) (r * (padded_dim activeWidth * dstChannels (up_format p)) + i).
Proof.
  intros Hcrop Haw Hah Hwidth Hheight Hcb Hcc Hfit Hr Hi.
  set (stride := dstChannels (up_format p)) in *.
  unfold crop_active in Hcrop. rewrite Hwidth, Hheight, Hcb in Hcrop.
  fold stride in Hcrop. rewrite Z.mul_1_r in Hcrop.
  destruct (negb ((padded_dim activeHeight =? activeHeight)
                  && (padded_dim activeWidth =? activeWidth))) eqn:Hcond.
  - assert (Hs32 : s32 stride = stride)
      by (apply s32_small; unfold INT_MIN, INT_MAX; lia).
    rewrite Hs32 in Hcrop.
    apply bind_inr in Hcrop as (u & _ & Hcrop). injection Hcrop as <-.
    cbn [buf_mem].
    assert (Hpad_w : activeWidth <= padded_dim activeWidth)
      by (unfold padded_dim; Z.div_mod_to_equations; lia).
    assert (Hpad_h : activeHeight <= padded_dim activeHeight)
      by (unfold padded_dim; Z.div_mod_to_equations; lia).
    unfold INT_MAX in Hfit.
    assert (Hrow_le : 0 <= stride * activeWidth <= stride * padded_dim activeWidth)
      by nia.
    assert (Hrow_fit : stride * padded_dim activeWidth <= 2147483647) by nia.
    assert (Harea1 : stride * activeWidth * activeHeight
                     <= stride * padded_dim activeWidth * activeHeight)
      by (apply Z.mul_le_mono_nonneg_r; lia).
    assert (Harea2 : stride * padded_dim activeWidth * activeHeight
                     <= stride * padded_dim activeWidth * padded_dim activeHeight)
      by (apply Z.mul_le_mono_nonneg_l; lia).
    assert (Harea : 0 <= stride * activeWidth * activeHeight <= 2147483647) by nia.
    assert (Harow : 0 <= stride * activeWidth <= 2147483647) by lia.
    assert (Hdrb : s32 (u32 (stride * padded_dim activeWidth))
                   = stride * padded_dim activeWidth)
      by (apply s32_u32; unfold INT_MIN, INT_MAX; nia).
    assert (Harb : s32 (u32 (activeWidth * stride)) = activeWidth * stride)
      by (apply s32_u32; unfold INT_MIN, INT_MAX; nia).
    rewrite Hdrb, Harb.
    assert (Hside1 : activeHeight * (activeWidth * stride) <= INT_MAX)
      by (unfold INT_MAX; lia).
    assert (Hside2 : activeHeight * (stride * padded_dim activeWidth) <= INT_MAX).
    { unfold INT_MAX. rewrite Z.mul_comm. lia. }
    assert (Hside3 : activeWidth * stride <= stride * padded_dim activeWidth) by lia.
    rewrite (crop_copy_row (buf_mem (up_image p)) activeWidth activeHeight stride
               (stride * padded_dim activeWidth) ltac:(lia) Hside1 Hside2 Hside3
               fresh r i Hr Hi).
    f_equal. lia.
  - injection Hcrop as <-.
    apply negb_false_iff, andb_true_iff in Hcond as [_ Hw]. apply Z.eqb_eq in Hw.
    now rewrite Hw.
Qed.

(** X23. Every pixel [KTXUnpackETC] returns comes from one block of the
    source, decoded on its own. The source is read as tiles of 4 x 4
    pixels, row after row of tiles, 8 bytes per tile (16 for RGBA: the
    alpha block, then the color block). The three color bytes of pixel
    [(X, Y)] of the returned image are what [decompressBlockETC2c]
    decodes, for texel [(X mod 4, Y mod 4)], from the two big-endian
    words of the color block of tile [(X / 4, Y / 4)]; for RGBA the
    pixel's fourth byte is that texel's value in the tile's alpha
    block, read with the table [setupAlphaTable] builds. This holds
    whether or not the image is cropped. The padded image fits an [int]
    and the source holds every tile. *)
Theorem KTXUnpackETC_pixels
    (g : alpha_globals) (malloc : Z -> bool) (fresh1 fresh2 : mem) (srcETC : list byte)
    (srcFormat activeWidth activeHeight : Z) (out : unpacked) (X Y : Z) :
  KTXUnpackETC g malloc fresh1 fresh2 srcETC srcFormat activeWidth activeHeight = inr out ->
  let rgba := srcFormat =? GL_COMPRESSED_RGBA8_ETC2_EAC in
  let channels := if rgba then 4 else 3 in
  let tile_size := if rgba then 16 else 8 in
  let tiles := (activeWidth + 3) / 4 in
  channels * padded_dim activeWidth * padded_dim activeHeight <= INT_MAX ->
  tile_size * (tiles * ((activeHeight + 3) / 4)) <= Z.of_nat (length srcETC) ->
  0 <= X < activeWidth -> 0 <= Y < activeHeight ->
  let tile := drop (Z.to_nat (tile_size * (Y / 4 * tiles + X / 4))) srcETC in
  let color := if rgba then drop 8 tile else tile in
  (forall c, 0 <= c < 3 ->
     buf_mem (dstImage out) (channels * (Y * activeWidth + X) + c)
     = decoded_texel (readBigEndian4byteWord color)
         (readBigEndian4byteWord (drop 4 color)) (X mod 4) (Y mod 4) c)
  /\ (rgba = true ->
      buf_mem (dstImage out) (channels * (Y * activeWidth + X) + 3)
      = clamp (byte_at tile 0
               + get2 (alphaTable (setupAlphaTable g)) (byte_at tile 1)
                   (alpha_texel_index tile (X mod 4) (Y mod 4)))).
Proof.
  intros Hunpack rgba channels tile_size tiles Hfit Hsrc HX HY tile color.
  unfold KTXUnpackETC in Hunpack.
  apply bind_inr in Hunpack as (p & Hdec & Hunpack).
  apply bind_inr in Hunpack as (img & Hcrop & Hunpack).
  injection Hunpack as <-. cbn [dstImage].
  pose proof (KTXUnpackETC_decode_inv _ _ _ _ _ _ _ _ Hdec) as (Hswitch & _ & _).
  pose proof (unpack_switch_inv _ _ Hswitch) as (Hcb & _).
  assert (Hdx : 0 <= X mod 4 < 4) by (apply Z.mod_pos_bound; lia).
  assert (Hdy : 0 <= Y mod 4 < 4) by (apply Z.mod_pos_bound; lia).
  assert (Hchannels : dstChannels (up_format p) = channels).
  { destruct (unpack_switch_cases srcFormat)
      as [(_ & fmt0 & Hsw & _ & _ & Hfmt) | (_ & Hsw)];
      rewrite Hsw in Hswitch; [| discriminate Hswitch].
    injection Hswitch as <-. unfold channels, rgba.
    destruct Hfmt as [(-> & -> & _) | (Hne & -> & _)].
    - now rewrite Z.eqb_refl.
    - apply Z.eqb_neq in Hne. now rewrite Hne. }
  assert (Hch : 3 <= channels <= 4) by (unfold channels; destruct rgba; lia).
  assert (Htx : 0 <= X / 4 < padded_dim activeWidth / 4)
    by (unfold padded_dim; Z.div_mod_to_equations; lia).
  assert (Hty : 0 <= Y / 4 < padded_dim activeHeight / 4)
    by (unfold padded_dim; Z.div_mod_to_equations; lia).
  assert (Htiles : padded_dim activeWidth / 4 = tiles)
    by (unfold padded_dim, tiles; Z.div_mod_to_equations; lia).
  assert (Hrows : padded_dim activeHeight / 4 = (activeHeight + 3) / 4)
    by (unfold padded_dim; Z.div_mod_to_equations; lia).
  destruct (KTXUnpackETC_decode_tiles g malloc fresh1 srcETC srcFormat activeWidth
              activeHeight p (X / 4) (Y / 4) (X mod 4) (Y mod 4) Hdec ltac:(lia) ltac:(lia))
    as (Hwidth & Hheight & _ & Hbytes & Hcolor & Halpha); try assumption.
  { rewrite Hchannels. exact Hfit. }
  { destruct (unpack_switch_cases srcFormat)
      as [(_ & fmt0 & Hsw & _ & _ & Hfmt) | (_ & Hsw)];
      rewrite Hsw in Hswitch; [| discriminate Hswitch].
    injection Hswitch as <-. rewrite Htiles, Hrows.
    replace (tile_bytes fmt0) with tile_size; [exact Hsrc |].
    unfold tile_size, rgba, tile_bytes.
    destruct Hfmt as [(-> & _ & _ & ->) | (Hne & _ & _ & ->)].
    - now rewrite Z.eqb_refl.
    - apply Z.eqb_neq in Hne. now rewrite Hne. }
  rewrite Hchannels in Hcolor, Halpha. rewrite Htiles in Hcolor, Halpha.
  fold rgba in Hbytes. fold tile_size in Hbytes.
  unfold tile_source in Hcolor, Halpha. rewrite Hbytes in Hcolor, Halpha.
  fold tile in Hcolor, Halpha.
  assert (Hcolor_block : tile_color (up_format p) tile = color).
  { unfold tile_color, color.
    destruct (unpack_switch_cases srcFormat)
      as [(_ & fmt0 & Hsw & _ & _ & Hfmt) | (_ & Hsw)];
      rewrite Hsw in Hswitch; [| discriminate Hswitch].
    injection Hswitch as <-. unfold rgba.
    destruct Hfmt as [(-> & _ & _ & ->) | (Hne & _ & _ & ->)].
    - now rewrite Z.eqb_refl.
    - apply Z.eqb_neq in Hne. now rewrite Hne. }
  rewrite Hcolor_block in Hcolor.
  assert (Hrow : forall c, 0 <= c < channels ->
            buf_mem img (channels * (Y * activeWidth + X) + c)
            = buf_mem (up_image p)
                (texel_addr 0 (padded_dim activeWidth) (4 * (X / 4)) (4 * (Y / 4))
                   channels (X mod 4) (Y mod 4) c)).
  { intros c Hc.
    pose proof (crop_active_rows malloc fresh2 activeWidth activeHeight p img
                  Y (channels * X + c) Hcrop ltac:(lia) ltac:(lia) Hwidth Hheight Hcb)
      as Hcopy.
    rewrite Hchannels in Hcopy.
    specialize (Hcopy Hch Hfit HY ltac:(nia)).
    replace (channels * (Y * activeWidth + X) + c)
      with (Y * (activeWidth * channels) + (channels * X + c)) by lia.
    rewrite Hcopy. f_equal. unfold texel_addr.
    pose proof (Z.div_mod X 4 ltac:(lia)). pose proof (Z.div_mod Y 4 ltac:(lia)).
    replace (4 * (Y / 4) + Y mod 4) with Y by lia.
    replace (4 * (X / 4) + X mod 4) with X by lia. lia. }
  split.
  - intros c Hc. rewrite Hrow by lia. now apply Hcolor.
  - intros Hrgba. rewrite Hrow by (unfold channels; rewrite Hrgba; lia).
    apply Halpha. now apply Z.eqb_eq.
Qed.

(** Pixel [(5, 4)] of the 6 x 5 image comes from the fourth block. *)
Lemma KTXUnpackETC_pixels_witness :
  KTXUnpackETC alpha_globals_init Sample.any_malloc Sample.blank Sample.blank
    Sample.four_blocks GL_COMPRESSED_RGB8_ETC2 6 5 = inr Sample.unpacked_6x5
  /\ forall c, 0 <= c < 3 ->
       buf_mem (dstImage Sample.unpacked_6x5) (3 * (4 * 6 + 5) + c)
       = decoded_texel (readBigEndian4byteWord (drop 24 Sample.four_blocks))
           (readBigEndian4byteWord (drop 4 (drop 24 Sample.four_blocks))) 1 0 c.
Proof.
  assert (Hout : KTXUnpackETC alpha_globals_init Sample.any_malloc Sample.blank Sample.blank
                   Sample.four_blocks GL_COMPRESSED_RGB8_ETC2 6 5 = inr Sample.unpacked_6x5)
    by (vm_compute; reflexivity).
  split; [exact Hout |].
  exact (proj1 (KTXUnpackETC_pixels alpha_globals_init Sample.any_malloc Sample.blank
                  Sample.blank Sample.four_blocks GL_COMPRESSED_RGB8_ETC2 6 5
                  Sample.unpacked_6x5 5 4 Hout
                  ltac:(vm_compute; discriminate) ltac:(vm_compute; discriminate)
                  ltac:(lia) ltac:(lia))).
Defined.

(** ** Opaque punch-through blocks *)

Section OpaquePunchthrough.

(** With the opaque bit set both dispatchers take the same branch. *)
Lemma etc21bitalpha_route_opaque (block_part1 : Z) :
  truthy (GETBITSHIGH block_part1 1 33) = true ->
  etc21bitalpha_route block_part1 = etc2_route block_part1.
Proof. intros Hbit. unfold etc2_route. cbv zeta. now rewrite Hbit. Qed.

(** Stores of one value leave every other address alone. *)
Lemma fold_store_frame {T : Type} (addr : T -> Z) (v : Z) (l : list T) (m : mem) (a : Z) :
  (forall t, In t l -> addr t <> a) ->
  fold_left (fun m t => store m (addr t) v) l m a = m a.
Proof.
  revert m. induction l as [| x l IH]; intros m Hout; [reflexivity |].
  cbn [fold_left]. rewrite IH by (intros t Ht; apply Hout; now right).
  apply store_ne. intros ->. now apply (Hout x); [left |].
Qed.

Lemma fill_alpha_255_frame (alphaimg width startx starty channelsA : Z) (m : mem) (a : Z) :
  (forall dx dy, 0 <= dx < 4 -> 0 <= dy < 4 ->
     a <> alpha_addr alphaimg width startx starty channelsA dx dy) ->
  fill_alpha_255 alphaimg width startx starty channelsA m a = m a.
Proof.
  intros Hout. rewrite fill_alpha_255_as_pass.
  apply (fold_store_frame
           (fun t => alphaimg + channelsA * (startx + fst t + (starty + snd t) * width))).
  intros [x y] Hin Heq. cbn [fst snd] in Heq.
  destruct (texel_order_range 0 (x, y) Hin) as [Hx Hy]. cbn [fst snd] in Hx, Hy.
  apply (Hout x y Hx Hy). unfold alpha_addr. lia.
Qed.

(** With the opaque bit set the punch-through differential decoder stores
    the colors of the RGB decoder. *)
Lemma diffalpha_opaque_colors
    (block_part1 block_part2 img alpha width height startx starty channelsRGB : Z)
    (m m' : mem) (dx dy c : Z) :
  GETBITSHIGH block_part1 1 33 = 1 ->
  4 <= width -> 3 <= channelsRGB -> 0 < alpha_channels channelsRGB ->
  alpha_separate img (alpha_pointer channelsRGB img alpha) width startx starty channelsRGB
    (alpha_channels channelsRGB) ->
  0 <= dx < 4 -> 0 <= dy < 4 -> 0 <= c < 3 ->
  decompressBlockDifferentialWithAlphaC block_part1 block_part2 img alpha width height
    startx starty channelsRGB m (texel_addr img width startx starty channelsRGB dx dy c)
  = decompressBlockDiffFlipC block_part1 block_part2 img width height startx starty
      channelsRGB m' (texel_addr img width startx starty channelsRGB dx dy c).
Proof.
  intros Hbit Hw Hch HchA Hsep Hdx Hdy Hc.
  unfold decompressBlockDifferentialWithAlphaC, decompressBlockDiffFlipC. cbv zeta.
  rewrite Hbit. change (negb (truthy 1)) with false. cbv iota.
  rewrite diffalpha_loops_as_pass, diffflip_loops_as_pass.
  rewrite diffalpha_pass_color by assumption.
  rewrite diffflip_pass_lookup by assumption.
  reflexivity.
Qed.

End OpaquePunchthrough.

(** X24. A punch-through block whose opaque bit (bit 33) is set decodes to
    the colors of the plain RGB block with the same 64 bits:
    [decompressBlockETC21BitAlphaC] stores in the three color bytes of
    every texel what [decompressBlockETC2c] decodes for it, in each of
    the modes, and filling in the alpha bytes afterwards disturbs none
    of them. The alpha bytes are interleaved (four channels) or lie in a
    separate area that shares no byte with the block's colors. *)
Theorem opaque_punchthrough_decodes_like_RGB
    (block_part1 block_part2 img alpha width height startx starty channelsRGB : Z)
    (m : mem) (dx dy c : Z) :
  Spec.diffbit block_part1 = 1 ->
  4 <= width ->
  channelsRGB = 4
  \/ (channelsRGB = 3 /\ alpha_separate img alpha width startx starty 3 1) ->
  0 <= dx < 4 -> 0 <= dy < 4 -> 0 <= c < 3 ->
  exists m',
    decompressBlockETC21BitAlphaC block_part1 block_part2 img alpha width height
      startx starty channelsRGB m = Some m'
    /\ m' (texel_addr img width startx starty channelsRGB dx dy c)
       = decoded_texel block_part1 block_part2 dx dy c.
Proof.
  intros Hdiff Hw Hlayout Hdx Hdy Hc.
  destruct (punchthrough_layout img alpha width startx starty channelsRGB Hw Hlayout)
    as (Hsep & Hch & HchA).
  assert (Hbit : GETBITSHIGH block_part1 1 33 = 1) by now rewrite diffbit_spec.
  destruct (decompressBlockETC2c_decoded_texel block_part1 block_part2 img width height
              startx starty channelsRGB m dx dy c Hw Hch Hdx Hdy Hc)
    as (m1 & Hrgb & Hval).
  unfold decompressBlockETC21BitAlphaC. cbv zeta.
  rewrite Hbit. change (truthy 1) with true. cbv iota.
  rewrite etc21bitalpha_route_opaque by (rewrite Hbit; reflexivity).
  unfold decompressBlockETC2c in Hrgb.
  destruct (etc2_route block_part1).
  1, 2: injection Hrgb as <-; eexists; split; [reflexivity |];
    rewrite fill_alpha_255_frame
      by (intros dx' dy' Hdx' Hdy' Heq; symmetry in Heq; revert Heq;
          now apply Hsep);
    rewrite <- Hval; apply diffalpha_opaque_colors; try assumption;
    rewrite alpha_pointer_idem; assumption.
  all: rewrite Hrgb; eexists; split; [reflexivity |];
    rewrite fill_alpha_255_frame
      by (intros dx' dy' Hdx' Hdy' Heq; symmetry in Heq; revert Heq;
          now apply Hsep);
    exact Hval.
Qed.

Lemma opaque_punchthrough_decodes_like_RGB_witness :
  exists m',
    decompressBlockETC21BitAlphaC Inputs.planar_block_part1 Inputs.block_part2
      0 0 4 4 0 0 4 Sample.blank = Some m'
    /\ m' (texel_addr 0 4 0 0 4 3 2 1)
       = decoded_texel Inputs.planar_block_part1 Inputs.block_part2 3 2 1.
Proof.
  apply (opaque_punchthrough_decodes_like_RGB Inputs.planar_block_part1
           Inputs.block_part2 0 0 4 4 0 0 4 Sample.blank 3 2 1);
    [vm_compute; reflexivity | lia | left; reflexivity | lia ..].
Defined.

(** ** Header fields the reader never reads *)

Section UnreadFields.

Variables bytes bytes' : list byte.
Hypothesis agree : same_but_unread_fields bytes bytes'.

Lemma agree_length : length bytes = length bytes' \/
  ((length bytes <= 36)%nat /\ (length bytes' <= 36)%nat).
Proof.
  destruct agree as (_ & _ & Hrest).
  apply (f_equal length) in Hrest. rewrite !length_drop in Hrest. lia.
Qed.

Lemma agree_from (j n : nat) :
  (36 <= j)%nat -> take n (drop j bytes) = take n (drop j bytes').
Proof.
  intros Hj. destruct agree as (_ & _ & Hrest).
  replace j with (36 + (j - 36))%nat by lia.
  rewrite <- !drop_drop, Hrest. reflexivity.
Qed.

Lemma header_field (b : list byte) (j : nat) :
  (j + 4 <= 64)%nat -> take 4 (drop j (take 64 b)) = take 4 (drop j b).
Proof.
  intros Hj. rewrite !take_drop_commute, take_take.
  replace ((j + 4) `min` 64)%nat with (j + 4)%nat by lia. reflexivity.
Qed.

Lemma fread_with_bytes (size : Z) (pos : nat) :
  (36 <= pos)%nat ->
  fread size {| f_bytes := bytes'; f_pos := pos |}
  = match fread size {| f_bytes := bytes; f_pos := pos |} with
    | Some (bs, f) => Some (bs, {| f_bytes := bytes'; f_pos := f_pos f |})
    | None => None
    end.
Proof.
  intros Hpos. unfold fread. cbn [f_bytes f_pos].
  rewrite (agree_from pos (Z.to_nat size) Hpos).
  destruct (Z.ltb_spec 0 size) as [Hsize | Hsize]; [| reflexivity]. cbn [andb].
  destruct agree_length as [-> | [Hshort Hshort']]; [now destruct (_ <=? _)%nat |].
  destruct (Nat.leb_spec (pos + Z.to_nat size) (length bytes));
    destruct (Nat.leb_spec (pos + Z.to_nat size) (length bytes'));
    try reflexivity; lia.
Qed.

Lemma load_level_with_bytes (malloc : Z -> bool) (internal_format : TextureFormat)
    (base_level level : Z) (st : level_state) :
  f_bytes (ls_file st) = bytes -> (36 <= f_pos (ls_file st))%nat ->
  load_level malloc internal_format base_level level (with_bytes bytes' st)
  = match load_level malloc internal_format base_level level st with
    | inl e => inl e
    | inr s => inr (with_bytes bytes' s)
    end
  /\ forall s, load_level malloc internal_format base_level level st = inr s ->
       f_bytes (ls_file s) = bytes /\ (36 <= f_pos (ls_file s))%nat.
Proof.
  destruct st as [[b pos] x y a]. cbn [ls_file f_bytes f_pos]. intros -> Hpos.
  unfold load_level, with_bytes. cbn [ls_file ls_x ls_y ls_arrays f_pos f_bytes].
  rewrite fread_with_bytes by assumption.
  destruct (fread 4 {| f_bytes := bytes; f_pos := pos |}) as [[sb f1] |] eqn:H4;
    [| split; [reflexivity | discriminate]].
  apply fread_spec in H4 as (_ & _ & _ & _ & ->). cbn [f_bytes f_pos].
  set (size := le32 sb).
  unfold BA_PRECONDITION, static_cast_check_fit_int, static_cast_check_fit_long.
  destruct (size =? sizeRounded size);
    cbn [mbind result_bind mret result_ret throw]; [| split; [reflexivity | discriminate]].
  destruct ((INT_MIN <=? level) && (level <=? INT_MAX));
    cbn [mbind result_bind mret result_ret throw]; [| split; [reflexivity | discriminate]].
  destruct (base_level <=? level).
  - destruct (malloc size);
      cbn [mbind result_bind mret result_ret throw]; [| split; [reflexivity | discriminate]].
    rewrite fread_with_bytes by lia.
    destruct (fread size {| f_bytes := bytes; f_pos := (pos + Z.to_nat 4)%nat |})
      as [[payload f2] |] eqn:Hp;
      cbn [mbind result_bind mret result_ret throw]; [| split; [reflexivity | discriminate]].
    apply fread_spec in Hp as (_ & _ & _ & _ & ->). cbn [f_bytes f_pos ls_file ls_x ls_y ls_arrays].
    split; [reflexivity |]. intros s [= <-]. cbn [ls_file f_bytes f_pos]. split; [reflexivity | lia].
  - destruct ((- LONG_MAX - 1 <=? size) && (size <=? LONG_MAX));
      cbn [mbind result_bind mret result_ret throw]; [| split; [reflexivity | discriminate]].
    unfold fseek_cur. cbn [f_bytes f_pos].
    change (0 =? 0) with true. cbn [mbind result_bind mret result_ret throw ls_file ls_x ls_y ls_arrays f_bytes f_pos].
    split; [reflexivity |]. intros s [= <-]. cbn [ls_file f_bytes f_pos]. split; [reflexivity | lia].
Qed.

Lemma levels_with_bytes (malloc : Z -> bool) (internal_format : TextureFormat)
    (base_level : Z) (n : nat) (st : level_state) :
  f_bytes (ls_file st) = bytes -> (36 <= f_pos (ls_file st))%nat ->
  for_countM 0 n (load_level malloc internal_format base_level) (with_bytes bytes' st)
  = match for_countM 0 n (load_level malloc internal_format base_level) st with
    | inl e => inl e
    | inr s => inr (with_bytes bytes' s)
    end
  /\ forall s, for_countM 0 n (load_level malloc internal_format base_level) st = inr s ->
       f_bytes (ls_file s) = bytes /\ (36 <= f_pos (ls_file s))%nat.
Proof.
  intros Hbytes Hpos. induction n as [| n [IH Hfile]].
  - split; [reflexivity |]. intros s [= <-]. now split.
  - rewrite !for_countM_S, IH.
    destruct (for_countM 0 n (load_level malloc internal_format base_level) st)
      as [e | s1]; cbn [mbind result_bind]; [split; [reflexivity | discriminate] |].
    destruct (Hfile s1 eq_refl) as [Hb1 Hp1].
    exact (load_level_with_bytes malloc internal_format base_level (0 + Z.of_nat n) s1
             Hb1 Hp1).
Qed.

Lemma used_fields :
  (64 <= length bytes)%nat -> (64 <= length bytes')%nat ->
  let h := header_of_bytes (take 64 bytes) in
  let h' := header_of_bytes (take 64 bytes') in
  endianness h' = endianness h
  /\ glInternalFormat h' = glInternalFormat h
  /\ pixelWidth h' = pixelWidth h /\ pixelHeight h' = pixelHeight h
  /\ pixelDepth h' = pixelDepth h
  /\ numberOfArrayElements h' = numberOfArrayElements h
  /\ numberOfFaces h' = numberOfFaces h
  /\ numberOfMipmapLevels h' = numberOfMipmapLevels h
  /\ bytesOfKeyValueData h' = bytesOfKeyValueData h.
Proof.
  intros Hlen Hlen'. destruct agree as (H12 & H28 & _).
  unfold header_of_bytes.
  cbn [endianness glInternalFormat pixelWidth pixelHeight pixelDepth numberOfArrayElements
       numberOfFaces numberOfMipmapLevels bytesOfKeyValueData].
  cbn [Nat.add Nat.mul].
  rewrite !header_field by lia.
  rewrite H12, H28.
  rewrite !(agree_from _ 4) by lia.
  repeat split.
Qed.

Lemma LoadKTX_open_with_bytes (arrays : KTX_arrays) (texture_quality : TextureQuality)
    (min_quality : Z) :
  LoadKTX_open (Some bytes') arrays texture_quality min_quality
  = match LoadKTX_open (Some bytes) arrays texture_quality min_quality with
    | inl e => inl e
    | inr (h, internal_format, base_level, st) =>
        inr (header_of_bytes (take 64 bytes'), internal_format, base_level,
             with_bytes bytes' st)
    end.
Proof.
  unfold LoadKTX_open, fread. cbn [f_bytes f_pos andb].
  change (0 <? KTX_HEADER_SIZE) with true. change (Z.to_nat KTX_HEADER_SIZE) with 64%nat.
  cbn [andb Nat.add]. rewrite !drop_0.
  destruct (Nat.leb_spec 64 (length bytes)) as [Hlen | Hlen];
    destruct (Nat.leb_spec 64 (length bytes')) as [Hlen' | Hlen'];
    try reflexivity;
    try (destruct agree_length; lia).
  destruct (used_fields Hlen Hlen') as (E1 & E2 & E3 & E4 & E5 & E6 & E7 & E8 & E9).
  cbv zeta in E1, E2, E3, E4, E5, E6, E7, E8, E9.
  rewrite E1, E2, E3, E4, E5, E6, E7, E8, E9.
  set (h := header_of_bytes (take 64 bytes)).
  unfold BA_PRECONDITION, static_cast_check_fit_int.
  repeat match goal with
         | |- context [if ?c then _ else _] =>
             lazymatch c with
             | context [if _ then _ else _] => fail
             | _ => destruct c
             end;
             cbn [mbind result_bind mret result_ret throw]; try reflexivity
         end.
Qed.

End UnreadFields.

(** X25. [LoadKTX] never looks at the identifier of a KTX file, nor at the
    header fields [glType], [glTypeSize], [glFormat] and
    [glBaseInternalFormat]: two files that differ only in these bytes (0
    to 11, 16 to 27 and 32 to 35) are loaded alike. Either both loads
    fail, with the same error, or both return, with the same arrays, the
    same base level and the cursor at the same place. *)
Theorem LoadKTX_ignores_the_identifier
    (bytes bytes' : list byte) (malloc : Z -> bool) (arrays : KTX_arrays)
    (texture_quality : TextureQuality) (min_quality : Z) :
  same_but_unread_fields bytes bytes' ->
  match LoadKTX (Some bytes) malloc arrays texture_quality min_quality,
        LoadKTX (Some bytes') malloc arrays texture_quality min_quality with
  | inl e, inl e' => e = e'
  | inr out, inr out' =>
      ld_arrays out = ld_arrays out' /\ ld_base_level out = ld_base_level out'
      /\ f_pos (ld_file out) = f_pos (ld_file out')
  | _, _ => False
  end.
Proof.
  intros Hagree. unfold LoadKTX.
  rewrite (LoadKTX_open_with_bytes bytes bytes' Hagree).
  destruct (LoadKTX_open (Some bytes) arrays texture_quality min_quality)
    as [e | [[[h fmt] k] st0]] eqn:Hopen; cbn [mbind result_bind]; [reflexivity |].
  pose proof (LoadKTX_open_inv _ _ _ _ _ _ _ _ Hopen) as (Hh & Hst0 & _).
  pose proof (LoadKTX_open_checks _ _ _ _ _ _ _ _ Hopen) as (Hlen & _).
  assert (Hlen' : (64 <= length bytes')%nat)
    by (destruct (agree_length bytes bytes' Hagree); lia).
  destruct (used_fields bytes bytes' Hagree Hlen Hlen')
    as (_ & _ & _ & _ & _ & _ & _ & HN & _).
  cbv zeta in HN. rewrite HN, <- Hh.
  destruct (levels_with_bytes bytes bytes' Hagree malloc fmt k
              (Z.to_nat (numberOfMipmapLevels h)) st0) as [Hloop _].
  { subst st0. reflexivity. }
  { subst st0. cbn [ls_file f_pos]. lia. }
  rewrite Hloop.
  destruct (for_countM 0 (Z.to_nat (numberOfMipmapLevels h)) (load_level malloc fmt k) st0)
    as [e | st]; cbn [mbind result_bind mret result_ret]; [reflexivity |].
  cbn [ld_arrays ld_base_level ld_file with_bytes ls_file ls_arrays f_pos]. auto.
Qed.

(** [three_levels] with another identifier and other GL type fields. *)
Lemma LoadKTX_ignores_the_identifier_witness :
  match LoadKTX (Some Sample.three_levels) Sample.any_malloc Sample.no_arrays kLow 0,
        LoadKTX (Some Inputs.no_identifier) Sample.any_malloc Sample.no_arrays kLow 0 with
  | inl e, inl e' => e = e'
  | inr out, inr out' =>
      ld_arrays out = ld_arrays out' /\ ld_base_level out = ld_base_level out'
      /\ f_pos (ld_file out) = f_pos (ld_file out')
  | _, _ => False
  end.
Proof.
  apply (LoadKTX_ignores_the_identifier Sample.three_levels Inputs.no_identifier
           Sample.any_malloc Sample.no_arrays kLow 0).
  repeat split.
Defined.

(** ** What the punch-through decoder writes *)

Section PunchthroughFrame.

Variables img alpha width startx starty channelsRGB channelsA : Z.
Variable a : Z.
Hypothesis not_color :
  forall dx dy c, 0 <= dx < 4 -> 0 <= dy < 4 -> 0 <= c < 3 ->
    a <> texel_addr img width startx starty channelsRGB dx dy c.
Hypothesis not_alpha :
  forall dx dy, 0 <= dx < 4 -> 0 <= dy < 4 ->
    a <> alpha_addr alpha width startx starty channelsA dx dy.

(** A pass over texels of the block that writes their colors and alpha
    bytes leaves every other byte alone. *)
Lemma rgba_pass_frame (write : Z * Z -> mem -> mem) (l : list (Z * Z)) (m : mem) :
  (forall t m a,
     ~ owns_rgba img alpha width startx starty channelsRGB channelsA t a ->
     write t m a = m a) ->
  (forall t, In t l -> 0 <= fst t < 4 /\ 0 <= snd t < 4) ->
  fold_left (fun m t => write t m) l m a = m a.
Proof.
  intros Hframe Hl.
  apply (fold_write_frame (owns_rgba img alpha width startx starty channelsRGB channelsA)
           write Hframe).
  intros t Ht. destruct (Hl t Ht) as [Hx Hy].
  intros [[Ha | [Ha | Ha]] | Ha].
  - now apply (not_color (fst t) (snd t) 0).
  - now apply (not_color (fst t) (snd t) 1).
  - now apply (not_color (fst t) (snd t) 2).
  - now apply (not_alpha (fst t) (snd t)).
Qed.

Lemma thumb_paint_alpha_frame (paint_colors : list (list Z)) (block_part2 : Z) (m : mem) :
  thumb_paint_alpha paint_colors block_part2 img alpha width startx starty channelsRGB
    channelsA m a = m a.
Proof.
  rewrite thumb_paint_alpha_as_pass.
  apply (rgba_pass_frame
           (thumb_alpha_write paint_colors block_part2 img alpha width startx starty
              channelsRGB channelsA)).
  - apply thumb_alpha_write_frame.
  - apply texel_order_range.
Qed.

End PunchthroughFrame.

(** X26. [decompressBlockETC21BitAlphaC] returns for every block, and of
    the memory it is given it changes nothing but the three color bytes
    and the alpha byte of each of the block's sixteen texels: every byte
    that is neither holds what it held before the call. *)
Theorem decompressBlockETC21BitAlphaC_writes_only_its_block
    (block_part1 block_part2 img alphaimg width height startx starty channelsRGB : Z)
    (m : mem) :
  exists m',
    decompressBlockETC21BitAlphaC block_part1 block_part2 img alphaimg width height
      startx starty channelsRGB m = Some m'
    /\ forall a,
         (forall dx dy c, 0 <= dx < 4 -> 0 <= dy < 4 -> 0 <= c < 3 ->
            a <> texel_addr img width startx starty channelsRGB dx dy c) ->
         (forall dx dy, 0 <= dx < 4 -> 0 <= dy < 4 ->
            a <> alpha_addr (alpha_pointer channelsRGB img alphaimg) width startx starty
                   (alpha_channels channelsRGB) dx dy) ->
         m' a = m a.
Proof.
  set (alpha := alpha_pointer channelsRGB img alphaimg).
  set (channelsA := alpha_channels channelsRGB).
  assert (Hdiff : forall m a,
            (forall dx dy c, 0 <= dx < 4 -> 0 <= dy < 4 -> 0 <= c < 3 ->
               a <> texel_addr img width startx starty channelsRGB dx dy c) ->
            (forall dx dy, 0 <= dx < 4 -> 0 <= dy < 4 ->
               a <> alpha_addr alpha width startx starty channelsA dx dy) ->
            decompressBlockDifferentialWithAlphaC block_part1 block_part2 img alpha width
              height startx starty channelsRGB m a = m a).
  { intros m0 a Hc Ha. unfold decompressBlockDifferentialWithAlphaC. cbv zeta.
    rewrite diffalpha_loops_as_pass. unfold alpha. rewrite alpha_pointer_idem.
    apply (rgba_pass_frame img (alpha_pointer channelsRGB img alphaimg) width startx starty
             channelsRGB channelsA a Hc Ha).
    - apply diffalpha_write_frame.
    - apply texel_order_range. }
  unfold decompressBlockETC21BitAlphaC. cbv zeta. fold alpha channelsA.
  destruct (truthy (GETBITSHIGH block_part1 1 33)).
  - (* the opaque bit is set *)
    assert (Hdec : exists m1,
              match etc21bitalpha_route block_part1 with
              | ModeT =>
                  let '(b1, b2) := unstuff59bits block_part1 block_part2 in
                  decompressBlockTHUMB59Tc b1 b2 img width height startx starty
                    channelsRGB m
              | ModeH =>
                  let '(b1, b2) := unstuff58bits block_part1 block_part2 in
                  decompressBlockTHUMB58Hc b1 b2 img width height startx starty
                    channelsRGB m
              | ModePlanar =>
                  let '(b1, b2) := unstuff57bits block_part1 block_part2 in
                  Some (decompressBlockPlanar57c b1 b2 img width height startx starty
                          channelsRGB m)
              | _ =>
                  Some (decompressBlockDifferentialWithAlphaC block_part1 block_part2 img
                          alpha width height startx starty channelsRGB m)
              end = Some m1
              /\ forall a,
                   (forall dx dy c, 0 <= dx < 4 -> 0 <= dy < 4 -> 0 <= c < 3 ->
                      a <> texel_addr img width startx starty channelsRGB dx dy c) ->
                   (forall dx dy, 0 <= dx < 4 -> 0 <= dy < 4 ->
                      a <> alpha_addr alpha width startx starty channelsA dx dy) ->
                   m1 a = m a).
    { destruct (etc21bitalpha_route block_part1).
      1, 2: eexists; split; [reflexivity |]; intros a Hc Ha; now apply Hdiff.
      - destruct (unstuff59bits block_part1 block_part2) as [b1 b2].
        destruct (decompressBlockTHUMB59Tc_returns b1 b2 img width height startx starty
                    channelsRGB m) as (m1 & -> & Hframe).
        eexists. split; [reflexivity |]. intros a Hc _. now apply Hframe.
      - destruct (unstuff58bits block_part1 block_part2) as [b1 b2].
        destruct (decompressBlockTHUMB58Hc_returns b1 b2 img width height startx starty
                    channelsRGB m) as (m1 & -> & Hframe).
        eexists. split; [reflexivity |]. intros a Hc _. now apply Hframe.
      - destruct (unstuff57bits block_part1 block_part2) as [b1 b2].
        eexists. split; [reflexivity |]. intros a Hc _.
        now apply decompressBlockPlanar57c_frame. }
    destruct Hdec as (m1 & -> & Hframe).
    eexists. split; [reflexivity |]. intros a Hc Ha.
    rewrite fill_alpha_255_frame by exact Ha. now apply Hframe.
  - (* the opaque bit is clear *)
    destruct (etc21bitalpha_route block_part1).
    1, 2: eexists; split; [reflexivity |]; intros a Hc Ha; now apply Hdiff.
    + destruct (unstuff59bits block_part1 block_part2) as [b1 b2].
      unfold decompressBlockTHUMB59TAlphaC, calculatePaintColors59T.
      change (PATTERN_T =? PATTERN_T) with true. cbv iota zeta.
      eexists. split; [reflexivity |]. intros a Hc Ha.
      unfold alpha. rewrite alpha_pointer_idem.
      now apply thumb_paint_alpha_frame.
    + destruct (unstuff58bits block_part1 block_part2) as [b1 b2].
      unfold decompressBlockTHUMB58HAlphaC, calculatePaintColors58H.
      change (PATTERN_H =? PATTERN_H) with true. cbv iota zeta.
      eexists. split; [reflexivity |]. intros a Hc Ha.
      unfold alpha. rewrite alpha_pointer_idem.
      now apply thumb_paint_alpha_frame.
    + destruct (unstuff57bits block_part1 block_part2) as [b1 b2].
      eexists. split; [reflexivity |]. intros a Hc Ha.
      rewrite fill_alpha_255_frame by exact Ha.
      now apply decompressBlockPlanar57c_frame.
Qed.

(** ** Punch-through differential blocks *)

(** A block the punch-through dispatcher hands to the differential decoder
    has its second base color in range. *)
Lemma differential_route_in_range (block_part1 : Z) :
  etc21bitalpha_route block_part1 = Differential ->
  forall c, 0 <= c < 3 -> 0 <= Spec.second_base block_part1 c <= 31.
Proof.
  unfold etc21bitalpha_route. cbv zeta.
  rewrite second_base_color_spec, get1_0, get1_1, get1_2.
  destruct (Z.ltb_spec (Spec.second_base block_part1 0) 0); [discriminate |].
  destruct (Z.gtb_spec (Spec.second_base block_part1 0) 31); [discriminate |].
  destruct (Z.ltb_spec (Spec.second_base block_part1 1) 0); [discriminate |].
  destruct (Z.gtb_spec (Spec.second_base block_part1 1) 31); [discriminate |].
  destruct (Z.ltb_spec (Spec.second_base block_part1 2) 0); [discriminate |].
  destruct (Z.gtb_spec (Spec.second_base block_part1 2) 31); [discriminate |].
  intros _ c Hc.
  assert (Hcases : c = 0 \/ c = 1 \/ c = 2) by lia.
  destruct Hcases as [-> | [-> | ->]]; lia.
Qed.

(** X27. A punch-through block with the opaque bit clear that is routed to
    the differential decoder always has 5-bit base colors, the second
    one the first plus the 3-bit differences. A texel whose index (after
    the unscramble table) is 1 is transparent and black; a texel with
    index 2 gets its sub-block's base color unmodified; the other texels
    get the base color plus the entry of [compressParams], clamped to
    0..255. The alpha bytes are interleaved (four channels) or lie in a
    separate area that shares no byte with the block's colors. *)
Theorem punchthrough_differential_colors
    (block_part1 block_part2 img alpha width height startx starty channelsRGB : Z)
    (m : mem) (dx dy c : Z) :
  Spec.diffbit block_part1 = 0 ->
  etc21bitalpha_route block_part1 = Differential ->
  4 <= width ->
  channelsRGB = 4
  \/ (channelsRGB = 3 /\ alpha_separate img alpha width startx starty 3 1) ->
  0 <= dx < 4 -> 0 <= dy < 4 -> 0 <= c < 3 ->
  let sub := Spec.subblock block_part1 dx dy in
  let index := unscrambled_index block_part2 dx dy in
  let base := if sub =? 0 then Spec.base5 block_part1 c
              else Spec.second_base block_part1 c in
  exists m',
    decompressBlockETC21BitAlphaC block_part1 block_part2 img alpha width height
      startx starty channelsRGB m = Some m'
    /\ m' (texel_addr img width startx starty channelsRGB dx dy c)
       = (if index =? 1 then 0
          else CLAMP 0 (Spec.expand5 base
                        + (if index =? 2 then 0
                           else get2 compressParams (Spec.selector block_part1 sub) index))
                 255).
Proof.
  intros Hdiff Hroute Hw Hlayout Hdx Hdy Hc sub index base.
  destruct (punchthrough_layout img alpha width startx starty channelsRGB Hw Hlayout)
    as (Hsep & Hch & HchA).
  pose proof (differential_route_in_range block_part1 Hroute) as Hrange.
  destruct (field_base5 block_part1) as (Hb0 & Hb1 & Hb2).
  destruct (field_delta3 block_part1) as (Hdl0 & Hdl1 & Hdl2).
  destruct (field_selector block_part1) as (Hsel1 & Hsel2).
  unfold decompressBlockETC21BitAlphaC. cbv zeta.
  rewrite diffbit_spec, Hdiff. change (truthy 0) with false. cbv iota.
  rewrite Hroute. eexists. split; [reflexivity |].
  unfold decompressBlockDifferentialWithAlphaC. cbv zeta.
  rewrite alpha_pointer_idem.
  rewrite diffbit_spec, flipbit_spec, Hdiff, Hsel1, Hsel2.
  rewrite diffalpha_loops_as_pass.
  rewrite diffalpha_pass_color by assumption. cbv zeta.
  rewrite raw_index_spec by assumption.
  fold (unscrambled_index block_part2 dx dy). fold index.
  change (0 =? 0) with true. rewrite !andb_true_l.
  destruct (index =? 1) eqn:H1; [reflexivity |]. rewrite orb_false_l.
  rewrite u8_CLAMP. cbn [map].
  rewrite Hb0, Hb1, Hb2, Hdl0, Hdl1, Hdl2.
  rewrite !get1_0, !get1_1, !get1_2.
  unfold base, sub, Spec.subblock, in_first_group.
  assert (Hc3 : c = 0 \/ c = 1 \/ c = 2) by lia.
  destruct (Spec.flipbit block_part1 =? 0);
    [destruct (dx <? 2) | destruct (dy <? 2)];
    destruct Hc3 as [-> | [-> | ->]]; cbn [Z.eqb];
    rewrite ?get1_0, ?get1_1, ?get1_2;
    rewrite ?differential_first_code, ?differential_second_code
      by (apply Hrange; lia);
    destruct (index =? 2); reflexivity.
Qed.

Lemma punchthrough_differential_colors_witness :
  exists m',
    decompressBlockETC21BitAlphaC Inputs.differential_punchthrough_part1
      Inputs.block_part2 0 0 4 4 0 0 4 Sample.blank = Some m'
    /\ m' (texel_addr 0 4 0 0 4 0 2 1)
       = (if unscrambled_index Inputs.block_part2 0 2 =? 1 then 0
          else CLAMP 0
                 (Spec.expand5
                    (if Spec.subblock Inputs.differential_punchthrough_part1 0 2 =? 0
                     then Spec.base5 Inputs.differential_punchthrough_part1 1
                     else Spec.second_base Inputs.differential_punchthrough_part1 1)
                  + (if unscrambled_index Inputs.block_part2 0 2 =? 2 then 0
                     else get2 compressParams
                            (Spec.selector Inputs.differential_punchthrough_part1
                               (Spec.subblock Inputs.differential_punchthrough_part1 0 2))
                            (unscrambled_index Inputs.block_part2 0 2)))
                 255).
Proof.
  apply (punchthrough_differential_colors Inputs.differential_punchthrough_part1
           Inputs.block_part2 0 0 4 4 0 0 4 Sample.blank 0 2 1);
    [vm_compute; reflexivity | vm_compute; reflexivity | lia | left; reflexivity
    | lia ..].
Defined.

(** ** What the alpha decoder writes *)

(** X28. [decompressBlockAlphaC] changes sixteen bytes and no other: a
    byte that is not the alpha byte of one of the block's texels holds
    after the call what it held before, so the color bytes between the
    alpha bytes of an interleaved image are safe whatever the block
    holds. *)
Theorem decompressBlockAlphaC_writes_only_alpha
    (g : alpha_globals) (data : list byte) (img width height ix iy channels : Z)
    (m : mem) (a : Z) :
  (forall dx dy, 0 <= dx < 4 -> 0 <= dy < 4 ->
     a <> alpha_texel_addr img width ix iy channels dx dy) ->
  decompressBlockAlphaC g data img width height ix iy channels m a = m a.
Proof.
  intros Hout. rewrite decompressBlockAlphaC_any_as_pass.
  now apply alpha_pass_frame.
Qed.

(** The red byte of the first pixel of an RGBA image. *)
Lemma decompressBlockAlphaC_writes_only_alpha_witness :
  decompressBlockAlphaC (setupAlphaTable alpha_globals_init) Inputs.alpha_block
    3 4 4 0 0 4 (fun _ => 77) 0 = 77.
Proof.
  apply (decompressBlockAlphaC_writes_only_alpha (setupAlphaTable alpha_globals_init)
           Inputs.alpha_block 3 4 4 0 0 4 (fun _ => 77) 0).
  intros dx dy Hdx Hdy. unfold alpha_texel_addr. lia.
Defined.
